(* ===== verification/_CoqProject ===== *)
-Q . S2P
Prelude.v
Buffer.v
IO.v
Addr.v
Interfaces.v
RingBuffer.v
DList.v
RBTree.v
RBSpec.v
RBHeap.v
RBInsert.v
RBErase.v
RBMap.v
MappedDNS.v
DNSHandle.v
DNSProps.v
Auth.v
Socks5.v
Client.v
ClientProps.v
Udp.v
UdpProps.v
Server.v
ServerProps.v
Config.v
ConfigProps.v
ConfigDoc.v
SessionTcp.v
SessionTcpProps.v
Utils.v
UtilsProps.v
SessionUdp.v
SessionUdpProps.v
Session.v
SessionTcpRun.v
SessionUdpRun.v
SessionProps.v
SessionUdpRunProps.v
SessionUdpQueue.v
SessionTcpRunProps.v
Sync.v
SyncProps.v
Jni.v
JniProps.v
Tunnel.v
TunnelProps.v
Ledger.v
Device.v
DeviceProps.v
Packets.v
PacketsProps.v
Lifecycle.v
LifecycleProps.v
Windows.v
WindowsProps.v
Main.v
MainProps.v
Net.v
Interop.v
Accord.v
Datagrams.v
