(* ===== verification/Prelude.v ===== *)
(** * hev-socks5-tunnel: verification library

    The C program of this repository is [src/hev-socks5-tunnel]: it takes the
    IP packets of a TUN device, terminates their TCP and UDP flows in lwIP,
    and relays each flow through a SOCKS5 server.  The files below model its
    own code, [src/hev-socks5-tunnel/src] (named [src/...] from here on).

    ** How the program works

    A thread calls [hev_socks5_tunnel_init], [_run] and [_fini].  While it
    runs, the tasks of one cooperative scheduler share it: one moves packets
    between the device and lwIP, one drives lwIP's timers, one waits for the
    stop event, and every TCP or UDP flow has a session with its own task.
    lwIP calls back on an accepted connection, a datagram, acknowledged bytes;
    a session connects to the SOCKS5 server, does the handshake as a client
    and relays.  The newest sessions push out the least recently used ones.
    DNS queries may be answered with fake addresses that a later flow maps
    back to the name.  Any thread may ask the tunnel to stop; in the Android
    library the requests come from Java threads.

    ** Files and sources

    Foundations
    - [Prelude]: machine integers, the state monad [M] whose [None] is
      undefined behaviour, the closure of a step relation, lists.
    - [Buffer]: memory addressed by offset; [IO]: programs that call the
      system, as trees of calls, with weakest preconditions ([wp]) over every
      answer of the system, and the ledger of descriptors ([fds_after]);
      [Ledger]: the ledger of all handles ([held_after], [balanced]).
    - [Interfaces]: the classes [LinkedList] and [SearchTree].  The clients of
      the pointer structures are proved against them.

    Data structures
    - [RingBuffer]: [src/misc/hev-ring-buffer.{c,h}].
    - [DList]: [src/misc/hev-list.{c,h}], an instance of [LinkedList].
    - [RBTree] (program), [RBSpec] (zippers and rebalancing), [RBHeap]
      (symbolic execution), [RBInsert], [RBErase], [RBMap] (what clients see,
      an instance of [SearchTree]): [src/core/src/hev-rbtree.{c,h}].

    SOCKS5
    - [Addr]: the addresses of [src/core/src/hev-socks5-misc.c];
      [Socks5]: [hev-socks5.c], the settings and the socket function.
    - [Auth]: [hev-socks5-user.c] and [hev-socks5-authenticator.c].
    - [Client], [ClientProps]: [hev-socks5-client.c], [-tcp.c], [-udp.c].
    - [Server], [ServerProps]: [hev-socks5-server.c].
    - [Udp], [UdpProps]: [hev-socks5-udp.c].
    - [Net]: two programs on the ends of a byte stream, in every interleaving;
      [Interop]: a client and a server of this program on one connection;
      [Accord]: the same without the assumption that the handshakes succeed;
      [Datagrams]: a UDP session and the relay of a server.

    The tunnel
    - [MappedDNS], [DNSHandle], [DNSProps]: [src/hev-mapped-dns.c].
    - [Config], [ConfigProps], [ConfigDoc]: [src/hev-config.c].
    - [Utils], [UtilsProps]: the conversions of [src/misc/hev-utils.c].
    - [SessionTcp], [SessionTcpProps]: [src/hev-socks5-session-tcp.c], its
      parts between two yields and the relation that interleaves them with
      lwIP; [SessionTcpRun], [SessionTcpRunProps]: the program of its task,
      which the relation covers.
    - [SessionUdp], [SessionUdpProps]: [src/hev-socks5-session-udp.c], its
      frames and the callback of lwIP; [SessionUdpRun], [SessionUdpRunProps],
      [SessionUdpQueue]: the program of its task, its descriptors and its queue.
    - [Session], [SessionProps]: [src/hev-socks5-session.c] and the task of a
      session.
    - [Sync], [SyncProps]: starting and stopping, and [Jni], [JniProps]: the
      native interface, [src/hev-jni.c] and [src/hev-main.c].
    - [Tunnel], [TunnelProps]: the session set and the callbacks;
      [Packets], [PacketsProps]: the task that gives packets to lwIP, the
      output of lwIP and the counters, over the class [HevTunnelIO] of
      [src/hev-tunnel.h]; [Lifecycle], [LifecycleProps]: initialisation and
      finalisation over the class [HevTunnel]: all of
      [src/hev-socks5-tunnel.c], with [src/misc/hev-exec.c] and
      [src/misc/hev-logger.c].
    - [Device], [DeviceProps]: the devices [src/hev-tunnel-{linux,freebsd,
      netbsd,macos}.c], instances of [HevTunnel] and of its laws;
      [Windows], [WindowsProps]: [src/hev-tunnel-windows.c] and
      [src/misc/hev-wintun.c].
    - [Main], [MainProps]: [src/hev-main.c], [hev-socks5-logger.c], and the
      daemon and the limit of descriptors in [src/misc/hev-utils.c].

    A definition has the name of the function it models; a part of a function
    that is a definition of its own, so that a loop or a critical section can
    be reasoned about, is named after what it does.

    ** Styles of model

    Code on pointers ([RBTree], [DList], [MappedDNS], [Auth], [Tunnel]) is
    explicit state passing in [M] over stores keyed by address; its theorems
    show that no load goes wrong.  Code that talks to the system ([Addr],
    [Client], [Server], [Udp], [Session], [SessionTcpRun], [SessionUdpRun],
    [Device], [Lifecycle], [Main]) is a program of [IO];
    theorems quantify over every answer the documentation of a call allows
    ([IO.valid]); a program that goes wrong has theorems that say behind which
    calls ([IO.wpu]).  Code that other tasks or threads interrupt ([SessionTcp],
    [Sync], [Jni], the histories of [Tunnel]) is a step
    relation, one step per atomic operation or per stretch between two
    yields, and its theorems are invariants of every reachable state.  The
    virtual methods of the object system are type classes: [Socks5Object],
    [Socks5Client], [Socks5UDP], [Socks5Session]; the systems the program is
    built for are instances of [HevTunnel] and [HevTunnelIO], whose laws are
    all that the tunnel is proved against.

    ** What the theorems show

    - Structures: the ring buffer is a bounded queue with bytes in flight (C1,
      C2); list and tree operations keep their invariants and do what they
      say (C3 to C6); the DNS table refines a bounded least-recently-used map,
      an address it gave out stays valid while fewer other names than it holds
      are used, and its handler is memory safe and invertible (C8 to C11); the
      authenticator refines a finite map (C12).
    - Protocol: addresses round trip (C14, C29), but for names of 256 bytes
      and more; client and server handshakes are safe against any peer, that
      of a UDP client while there is memory, and succeed only after a proper
      conversation (C16, C18); every socket is closed exactly once (C7, C17,
      C19); the datagrams that lwIP gives to a session are those the server
      sends to their destinations, when they fit its buffers, and receiving is
      memory safe and decodes exactly the complete frames (C20, C21; the
      framing alone is [UdpProps.udp_tcp_round_trip]); a client and a server of this program come to
      the same verdict, success or refusal, in every interleaving, each of
      which ends (C15), and a flow that lwIP accepts reaches the destination
      it asks for (C30).
    - Configuration: strings stay terminated, loading does not depend on what
      was loaded before, sizes are bounded from above, settings round trip (C23
      to C26).
    - Sessions: both directions of a TCP session are first in, first out with
      the window accounted for (C27), which holds of every run of its task's
      program, whatever lwIP calls while it waits (C22); the program of a UDP
      session relays what it accepts once and in order through a bounded
      queue, and goes wrong only on a message that the server cut short or a
      long name that a callback reads past (C31); the session set refines a
      list in the order of last activity (C37) and the stop event reaches
      every session (C38).
    - Starting and stopping: no stop call writes to a closed descriptor and a
      request that is left ends the run in every fair execution (C33, C34);
      the native calls refine this protocol (C35); a run of the program gives
      every handle back, but a pcb that [tcp_listen] refused, on every device
      with the laws (C39), and the first one on Windows (C32).
    - Device: for which prefixes the masks are right, wrong and undefined
      (C13); packets pass unchanged, once and in order (C28).
    - What goes wrong: C36 and C40 exhibit reachable states in which the code
      does not do what it means to, and so do [UdpProps.udp_truncated_frame],
      [UtilsProps.mapped_dns_foreign_address], [SessionTcpProps.tcp_write_gap],
      [SessionUdpQueue.udp_short_datagram], [WindowsProps.device_faults],
      [SessionUdpQueue.udp_fragments_lost] (only the first pbuf of a datagram
      is sent), [UtilsProps.long_name_overread], [ClientProps.udp_request_null],
      [DeviceProps.ipv6_prefix_overrun] and [ConfigProps.small_sizes_load].
      The destructor of a UDP session relies on a mutex for which it never
      waits ([SessionUdpQueue.udp_destructor_race]): no task of the program
      yields while it holds it.

    ** Fuel

    Loops over the tree take the number of nodes of the store plus one
    ([rb_fuel], [tr_fuel]) and are shown never to run out, by the height of a
    red-black tree; the loops that destroy or walk a list take its length plus
    one; [skip_name] takes the length of the packet.  A relay that may run
    forever ([Udp.splice_loop], [SessionUdpRun.session_udp_loop],
    [SessionTcpRun.tcp_splice_loop]), the task that
    reads packets ([Packets.lwip_io_loop]) and the read of Windows return [None]
    when its fuel is spent, which means that it is still running; its theorems
    hold for every fuel and say what holds then.

    ** Not modelled

    - lwIP, the YAML parser, hev-task-system and wintun (vendored under
      [third-part]): their calls are events, callbacks or the arguments of
      the definitions; of lwIP only [pbuf_free_header] is translated, because
      the queue of a TCP session lives through it.
    - The text of log lines and messages; the process that [hev_exec_run]
      forks; the paths of the log and pid files.
    - [lwip_timer_task_entry], which calls the timers of lwIP only; the Java
      side of [hev-jni.c] ([JNI_OnLoad], [native_get_stats]).
    - The sessions run beside each other only through [Tunnel]'s handlers and
      the callbacks at the waits of [SessionTcpRun] and [SessionUdpRun]: there
      is no single system of all tasks.
    - The app in Kotlin, the Go libraries and the desktop program of the
      repository, which are not C.

    ** Left open

    The session set and the session tasks in one system; the handshakes of
    the UDP commands between two programs. *)

From stdpp Require Export base tactics numbers list gmap.
#[global] Open Scope Z_scope.

(** ** Machine integers

    A w-bit C integer is a [Z]; the functions below are the conversions C
    inserts at assignments and after unsigned arithmetic. *)

Definition u8 (z : Z) : Z := z mod 2 ^ 8.
Definition u16 (z : Z) : Z := z mod 2 ^ 16.
Definition u32 (z : Z) : Z := z mod 2 ^ 32.
Definition u64 (z : Z) : Z := z mod 2 ^ 64.
Definition i32 (z : Z) : Z := (z + 2 ^ 31) mod 2 ^ 32 - 2 ^ 31.

(** [htons]/[ntohs] and [htonl]/[ntohl] on the little-endian targets the
    program is built for. *)
Definition htons (v : Z) : Z := u16 (Z.lor (Z.shiftl v 8) (Z.shiftr (u16 v) 8)).
Definition ntohs : Z → Z := htons.

(** A [uint16_t] in memory, least significant byte first. *)
Definition le16 (v : Z) : list Z := [u8 v; u8 (Z.shiftr v 8)].
Definition un_le16 (b0 b1 : Z) : Z := Z.lor b0 (Z.shiftl b1 8).

Definition byte_ok (b : Z) : Prop := 0 ≤ b < 256.
Abbreviation bytes_ok := (Forall byte_ok).

#[export] Instance byte_ok_dec b : Decision (byte_ok b).
Proof. unfold byte_ok; apply _. Defined.

(** ** Stateful code that may go wrong

    A computation over a store [S].  [None] is a run the C standard leaves
    undefined (a dereference of a pointer that is not valid) or, for a loop
    with fuel, a run that is cut short; the theorems about such code show that
    it does not happen. *)

Definition M (S A : Type) : Type := S → option (A * S).

#[export] Instance M_ret S : MRet (M S) := λ A a s, Some (a, s).
#[export] Instance M_bind S : MBind (M S) := λ A B k m s,
  match m s with Some (a, s') => k a s' | None => None end.

Definition mget {S} : M S S := λ s, Some (s, s).
Definition mput {S} (s : S) : M S unit := λ _, Some (tt, s).
Definition mgets {S A} (f : S → A) : M S A := λ s, Some (f s, s).
Definition mlift {S A} (o : option A) : M S A := λ s,
  match o with Some a => Some (a, s) | None => None end.
Definition mfail {S A} : M S A := λ _, None.
Definition mexec {S A} (m : M S A) (s : S) : option S := snd <$> m s.

(** Pointers are addresses; [NULL] is 0. *)
Abbreviation ptr := Z (only parsing).
Definition NULL : Z := 0.

(** ** Reflexive transitive closure of a step relation *)

Inductive star {A} (R : A → A → Prop) : A → A → Prop :=
| star_refl a : star R a a
| star_step a b c : R a b → star R b c → star R a c.

(** ** Rocq automation of the development *)

Create HintDb hev discriminated.

(** Lemmas on the conversions. *)

Lemma u8_small z : 0 ≤ z < 256 → u8 z = z.
Proof. intros; unfold u8; apply Z.mod_small; lia. Qed.

Lemma u16_small z : 0 ≤ z < 65536 → u16 z = z.
Proof. intros; unfold u16; apply Z.mod_small; lia. Qed.

Lemma u32_small z : 0 ≤ z < 2 ^ 32 → u32 z = z.
Proof. intros; unfold u32; apply Z.mod_small; lia. Qed.

Lemma u64_small z : 0 ≤ z < 2 ^ 64 → u64 z = z.
Proof. intros; unfold u64; apply Z.mod_small; lia. Qed.

Lemma i32_small z : -2147483648 ≤ z < 2147483648 → i32 z = z.
Proof. intros; unfold i32; rewrite Z.mod_small; lia. Qed.

Lemma u8_range z : byte_ok (u8 z).
Proof. unfold u8, byte_ok; pose proof (Z.mod_pos_bound z (2 ^ 8)); lia. Qed.

Lemma star_trans {A} (R : A → A → Prop) a b c :
  star R a b → star R b c → star R a c.
Proof. induction 1; eauto using star. Qed.

Lemma star_snoc {A} (R : A → A → Prop) a b c : star R a b → R b c → star R a c.
Proof. intros Hs Hr. eapply star_trans; [exact Hs |]. eapply star_step; [exact Hr | constructor]. Qed.

(** An invariant of the steps is an invariant of every run. *)
Lemma star_invariant {A} (R : A → A → Prop) (I : A → Prop) a b :
  (∀ x y, I x → R x y → I y) → star R a b → I a → I b.
Proof. intros HI; induction 1; eauto. Qed.

#[export] Hint Resolve u8_range : hev.

(** ** Symbolic execution of [M] *)

(** Expose the store passing of a straight-line block. *)
Ltac mrun :=
  unfold mget, mput, mgets, mlift, mfail, fmap, option_fmap, option_map;
  unfold mbind, mret, M_bind, M_ret, option_bind, option_ret;
  cbv beta iota zeta.

Section MLemmas.
Context {S A B : Type}.

Lemma mbind_some (m : M S A) (k : A → M S B) s a s' :
  m s = Some (a, s') → (m ≫= k) s = k a s'.
Proof. intros H. unfold mbind, M_bind. by rewrite H. Qed.

Lemma mbind_inv (m : M S A) (k : A → M S B) s r :
  (m ≫= k) s = Some r → ∃ a s', m s = Some (a, s') ∧ k a s' = Some r.
Proof. unfold mbind, M_bind. destruct (m s) as [[a s']|]; naive_solver. Qed.

Lemma mbind_assoc {C} (m : M S A) (f : A → M S B) (g : B → M S C) s :
  ((m ≫= f) ≫= g) s = (m ≫= λ a, f a ≫= g) s.
Proof. unfold mbind, M_bind. by destruct (m s) as [[a s']|]. Qed.
End MLemmas.

(** Modular reduction of an argument one period away at most, as a ring or a
    circular index computes it. *)
Lemma zmod_cases x m :
  0 < m → -m ≤ x < 2 * m →
  (x < 0 ∧ x mod m = x + m) ∨ (0 ≤ x < m ∧ x mod m = x) ∨ (m ≤ x ∧ x mod m = x - m).
Proof.
  intros Hm Hx.
  destruct (decide (x < 0)); [left | right; destruct (decide (x < m)); [left | right]];
    split; try lia.
  - symmetry; apply (Z.mod_unique _ _ (-1)); lia.
  - apply Z.mod_small; lia.
  - symmetry; apply (Z.mod_unique _ _ 1); lia.
Qed.

(** Split on the value of every [x mod m] with [m] a variable, when [x] is
    within one period. *)
Ltac zmod_split :=
  repeat match goal with
  | |- context [?x mod ?m] =>
      let H := fresh in
      destruct (zmod_cases x m) as [[? H]|[[? H]|[? H]]]; [lia | lia | rewrite H in *..];
      clear H
  end.

(** ** Sequences without duplicates *)

Lemma nodup_split_unique {A} (p : A) xs ys xs' ys' :
  NoDup (xs ++ p :: ys) → xs ++ p :: ys = xs' ++ p :: ys' → xs = xs' ∧ ys = ys'.
Proof.
  revert xs'; induction xs as [|x xs IH]; intros [|x' xs']; cbn; intros Hnd Heq; simplify_eq/=.
  - done.
  - apply NoDup_cons in Hnd. set_solver.
  - apply NoDup_cons in Hnd. set_solver.
  - apply NoDup_cons in Hnd as [_ Hnd]. destruct (IH xs' Hnd) as [-> ->]; done.
Qed.

Lemma nodup_replace {A} (p q : A) xs ys :
  NoDup (xs ++ p :: ys) → q ∉ xs ++ p :: ys → NoDup (xs ++ q :: ys).
Proof.
  rewrite !NoDup_app, !NoDup_cons. intros (H1 & H2 & H3 & H4) Hq.
  split_and!; [done | | set_solver | done]. intros x Hx. specialize (H2 x Hx). set_solver.
Qed.

(** ** Bytes and words *)

(** A disjunction of a word's high part and a low byte is a sum. *)
Lemma lor_shift8 hi lo : 0 ≤ hi → byte_ok lo → Z.lor (Z.shiftl hi 8) lo = 256 * hi + lo.
Proof.
  unfold byte_ok. intros Hh Hl. assert (Z.land (Z.shiftl hi 8) lo = 0) as Hd.
  { apply Z.bits_inj'. intros n Hn. rewrite Z.land_spec, Z.shiftl_spec, Z.bits_0 by lia.
    destruct (decide (n < 8)); [rewrite Z.testbit_neg_r by lia; done |].
    rewrite (Z.bits_above_log2 lo n); [by rewrite andb_false_r | lia |].
    destruct (decide (lo = 0)) as [-> |]; [cbn; lia |].
    apply Z.log2_lt_pow2; [lia |]. apply Z.lt_le_trans with (2 ^ 8); [lia |].
    apply Z.pow_le_mono_r; lia. }
  rewrite <-Z.lxor_lor, <-Z.add_nocarry_lxor, Z.shiftl_mul_pow2 by done. lia.
Qed.

Lemma un_le16_sum b0 b1 : byte_ok b0 → byte_ok b1 → un_le16 b0 b1 = b0 + 256 * b1.
Proof. intros H0 [H1 _]. unfold un_le16. rewrite Z.lor_comm, lor_shift8 by done. lia. Qed.

Lemma htons_sum hi lo : byte_ok hi → byte_ok lo → htons (256 * hi + lo) = 256 * lo + hi.
Proof.
  unfold htons, byte_ok. intros Hh Hl. rewrite (u16_small (256 * hi + lo)) by lia.
  rewrite (Z.shiftr_div_pow2 _ 8) by lia. replace ((256 * hi + lo) / 2 ^ 8) with hi by (apply (Z.div_unique _ _ _ lo); lia).
  rewrite lor_shift8 by (unfold byte_ok; lia). unfold u16.
  symmetry. apply (Z.mod_unique _ _ hi); lia.
Qed.

Lemma u8_lo hi lo : byte_ok lo → u8 (256 * hi + lo) = lo.
Proof. unfold u8, byte_ok. intros H. symmetry. apply (Z.mod_unique _ _ hi); lia. Qed.

Lemma u8_hi hi lo : byte_ok hi → byte_ok lo → u8 (Z.shiftr (256 * hi + lo) 8) = hi.
Proof.
  unfold byte_ok. intros Hh Hl. rewrite Z.shiftr_div_pow2 by lia.
  rewrite <-(Z.div_unique (256 * hi + lo) (2 ^ 8) hi lo) by lia. apply u8_small. lia.
Qed.

Lemma word_split v : 0 ≤ v < 65536 → v = 256 * (v / 256) + v mod 256 ∧ byte_ok (v / 256) ∧ byte_ok (v mod 256).
Proof.
  intros H. pose proof (Z.div_mod v 256 ltac:(lia)). pose proof (Z.mod_pos_bound v 256 ltac:(lia)).
  assert (0 ≤ v / 256 < 256) by (split; [apply Z.div_pos; lia | apply Z.div_lt_upper_bound; lia]).
  unfold byte_ok. lia.
Qed.

Lemma htons_range v : 0 ≤ htons v < 65536.
Proof. unfold htons, u16. apply (Z.mod_pos_bound _ (2 ^ 16)). lia. Qed.

Lemma htons_involutive v : 0 ≤ v < 65536 → ntohs (htons v) = v.
Proof.
  intros H. destruct (word_split v H) as (Hv & Hh & Hl). unfold ntohs.
  rewrite Hv, htons_sum, htons_sum by done. lia.
Qed.

Lemma lor_bound a b n : 0 ≤ n → 0 ≤ a < 2 ^ n → 0 ≤ b < 2 ^ n → 0 ≤ Z.lor a b < 2 ^ n.
Proof.
  intros Hn Ha Hb. assert (0 ≤ Z.lor a b) as H0 by (apply Z.lor_nonneg; lia). split; [done |].
  destruct (decide (Z.lor a b = 0)) as [-> |]; [lia |]. apply Z.log2_lt_pow2; [lia |].
  rewrite Z.log2_lor by lia.
  assert (∀ x, 0 ≤ x < 2 ^ n → Z.log2 x < n ∨ x = 0) as Hlog.
  { intros x Hx. destruct (decide (x = 0)); [by right | left; apply Z.log2_lt_pow2; lia]. }
  destruct (Hlog a Ha) as [? | ->], (Hlog b Hb) as [? | ->]; try lia;
    change (Z.log2 0) with 0; rewrite ?Z.lor_0_l, ?Z.lor_0_r in *;
    repeat match goal with |- context [Z.log2 ?x] =>
      lazymatch goal with _ : 0 ≤ Z.log2 x |- _ => fail | _ => pose proof (Z.log2_nonneg x) end end; lia.
Qed.

Lemma land_bound a b n : 0 ≤ a → 0 ≤ b < 2 ^ n → 0 ≤ n → 0 ≤ Z.land a b < 2 ^ n.
Proof.
  intros Ha Hb Hn. assert (0 ≤ Z.land a b) as H0 by (apply Z.land_nonneg; lia). split; [done |].
  assert (Z.land a b ≤ b); [|lia].
  assert (b = Z.lor (Z.land a b) (Z.ldiff b a)) as Hb'.
  { apply Z.bits_inj'. intros i Hi. rewrite Z.lor_spec, Z.land_spec, Z.ldiff_spec.
    by destruct (Z.testbit a i), (Z.testbit b i). }
  assert (Z.land (Z.land a b) (Z.ldiff b a) = 0) as Hd.
  { apply Z.bits_inj'. intros i Hi. rewrite !Z.land_spec, Z.ldiff_spec, Z.bits_0.
    by destruct (Z.testbit a i), (Z.testbit b i). }
  rewrite <-Z.lxor_lor, <-Z.add_nocarry_lxor in Hb' by done.
  assert (0 ≤ Z.ldiff b a) by (apply Z.ldiff_nonneg; lia). lia.
Qed.

(** ** C strings *)

(** [strcmp] on the bytes before the terminator; only its sign is used. *)
Fixpoint strcmp (a b : list Z) : Z :=
  match a, b with
  | [], [] => 0
  | [], _ :: _ => -1
  | _ :: _, [] => 1
  | x :: a, y :: b => if decide (x < y) then -1 else if decide (y < x) then 1 else strcmp a b
  end.

Lemma strcmp_eq a b : strcmp a b = 0 → a = b.
Proof.
  revert b; induction a as [|x a IH]; intros [|y b]; cbn; try done.
  repeat case_decide; try done. intros Hc%IH. f_equal; [lia | done].
Qed.

Lemma strcmp_refl a : strcmp a a = 0.
Proof. induction a as [|x a IH]; cbn; [done |]. by rewrite !decide_False by lia. Qed.

Lemma strcmp_anti a b : strcmp a b > 0 ↔ strcmp b a < 0.
Proof.
  revert b; induction a as [|x a IH]; intros [|y b]; cbn; try lia.
  repeat case_decide; try lia. apply IH.
Qed.

Lemma strcmp_trans a b c : strcmp a b > 0 → strcmp b c > 0 → strcmp a c > 0.
Proof.
  revert b c; induction a as [|x a IH]; intros [|y b] [|z c]; cbn; try lia.
  repeat case_decide; try lia. apply IH.
Qed.
