(* ===== verification/Buffer.v ===== *)
(** * Byte buffers

    Memory the program addresses by offset: a list of bytes, in which an
    access outside the list is undefined ([None]). *)

From S2P Require Import Prelude.

Definition mem_get (m : list Z) (off : Z) : option Z :=
  if decide (0 ≤ off) then m !! Z.to_nat off else None.

Definition mem_set (m : list Z) (off v : Z) : option (list Z) :=
  if decide (0 ≤ off < Z.of_nat (length m)) then Some (<[Z.to_nat off := v]> m) else None.

(** The C string at the start of a buffer: the bytes before the terminator,
    which must be there. *)
Fixpoint cstr (m : list Z) : option (list Z) :=
  match m with
  | [] => None
  | b :: m => if decide (b = 0) then Some [] else cons b <$> cstr m
  end.

(** [memcpy] out of and into a buffer. *)
Definition mem_read (m : list Z) (off len : Z) : option (list Z) :=
  if decide (0 ≤ off ∧ 0 ≤ len ∧ off + len ≤ Z.of_nat (length m))
  then Some (take (Z.to_nat len) (drop (Z.to_nat off) m)) else None.

Definition mem_write (m : list Z) (off : Z) (bs : list Z) : option (list Z) :=
  if decide (0 ≤ off ∧ off + Z.of_nat (length bs) ≤ Z.of_nat (length m))
  then Some (take (Z.to_nat off) m ++ bs ++ drop (Z.to_nat off + length bs) m) else None.

(** A [struct pbuf] of lwIP: the bytes of its [payload], [len] of them, and
    those of the pbufs behind it in its chain. *)
Record pbuf := mkPbuf { payload : list Z; p_next : list (list Z) }.

Definition p_len (p : pbuf) : Z := Z.of_nat (length (payload p)).

(** [ntohl] on the little-endian targets, and the four bytes [inet_pton]
    stores, as an [int]. *)
Definition ntohl (v : Z) : Z :=
  let b i := u8 (Z.shiftr v (8 * i)) in
  Z.lor (Z.shiftl (b 0) 24) (Z.lor (Z.shiftl (b 1) 16) (Z.lor (Z.shiftl (b 2) 8) (b 3))).

Definition le32 (bs : list Z) : Z := foldr (λ b v, b + 256 * v) 0 bs.

(** ** Lemmas *)

Lemma mem_get_app a m j : 0 ≤ j → mem_get (a ++ m) (Z.of_nat (length a) + j) = mem_get m j.
Proof.
  intros Hj. unfold mem_get. rewrite !decide_True by lia.
  rewrite lookup_app_r by lia. f_equal. lia.
Qed.

Lemma mem_set_app a m j v :
  0 ≤ j → mem_set (a ++ m) (Z.of_nat (length a) + j) v = app a <$> mem_set m j v.
Proof.
  intros Hj. unfold mem_set. rewrite length_app. case_decide as H1; case_decide as H2; try lia; [|done].
  cbn. f_equal. rewrite insert_app_r_alt by lia. do 2 f_equal. lia.
Qed.

Lemma mem_get_in m off : 0 ≤ off < Z.of_nat (length m) → ∃ b, mem_get m off = Some b ∧ b ∈ m.
Proof.
  intros H. unfold mem_get. rewrite decide_True by lia.
  destruct (lookup_lt_is_Some_2 m (Z.to_nat off)) as [b Hb]; [lia |].
  exists b. split; [done | by eapply list_elem_of_lookup_2].
Qed.

Lemma mem_set_in m off v :
  0 ≤ off < Z.of_nat (length m) → mem_set m off v = Some (<[Z.to_nat off := v]> m).
Proof. intros H. unfold mem_set. by rewrite decide_True. Qed.

(** Writes behind a prefix of known length. *)
Lemma mem_set_at pre x post v off :
  off = Z.of_nat (length pre) → mem_set (pre ++ x :: post) off v = Some (pre ++ v :: post).
Proof.
  intros ->. rewrite <-(Z.add_0_r (Z.of_nat _)), mem_set_app by lia.
  rewrite mem_set_in by (cbn; lia). done.
Qed.

Lemma cstr_some m i : m !! i = Some 0 → is_Some (cstr m).
Proof.
  revert i; induction m as [|b m IH]; intros [|i] Hi; cbn in *; simplify_eq.
  - rewrite decide_True by done. eauto.
  - case_decide; [eauto |]. destruct (IH i Hi) as [x ->]. cbn. eauto.
Qed.

(** The bytes of a C string. *)
Abbreviation c_string := (Forall (λ b, 0 < b < 256)).

Lemma cstr_bytes m s : bytes_ok m → cstr m = Some s → c_string s.
Proof.
  revert s; induction m as [|b m IH]; cbn; intros s H E; [done |]. inversion H as [|? ? Hb Hm]; subst.
  unfold byte_ok in Hb. destruct (decide (b = 0)); [by injection E as <- |].
  destruct (cstr m) as [s'|]; [|done]. injection E as <-. constructor; [lia | by apply IH].
Qed.

Lemma cstr_app xs post : Forall (λ b, 0 < b < 256) xs → cstr (xs ++ 0 :: post) = Some xs.
Proof.
  induction 1 as [|b xs Hb _ IH]; cbn; [by rewrite decide_True |].
  rewrite decide_False by lia. by rewrite IH.
Qed.

Lemma mem_read_at pre bs post off len :
  off = Z.of_nat (length pre) → len = Z.of_nat (length bs) →
  mem_read (pre ++ bs ++ post) off len = Some bs.
Proof.
  intros -> ->. unfold mem_read. rewrite decide_True by (rewrite !length_app; lia).
  by rewrite !Nat2Z.id, drop_app_length, take_app_length.
Qed.

Lemma mem_write_at pre old bs post off :
  off = Z.of_nat (length pre) → length old = length bs →
  mem_write (pre ++ old ++ post) off bs = Some (pre ++ bs ++ post).
Proof.
  intros -> Hl. unfold mem_write. rewrite decide_True by (rewrite !length_app; lia).
  rewrite Nat2Z.id, take_app_length, <-drop_drop, drop_app_length, <-Hl, drop_app_length. done.
Qed.

Lemma mem_set_0 x post v : mem_set (x :: post) 0 v = Some (v :: post).
Proof. by apply (mem_set_at []). Qed.

Lemma mem_set_1 x y post v : mem_set (x :: y :: post) 1 v = Some (x :: v :: post).
Proof. by apply (mem_set_at [x]). Qed.

Lemma mem_write_2 x y old bs post :
  length old = length bs → mem_write (x :: y :: old ++ post) 2 bs = Some (x :: y :: bs ++ post).
Proof. by apply (mem_write_at [x; y]). Qed.

Lemma mem_write_length m off bs m' : mem_write m off bs = Some m' → length m' = length m.
Proof.
  unfold mem_write. case_decide as H; [|done]. intros [= <-].
  rewrite !length_app, length_take, length_drop. lia.
Qed.

Lemma mem_read_all m : mem_read m 0 (Z.of_nat (length m)) = Some m.
Proof. unfold mem_read. rewrite decide_True by lia. by rewrite Nat2Z.id, drop_0, firstn_all. Qed.

Lemma mem_read_prefix (l : list Z) n : 0 ≤ n ≤ Z.of_nat (length l) → mem_read l 0 n = Some (take (Z.to_nat n) l).
Proof. intros H. unfold mem_read. by rewrite decide_True by lia. Qed.

Lemma u8_le n : u8 (Z.of_nat n) ≤ Z.of_nat n.
Proof. unfold u8. apply Z.mod_le; lia. Qed.

Lemma mem_write_front m bs :
  (length bs ≤ length m)%nat → mem_write m 0 bs = Some (bs ++ drop (length bs) m).
Proof. intros H. unfold mem_write. by rewrite decide_True by lia. Qed.

Lemma mem_write_bytes (m bs m' : list Z) off : bytes_ok m → bytes_ok bs → mem_write m off bs = Some m' → bytes_ok m'.
Proof.
  intros Hm Hb. unfold mem_write. case_decide; [|done]. intros [= <-].
  apply Forall_app. split; [by apply Forall_take |]. apply Forall_app. split; [done | by apply Forall_drop].
Qed.

Lemma mem_write_in (m bs : list Z) : (length bs ≤ length m)%nat →
  ∃ m', mem_write m 0 bs = Some m' ∧ length m' = length m.
Proof.
  intros H. destruct (mem_write m 0 bs) as [m'|] eqn:E.
  - exists m'. split; [done |]. by eapply mem_write_length.
  - unfold mem_write in E. rewrite decide_True in E by lia. done.
Qed.

Lemma mem_set_take m off v :
  mem_set m off v =
    if decide (0 ≤ off < Z.of_nat (length m))
    then Some (take (Z.to_nat off) m ++ v :: drop (Datatypes.S (Z.to_nat off)) m) else None.
Proof.
  unfold mem_set. case_decide as H; [|done]. f_equal. apply insert_take_drop. lia.
Qed.

(** Evaluate accesses at constant offsets of a block whose head is explicit. *)
Ltac nat_eval :=
  repeat match goal with
  | |- context [Z.to_nat ?z] =>
      let n := eval vm_compute in (Z.to_nat z) in
      lazymatch n with context [Z.to_nat] => fail | _ => change (Z.to_nat z) with n end
  end.

Ltac mem_eval :=
  repeat (rewrite ?mem_set_take; unfold mem_get, mem_read, mem_write;
          rewrite ?decide_True by (cbn; rewrite ?length_app; cbn; lia); nat_eval;
          cbn [mbind option_bind take drop app length lookup list_lookup fmap option_fmap option_map Nat.add]).

(** Network order to the [int] the configuration keeps. *)
Lemma ntohl_le32 a b c d : bytes_ok [a; b; c; d] →
  ntohl (i32 (le32 [a; b; c; d])) = ((a * 256 + b) * 256 + c) * 256 + d.
Proof.
  rewrite !Forall_cons. unfold byte_ok. intros (Ha & Hb & Hc & Hd & _).
  assert (∃ k, i32 (le32 [a; b; c; d]) = a + 256 * b + 65536 * c + 16777216 * (d + 256 * k)) as [k ->].
  { exists (- ((le32 [a; b; c; d] + 2 ^ 31) / 2 ^ 32)). unfold i32, le32. cbn [foldr].
    rewrite Z.mod_eq by lia. lia. }
  unfold ntohl, u8. rewrite !Z.shiftr_div_pow2 by lia.
  change (2 ^ (8 * 0)) with 1. change (2 ^ (8 * 1)) with 256. change (2 ^ (8 * 2)) with 65536.
  change (2 ^ (8 * 3)) with 16777216. change (2 ^ 8) with 256.
  rewrite Z.div_1_r.
  replace ((a + 256 * b + 65536 * c + 16777216 * (d + 256 * k)) mod 256) with a
    by (apply (Z.mod_unique _ _ (b + 256 * c + 65536 * (d + 256 * k))); lia).
  replace ((a + 256 * b + 65536 * c + 16777216 * (d + 256 * k)) / 256) with (b + 256 * (c + 256 * (d + 256 * k)))
    by (apply (Z.div_unique _ _ _ a); lia).
  replace ((a + 256 * b + 65536 * c + 16777216 * (d + 256 * k)) / 65536) with (c + 256 * (d + 256 * k))
    by (apply (Z.div_unique _ _ _ (a + 256 * b)); lia).
  replace ((a + 256 * b + 65536 * c + 16777216 * (d + 256 * k)) / 16777216) with (d + 256 * k)
    by (apply (Z.div_unique _ _ _ (a + 256 * b + 65536 * c)); lia).
  assert (∀ x y : Z, 0 ≤ x < 256 → (x + 256 * y) mod 256 = x) as Hm
    by (intros x y Hx; symmetry; apply (Z.mod_unique _ _ y); lia). rewrite !Hm by lia.
  assert (Z.shiftl a 24 = Z.shiftl (256 * (256 * a)) 8) as -> by (rewrite !Z.shiftl_mul_pow2 by lia; lia).
  assert (Z.shiftl b 16 = Z.shiftl (256 * b) 8) as -> by (rewrite !Z.shiftl_mul_pow2 by lia; lia).
  rewrite !Z.lor_assoc, <-!Z.shiftl_lor.
  assert (256 * (256 * a) = Z.shiftl (256 * a) 8) as -> by (rewrite !Z.shiftl_mul_pow2 by lia; lia).
  assert (256 * b = Z.shiftl b 8) as -> by (rewrite !Z.shiftl_mul_pow2 by lia; lia).
  rewrite <-Z.shiftl_lor.
  assert (256 * a = Z.shiftl a 8) as -> by (rewrite !Z.shiftl_mul_pow2 by lia; lia).
  rewrite (lor_shift8 a b) by (unfold byte_ok; lia).
  rewrite (lor_shift8 (256 * a + b) c) by (unfold byte_ok; lia).
  rewrite lor_shift8 by (unfold byte_ok; lia). lia.
Qed.

Lemma u32_i32 x : 0 ≤ x < 2 ^ 32 → u32 (i32 x) = x.
Proof.
  intros Hx. unfold u32, i32. destruct (decide (x < 2 ^ 31)).
  - rewrite (Z.mod_small (x + 2 ^ 31)) by lia. rewrite Z.mod_small; lia.
  - replace ((x + 2 ^ 31) mod 2 ^ 32) with (x - 2 ^ 31) by (apply (Z.mod_unique _ _ 1); lia).
    symmetry. apply (Z.mod_unique _ _ (-1)); lia.
Qed.
