(* ===== verification/IO.v ===== *)
(** * Programs that call the operating system

    The handshakes, the UDP relay and the tunnel call the socket functions of
    [hev-task-system] and the operating system.  A program is a tree of such
    calls; what a call returns is decided by the environment.  [hev-task-io]'s
    receive with [MSG_WAITALL] collects bytes until the buffer is full, the
    peer closes, an error or a timeout; the model has one event for it, whose
    response is the return value and the bytes stored. *)

From S2P Require Import Prelude.

Record sockaddr_in6 := mkSockaddr { sin6_family : Z; sin6_port : Z; sin6_addr : list Z }.

(** [AF_UNSPEC], [AF_INET], [AF_INET6] and the socket types of the target. *)
Definition AF_UNSPEC : Z := 0.
Definition AF_INET : Z := 2.
Definition AF_INET6 : Z := 10.
Definition SOCK_STREAM : Z := 1.
Definition SOCK_DGRAM : Z := 2.

(** [HevTaskYieldType] *)
Inductive yield_type := HEV_TASK_YIELD | HEV_TASK_WAITIO.

(** What the tunnel takes from the operating system, lwIP and the task system
    and has to give back. *)
Inductive resource :=
| R_fd | R_netif | R_tcp | R_udp | R_task | R_dns | R_sys | R_file
| R_library | R_adapter | R_session | R_packet | R_pbuf | R_heap.

#[export] Instance resource_dec : EqDecision resource.
Proof. solve_decision. Defined.

(** The requests of [ioctl]. *)
Inductive request :=
| FIONBIO | TUNSETIFF | TUNGIFNAME | CTLIOCGINFO
| SIOCSIFMTU | SIOCGIFFLAGS | SIOCSIFFLAGS | SIOCGIFINDEX | SIOCSIFNAME | SIOCIFDESTROY
| SIOCSIFADDR | SIOCSIFNETMASK | SIOCAIFADDR | SIOCAIFADDR_IN6.

(** The calls of Windows and of wintun that take nothing. *)
Inductive wincall :=
| GetProcAddresses (library : Z)
| WideLength (name : list Z)
| AdapterIndex (adapter : Z)
| GetIfEntry (index : Z)
| SetIfEntry (index mtu : Z)
| CreateUnicastIpAddressEntry (adapter family : Z) (addr : list Z) (prefix : Z)
| SendPacket (session packet : Z) (bytes : list Z)
| GetLastError.

(** Calls to the outside.  An [Ioctl] has the fields that are set in the
    structure of its argument, in their order. *)
Inductive ev :=
| Recv (fd len : Z)
| Send (fd : Z) (data : list Z)
| Socket (family type : Z)
| SetSockOpt (fd level name val : Z)
| AddFd (fd : Z)
| ModFd (fd : Z)
| DelFd (fd : Z)
| Connect (fd : Z) (sa : sockaddr_in6)
| Bind (fd : Z) (sa : sockaddr_in6)
| GetSockName (fd : Z)
| GetAddrInfo (name : list Z) (family : Z)
| Close (fd : Z)
| Malloc (size : Z)
| Free
| TaskYield (ty : yield_type)
| TaskSleep (timeout : Z)
| SendMMsg (fd : Z) (msgs : list (option sockaddr_in6 * list Z))
| RecvMMsg (fd : Z) (lens : list Z)
| Splice (fd_a fd_b : Z)
| PbufRef (len : Z)
| UdpSendFrom (payload : list Z) (ip : list Z) (port : Z)
| Errno
| Acquire (k : resource)
| Release (k : resource) (h : Z)
| SocketPair
| TcpListen (h : Z)
| Open (path : list Z)
| Ioctl (fd : Z) (req : request) (arg : list Z)
| ConnectControl (fd unit : Z)
| GetSockOpt (fd level name : Z)
| IfNameToIndex (name : list Z)
| Fork (argv : list (list Z))
| WaitPid (pid : Z)
| Read (fd len : Z)
| WriteV (fd : Z) (iov : list (list Z))
| Windows (c : wincall)
| ReadRun
| MutexLock
| MutexUnlock
| NetifInput (pbuf : Z) (bytes : list Z)
| Shutdown (fd : Z)
| TcpRecved (len : Z)
| TcpWrite (data : list Z)
| TcpOutput
| TcpShutdown
| TcpAbort
| PbufFree
| UdpRemove
| Rlimit (new : option (Z * Z))
| Daemon
| WriteFile (h : Z)
| TaskRun (h : Z)
| SystemRun.

(** What a call returns: its value, and the data it stores through its
    pointers: bytes received, an address, a port or family, or datagrams with
    the address each came from.  [Errno] reads [errno]; the descriptors of a
    [SocketPair] are [aux] and the value, the hard limit of [Rlimit] is [aux]. *)
Record resp := mkResp {
  ret : Z;
  data : list Z;
  aux : Z;
  msgs : list (list Z * sockaddr_in6);
}.

Definition EAGAIN : Z := 11.

Inductive io (A : Type) : Type :=
| Ret (a : A)
| Ub
| Vis (e : ev) (k : resp → io A).
Arguments Ret {A}.
Arguments Ub {A}.
Arguments Vis {A}.

Fixpoint io_bind {A B} (m : io A) (f : A → io B) : io B :=
  match m with
  | Ret a => f a
  | Ub => Ub
  | Vis e k => Vis e (λ x, io_bind (k x) f)
  end.

(** Programs over a state [S]. *)
Definition P (S A : Type) : Type := S → io (A * S).

#[export] Instance P_ret S : MRet (P S) := λ A a s, Ret (a, s).
#[export] Instance P_bind S : MBind (P S) := λ A B k m s,
  io_bind (m s) (λ '(a, s'), k a s').

Definition call {S} (e : ev) : P S resp := λ s, Vis e (λ x, Ret (x, s)).
Definition ub {S A} : P S A := λ _, Ub.
Definition pgets {S A} (f : S → A) : P S A := λ s, Ret (f s, s).
Definition pmod {S} (f : S → S) : P S unit := λ s, Ret (tt, f s).
Definition plift {S A} (o : option A) : P S A := λ s,
  match o with Some a => Ret (a, s) | None => Ub end.

(** ** Runs *)

(** What the documentation of the calls allows: a receive of [len] bytes
    stores at most [len] and returns their number, or a value that is not
    positive and stores none; a write takes no more than it is given; an
    address is 4 or 16 bytes. *)
Definition valid (e : ev) (r : resp) : Prop :=
  bytes_ok (data r) ∧
  match e with
  | Recv _ len | Read _ len =>
      (0 < ret r ≤ len ∧ Z.of_nat (length (data r)) = ret r) ∨ (ret r ≤ 0 ∧ data r = [])
  | GetAddrInfo _ _ =>
      (aux r = AF_INET → length (data r) = 4%nat) ∧ (aux r = AF_INET6 → length (data r) = 16%nat)
  | WriteV _ iov => ret r ≤ Z.of_nat (length (concat iov))
  | SendMMsg _ ms => ret r ≤ Z.of_nat (length ms)
  | SocketPair => 0 ≤ ret r → 0 ≤ aux r
  | GetSockName _ => length (data r) = 16%nat ∧ 0 ≤ aux r < 65536
  | RecvMMsg _ lens =>
      ret r ≤ Z.of_nat (length lens) ∧ length (msgs r) = Z.to_nat (ret r) ∧
      Forall2 (λ m len, Z.of_nat (length m.1) ≤ len ∧ bytes_ok m.1) (msgs r) (take (length (msgs r)) lens) ∧
      Forall (λ m, length (sin6_addr m.2) = 16%nat ∧ bytes_ok (sin6_addr m.2)) (msgs r)
  | _ => True
  end.

(** [runs m tr a]: with the responses of [tr], [m] returns [a]. *)
Inductive runs {A} : io A → list (ev * resp) → A → Prop :=
| runs_ret a : runs (Ret a) [] a
| runs_vis e k x tr a : valid e x → runs (k x) tr a → runs (Vis e k) ((e, x) :: tr) a.

(** No run goes wrong. *)
Inductive safe {A} : io A → Prop :=
| safe_ret a : safe (Ret a)
| safe_vis e k : (∀ x, valid e x → safe (k x)) → safe (Vis e k).

Lemma runs_bind {A B} (m : io A) (f : A → io B) tr b :
  runs (io_bind m f) tr b ↔ ∃ a t1 t2, tr = t1 ++ t2 ∧ runs m t1 a ∧ runs (f a) t2 b.
Proof.
  split.
  - revert tr; induction m as [a | | e k IH]; intros tr H; cbn in H.
    + exists a, [], tr. split_and!; [done | constructor | done].
    + inversion H.
    + inversion H as [|? ? x tr' ? Hv Hr]; subst.
      destruct (IH x _ Hr) as (a & t1 & t2 & -> & H1 & H2).
      exists a, ((e, x) :: t1), t2. split_and!; [done | by constructor | done].
  - intros (a & t1 & t2 & -> & H1 & H2). induction H1; cbn; [done |]. constructor; auto.
Qed.

Lemma safe_bind {A B} (m : io A) (f : A → io B) :
  safe m → (∀ a tr, runs m tr a → safe (f a)) → safe (io_bind m f).
Proof.
  induction 1 as [a | e k Hs IH]; intros Hf; cbn; [eapply Hf; constructor |].
  constructor. intros x Hx. apply IH; [done |]. intros a tr Hr. eapply Hf. by constructor.
Qed.

Lemma runs_pbind {S A B} (m : P S A) (f : A → P S B) s tr r :
  runs ((m ≫= f) s) tr r ↔
  ∃ a s' t1 t2, tr = t1 ++ t2 ∧ runs (m s) t1 (a, s') ∧ runs (f a s') t2 r.
Proof.
  unfold mbind, P_bind. rewrite runs_bind. split.
  - intros ([a s'] & t1 & t2 & H). by exists a, s', t1, t2.
  - intros (a & s' & t1 & t2 & H). by exists (a, s'), t1, t2.
Qed.

Lemma safe_pbind {S A B} (m : P S A) (f : A → P S B) s :
  safe (m s) → (∀ a s' tr, runs (m s) tr (a, s') → safe (f a s')) → safe ((m ≫= f) s).
Proof. intros Hm Hf. apply safe_bind; [done |]. intros [a s'] tr Hr. eauto. Qed.

Lemma runs_call {S} e (s : S) tr a s' :
  runs (call e s) tr (a, s') ↔ s' = s ∧ tr = [(e, a)] ∧ valid e a.
Proof.
  unfold call. split.
  - intros H. inversion H as [|? ? x tr' ? Hv Hr]; subst. inversion Hr; subst. done.
  - intros (-> & -> & Hv). constructor; [done | constructor].
Qed.

Lemma safe_call {S} e (s : S) : safe (call e s).
Proof. constructor. intros. constructor. Qed.

Lemma runs_ret_inv {A} (a b : A) tr : runs (Ret a) tr b → b = a ∧ tr = [].
Proof. inversion 1; subst. done. Qed.

(** The bytes a run sent on a descriptor, and those it received. *)
Definition sent (fd : Z) (tr : list (ev * resp)) : list Z :=
  concat ((λ o, match o.1 with Send fd' bs => if decide (fd' = fd) then bs else [] | _ => [] end) <$> tr).

Definition rcvd (fd : Z) (tr : list (ev * resp)) : list Z :=
  concat ((λ o, match o.1 with Recv fd' _ => if decide (fd' = fd) then data o.2 else [] | _ => [] end) <$> tr).

Lemma sent_app fd t1 t2 : sent fd (t1 ++ t2) = sent fd t1 ++ sent fd t2.
Proof. unfold sent. by rewrite fmap_app, concat_app. Qed.

Lemma rcvd_app fd t1 t2 : rcvd fd (t1 ++ t2) = rcvd fd t1 ++ rcvd fd t2.
Proof. unfold rcvd. by rewrite fmap_app, concat_app. Qed.

Lemma sent_send fd bs x tr : sent fd ((Send fd bs, x) :: tr) = bs ++ sent fd tr.
Proof. unfold sent. cbn. by rewrite decide_True. Qed.

Lemma rcvd_recv fd n x tr : rcvd fd ((Recv fd n, x) :: tr) = data x ++ rcvd fd tr.
Proof. unfold rcvd. cbn. by rewrite decide_True. Qed.

(** ** Steps of a program *)

Section Steps.
Context {S A B : Type}.

Lemma plift_bind (o : option A) (f : A → P S B) s a : o = Some a → (plift o ≫= f) s = f a s.
Proof. intros ->. done. Qed.

Lemma pret_bind (a : A) (f : A → P S B) s : (mret a ≫= f) s = f a s.
Proof. done. Qed.

Lemma pgets_bind (g : S → A) (f : A → P S B) s : (pgets g ≫= f) s = f (g s) s.
Proof. done. Qed.

Lemma pmod_bind (g : S → S) (f : unit → P S B) s : (pmod g ≫= f) s = f tt (g s).
Proof. done. Qed.

Lemma call_bind e (f : resp → P S B) s : (call e ≫= f) s = Vis e (λ x, f x s).
Proof. done. Qed.

Lemma pbind_ret (m : P S A) (f : A → P S B) s a s' : m s = Ret (a, s') → (m ≫= f) s = f a s'.
Proof. intros E. unfold mbind, P_bind. by rewrite E. Qed.
End Steps.

(** ** Weakest preconditions

    [wp ub m Q]: every run of [m] ends in a result and a trace satisfying
    [Q], and [ub] holds if some run goes wrong: with [ub := False] it states
    safety and the postcondition, with [ub := True] the postcondition of the
    runs that return. *)

Fixpoint wp {A} (ub : Prop) (m : io A) (Q : A → list (ev * resp) → Prop) : Prop :=
  match m with
  | Ret a => Q a []
  | Ub => ub
  | Vis e k => ∀ x, valid e x → wp ub (k x) (λ a tr, Q a ((e, x) :: tr))
  end.

Lemma wp_mono {A} ub (m : io A) (Q Q' : A → list (ev * resp) → Prop) :
  wp ub m Q → (∀ a tr, Q a tr → Q' a tr) → wp ub m Q'.
Proof.
  revert Q Q'; induction m as [a | | e k IH]; cbn; intros Q Q' H HQ; [auto.. |].
  intros x Hx. eapply IH; [by apply H |]. intros a tr. apply HQ.
Qed.

Lemma wp_bind {A B} ub (m : io A) (f : A → io B) (Q : B → list (ev * resp) → Prop) :
  wp ub m (λ a t1, wp ub (f a) (λ b t2, Q b (t1 ++ t2))) → wp ub (io_bind m f) Q.
Proof.
  revert Q; induction m as [a | | e k IH]; cbn; intros Q H; [done.. |].
  intros x Hx. apply IH. by apply H.
Qed.

(** Compose the specification of a part with the rest of the program. *)
Lemma wp_seq {S A B} ub (m : P S A) (f : A → P S B) s
    (R : A → S → list (ev * resp) → Prop) (Q : B * S → list (ev * resp) → Prop) :
  wp ub (m s) (λ r tr, R r.1 r.2 tr) →
  (∀ a s' t1, R a s' t1 → wp ub (f a s') (λ r t2, Q r (t1 ++ t2))) →
  wp ub ((m ≫= f) s) Q.
Proof.
  intros Hm Hf. apply wp_bind. eapply wp_mono; [exact Hm |]. intros [a s'] t1 HR. by apply Hf.
Qed.

(** The same with the postcondition of the part as it is stated. *)
Lemma wp_then {S A B} ub (m : P S A) (f : A → P S B) s
    (R : A * S → list (ev * resp) → Prop) (Q : B * S → list (ev * resp) → Prop) :
  wp ub (m s) R →
  (∀ a s' t1, R (a, s') t1 → wp ub (f a s') (λ r t2, Q r (t1 ++ t2))) →
  wp ub ((m ≫= f) s) Q.
Proof.
  intros Hm Hf. apply wp_bind. eapply wp_mono; [exact Hm |]. intros [a s'] t1 HR. by apply Hf.
Qed.

Lemma wp_call {S B} ub e (f : resp → P S B) s (Q : B * S → list (ev * resp) → Prop) :
  (∀ x, valid e x → wp ub (f x s) (λ r tr, Q r ((e, x) :: tr))) → wp ub ((call e ≫= f) s) Q.
Proof. done. Qed.

Lemma wp_lift {S A B} ub (o : option A) (f : A → P S B) s a (Q : B * S → list (ev * resp) → Prop) :
  o = Some a → wp ub (f a s) Q → wp ub ((plift o ≫= f) s) Q.
Proof. intros ->. done. Qed.

Lemma wp_runs {A} ub (m : io A) (Q : A → list (ev * resp) → Prop) tr a :
  wp ub m Q → runs m tr a → Q a tr.
Proof. intros H Hr. revert Q H. induction Hr; cbn; intros Q HQ; [done |]. eapply (IHHr (λ a tr, Q a (_ :: tr))). by apply HQ. Qed.

Lemma wp_safe {A} (m : io A) (Q : A → list (ev * resp) → Prop) : wp False m Q → safe m.
Proof. revert Q; induction m as [a | | e k IH]; cbn; intros Q H; [constructor | done |]. constructor. intros x Hx. eapply IH. by apply H. Qed.

Lemma wp_True {A} (m : io A) : wp True m (λ _ _, True).
Proof. induction m as [a | | e k IH]; cbn; auto. Qed.

(** A second postcondition of the runs that return. *)
Lemma wp_and {A} ub (m : io A) (Q Q' : A → list (ev * resp) → Prop) :
  wp ub m Q → wp True m Q' → wp ub m (λ a tr, Q a tr ∧ Q' a tr).
Proof. revert Q Q'; induction m as [a | | e k IH]; cbn; intros Q Q' H H'; [done.. |]. intros x Hx. apply IH; auto. Qed.

(** [wpu U m Q]: the same where a run may go wrong behind a trace of which [U]
    holds, and only there. *)
Fixpoint wpu {A} (U : list (ev * resp) → Prop) (m : io A) (Q : A → list (ev * resp) → Prop) : Prop :=
  match m with
  | Ret a => Q a []
  | Ub => U []
  | Vis e k => ∀ x, valid e x → wpu (λ tr, U ((e, x) :: tr)) (k x) (λ a tr, Q a ((e, x) :: tr))
  end.

Lemma wpu_mono {A} (U U' : list (ev * resp) → Prop) (m : io A) (Q Q' : A → list (ev * resp) → Prop) :
  wpu U m Q → (∀ tr, U tr → U' tr) → (∀ a tr, Q a tr → Q' a tr) → wpu U' m Q'.
Proof.
  revert U U' Q Q'; induction m as [a | | e k IH]; cbn; intros U U' Q Q' H HU HQ; [auto.. |].
  intros x Hx. eapply IH; [by apply H | |]; intros; cbn in *; auto.
Qed.

Lemma wpu_of_wp {A} U (m : io A) (Q : A → list (ev * resp) → Prop) : wp False m Q → wpu U m Q.
Proof. revert U Q; induction m as [a | | e k IH]; cbn; intros U Q H; [done.. |]. intros x Hx. apply IH; auto. Qed.

Lemma wp_of_wpu {A} U (m : io A) (Q : A → list (ev * resp) → Prop) : wpu U m Q → wp True m Q.
Proof. revert U Q; induction m as [a | | e k IH]; cbn; intros U Q H; [done.. |]. intros x Hx. eapply IH; auto. Qed.

(** A family of postconditions of the runs that return. *)
Lemma wp_forall {A X} (m : io A) (Q : X → A → list (ev * resp) → Prop) :
  (∀ x, wp True m (Q x)) → wp True m (λ a tr, ∀ x, Q x a tr).
Proof.
  revert Q; induction m as [a | | e k IH]; cbn; intros Q Hm; [done.. |].
  intros x Hx. apply IH. intros y. by apply Hm.
Qed.

Lemma wp_of_wpu_False {A} (m : io A) (Q : A → list (ev * resp) → Prop) : wpu (λ _, False) m Q → wp False m Q.
Proof. revert Q; induction m as [a | | e k IH]; cbn; intros Q H; [done.. |]. intros x Hx. apply IH; auto. Qed.

Lemma wpu_of_True {A} (U : list (ev * resp) → Prop) (m : io A) (Q : A → list (ev * resp) → Prop) :
  (∀ tr, U tr) → wp True m Q → wpu U m Q.
Proof. revert U Q; induction m as [a | | e k IH]; cbn; intros U Q HU H; [done | apply HU |]. intros x Hx. apply IH; auto. Qed.

Lemma wpu_bind {A B} U (m : io A) (f : A → io B) (Q : B → list (ev * resp) → Prop) :
  wpu U m (λ a t1, wpu (λ t2, U (t1 ++ t2)) (f a) (λ b t2, Q b (t1 ++ t2))) → wpu U (io_bind m f) Q.
Proof.
  revert U Q; induction m as [a | | e k IH]; cbn; intros U Q H; [done.. |].
  intros x Hx. apply IH. by apply H.
Qed.

Lemma wpu_then {S A B} U (m : P S A) (f : A → P S B) s
    (R : A * S → list (ev * resp) → Prop) (Q : B * S → list (ev * resp) → Prop) :
  wpu U (m s) R →
  (∀ a s' t1, R (a, s') t1 → wpu (λ t2, U (t1 ++ t2)) (f a s') (λ r t2, Q r (t1 ++ t2))) →
  wpu U ((m ≫= f) s) Q.
Proof.
  intros Hm Hf. apply wpu_bind. eapply wpu_mono; [exact Hm | done |]. intros [a s'] t1 HR. by apply Hf.
Qed.

(** ** Descriptors *)

Fixpoint remove_one {A} `{EqDecision A} (x : A) (l : list A) : option (list A) :=
  match l with
  | [] => None
  | y :: l => if decide (x = y) then Some l else cons y <$> remove_one x l
  end.

(** The descriptors open after a run, given those open before; [None] when
    one is closed that is not open. *)
Definition fds_step (o : option (list Z)) (c : ev * resp) : option (list Z) :=
  l ← o;
  match c.1 with
  | Socket _ _ => Some (if decide (0 ≤ ret c.2) then ret c.2 :: l else l)
  | Close fd => remove_one fd l
  | _ => Some l
  end.

Definition fds_after (l : list Z) (tr : list (ev * resp)) : option (list Z) :=
  foldl fds_step (Some l) tr.

Lemma fds_after_app l t1 t2 l' : fds_after l t1 = Some l' → fds_after l (t1 ++ t2) = fds_after l' t2.
Proof. unfold fds_after. intros E. by rewrite foldl_app, E. Qed.

Lemma remove_one_perm {A} `{EqDecision A} (x : A) l l' : remove_one x l = Some l' → l ≡ₚ x :: l'.
Proof.
  revert l'; induction l as [|y l IH]; cbn; intros l' H; [done |]. case_decide as Hx.
  - by simplify_eq.
  - destruct (remove_one x l) as [l1|]; cbn in H; simplify_eq. rewrite (IH l1 eq_refl). apply Permutation_swap.
Qed.

Lemma remove_one_app (x : Z) A B : x ∉ A → remove_one x (A ++ x :: B) = Some (A ++ B).
Proof.
  induction A as [|a A IH]; cbn; intros Hx; [by rewrite decide_True |].
  rewrite decide_False by set_solver. rewrite IH by set_solver. done.
Qed.

(** ** Runs with given responses *)

Fixpoint play {A} (m : io A) (rs : list resp) : option (A * list (ev * resp)) :=
  match m, rs with
  | Ret a, _ => Some (a, [])
  | Vis e k, r :: rs => '(a, tr) ← play (k r) rs; Some (a, (e, r) :: tr)
  | _, _ => None
  end.

Lemma play_runs {A} (m : io A) rs a tr : play m rs = Some (a, tr) → Forall (λ c, valid c.1 c.2) tr → runs m tr a.
Proof.
  revert rs a tr; induction m as [x | | e k IH]; intros [|r rs] a tr; cbn; intros E; simplify_eq; [constructor.. |].
  destruct (play (k r) rs) as [[b t]|] eqn:Ep; cbn in E; [|done]. injection E as <- <-.
  intros [Hv Hf]%Forall_cons. constructor; [done | by eapply IH].
Qed.

(** The trace of a run that goes wrong. *)
Fixpoint play_wrong {A} (m : io A) (rs : list resp) : option (list (ev * resp)) :=
  match m, rs with
  | Ub, _ => Some []
  | Vis e k, r :: rs => cons (e, r) <$> play_wrong (k r) rs
  | _, _ => None
  end.

Lemma play_wrong_unsafe {A} (m : io A) rs tr : play_wrong m rs = Some tr → Forall (λ c, valid c.1 c.2) tr → ¬ safe m.
Proof.
  revert rs tr; induction m as [x | | e k IH]; intros rs tr; cbn; [by destruct rs | by inversion 3 |].
  destruct rs as [|r rs]; [done |]. destruct (play_wrong (k r) rs) as [t|] eqn:Ep; cbn; [|done].
  intros [= <-] [Hv Hf]%Forall_cons Hs. inversion Hs as [|? ? Hk]; subst. by eapply IH; [..| apply Hk].
Qed.

(** A response that is only a value. *)
Definition val (v : Z) : resp := mkResp v [] 0 [].
