(* ===== verification/Addr.v ===== *)
(** * SOCKS5 addresses

    Model of [src/core/src/hev-socks5-proto.h] and of the address functions of
    [src/core/src/hev-socks5-misc.c].  A [HevSocks5Addr] is the block of
    memory the packed structure overlays: the type at offset 0, and then
    either the bytes and the port of an IPv4 or IPv6 address, or the length,
    the bytes and the port of a domain name.  Ports are [uint16_t] values in
    network byte order, stored least significant byte first as on the
    little-endian targets. *)

From S2P Require Import Prelude Buffer IO.

(** ** Constants *)

Definition HEV_SOCKS5_VERSION_5 : Z := 5.
Definition HEV_SOCKS5_AUTH_METHOD_NONE : Z := 0.
Definition HEV_SOCKS5_AUTH_METHOD_USER : Z := 2.
Definition HEV_SOCKS5_AUTH_METHOD_DENY : Z := 255.
Definition HEV_SOCKS5_AUTH_VERSION_1 : Z := 1.
Definition HEV_SOCKS5_REQ_CMD_CONNECT : Z := 1.
Definition HEV_SOCKS5_REQ_CMD_UDP_ASC : Z := 3.
Definition HEV_SOCKS5_REQ_CMD_FWD_UDP : Z := 5.
Definition HEV_SOCKS5_RES_REP_SUCC : Z := 0.
Definition HEV_SOCKS5_RES_REP_FAIL : Z := 1.
Definition HEV_SOCKS5_RES_REP_HOST : Z := 4.
Definition HEV_SOCKS5_RES_REP_IMPL : Z := 7.
Definition HEV_SOCKS5_RES_REP_ADDR : Z := 8.
Definition HEV_SOCKS5_ADDR_TYPE_IPV4 : Z := 1.
Definition HEV_SOCKS5_ADDR_TYPE_IPV6 : Z := 4.
Definition HEV_SOCKS5_ADDR_TYPE_NAME : Z := 3.

(** [sizeof (HevSocks5Addr)]: the type and the 259 bytes of the domain. *)
Definition SIZEOF_ADDR : nat := 260.

(** ** Address blocks *)

Definition hev_socks5_addr_len (addr : list Z) : option Z :=
  atype ← mem_get addr 0;
  if decide (atype = HEV_SOCKS5_ADDR_TYPE_IPV4) then Some 7
  else if decide (atype = HEV_SOCKS5_ADDR_TYPE_IPV6) then Some 19
  else if decide (atype = HEV_SOCKS5_ADDR_TYPE_NAME) then
    len ← mem_get addr 1; Some (4 + len)
  else Some (-1).

(** [strncpy (dst, src, n)]: exactly [n] bytes are written. *)
Definition strncpy_bytes (src : list Z) (n : nat) : list Z :=
  take n src ++ replicate (n - length src) 0.

Definition hev_socks5_addr_from_name (addr name : list Z) (_port : Z) : option (Z * list Z) :=
  let port := u16 _port in
  addr ← mem_set addr 0 HEV_SOCKS5_ADDR_TYPE_NAME;
  addr ← mem_write addr 2 (strncpy_bytes name 256);
  s ← cstr (drop 2 addr);
  let len := u8 (Z.of_nat (length s)) in
  addr ← mem_set addr 1 len;
  addr ← mem_write addr (2 + len) (le16 port);
  Some (4 + len, addr).

Definition hev_socks5_addr_from_ipv4 (addr ipv4 : list Z) (port : Z) : option (Z * list Z) :=
  addr ← mem_set addr 0 HEV_SOCKS5_ADDR_TYPE_IPV4;
  b ← mem_read ipv4 0 4;
  addr ← mem_write addr 1 b;
  addr ← mem_write addr 5 (le16 (u16 port));
  Some (7, addr).

Definition hev_socks5_addr_from_ipv6 (addr ipv6 : list Z) (port : Z) : option (Z * list Z) :=
  addr ← mem_set addr 0 HEV_SOCKS5_ADDR_TYPE_IPV6;
  b ← mem_read ipv6 0 16;
  addr ← mem_write addr 1 b;
  addr ← mem_write addr 17 (le16 (u16 port));
  Some (19, addr).

(** [IN6_IS_ADDR_V4MAPPED] *)
Definition v4mapped (a : list Z) : bool :=
  bool_decide (take 12 a = [0; 0; 0; 0; 0; 0; 0; 0; 0; 0; 255; 255]).

Definition hev_socks5_addr_from_sockaddr6 (addr : list Z) (saddr : sockaddr_in6)
    : option (Z * list Z) :=
  if v4mapped (sin6_addr saddr) then
    addr ← mem_set addr 0 HEV_SOCKS5_ADDR_TYPE_IPV4;
    addr ← mem_write addr 5 (le16 (sin6_port saddr));
    b ← mem_read (sin6_addr saddr) 12 4;
    addr ← mem_write addr 1 b;
    Some (7, addr)
  else
    addr ← mem_set addr 0 HEV_SOCKS5_ADDR_TYPE_IPV6;
    addr ← mem_write addr 17 (le16 (sin6_port saddr));
    b ← mem_read (sin6_addr saddr) 0 16;
    addr ← mem_write addr 1 b;
    Some (19, addr).

(** A stored [uint16_t] read back. *)
Definition get_port (m : list Z) (off : Z) : option Z :=
  b0 ← mem_get m off; b1 ← mem_get m (off + 1); Some (un_le16 b0 b1).

Definition v4_prefix : list Z := [0; 0; 0; 0; 0; 0; 0; 0; 0; 0; 255; 255].

Definition hev_socks5_ipv4_into_sockaddr6 (addr : list Z) : option sockaddr_in6 :=
  port ← get_port addr 5;
  b ← mem_read addr 1 4;
  Some (mkSockaddr AF_INET6 port (v4_prefix ++ b)).

Definition hev_socks5_ipv6_into_sockaddr6 (addr : list Z) : option sockaddr_in6 :=
  port ← get_port addr 17;
  b ← mem_read addr 1 16;
  Some (mkSockaddr AF_INET6 port b).

(** ** Names

    [inet_pton] is the C library's; the model takes its results, the 4 or 16
    bytes of the address, as functions. *)

Section Resolve.
Context (inet_pton4 inet_pton6 : list Z → option (list Z)).
Context {S : Type}.

(** Each function returns its result, the [sockaddr_in6] and the family it
    stored through its pointers. *)
Definition hev_socks5_name_resolve_ipv4 (name : list Z) (saddr : sockaddr_in6) : Z * sockaddr_in6 :=
  let a := replicate 10 0 ++ drop 10 (sin6_addr saddr) in
  match inet_pton4 name with
  | None => (-1, mkSockaddr (sin6_family saddr) (sin6_port saddr) a)
  | Some b => (0, mkSockaddr (sin6_family saddr) (sin6_port saddr) (v4_prefix ++ b))
  end.

Definition hev_socks5_name_resolve_ipv6 (name : list Z) (saddr : sockaddr_in6) : Z * sockaddr_in6 :=
  match inet_pton6 name with
  | None => (-1, saddr)
  | Some b => (0, mkSockaddr (sin6_family saddr) (sin6_port saddr) b)
  end.

Definition hev_socks5_name_resolve_name (name : list Z) (saddr : sockaddr_in6) (family : Z)
    : P S (Z * sockaddr_in6 * Z) :=
  r ← call (GetAddrInfo name family);
  if decide (ret r ≠ 0) then mret (-1, saddr, family)
  else if decide (aux r = AF_INET) then
    mret (0, mkSockaddr (sin6_family saddr) (sin6_port saddr) (v4_prefix ++ data r), AF_INET)
  else if decide (aux r = AF_INET6) then
    mret (0, mkSockaddr (sin6_family saddr) (sin6_port saddr) (data r), AF_INET6)
  else mret (-1, saddr, family).

Definition hev_socks5_name_into_sockaddr6 (name : list Z) (port : Z) (saddr : sockaddr_in6)
    (family : Z) : P S (Z * sockaddr_in6 * Z) :=
  let saddr := mkSockaddr AF_INET6 (htons port) (sin6_addr saddr) in
  let '(res, saddr) := hev_socks5_name_resolve_ipv4 name saddr in
  if decide (res = 0) then mret (0, saddr, AF_INET)
  else
    let '(res, saddr) := hev_socks5_name_resolve_ipv6 name saddr in
    if decide (res = 0) then mret (0, saddr, AF_INET6)
    else hev_socks5_name_resolve_name name saddr family.

Definition hev_socks5_addr_into_sockaddr6 (addr : list Z) (saddr : sockaddr_in6) (family : Z)
    : P S (Z * sockaddr_in6 * Z) :=
  atype ← plift (mem_get addr 0);
  if decide (atype = HEV_SOCKS5_ADDR_TYPE_IPV4) then
    sa ← plift (hev_socks5_ipv4_into_sockaddr6 addr); mret (0, sa, AF_INET)
  else if decide (atype = HEV_SOCKS5_ADDR_TYPE_IPV6) then
    sa ← plift (hev_socks5_ipv6_into_sockaddr6 addr); mret (0, sa, AF_INET6)
  else if decide (atype = HEV_SOCKS5_ADDR_TYPE_NAME) then
    len ← plift (mem_get addr 1);
    b ← plift (mem_read addr 2 len);
    name ← plift (cstr (b ++ [0]));
    port ← plift (get_port addr (2 + len));
    hev_socks5_name_into_sockaddr6 name (ntohs port) saddr family
  else mret (-1, saddr, family).
End Resolve.

(** ** Lemmas *)

Lemma un_le16_le16 v : 0 ≤ v < 65536 → un_le16 (u8 v) (u8 (Z.shiftr v 8)) = v.
Proof.
  intros H. destruct (word_split v H) as (Hv & Hh & Hl). rewrite Hv at 1 2.
  rewrite u8_lo, u8_hi by done. rewrite un_le16_sum by done. lia.
Qed.

(** Make the first [n] bytes of a block explicit. *)
Lemma block_split (m : list Z) n : (n ≤ length m)%nat → ∃ a b, m = a ++ b ∧ length a = n.
Proof.
  intros H. exists (take n m), (drop n m). by rewrite take_drop, length_take, Nat.min_l.
Qed.

Ltac explicit m n :=
  let a := fresh "a" in let b := fresh "rest" in let Ha := fresh "Ha" in
  destruct (block_split m n) as (a & b & -> & Ha); [lia |];
  repeat (destruct a as [|? a]; [discriminate Ha |]); destruct a; [clear Ha | discriminate Ha].

Definition family_of (sa : sockaddr_in6) : Z :=
  if v4mapped (sin6_addr sa) then AF_INET else AF_INET6.

Lemma from_sockaddr6_spec block sa :
  (19 ≤ length block)%nat → length (sin6_addr sa) = 16%nat → sin6_family sa = AF_INET6 →
  0 ≤ sin6_port sa < 65536 →
  ∃ n block', hev_socks5_addr_from_sockaddr6 block sa = Some (n, block') ∧
    hev_socks5_addr_len block' = Some n ∧ length block' = length block ∧
    n = (if v4mapped (sin6_addr sa) then 7 else 19) ∧
    ∀ p4 p6 (S : Type) sa0 fam (s : S),
      hev_socks5_addr_into_sockaddr6 p4 p6 block' sa0 fam s = Ret ((0, sa, family_of sa), s).
Proof.
  destruct sa as [f p a]; cbn [sin6_addr sin6_family sin6_port]. intros Hb Ha -> Hp.
  pose proof (un_le16_le16 p Hp) as Hport.
  explicit block 19%nat. do 16 (destruct a as [|? a]; [discriminate Ha |]). destruct a; [clear Ha | discriminate Ha].
  unfold hev_socks5_addr_from_sockaddr6, hev_socks5_addr_len, hev_socks5_addr_into_sockaddr6,
    hev_socks5_ipv4_into_sockaddr6, hev_socks5_ipv6_into_sockaddr6, family_of.
  cbn [sin6_addr sin6_port app]. clear Hb.
  destruct (v4mapped [z18; z19; z20; z21; z22; z23; z24; z25; z26; z27; z28; z29; z30; z31; z32; z33]) eqn:Hm.
  - apply bool_decide_eq_true in Hm. cbn in Hm. injection Hm as -> -> -> -> -> -> -> -> -> -> -> ->.
    unfold le16, get_port. mem_eval.
    eexists _, _. split_and!; [reflexivity.. |]. intros. unfold plift; mem_eval. by rewrite Hport.
  - unfold le16, get_port. mem_eval. eexists _, _. split_and!; [reflexivity.. |]. intros. unfold plift; mem_eval. by rewrite Hport.
Qed.

(** ** Addresses on the wire *)

Inductive address :=
| A4 (ip : list Z) (port : Z)
| A6 (ip : list Z) (port : Z)
| AName (name : list Z) (port : Z).

Definition wire (a : address) : list Z :=
  match a with
  | A4 ip p => HEV_SOCKS5_ADDR_TYPE_IPV4 :: ip ++ le16 p
  | A6 ip p => HEV_SOCKS5_ADDR_TYPE_IPV6 :: ip ++ le16 p
  | AName n p => HEV_SOCKS5_ADDR_TYPE_NAME :: Z.of_nat (length n) :: n ++ le16 p
  end.

Definition address_ok (a : address) : Prop :=
  match a with
  | A4 ip p => length ip = 4%nat ∧ bytes_ok ip ∧ 0 ≤ p < 65536
  | A6 ip p => length ip = 16%nat ∧ bytes_ok ip ∧ 0 ≤ p < 65536
  | AName n p => (length n ≤ 255)%nat ∧ Forall (λ b, 0 < b < 256) n ∧ 0 ≤ p < 65536
  end.

(** What [hev_socks5_addr_into_sockaddr6] does with an address. *)
Definition resolve (p4 p6 : list Z → option (list Z)) {S} (a : address) (sa : sockaddr_in6) (fam : Z)
    : P S (Z * sockaddr_in6 * Z) :=
  match a with
  | A4 ip p => mret (0, mkSockaddr AF_INET6 p (v4_prefix ++ ip), AF_INET)
  | A6 ip p => mret (0, mkSockaddr AF_INET6 p ip, AF_INET6)
  | AName n p => hev_socks5_name_into_sockaddr6 p4 p6 n (ntohs p) sa fam
  end.

Lemma wire_length a : address_ok a →
  Z.of_nat (length (wire a)) = match a with A4 _ _ => 7 | A6 _ _ => 19 | AName n _ => 4 + Z.of_nat (length n) end.
Proof. destruct a; cbn; rewrite ?length_app; cbn; lia. Qed.

Lemma addr_len_wire a rest : address_ok a →
  hev_socks5_addr_len (wire a ++ rest) = Some (Z.of_nat (length (wire a))).
Proof. intros Ha. rewrite wire_length by done. destruct a; done. Qed.

Lemma get_port_at pre p post off :
  0 ≤ p < 65536 → off = Z.of_nat (length pre) → get_port (pre ++ le16 p ++ post) off = Some p.
Proof.
  intros Hp ->. unfold get_port. rewrite mem_get_app by lia.
  rewrite <-(Z.add_0_r (Z.of_nat (length pre))), mem_get_app by lia.
  change (Some (un_le16 (u8 p) (u8 (Z.shiftr p 8))) = Some p). by rewrite un_le16_le16.
Qed.

Lemma into_sockaddr6_wire p4 p6 {S} a rest sa fam (s : S) : address_ok a →
  hev_socks5_addr_into_sockaddr6 p4 p6 (wire a ++ rest) sa fam s = resolve p4 p6 a sa fam s.
Proof.
  intros Ha. unfold hev_socks5_addr_into_sockaddr6, hev_socks5_ipv4_into_sockaddr6,
    hev_socks5_ipv6_into_sockaddr6.
  destruct a as [ip p | ip p | n p]; destruct Ha as (Hl & Hb & Hp); cbn [wire app];
    erewrite plift_bind by reflexivity; rewrite <-app_assoc.
  - pose proof (get_port_at (HEV_SOCKS5_ADDR_TYPE_IPV4 :: ip) p rest 5 Hp) as E1. cbn [app] in E1.
    rewrite decide_True by done. rewrite E1 by (cbn; lia).
    pose proof (mem_read_at [HEV_SOCKS5_ADDR_TYPE_IPV4] ip (le16 p ++ rest) 1 4 eq_refl) as E2.
    cbn [app mbind option_bind] in E2 |- *. rewrite E2 by lia. done.
  - pose proof (get_port_at (HEV_SOCKS5_ADDR_TYPE_IPV6 :: ip) p rest 17 Hp) as E1. cbn [app] in E1.
    rewrite decide_False, decide_True by done. rewrite E1 by (cbn; lia).
    pose proof (mem_read_at [HEV_SOCKS5_ADDR_TYPE_IPV6] ip (le16 p ++ rest) 1 16 eq_refl) as E2.
    cbn [app mbind option_bind] in E2 |- *. rewrite E2 by lia. done.
  - pose proof (get_port_at (HEV_SOCKS5_ADDR_TYPE_NAME :: Z.of_nat (length n) :: n) p rest
      (2 + Z.of_nat (length n)) Hp) as E1. cbn [app] in E1.
    rewrite decide_False, decide_False, decide_True by done. erewrite plift_bind by reflexivity.
    rewrite (plift_bind _ _ _ _ (mem_read_at [HEV_SOCKS5_ADDR_TYPE_NAME; Z.of_nat (length n)] n (le16 p ++ rest)
      2 _ eq_refl eq_refl)).
    rewrite (plift_bind _ _ _ _ (cstr_app n [] Hb)).
    rewrite (plift_bind _ _ _ p) by (apply E1; cbn; lia). done.
Qed.

(** ** Resolution *)

(** A trace that neither transfers bytes nor opens or closes descriptors. *)
Definition silent (tr : list (ev * resp)) : Prop :=
  (∀ fd, sent fd tr = [] ∧ rcvd fd tr = []) ∧ ∀ l, fds_after l tr = Some l.

Lemma silent_nil : silent [].
Proof. done. Qed.

Lemma silent_app t1 t2 : silent t1 → silent t2 → silent (t1 ++ t2).
Proof.
  intros [H1 F1] [H2 F2]. split.
  - intros fd. rewrite sent_app, rcvd_app. by destruct (H1 fd) as [-> ->], (H2 fd) as [-> ->].
  - intros l. by rewrite (fds_after_app _ _ _ _ (F1 l)).
Qed.

(** The results of [inet_pton]. *)
Definition pton_ok (n : nat) (p : list Z → option (list Z)) : Prop :=
  ∀ name b, p name = Some b → length b = n.

(** The resolver answered with an address of the name. *)
Definition answered (name : list Z) (tr : list (ev * resp)) (a : list Z) : Prop :=
  ∃ fam x, (GetAddrInfo name fam, x) ∈ tr ∧ ret x = 0 ∧
    ((aux x = AF_INET ∧ a = v4_prefix ++ data x) ∨ (aux x = AF_INET6 ∧ a = data x)).

(** The resolver had no address of the name. *)
Definition unresolved (name : list Z) (tr : list (ev * resp)) : Prop :=
  ∃ fam x, (GetAddrInfo name fam, x) ∈ tr ∧ (ret x ≠ 0 ∨ aux x ≠ AF_INET ∧ aux x ≠ AF_INET6).

Lemma unresolved_mono name tr tr' : tr ⊆ tr' → unresolved name tr → unresolved name tr'.
Proof. intros Hsub (fam & x & Hin & H). exists fam, x. split; [by apply Hsub | done]. Qed.

(** The address of a name: that of an IPv4 or IPv6 literal, or an answer of
    the resolver. *)
Definition denotes (p4 p6 : list Z → option (list Z)) (name : list Z) (tr : list (ev * resp)) (a : list Z) : Prop :=
  match p4 name, p6 name with
  | Some b, _ => a = v4_prefix ++ b
  | None, Some b => a = b
  | None, None => answered name tr a
  end.

Lemma denotes_mono p4 p6 name tr tr' a : tr ⊆ tr' → denotes p4 p6 name tr a → denotes p4 p6 name tr' a.
Proof.
  intros Hsub. unfold denotes. destruct (p4 name), (p6 name); try done.
  intros (fam & x & Hin & H). exists fam, x. split; [by apply Hsub | done].
Qed.

Lemma name_into_sockaddr6_spec ub p4 p6 {S} name port sa fam (s : S) :
  pton_ok 4 p4 → pton_ok 16 p6 → length (sin6_addr sa) = 16%nat →
  wp ub (hev_socks5_name_into_sockaddr6 p4 p6 name port sa fam s) (λ r tr,
    let '(res, sa', fam', s') := r in
    s' = s ∧ silent tr ∧ (res = 0 ∨ res = -1) ∧ sin6_port sa' = htons port ∧
    sin6_family sa' = AF_INET6 ∧ length (sin6_addr sa') = 16%nat ∧
    (res = 0 → (fam' = AF_INET ∨ fam' = AF_INET6) ∧ denotes p4 p6 name tr (sin6_addr sa')) ∧ (res ≠ 0 → unresolved name tr)).
Proof.
  intros H4 H6 Hl. unfold hev_socks5_name_into_sockaddr6, hev_socks5_name_resolve_ipv4,
    hev_socks5_name_resolve_ipv6, hev_socks5_name_resolve_name. cbn [sin6_addr sin6_family sin6_port].
  assert (length (replicate 10 0 ++ drop 10 (sin6_addr sa)) = 16%nat) as Hz
    by (rewrite length_app, length_drop, Hl; done).
  unfold denotes. destruct (p4 name) as [b|] eqn:E4.
  { cbn. split_and!; try done; [by left | cbn; by rewrite (H4 _ _ E4) |]. intros _. split; [by left | done]. }
  rewrite decide_False by done. destruct (p6 name) as [b|] eqn:E6.
  { cbn. split_and!; try done; [by left | by apply (H6 _ _ E6) |]. intros _. split; [by right | done]. }
  rewrite decide_False by done. apply wp_call. intros x (Hb & Hv4 & Hv6).
  assert (∀ a, (aux x = AF_INET ∧ a = v4_prefix ++ data x) ∨ (aux x = AF_INET6 ∧ a = data x) → ret x = 0 →
    answered name [(GetAddrInfo name fam, x)] a) as Hans.
  { intros a Ha Hx. exists fam, x. split; [by left | done]. }
  assert (ret x ≠ 0 ∨ aux x ≠ AF_INET ∧ aux x ≠ AF_INET6 → unresolved name [(GetAddrInfo name fam, x)]) as Hun.
  { intros H. exists fam, x. split; [by left | done]. }
  destruct (decide (ret x ≠ 0)) as [Hx | Hx]; [cbn; split_and!; try done; [by right | intros _; apply Hun; by left] |].
  assert (ret x = 0) as Hx0 by lia.
  case_decide as Ha4; [cbn; split_and!; try done; [by left | cbn; by rewrite Hv4 |]; intros _; split; [by left | by apply Hans; [left |]] |].
  case_decide as Ha6; [cbn; split_and!; try done; [by left | by rewrite Hv6 |]; intros _; split; [by right | by apply Hans; [right |]] |].
  cbn. split_and!; try done; [by right |]. intros _. apply Hun. by right.
Qed.

Definition sa_ok (sa : sockaddr_in6) : Prop := length (sin6_addr sa) = 16%nat ∧ 0 ≤ sin6_port sa < 65536.

Lemma un_le16_range b0 b1 : byte_ok b0 → byte_ok b1 → 0 ≤ un_le16 b0 b1 < 65536.
Proof. intros H0 H1. rewrite un_le16_sum by done. unfold byte_ok in *. lia. Qed.

Lemma get_port_in m off : bytes_ok m → 0 ≤ off → off + 2 ≤ Z.of_nat (length m) →
  ∃ p, get_port m off = Some p ∧ 0 ≤ p < 65536.
Proof.
  intros Hm H0 H1. unfold get_port.
  destruct (mem_get_in m off) as (b0 & -> & Hb0); [lia |].
  destruct (mem_get_in m (off + 1)) as (b1 & -> & Hb1); [lia |].
  rewrite Forall_forall in Hm. eexists. split; [reflexivity |]. apply un_le16_range; auto.
Qed.

Lemma mem_read_in m off len : 0 ≤ off → 0 ≤ len → off + len ≤ Z.of_nat (length m) →
  ∃ b, mem_read m off len = Some b ∧ Z.of_nat (length b) = len.
Proof.
  intros. unfold mem_read. rewrite decide_True by lia. eexists. split; [reflexivity |].
  rewrite length_take, length_drop. lia.
Qed.

(** Reading the socket address of any [HevSocks5Addr], whatever its bytes,
    stays inside the structure. *)
Lemma into_sockaddr6_any ub p4 p6 {S} block sa fam (s : S) :
  pton_ok 4 p4 → pton_ok 16 p6 → bytes_ok block → (SIZEOF_ADDR ≤ length block)%nat → sa_ok sa →
  wp ub (hev_socks5_addr_into_sockaddr6 p4 p6 block sa fam s) (λ r tr,
    let '(res, sa', fam', s') := r in
    s' = s ∧ silent tr ∧ (res = 0 ∨ res = -1) ∧ sa_ok sa').
Proof.
  intros H4 H6 Hb Hl Hsa. unfold SIZEOF_ADDR in Hl. unfold hev_socks5_addr_into_sockaddr6,
    hev_socks5_ipv4_into_sockaddr6, hev_socks5_ipv6_into_sockaddr6.
  destruct (mem_get_in block 0) as (at_ & E0 & _); [lia |]. eapply wp_lift; [exact E0 |].
  case_decide; [| case_decide; [| case_decide]].
  - destruct (get_port_in block 5 Hb) as (p & -> & Hp); [lia.. |].
    destruct (mem_read_in block 1 4) as (b & -> & Hlb); [lia.. |].
    cbn. split_and!; try done; [by left |]. split; simpl; lia.
  - destruct (get_port_in block 17 Hb) as (p & -> & Hp); [lia.. |].
    destruct (mem_read_in block 1 16) as (b & -> & Hlb); [lia.. |].
    cbn. split_and!; try done; [by left |]. split; simpl; lia.
  - destruct (mem_get_in block 1) as (len & E1 & Hlen); [lia |]. eapply wp_lift; [exact E1 |].
    assert (byte_ok len) as Hr by (rewrite Forall_forall in Hb; by apply Hb). unfold byte_ok in Hr.
    destruct (mem_read_in block 2 len) as (b & E2 & Hlb); [lia.. |]. eapply wp_lift; [exact E2 |].
    destruct (cstr_some (b ++ [0]) (length b)) as (nm & Enm); [by rewrite lookup_app_r, Nat.sub_diag by lia |].
    eapply wp_lift; [exact Enm |].
    destruct (get_port_in block (2 + len) Hb) as (p & Ep & Hp); [lia.. |]. eapply wp_lift; [exact Ep |].
    eapply wp_mono; [apply name_into_sockaddr6_spec; [done.. | apply Hsa] |].
    intros [[[res sa'] fam'] s'] tr (? & ? & ? & Hport & ? & ? & _).
    split_and!; try done. split; [done |]. rewrite Hport. apply htons_range.
  - cbn. split_and!; try done. by right.
Qed.

Lemma strncpy_length src n : length (strncpy_bytes src n) = n.
Proof. unfold strncpy_bytes. rewrite length_app, length_take, length_replicate. lia. Qed.

(** What [hev_socks5_addr_from_name] stores of a name. A name of 256 bytes or
    more fills the field without a terminator, so that the two bytes of
    [block] behind it, which the function does not write before, decide on
    the length; [None]: [strlen] runs past the structure. *)
Definition stored_name (block name : list Z) : option (list Z) :=
  if decide (length name ≤ 255)%nat then Some name
  else if decide (block !! 258%nat = Some 0) then Some []
  else if decide (block !! 259%nat = Some 0) then Some (take 1 name)
  else None.

Lemma stored_name_short block name : (length name ≤ 255)%nat → stored_name block name = Some name.
Proof. intros H. unfold stored_name. by rewrite decide_True. Qed.

Lemma stored_name_ok block name nm : Forall (λ b, 0 < b < 256) name → stored_name block name = Some nm →
  Forall (λ b, 0 < b < 256) nm ∧ (length nm ≤ 255)%nat.
Proof.
  intros Hn. unfold stored_name. repeat case_decide; intros [= <-]; [done | by split; cbn; [constructor | lia] |].
  split; [by apply Forall_take | rewrite length_take; lia].
Qed.

Lemma from_name_short block name port :
  length block = SIZEOF_ADDR → Forall (λ b, 0 < b < 256) name → (length name ≤ 255)%nat →
  ∃ rest, hev_socks5_addr_from_name block name port =
      Some (4 + Z.of_nat (length name), wire (AName name (u16 port)) ++ rest) ∧
    length (wire (AName name (u16 port)) ++ rest) = SIZEOF_ADDR.
Proof.
  intros Hb Hn Hl. unfold SIZEOF_ADDR in Hb. unfold hev_socks5_addr_from_name.
  destruct block as [|b0 [|b1 block]]; [done.. |]. cbn in Hb.
  rewrite mem_set_0. cbn [mbind option_bind].
  destruct (block_split block 256) as (old & tl & -> & Hold); [lia |].
  rewrite length_app in Hb. destruct tl as [|t0 [|t1 [|? ?]]]; try (cbn in Hb; lia).
  rewrite mem_write_2 by (rewrite strncpy_length; done). cbn [mbind option_bind drop].
  assert (strncpy_bytes name 256 = name ++ 0 :: replicate (255 - length name) 0) as Hs.
  { unfold strncpy_bytes. rewrite take_ge by lia. f_equal.
    replace (256 - length name)%nat with (S (255 - length name)) by lia. done. }
  rewrite Hs, <-app_assoc. rewrite <-app_comm_cons.
  rewrite drop_0, (cstr_app name) by done. cbn [mbind option_bind].
  rewrite u8_small by lia. rewrite mem_set_1. cbn [mbind option_bind].
  assert (∃ y rest, 0 :: replicate (255 - length name) 0 ++ [t0; t1] = [0; y] ++ rest ∧
    (length rest = 256 - length name)%nat) as (y & rest & Hyr & Hlr).
  { destruct (255 - length name)%nat as [|k] eqn:Hk; cbn.
    - exists t0, [t1]. split; [done | cbn; lia].
    - exists 0, (replicate k 0 ++ [t0; t1]). rewrite length_app, length_replicate. cbn. split; [done | lia]. }
  rewrite Hyr.
  pose proof (mem_write_at (HEV_SOCKS5_ADDR_TYPE_NAME :: Z.of_nat (length name) :: name) [0; y] (le16 (u16 port)) rest) as Hw.
  cbn [app] in Hw |- *. rewrite Hw by (done || (cbn; lia)).
  exists rest. cbn [mbind option_bind wire app]. split; [by rewrite <-app_assoc |].
  rewrite <-app_assoc. cbn. rewrite length_app. cbn. unfold SIZEOF_ADDR. lia.
Qed.

(** The string of a field that a name has filled. *)
Lemma cstr_full xs ys : Forall (λ b, 0 < b < 256) xs → cstr (xs ++ ys) = app xs <$> cstr ys.
Proof.
  induction 1 as [|x xs Hx _ IH]; cbn; [by destruct (cstr ys) |]. rewrite decide_False by lia. rewrite IH.
  by destruct (cstr ys).
Qed.

Lemma from_name_long block name port :
  length block = SIZEOF_ADDR → Forall (λ b, 0 < b < 256) name → (256 ≤ length name)%nat →
  match stored_name block name with
  | Some nm => ∃ rest, hev_socks5_addr_from_name block name port =
        Some (4 + Z.of_nat (length nm), wire (AName nm (u16 port)) ++ rest) ∧
      length (wire (AName nm (u16 port)) ++ rest) = SIZEOF_ADDR
  | None => hev_socks5_addr_from_name block name port = None
  end.
Proof.
  intros Hb Hn Hl. unfold SIZEOF_ADDR in Hb.
  destruct (block_split name 256) as (a & tl & -> & Ha); [lia |]. apply Forall_app in Hn as [Hna _].
  destruct block as [|b0 [|b1 block]]; [done.. |]. cbn in Hb.
  destruct (block_split block 256) as (old & tl2 & -> & Hold); [lia |].
  rewrite length_app in Hb. destruct tl2 as [|t0 [|t1 [|? ?]]]; try (cbn in Hb; lia).
  assert (strncpy_bytes (a ++ tl) 256 = a) as Hs.
  { unfold strncpy_bytes. rewrite take_app_length' by done. replace (256 - length (a ++ tl))%nat with 0%nat by lia.
    by rewrite app_nil_r. }
  assert ((b0 :: b1 :: old ++ [t0; t1]) !! 258%nat = Some t0) as E0.
  { change ((old ++ [t0; t1]) !! 256%nat = Some t0). rewrite lookup_app_r by lia. by rewrite Hold. }
  assert ((b0 :: b1 :: old ++ [t0; t1]) !! 259%nat = Some t1) as E1.
  { change ((old ++ [t0; t1]) !! 257%nat = Some t1). rewrite lookup_app_r by lia. by rewrite Hold. }
  unfold stored_name. rewrite decide_False by lia. rewrite E0, E1. unfold hev_socks5_addr_from_name.
  rewrite mem_set_0. cbn [mbind option_bind]. rewrite Hs, mem_write_2 by congruence. cbn [mbind option_bind drop].
  rewrite drop_0, cstr_full by done. destruct a as [|a0 [|a1 [|a2 a]]]; try done. unfold SIZEOF_ADDR.
  cbn [cstr]. destruct (decide (t0 = 0)) as [-> | H0].
  - rewrite decide_True by done. cbn [fmap option_fmap option_map mbind option_bind]. rewrite app_nil_r, Ha.
    change (u8 (Z.of_nat 256)) with 0. rewrite mem_set_1. cbn [mbind option_bind].
    pose proof (mem_write_2 HEV_SOCKS5_ADDR_TYPE_NAME 0 [a0; a1] (le16 (u16 port)) ((a2 :: a) ++ [0; t1]) eq_refl) as Hw.
    change (2 + 0) with 2. cbn [app] in Hw |- *. rewrite Hw. cbn [mbind option_bind].
    exists ((a2 :: a) ++ [0; t1]). split; [done |]. cbn in Ha |- *. rewrite length_app. cbn. lia.
  - rewrite decide_False by congruence. destruct (decide (t1 = 0)) as [-> | H1].
    + rewrite decide_True by done. cbn [fmap option_fmap option_map mbind option_bind].
      rewrite length_app, Ha. change (u8 (Z.of_nat (256 + length [t0]))) with 1. rewrite mem_set_1. cbn [mbind option_bind].
      pose proof (mem_write_at [HEV_SOCKS5_ADDR_TYPE_NAME; 1; a0] [a1; a2] (le16 (u16 port)) (a ++ [t0; 0]) 3 eq_refl eq_refl) as Hw.
      change (2 + 1) with 3. cbn [app] in Hw |- *. rewrite Hw. cbn [mbind option_bind].
      exists (a ++ [t0; 0]). split; [done |]. cbn in Ha |- *. rewrite length_app. cbn. lia.
    + by rewrite decide_False by congruence.
Qed.

(** [hev_socks5_addr_from_name] on a [HevSocks5Addr], for every name. *)
Lemma from_name_spec block name port :
  length block = SIZEOF_ADDR → Forall (λ b, 0 < b < 256) name →
  match stored_name block name with
  | Some nm => ∃ rest, hev_socks5_addr_from_name block name port =
        Some (4 + Z.of_nat (length nm), wire (AName nm (u16 port)) ++ rest) ∧
      length (wire (AName nm (u16 port)) ++ rest) = SIZEOF_ADDR
  | None => hev_socks5_addr_from_name block name port = None
  end.
Proof.
  intros Hb Hn. destruct (decide (length name ≤ 255)%nat) as [Hl | Hl]; [|apply from_name_long; done || lia].
  rewrite stored_name_short by done. by apply from_name_short.
Qed.

(** ** Theorems *)

(** C14. Socket addresses survive the codec: any IPv6 or IPv4-mapped socket
    address written by [hev_socks5_addr_from_sockaddr6] has the length the
    function returns and [hev_socks5_addr_len] computes, stays inside the
    block, and is read back unchanged, with its family, by
    [hev_socks5_addr_into_sockaddr6]. *)
Theorem addr_sockaddr_round_trip block sa :
  (19 ≤ length block)%nat → length (sin6_addr sa) = 16%nat → sin6_family sa = AF_INET6 →
  0 ≤ sin6_port sa < 65536 →
  ∃ n block', hev_socks5_addr_from_sockaddr6 block sa = Some (n, block') ∧
    hev_socks5_addr_len block' = Some n ∧ length block' = length block ∧
    ∀ p4 p6 (S : Type) sa0 fam (s : S),
      hev_socks5_addr_into_sockaddr6 p4 p6 block' sa0 fam s = Ret ((0, sa, family_of sa), s).
Proof.
  intros H1 H2 H3 H4. destruct (from_sockaddr6_spec block sa H1 H2 H3 H4) as (n & b & ? & ? & ? & _ & ?).
  by exists n, b.
Qed.

Definition demo_sockaddr : sockaddr_in6 := mkSockaddr AF_INET6 20480 (v4_prefix ++ [10; 0; 0; 1]).

Lemma addr_sockaddr_round_trip_witness :
  ∃ n block', hev_socks5_addr_from_sockaddr6 (replicate 19 0) demo_sockaddr = Some (n, block') ∧
    hev_socks5_addr_len block' = Some n ∧ length block' = 19%nat ∧
    ∀ p4 p6 (S : Type) sa0 fam (s : S),
      hev_socks5_addr_into_sockaddr6 p4 p6 block' sa0 fam s = Ret ((0, demo_sockaddr, AF_INET), s).
Proof. apply (addr_sockaddr_round_trip (replicate 19 0) demo_sockaddr); cbn; try done; lia. Defined.

(** [hev_socks5_addr_from_name] on a [HevSocks5Addr]: a name of at most
    255 bytes gives the block type, length, name, port and the returned
    length; but for any longer name the length byte of a zeroed structure
    becomes 0, and the block denotes the empty name. *)
Theorem addr_from_name_bounds name port :
  Forall (λ b, 0 < b < 256) name →
  ∃ n block', hev_socks5_addr_from_name (replicate SIZEOF_ADDR 0) name port = Some (n, block') ∧
    length block' = SIZEOF_ADDR ∧ hev_socks5_addr_len block' = Some n ∧
    n = (if decide (length name ≤ 255)%nat then 4 + Z.of_nat (length name) else 4) ∧
    take (Z.to_nat n) block' =
      wire (AName (if decide (length name ≤ 255)%nat then name else []) (u16 port)).
Proof.
  intros Hn. pose proof (from_name_spec (replicate SIZEOF_ADDR 0) name port eq_refl Hn) as H.
  assert (stored_name (replicate SIZEOF_ADDR 0) name = Some (if decide (length name ≤ 255)%nat then name else [])) as E
    by (unfold stored_name; case_decide; done).
  rewrite E in H. destruct H as (rest & Ef & Hlen). eexists _, _. split; [exact Ef |]. split; [done |].
  split; [done |]. split; [by case_decide |]. rewrite take_app_le by (cbn; rewrite length_app; cbn; lia).
  apply take_ge. cbn. rewrite length_app. cbn. lia.
Qed.

Lemma addr_from_name_bounds_witness :
  ∃ n block', hev_socks5_addr_from_name (replicate SIZEOF_ADDR 0) [97; 46; 98] 20480 = Some (n, block') ∧
    length block' = SIZEOF_ADDR ∧ hev_socks5_addr_len block' = Some n ∧ n = 7 ∧
    take (Z.to_nat n) block' = [3; 3; 97; 46; 98; 0; 80].
Proof. apply (addr_from_name_bounds [97; 46; 98] 20480). repeat constructor; lia. Defined.
