(* ===== verification/Interfaces.v ===== *)
(** * What the pointer structures promise to their clients

    The mapped-DNS table, the session set, the frame queue and the
    authenticator use the intrusive list and the red-black tree only through
    the operations below.  Their theorems are proved against these classes;
    [DList] and [RBTree] discharge them for the pointer code. *)

From stdpp Require Import sorting.
From S2P Require Import Prelude.

Definition first_of (d : ptr) (xs : list ptr) : ptr := default d (list.head xs).
Definition last_of (d : ptr) (xs : list ptr) : ptr := default d (list.last xs).

Lemma last_of_snoc d xs x : last_of d (xs ++ [x]) = x.
Proof. unfold last_of. by rewrite last_snoc. Qed.

(** ** Intrusive lists *)

Class LinkedList (S : Type) := {
  ll_empty : S;
  (** storage for a node at an address, as a fresh record brings it *)
  ll_alloc : ptr → S → S;
  ll_free : ptr → S → S;
  ll_first : M S ptr;
  ll_next : ptr → M S ptr;
  ll_add_tail : ptr → M S unit;
  ll_del : ptr → M S unit;
  (** the list holds exactly these nodes, in this order *)
  ll_rep : S → list ptr → Prop;
  (** the node's storage exists *)
  ll_ready : S → ptr → Prop;
  ll_rep_empty : ll_rep ll_empty [];
  ll_rep_nodup s xs : ll_rep s xs → NoDup xs ∧ NULL ∉ xs;
  ll_alloc_spec s xs p :
    ll_rep s xs → p ∉ xs → ll_rep (ll_alloc p s) xs ∧ ll_ready (ll_alloc p s) p;
  ll_free_spec s xs p : ll_rep s xs → p ∉ xs → ll_rep (ll_free p s) xs;
  ll_next_spec s xs p ys :
    ll_rep s (xs ++ p :: ys) → ll_next p s = Some (first_of NULL ys, s);
  ll_first_spec s xs : ll_rep s xs → ll_first s = Some (first_of NULL xs, s);
  ll_add_tail_spec s xs p :
    ll_rep s xs → p ∉ xs → p ≠ NULL → ll_ready s p →
    ∃ s', ll_add_tail p s = Some (tt, s') ∧ ll_rep s' (xs ++ [p]);
  ll_del_spec s xs p ys :
    ll_rep s (xs ++ p :: ys) →
    ∃ s', ll_del p s = Some (tt, s') ∧ ll_rep s' (xs ++ ys) ∧ ll_ready s' p;
  (** the nodes follow each other to the end, whatever became of those before
      them *)
  ll_chain : S → list ptr → Prop;
  ll_rep_chain s xs : ll_rep s xs → ll_chain s xs;
  ll_chain_next s p xs : ll_chain s (p :: xs) → ll_next p s = Some (first_of NULL xs, s);
  ll_chain_free s p xs : ll_chain s (p :: xs) → ll_chain (ll_free p s) xs;
}.

(** Unlinking a node and linking it at the tail again: the
    least-recently-used discipline of all the clients. *)
Definition ll_touch {S} `{LinkedList S} (p : ptr) : M S unit :=
  ll_del p;; ll_add_tail p.

Lemma ll_touch_spec {S} `{LinkedList S} s xs p ys :
  ll_rep s (xs ++ p :: ys) →
  ∃ s', ll_touch p s = Some (tt, s') ∧ ll_rep s' (xs ++ ys ++ [p]).
Proof.
  intros Hr. destruct (ll_rep_nodup _ _ Hr) as [Hnd Hnn].
  destruct (ll_del_spec _ _ _ _ Hr) as (s1 & E1 & Hr1 & Hrdy).
  destruct (ll_add_tail_spec s1 (xs ++ ys) p) as (s2 & E2 & Hr2); [done | | | done |].
  - apply NoDup_app in Hnd as (_ & Hd & [Hp _]%NoDup_cons).
    rewrite elem_of_app. intros [?|?]; [|done]. apply (Hd p); set_solver.
  - set_solver.
  - exists s2. unfold ll_touch. rewrite (mbind_some _ _ _ _ _ E1).
    rewrite <-app_assoc in Hr2. done.
Qed.

(** ** Search trees *)

(** Node addresses: not null, and the two low bits are free. *)
Definition aligned (p : ptr) : Prop := Z.land p 3 = 0.
Definition okptr (p : ptr) : Prop := p ≠ NULL ∧ aligned p.

(** The address of a child pointer, as the clients' descents hold it in
    [HevRBTreeNode **new]. *)
Inductive link := LRoot | LLeft (p : ptr) | LRight (p : ptr).

Definition link_parent (k : link) : ptr :=
  match k with LRoot => NULL | LLeft p => p | LRight p => p end.

(** A search tree over a store [S].  The clients compare keys themselves and
    descend link by link: [tr_at s k A m B] says the link [k] holds a subtree
    with the nodes [m], between the nodes [A] and the nodes [B]. *)
Class SearchTree (S : Type) := {
  tr_empty : S;
  tr_alloc : ptr → S → S;
  tr_free : ptr → S → S;
  tr_load : link → M S ptr;
  tr_link : ptr → ptr → link → M S unit;
  tr_insert_color : ptr → M S unit;
  tr_erase : ptr → M S unit;
  tr_first : M S ptr;
  tr_fuel : S → nat;
  tr_rep : S → list ptr → Prop;
  tr_at : S → link → list ptr → list ptr → list ptr → Prop;
  tr_ready : S → ptr → Prop;
  tr_rep_empty : tr_rep tr_empty [];
  tr_rep_ok s l : tr_rep s l → NoDup l ∧ Forall okptr l ∧ (length l < tr_fuel s)%nat;
  tr_root_spec s l : tr_rep s l → tr_at s LRoot [] l [];
  tr_load_spec s k A m B :
    tr_at s k A m B →
    ∃ p, tr_load k s = Some (p, s) ∧
      ((p = NULL ∧ m = []) ∨
       (p ≠ NULL ∧ ∃ l r, m = l ++ p :: r ∧
          tr_at s (LLeft p) A l (p :: r ++ B) ∧ tr_at s (LRight p) (A ++ l ++ [p]) r B));
  tr_alloc_spec s k A m B p :
    tr_at s k A m B → p ∉ A ++ m ++ B →
    tr_at (tr_alloc p s) k A m B ∧ tr_ready (tr_alloc p s) p;
  tr_insert_spec s k A B p :
    tr_at s k A [] B → p ∉ A ++ B → okptr p → tr_ready s p →
    ∃ s1 s2, tr_link p (link_parent k) k s = Some (tt, s1) ∧
      tr_insert_color p s1 = Some (tt, s2) ∧ tr_rep s2 (A ++ p :: B);
  tr_erase_spec s A p B :
    tr_rep s (A ++ p :: B) →
    ∃ s', tr_erase p s = Some (tt, s') ∧ tr_rep s' (A ++ B);
  tr_free_spec s l p : tr_rep s l → p ∉ l → tr_rep (tr_free p s) l;
  tr_first_spec s l : tr_rep s l → tr_first s = Some (first_of NULL l, s);
}.

(** ** Searching by key *)

Lemma sorted_mono {A} (R R' : A → A → Prop) xs :
  (∀ x y, x ∈ xs → y ∈ xs → R x y → R' x y) → StronglySorted R xs → StronglySorted R' xs.
Proof.
  induction xs as [|x xs IH]; intros Himp; [constructor |].
  intros [Hs Hf]%StronglySorted_inv. rewrite Forall_forall in Hf. constructor.
  - apply IH; [set_solver | done].
  - apply Forall_forall. set_solver.
Qed.


(** The loop all the clients write: start at the root, compare the key of the
    node, go left or right, stop at an equal key or at an empty link.  [lift]
    runs an operation of the tree on the client's state. *)
Section Descend.
Context {T St : Type} `{!SearchTree T}.
Context (tree_of : St → T) (lift : ∀ A, M T A → M St A) (cmp : ptr → M St Z).

Fixpoint tr_descend (fuel : nat) (new : link) (parent : ptr) : M St (ptr + ptr * link) :=
  match fuel with
  | O => mfail
  | S fuel =>
      n ← lift _ (tr_load new);
      if decide (n = NULL) then mret (inr (parent, new))
      else
        res ← cmp n;
        if decide (res < 0) then tr_descend fuel (LLeft n) n
        else if decide (res > 0) then tr_descend fuel (LRight n) n
        else mret (inl n)
  end.

Context (lift_pure : ∀ A (m : M T A) s a, m (tree_of s) = Some (a, tree_of s) → lift A m s = Some (a, s)).
Context (s : St) (f : ptr → Z).

(** Once the comparison is not positive it is negative: the keys are in
    descending order. *)
Definition cmp_sorted (p q : ptr) : Prop := f p ≤ 0 → f q < 0.

Lemma tr_descend_spec fuel lk A m B :
  tr_at (tree_of s) lk A m B → (∀ p, p ∈ m → cmp p s = Some (f p, s)) →
  StronglySorted cmp_sorted m → (length m < fuel)%nat →
  (∃ n, tr_descend fuel lk (link_parent lk) s = Some (inl n, s) ∧ n ∈ m ∧ f n = 0) ∨
  (∃ lk' A' B', tr_descend fuel lk (link_parent lk) s = Some (inr (link_parent lk', lk'), s) ∧
     m = A' ++ B' ∧ tr_at (tree_of s) lk' (A ++ A') [] (B' ++ B) ∧
     (∀ p, p ∈ A' → f p > 0) ∧ (∀ p, p ∈ B' → f p < 0)).
Proof.
  revert lk A m B; induction fuel as [|fuel IH]; intros lk A m B Hat Hdom Hso Hf; [lia |].
  cbn [tr_descend]. destruct (tr_load_spec _ _ _ _ _ Hat) as (p & Ep & Hp).
  rewrite (mbind_some _ _ _ _ _ (lift_pure _ _ _ _ Ep)).
  destruct Hp as [[-> ->] | (Hp & l & r & -> & Hl & Hr)].
  { right. exists lk, [], []. rewrite decide_True by done. rewrite !app_nil_r.
    split_and!; [done | done | done | |]; intros p ?%elem_of_nil; done. }
  rewrite decide_False by done.
  rewrite !(mbind_some _ _ _ _ _ (Hdom p ltac:(set_solver))).
  apply StronglySorted_app in Hso as (Hlp & Hsl & (Hpr & Hsr)%StronglySorted_cons).
  rewrite length_app in Hf; cbn in Hf. rewrite Forall_forall in Hpr. unfold cmp_sorted in Hlp, Hpr.
  destruct (decide (f p < 0)) as [Hlt | Hge]; [|destruct (decide (f p > 0)) as [Hgt | Hle]].
  - destruct (IH (LLeft p) A l (p :: r ++ B)) as [(n & E & Hn & Hnn) | (lk' & A' & B' & E & Hm & Hat' & H1 & H2)];
      [done | set_solver | done | lia | left | right].
    + exists n. split_and!; [done | set_solver | done].
    + exists lk', A', (B' ++ p :: r).
      split_and!; [done | by rewrite Hm, <-app_assoc | by rewrite <-app_assoc | done |].
      intros q [Hq | [-> | Hq]%elem_of_cons]%elem_of_app; [by apply H2 | done |].
      apply (Hpr q Hq). lia.
  - destruct (IH (LRight p) (A ++ l ++ [p]) r B) as [(n & E & Hn & Hnn) | (lk' & A' & B' & E & Hm & Hat' & H1 & H2)];
      [done | set_solver | done | lia | left | right].
    + exists n. split_and!; [done | set_solver | done].
    + exists lk', (l ++ p :: A'), B'.
      split_and!; [done | by rewrite Hm, <-app_assoc | by rewrite <-!app_assoc in * | | done].
      intros q [Hq | [-> | Hq]%elem_of_cons]%elem_of_app; [| done | by apply H1].
      destruct (decide (f q > 0)); [done |]. specialize (Hlp q p Hq ltac:(set_solver)). lia.
  - left. exists p. split_and!; [done | set_solver | lia].
Qed.
End Descend.
