(* ===== verification/RingBuffer.v ===== *)
(** * The ring buffer between the upstream socket and lwIP

    Model of [src/misc/hev-ring-buffer.{h,c}].  A session reads the SOCKS5
    socket into the free space ([hev_ring_buffer_writing], [readv],
    [hev_ring_buffer_write_finish]), hands the readable bytes to [tcp_write]
    without copying ([hev_ring_buffer_reading], [hev_ring_buffer_read_finish])
    and gives the space back when lwIP reports them acknowledged
    ([hev_ring_buffer_read_release]).  Bytes between the two are in flight:
    already read, still owned by lwIP.

    The abstract component is a bounded FIFO of bytes with an in-flight
    prefix ([queue]); [refines] relates the two and the theorems show each
    operation implements the abstract one, for every interleaving. *)

From S2P Require Import Prelude.

(** ** The data structure *)

(** [struct _HevRingBuffer]: the five [size_t] fields and the flexible array
    member [data]. *)
Record HevRingBuffer := mkRing {
  rp : Z;
  wp : Z;
  rda_size : Z;
  use_size : Z;
  max_size : Z;
  data : list Z;
}.

(** [struct iovec]; [iov_base] is an offset into [data]. *)
Record iovec := mkIov { iov_base : Z; iov_len : Z }.

(** The macro [hev_ring_buffer_alloca]: [mem] is what [alloca] leaves in the
    array.  The [int] argument is converted to [size_t]. *)
Definition hev_ring_buffer_alloca (mem : list Z) (s : Z) : HevRingBuffer :=
  mkRing 0 0 0 0 (u64 s) mem.

Definition hev_ring_buffer_get_max_size (self : HevRingBuffer) : Z :=
  max_size self.

Definition hev_ring_buffer_get_use_size (self : HevRingBuffer) : Z :=
  use_size self.

(** The number of iovecs the C function returns is the length of the list. *)
Definition hev_ring_buffer_reading (self : HevRingBuffer) : list iovec :=
  if decide (rda_size self = 0) then []
  else
    let upper_size := u64 (max_size self - rp self) in
    if decide (rda_size self ≤ upper_size)
    then [mkIov (rp self) (rda_size self)]
    else [mkIov (rp self) upper_size; mkIov 0 (u64 (rda_size self - upper_size))].

Definition hev_ring_buffer_read_finish (self : HevRingBuffer) (size : Z) : HevRingBuffer :=
  mkRing (u64 (rp self + size) mod max_size self) (wp self)
    (u64 (rda_size self - size)) (use_size self) (max_size self) (data self).

Definition hev_ring_buffer_read_release (self : HevRingBuffer) (size : Z) : HevRingBuffer :=
  let use := u64 (use_size self - size) in
  if decide (use = 0)
  then mkRing 0 0 (rda_size self) use (max_size self) (data self)
  else mkRing (rp self) (wp self) (rda_size self) use (max_size self) (data self).

Definition hev_ring_buffer_writing (self : HevRingBuffer) : list iovec :=
  if decide (use_size self = max_size self) then []
  else
    let upper_size := u64 (max_size self - wp self) in
    let spc_size := u64 (max_size self - use_size self) in
    if decide (spc_size ≤ upper_size)
    then [mkIov (wp self) spc_size]
    else [mkIov (wp self) upper_size; mkIov 0 (u64 (spc_size - upper_size))].

Definition hev_ring_buffer_write_finish (self : HevRingBuffer) (size : Z) : HevRingBuffer :=
  mkRing (rp self) (u64 (wp self + size) mod max_size self)
    (u64 (rda_size self + size)) (u64 (use_size self + size)) (max_size self) (data self).

(** ** What [readv] and [tcp_write] do with the iovecs *)

(** [memcpy (d + off, bs, |bs|)]. *)
Definition store_at (off : Z) (bs d : list Z) : list Z :=
  take (Z.to_nat off) d ++ bs ++ drop (Z.to_nat off + length bs) d.

Definition slice (off len : Z) (d : list Z) : list Z :=
  take (Z.to_nat len) (drop (Z.to_nat off) d).

(** [readv]: fill the vectors in order with the received bytes. *)
Fixpoint scatter (iov : list iovec) (bs d : list Z) : list Z :=
  match iov with
  | [] => d
  | v :: iov =>
      scatter iov (drop (Z.to_nat (iov_len v)) bs)
        (store_at (iov_base v) (take (Z.to_nat (iov_len v)) bs) d)
  end.

(** The bytes [tcp_write] is given, vector after vector. *)
Definition gather (iov : list iovec) (d : list Z) : list Z :=
  concat (map (fun v => slice (iov_base v) (iov_len v) d) iov).

Definition iov_total (iov : list iovec) : Z := foldr Z.add 0 (map iov_len iov).

(** [readv] of [bs] into the writing vectors followed by [write_finish], as in
    [tcp_splice_b]. *)
Definition ring_write (self : HevRingBuffer) (bs : list Z) : HevRingBuffer :=
  let d := scatter (hev_ring_buffer_writing self) bs (data self) in
  hev_ring_buffer_write_finish
    (mkRing (rp self) (wp self) (rda_size self) (use_size self) (max_size self) d)
    (Z.of_nat (length bs)).

(** ** The abstract queue *)

Record queue := mkQueue { inflight : list Z; ready : list Z }.

Definition q_empty : queue := mkQueue [] [].
Definition q_push (bs : list Z) (q : queue) : queue :=
  mkQueue (inflight q) (ready q ++ bs).
Definition q_send (n : nat) (q : queue) : queue :=
  mkQueue (inflight q ++ take n (ready q)) (drop n (ready q)).
Definition q_ack (n : nat) (q : queue) : queue :=
  mkQueue (drop n (inflight q)) (ready q).

Definition q_all (q : queue) : list Z := inflight q ++ ready q.

(** ** Representation invariant *)

(** Physical index of the [i]-th live byte. *)
Definition phys (self : HevRingBuffer) (i : Z) : Z :=
  (wp self - use_size self + i) mod max_size self.

Record ring_wf (self : HevRingBuffer) : Prop := {
  wf_max : 0 < max_size self ≤ 2 ^ 62;
  wf_len : Z.of_nat (length (data self)) = max_size self;
  wf_wp : 0 ≤ wp self < max_size self;
  wf_rda : 0 ≤ rda_size self ≤ use_size self;
  wf_use : use_size self ≤ max_size self;
  wf_rp : rp self = phys self (use_size self - rda_size self);
}.

Record refines (self : HevRingBuffer) (q : queue) : Prop := {
  ref_wf : ring_wf self;
  ref_rda : rda_size self = Z.of_nat (length (ready q));
  ref_use : use_size self = Z.of_nat (length (q_all q));
  ref_bytes : ∀ i : nat, (i < length (q_all q))%nat →
    data self !! Z.to_nat (phys self (Z.of_nat i)) = q_all q !! i;
}.

(** ** Lists stored in an array *)

Lemma store_at_lookup off bs d (i : nat) :
  0 ≤ off → (Z.to_nat off + length bs ≤ length d)%nat →
  store_at off bs d !! i =
    if decide (Z.to_nat off ≤ i < Z.to_nat off + length bs)%nat
    then bs !! (i - Z.to_nat off)%nat else d !! i.
Proof.
  intros Hoff Hlen. unfold store_at.
  assert (length (take (Z.to_nat off) d) = Z.to_nat off) as Ht
    by (rewrite length_take; lia).
  case_decide as Hd.
  - rewrite lookup_app_r by lia. rewrite Ht, lookup_app_l by lia. done.
  - destruct (decide (i < Z.to_nat off)%nat).
    + rewrite lookup_app_l by lia. rewrite lookup_take_lt by lia. done.
    + rewrite lookup_app_r by lia. rewrite lookup_app_r by lia.
      rewrite Ht, lookup_drop. f_equal. lia.
Qed.

Lemma store_at_length off bs d :
  0 ≤ off → (Z.to_nat off + length bs ≤ length d)%nat →
  length (store_at off bs d) = length d.
Proof.
  intros. unfold store_at. rewrite !length_app, length_take, length_drop. lia.
Qed.

Lemma slice_lookup off len d (i : nat) :
  slice off len d !! i =
    if decide (i < Z.to_nat len)%nat then d !! (Z.to_nat off + i)%nat else None.
Proof.
  unfold slice. case_decide.
  - rewrite lookup_take_lt, lookup_drop by lia. done.
  - apply lookup_take_ge. lia.
Qed.

(** ** No wrap-around inside the invariant *)

Section Sizes.
Context (self : HevRingBuffer) (Hwf : ring_wf self).

Lemma ring_sizes :
  u64 (max_size self - rp self) = max_size self - rp self ∧
  u64 (max_size self - wp self) = max_size self - wp self ∧
  u64 (max_size self - use_size self) = max_size self - use_size self ∧
  0 ≤ rp self < max_size self.
Proof.
  destruct Hwf as [Hmax _ Hwp Hrda Huse Hrp].
  assert (0 ≤ rp self < max_size self) as Hr.
  { rewrite Hrp. unfold phys. apply Z.mod_pos_bound. lia. }
  rewrite !u64_small by lia. done.
Qed.

(** The vectors offered to [readv] lie inside the array and offer exactly the
    free space. *)
Lemma writing_in_bounds :
  Forall (fun v => 0 ≤ iov_base v ∧ 0 < iov_len v ∧ iov_base v + iov_len v ≤ max_size self)
    (hev_ring_buffer_writing self) ∧
  iov_total (hev_ring_buffer_writing self) = max_size self - use_size self.
Proof.
  destruct ring_sizes as (H1 & H2 & H3 & H4), Hwf as [Hmax _ Hwp Hrda Huse Hrp].
  unfold hev_ring_buffer_writing. case_decide; [split; [constructor | cbn; lia] |].
  rewrite H2, H3. case_decide.
  - split; [repeat constructor; cbn; lia | cbn; lia].
  - rewrite u64_small by lia.
    split; [repeat constructor; cbn; lia | cbn; lia].
Qed.

Lemma reading_in_bounds :
  Forall (fun v => 0 ≤ iov_base v ∧ 0 < iov_len v ∧ iov_base v + iov_len v ≤ max_size self)
    (hev_ring_buffer_reading self) ∧
  iov_total (hev_ring_buffer_reading self) = rda_size self.
Proof.
  destruct ring_sizes as (H1 & H2 & H3 & H4), Hwf as [Hmax _ Hwp Hrda Huse Hrp].
  unfold hev_ring_buffer_reading. case_decide; [split; [constructor | cbn; lia] |].
  rewrite H1. case_decide.
  - split; [repeat constructor; cbn; lia | cbn; lia].
  - rewrite u64_small by lia.
    split; [repeat constructor; cbn; lia | cbn; lia].
Qed.

(** [readv] into the offered vectors stores byte [j] at index [wp + j] modulo
    the capacity and touches nothing else. *)
Lemma scatter_writing bs (i : nat) :
  Z.of_nat (length bs) ≤ max_size self - use_size self → (i < length (data self))%nat →
  scatter (hev_ring_buffer_writing self) bs (data self) !! i =
    let j := (Z.of_nat i - wp self) mod max_size self in
    if decide (j < Z.of_nat (length bs)) then bs !! Z.to_nat j else data self !! i.
Proof.
  intros Hbs Hi. destruct ring_sizes as (H1 & H2 & H3 & H4), Hwf as [Hmax Hlen Hwp Hrda Huse Hrp].
  unfold hev_ring_buffer_writing. case_decide.
  - destruct bs; [|simpl in Hbs; lia]. cbn [scatter length].
    cbv zeta. case_decide as Hd; [|done]. exfalso.
    pose proof (Z.mod_pos_bound (Z.of_nat i - wp self) (max_size self)). simpl in Hd. lia.
  - rewrite H2, H3. case_decide; cbn [scatter iov_base iov_len].
    + rewrite take_ge by lia. rewrite store_at_lookup by lia. cbv zeta.
      zmod_split; repeat case_decide; try lia; try done.
      f_equal. lia.
    + rewrite u64_small by lia.
      assert (length (take (Z.to_nat (max_size self - wp self)) bs) =
        Nat.min (Z.to_nat (max_size self - wp self)) (length bs)) as Ht by apply length_take.
      assert (length (drop (Z.to_nat (max_size self - wp self)) bs) =
        (length bs - Z.to_nat (max_size self - wp self))%nat) as Hdr by apply length_drop.
      rewrite (take_ge (drop _ _)) by lia.
      rewrite store_at_lookup; [|lia|rewrite store_at_length; lia].
      rewrite store_at_lookup by lia. cbv zeta.
      zmod_split; repeat case_decide; try lia; try done.
      * rewrite lookup_drop. f_equal. lia.
      * rewrite lookup_take_lt by lia. f_equal. lia.
Qed.

Lemma scatter_length bs :
  Z.of_nat (length bs) ≤ max_size self - use_size self →
  length (scatter (hev_ring_buffer_writing self) bs (data self)) = length (data self).
Proof.
  intros Hbs. destruct ring_sizes as (H1 & H2 & H3 & H4), Hwf as [Hmax Hlen Hwp Hrda Huse Hrp].
  unfold hev_ring_buffer_writing. case_decide; [done |].
  rewrite H2, H3. case_decide; cbn [scatter iov_base iov_len].
  - rewrite store_at_length; [done | lia | rewrite length_take; lia].
  - rewrite u64_small by lia.
    assert (length (store_at (wp self) (take (Z.to_nat (max_size self - wp self)) bs) (data self))
      = length (data self)) as Hl by (apply store_at_length; rewrite ?length_take; lia).
    rewrite store_at_length; rewrite ?Hl, ?length_take, ?length_drop; lia.
Qed.

(** Byte [i] of what is handed to lwIP is the byte at [rp + i]. *)
Lemma gather_reading (i : nat) :
  gather (hev_ring_buffer_reading self) (data self) !! i =
    if decide (Z.of_nat i < rda_size self)
    then data self !! Z.to_nat ((rp self + Z.of_nat i) mod max_size self) else None.
Proof.
  destruct ring_sizes as (H1 & H2 & H3 & H4), Hwf as [Hmax Hlen Hwp Hrda Huse Hrp].
  unfold hev_ring_buffer_reading, gather. case_decide.
  { case_decide; [lia | done]. }
  rewrite H1. case_decide; cbn [map concat iov_base iov_len].
  - rewrite app_nil_r, slice_lookup. repeat case_decide; try lia; try done.
    zmod_split; f_equal; lia.
  - rewrite u64_small by lia. rewrite app_nil_r.
    assert (length (slice (rp self) (max_size self - rp self) (data self)) =
      Z.to_nat (max_size self - rp self)) as Hs.
    { unfold slice. rewrite length_take, length_drop. lia. }
    destruct (decide (i < Z.to_nat (max_size self - rp self))%nat).
    + rewrite lookup_app_l by lia. rewrite slice_lookup.
      repeat case_decide; try lia; try done. zmod_split; f_equal; lia.
    + rewrite lookup_app_r by lia. rewrite Hs, slice_lookup.
      repeat case_decide; try lia; try done. zmod_split; f_equal; lia.
Qed.
End Sizes.

(** ** Each operation implements the abstract one *)

Ltac ring_cbn := cbn [rp wp rda_size use_size max_size data].

Lemma refines_alloca mem s :
  0 < s ≤ 2 ^ 31 - 1 → Z.of_nat (length mem) = s →
  refines (hev_ring_buffer_alloca mem s) q_empty.
Proof.
  intros Hs Hl. unfold hev_ring_buffer_alloca.
  rewrite u64_small by lia.
  split; [split | ..]; cbn; try lia.
  unfold phys; cbn. by rewrite Z.mod_0_l by lia.
Qed.

Section Refinement.
Context (self : HevRingBuffer) (q : queue) (Href : refines self q).

Lemma refines_write bs :
  Z.of_nat (length bs) ≤ max_size self - use_size self →
  refines (ring_write self bs) (q_push bs q).
Proof.
  intros Hbs. destruct Href as [Hwf Hrda Huse Hbytes].
  pose proof (scatter_length self Hwf bs Hbs) as Hsl.
  pose proof (scatter_writing self Hwf bs) as Hsc.
  destruct Hwf as [Hmax Hlen Hwp Hr1 Hu1 Hrp].
  assert (length (q_all (q_push bs q)) = (length (q_all q) + length bs)%nat) as Hla.
  { unfold q_all; cbn. rewrite !length_app. lia. }
  assert (∀ i, 0 ≤ i ≤ use_size self →
    phys (ring_write self bs) i = phys self i) as Hphys.
  { intros i Hi. unfold phys, ring_write, hev_ring_buffer_write_finish; cbn.
    rewrite !u64_small by lia. zmod_split; lia. }
  assert (0 ≤ (wp self + Z.of_nat (length bs)) mod max_size self < max_size self)
    by (apply Z.mod_pos_bound; lia).
  split; [split | ..]; unfold ring_write, hev_ring_buffer_write_finish; ring_cbn;
    rewrite ?u64_small by lia; try lia.
  - rewrite Hrp. unfold phys; cbn. zmod_split; lia.
  - unfold q_push; cbn. rewrite length_app. lia.
  - intros i Hi. rewrite Hla in Hi.
    assert (phys self (Z.of_nat i) =
      phys (mkRing (rp self) ((wp self + Z.of_nat (length bs)) mod max_size self)
        (rda_size self + Z.of_nat (length bs)) (use_size self + Z.of_nat (length bs))
        (max_size self) []) (Z.of_nat i)) as Hp.
    { unfold phys; cbn. zmod_split; lia. }
    unfold phys in Hp |- *; cbn in Hp |- *. rewrite <-Hp.
    assert (0 ≤ (wp self - use_size self + Z.of_nat i) mod max_size self < max_size self)
      by (apply Z.mod_pos_bound; lia).
    rewrite Hsc by lia. cbv zeta.
    unfold q_all, q_push; cbn. rewrite app_assoc. fold (q_all q).
    destruct (decide (i < length (q_all q))%nat) as [Hlt | Hge].
    + rewrite lookup_app_l by done. rewrite <-Hbytes by done. unfold phys.
      case_decide as Hd; [|done]. exfalso. revert Hd. zmod_split; lia.
    + rewrite lookup_app_r by lia. case_decide as Hd.
      * f_equal. revert Hd. zmod_split; lia.
      * exfalso. revert Hd. zmod_split; lia.
Qed.

(** The vectors handed to lwIP spell out the readable bytes, oldest first. *)
Lemma refines_reading : gather (hev_ring_buffer_reading self) (data self) = ready q.
Proof.
  destruct Href as [Hwf Hrda Huse Hbytes]. apply list_eq. intros i.
  rewrite gather_reading by done. destruct Hwf as [Hmax Hlen Hwp Hr1 Hu1 Hrp].
  assert (length (q_all q) = (length (inflight q) + length (ready q))%nat) as Hla
    by (unfold q_all; rewrite length_app; done).
  case_decide as Hd.
  - assert ((rp self + Z.of_nat i) mod max_size self =
      phys self (Z.of_nat (length (inflight q) + i))) as ->.
    { rewrite Hrp. unfold phys. zmod_split; lia. }
    rewrite Hbytes by lia. unfold q_all. rewrite lookup_app_r by lia. f_equal. lia.
  - symmetry. apply lookup_ge_None_2. lia.
Qed.

Lemma refines_send (n : nat) :
  (n ≤ length (ready q))%nat →
  refines (hev_ring_buffer_read_finish self (Z.of_nat n)) (q_send n q).
Proof.
  intros Hn. destruct Href as [Hwf Hrda Huse Hbytes].
  destruct Hwf as [Hmax Hlen Hwp Hr1 Hu1 Hrp].
  assert (q_all (q_send n q) = q_all q) as Hq.
  { unfold q_all, q_send; cbn. rewrite <-app_assoc, take_drop. done. }
  assert (0 ≤ rp self < max_size self)
    by (rewrite Hrp; unfold phys; apply Z.mod_pos_bound; lia).
  split; [split | ..]; rewrite ?Hq; unfold hev_ring_buffer_read_finish; ring_cbn;
    rewrite ?u64_small by lia; try lia.
  - rewrite Hrp. unfold phys; cbn. zmod_split; lia.
  - cbn [q_send ready]. rewrite length_drop. lia.
  - intros i Hi. rewrite <-Hbytes by done. done.
Qed.

Lemma refines_ack (n : nat) :
  (n ≤ length (inflight q))%nat →
  refines (hev_ring_buffer_read_release self (Z.of_nat n)) (q_ack n q).
Proof.
  intros Hn. destruct Href as [Hwf Hrda Huse Hbytes].
  destruct Hwf as [Hmax Hlen Hwp Hr1 Hu1 Hrp].
  assert (q_all (q_ack n q) = drop n (q_all q)) as Hq.
  { unfold q_all, q_ack; cbn. rewrite drop_app_le by done. done. }
  assert (length (q_all q) = (length (inflight q) + length (ready q))%nat) as Hla
    by (unfold q_all; rewrite length_app; done).
  assert (length (q_all (q_ack n q)) = (length (q_all q) - n)%nat) as Hla'
    by (rewrite Hq, length_drop; done).
  unfold hev_ring_buffer_read_release. rewrite u64_small by lia. case_decide.
  - split; [split | ..]; rewrite ?Hla'; ring_cbn; cbn [q_ack ready]; try lia.
    unfold phys; cbn. replace (0 - _ + _) with 0 by lia. by rewrite Z.mod_0_l by lia.
  - split; [split | ..]; rewrite ?Hla'; ring_cbn; cbn [q_ack ready]; try lia.
    + rewrite Hrp. unfold phys; cbn. f_equal. lia.
    + intros i Hi. rewrite Hq, lookup_drop, <-Hbytes by lia.
      do 2 f_equal. unfold phys; cbn. f_equal. lia.
Qed.
End Refinement.

(** ** A session's use of the buffer

    [p_in] is everything [readv] has delivered, [p_out] everything given to
    [tcp_write] and [p_acked] how much of it lwIP has reported as
    acknowledged ([tcp_sent_handler]).  The guards are the ones of the code:
    [readv] fills at most the offered vectors, [tcp_splice_b] passes on all
    the readable bytes, and lwIP acknowledges only what it was given. *)

Record pipe := mkPipe {
  p_ring : HevRingBuffer;
  p_in : list Z;
  p_out : list Z;
  p_acked : nat;
}.

Inductive pipe_step : pipe → pipe → Prop :=
| pipe_readv r i o a bs :
    (0 < length bs)%nat →
    Z.of_nat (length bs) ≤ iov_total (hev_ring_buffer_writing r) →
    pipe_step (mkPipe r i o a) (mkPipe (ring_write r bs) (i ++ bs) o a)
| pipe_tcp_write r i o a :
    hev_ring_buffer_reading r ≠ [] →
    pipe_step (mkPipe r i o a)
      (mkPipe (hev_ring_buffer_read_finish r (iov_total (hev_ring_buffer_reading r)))
         i (o ++ gather (hev_ring_buffer_reading r) (data r)) a)
| pipe_tcp_sent r i o a n :
    (a + n ≤ length o)%nat →
    pipe_step (mkPipe r i o a)
      (mkPipe (hev_ring_buffer_read_release r (Z.of_nat n)) i o (a + n)).

Definition pipe_init (mem : list Z) (s : Z) : pipe :=
  mkPipe (hev_ring_buffer_alloca mem s) [] [] 0.

(** What holds of every reachable pipe: the bytes given to lwIP are a prefix
    of the bytes received, and the buffer still stores all the bytes of it
    that are not acknowledged, followed by the bytes not yet passed on. *)
Definition pipe_ok (s : pipe) : Prop :=
  ∃ rest, p_in s = p_out s ++ rest ∧ (p_acked s ≤ length (p_out s))%nat ∧
    refines (p_ring s) (mkQueue (drop (p_acked s) (p_out s)) rest).

Lemma pipe_step_ok s s' : pipe_ok s → pipe_step s s' → pipe_ok s'.
Proof.
  intros (rest & Hin & Ha & Href) Hs.
  destruct Hs as [r i o a bs Hpos Hle | r i o a Hne | r i o a n Hn]; cbn in *.
  - exists (rest ++ bs); split_and!; cbn; [rewrite Hin, app_assoc; done | done |].
    apply (refines_write _ _ Href).
    rewrite (proj2 (writing_in_bounds _ (ref_wf _ _ Href))) in Hle. lia.
  - exists []. pose proof (refines_reading _ _ Href) as Hg. cbn in Hg. rewrite Hg.
    rewrite (proj2 (reading_in_bounds _ (ref_wf _ _ Href))), (ref_rda _ _ Href). cbn.
    rewrite app_nil_r, length_app. split_and!; [done | lia |].
    rewrite drop_app_le by done.
    pose proof (refines_send _ _ Href (length rest) ltac:(done)) as Hs.
    unfold q_send in Hs; cbn in Hs. rewrite (take_ge rest), (drop_ge rest) in Hs by lia. done.
  - exists rest; split_and!; cbn; [done | lia |].
    pose proof (refines_ack _ _ Href n) as Hk. cbn in Hk.
    rewrite length_drop in Hk. specialize (Hk ltac:(lia)).
    unfold q_ack in Hk; cbn in Hk. rewrite drop_drop in Hk. done.
Qed.

(** ** Properties *)

(** C1. First in, first out, without copying: in every run of a session on a
    buffer of [s] bytes, what has been given to lwIP is a prefix of what was
    received from the upstream socket, and every byte lwIP has not yet
    acknowledged is still unmodified in the buffer. *)
Theorem ring_buffer_fifo mem s st :
  0 < s ≤ 2 ^ 31 - 1 → Z.of_nat (length mem) = s →
  star pipe_step (pipe_init mem s) st →
  ∃ rest, p_in st = p_out st ++ rest ∧
    refines (p_ring st) (mkQueue (drop (p_acked st) (p_out st)) rest).
Proof.
  intros Hs Hm Hrun.
  apply (star_invariant _ pipe_ok) in Hrun; [|exact pipe_step_ok|].
  - destruct Hrun as (rest & Hi & _ & Hr). eauto.
  - exists []. split_and!; [done | done |]. by apply refines_alloca.
Qed.

Lemma ring_buffer_fifo_witness :
  ∃ rest, [7; 8] = [7; 8] ++ rest ∧
    refines (mkRing 2 2 0 1 3 [7; 8; 0]) (mkQueue (drop 1 [7; 8]) rest).
Proof.
  apply (ring_buffer_fifo [0; 0; 0] 3
    (mkPipe (mkRing 2 2 0 1 3 [7; 8; 0]) [7; 8] [7; 8] 1)); [cbn; lia | done |].
  eapply star_step.
  { apply (pipe_readv _ [] [] 0 [7; 8]); [cbn; lia | vm_compute; discriminate]. }
  eapply star_step. { apply pipe_tcp_write. vm_compute. discriminate. }
  eapply star_step. { apply (pipe_tcp_sent _ _ _ 0 1). vm_compute. lia. }
  apply star_refl.
Defined.

(** C2. Bounds: in a well-formed buffer the vectors returned by
    [hev_ring_buffer_writing] and [hev_ring_buffer_reading] stay inside the
    array, offer exactly the free space and exactly the readable bytes, and
    filling the offered space never disturbs a byte still in the queue. *)
Theorem ring_buffer_vectors self q bs :
  refines self q →
  Z.of_nat (length bs) ≤ iov_total (hev_ring_buffer_writing self) →
  Forall (fun v => 0 ≤ iov_base v ∧ iov_base v + iov_len v ≤ Z.of_nat (length (data self)))
    (hev_ring_buffer_writing self ++ hev_ring_buffer_reading self) ∧
  iov_total (hev_ring_buffer_writing self) = max_size self - use_size self ∧
  gather (hev_ring_buffer_reading self) (data self) = ready q ∧
  refines (ring_write self bs) (q_push bs q).
Proof.
  intros Href Hbs. pose proof (ref_wf _ _ Href) as Hwf.
  destruct (writing_in_bounds _ Hwf) as [Hw Ht], (reading_in_bounds _ Hwf) as [Hr _].
  split_and!; [| done | by apply refines_reading | apply refines_write; [done | lia]].
  rewrite (wf_len _ Hwf). apply Forall_app.
  split; eapply Forall_impl; try eassumption; cbn; lia.
Qed.

Lemma ring_buffer_vectors_witness :
  refines (ring_write (hev_ring_buffer_alloca [0; 0; 0; 0] 4) [5; 6; 7])
    (mkQueue [] [5; 6; 7]).
Proof.
  destruct (ring_buffer_vectors (hev_ring_buffer_alloca [0; 0; 0; 0] 4) q_empty [5; 6; 7])
    as (_ & _ & _ & H).
  - apply refines_alloca; [lia | reflexivity].
  - vm_compute. discriminate.
  - exact H.
Defined.
