(* ===== verification/DList.v ===== *)
(** * The intrusive doubly linked list

    Model of [src/misc/hev-list.{h,c}]: the list links the mapped-DNS records
    in least-recently-used order, the sessions of the tunnel and the frames
    of a UDP session.  The nodes live in a store keyed by address, so that
    [hev_list_del] unlinks a node through its own pointers, as the C code
    does, and never walks the list. *)

From S2P Require Import Prelude Interfaces.

(** ** The data structure *)

Record HevListNode := mkNode { next : ptr; prev : ptr }.
Record HevList := mkList { head : ptr; tail : ptr }.

(** A list head and the store its nodes live in. *)
Record lstore := mkLstore { l_self : HevList; l_nodes : gmap Z HevListNode }.

Definition hev_list_node_prev (node : ptr) : M lstore ptr := λ s,
  n ← l_nodes s !! node; Some (prev n, s).

Definition hev_list_node_next (node : ptr) : M lstore ptr := λ s,
  n ← l_nodes s !! node; Some (next n, s).

Definition hev_list_first : M lstore ptr := λ s, Some (head (l_self s), s).

Definition hev_list_last : M lstore ptr := λ s, Some (tail (l_self s), s).

Definition set_next (node v : ptr) : M lstore unit := λ s,
  n ← l_nodes s !! node;
  Some (tt, mkLstore (l_self s) (<[node := mkNode v (prev n)]> (l_nodes s))).

Definition set_prev (node v : ptr) : M lstore unit := λ s,
  n ← l_nodes s !! node;
  Some (tt, mkLstore (l_self s) (<[node := mkNode (next n) v]> (l_nodes s))).

Definition set_head (v : ptr) : M lstore unit := λ s,
  Some (tt, mkLstore (mkList v (tail (l_self s))) (l_nodes s)).

Definition set_tail (v : ptr) : M lstore unit := λ s,
  Some (tt, mkLstore (mkList (head (l_self s)) v) (l_nodes s)).

Definition hev_list_add_tail (new_ : ptr) : M lstore unit :=
  t ← hev_list_last;
  set_prev new_ t;;
  set_next new_ NULL;;
  t ← hev_list_last;
  (if decide (t ≠ NULL) then set_next t new_ else set_head new_);;
  set_tail new_.

Definition hev_list_del (node : ptr) : M lstore unit :=
  p ← hev_list_node_prev node;
  n ← hev_list_node_next node;
  (if decide (p ≠ NULL) then set_next p n else set_head n);;
  n ← hev_list_node_next node;
  p ← hev_list_node_prev node;
  (if decide (n ≠ NULL) then set_prev n p else set_tail p).

(** Storage for a node inside a freshly [calloc]ed record. *)
Definition node_alloc (node : ptr) (s : lstore) : lstore :=
  mkLstore (l_self s) (<[node := mkNode NULL NULL]> (l_nodes s)).

(** The record that holds the node is freed. *)
Definition node_free (node : ptr) (s : lstore) : lstore :=
  mkLstore (l_self s) (delete node (l_nodes s)).

Definition lstore_empty : lstore := mkLstore (mkList NULL NULL) ∅.

(** The loop [for (n = first; n; n = next (n))] the callers write; the fuel
    bounds the number of nodes visited. *)
Fixpoint list_walk (fuel : nat) (n : ptr) (s : lstore) : option (list ptr) :=
  match fuel with
  | O => None
  | S fuel =>
      if decide (n = NULL) then Some []
      else '(n', _) ← hev_list_node_next n s; cons n <$> list_walk fuel n' s
  end.

(** ** Representation *)

(** The nodes [xs] are linked both ways, between [pp] and [nn]. *)
Fixpoint dseg (m : gmap Z HevListNode) (pp : ptr) (xs : list ptr) (nn : ptr) : Prop :=
  match xs with
  | [] => True
  | x :: xs => m !! x = Some (mkNode (first_of nn xs) pp) ∧ dseg m x xs nn
  end.

Record dll (s : lstore) (xs : list ptr) : Prop := {
  dll_head : head (l_self s) = first_of NULL xs;
  dll_tail : tail (l_self s) = last_of NULL xs;
  dll_nodup : NoDup xs;
  dll_nonnull : NULL ∉ xs;
  dll_seg : dseg (l_nodes s) NULL xs NULL;
}.

(** Two stores that agree outside [xs]. *)
Definition same_outside (xs : list ptr) (s s' : lstore) : Prop :=
  dom (l_nodes s') = dom (l_nodes s) ∧
  ∀ p, p ∉ xs → l_nodes s' !! p = l_nodes s !! p.

(** ** Segments *)

Lemma first_of_app d xs ys : first_of d (xs ++ ys) = first_of (first_of d ys) xs.
Proof. by destruct xs. Qed.

Lemma last_of_app d xs ys : last_of d (xs ++ ys) = last_of (last_of d xs) ys.
Proof.
  unfold last_of. rewrite last_app. by destruct (list.last ys).
Qed.

Lemma last_of_cons d x xs : last_of d (x :: xs) = last_of x xs.
Proof. apply (last_of_app d [x] xs). Qed.

Lemma last_of_elem d xs : xs ≠ [] → last_of d xs ∈ xs.
Proof.
  intros Hne. destruct (exists_last Hne) as (ys & y & ->).
  rewrite last_of_snoc. set_solver.
Qed.

Lemma first_of_elem d xs : xs ≠ [] → first_of d xs ∈ xs.
Proof. destruct xs; [done | intros; cbn; set_solver]. Qed.

Lemma dseg_agree m m' pp xs nn :
  (∀ p, p ∈ xs → m' !! p = m !! p) → dseg m pp xs nn → dseg m' pp xs nn.
Proof.
  revert pp; induction xs as [|x xs IH]; intros pp Hag Hs; [done |].
  destruct Hs as [Hx Hs]. split; [rewrite Hag by set_solver; done |].
  apply IH; [set_solver | done].
Qed.

Lemma dseg_app m pp xs ys nn :
  dseg m pp (xs ++ ys) nn ↔
  dseg m pp xs (first_of nn ys) ∧ dseg m (last_of pp xs) ys nn.
Proof.
  revert pp; induction xs as [|x xs IH]; intros pp; cbn [app dseg]; [naive_solver |].
  rewrite IH, first_of_app, last_of_cons. naive_solver.
Qed.

Ltac lst_cbn := cbn [l_self l_nodes next prev head tail].

(** Relinking the end of a segment touches its last node only. *)
Lemma dseg_set_next m pp xs x nn nn' :
  NoDup (xs ++ [x]) → dseg m pp (xs ++ [x]) nn →
  dseg (<[x := mkNode nn' (last_of pp xs)]> m) pp (xs ++ [x]) nn'.
Proof.
  intros Hnd Hs. apply NoDup_app in Hnd as (_ & Hnd & _).
  apply dseg_app in Hs as [Hs _]. apply dseg_app. split; cbn.
  - eapply dseg_agree; [|exact Hs]. intros p Hp.
    apply lookup_insert_ne. intros ->. apply (Hnd p Hp). set_solver.
  - split; [|done]. by rewrite lookup_insert_eq.
Qed.

(** Relinking the start of a segment touches its first node only. *)
Lemma dseg_set_prev m pp pp' x xs nn :
  NoDup (x :: xs) → dseg m pp (x :: xs) nn →
  dseg (<[x := mkNode (first_of nn xs) pp']> m) pp' (x :: xs) nn.
Proof.
  intros Hnd [_ Hs]. apply NoDup_cons in Hnd as [Hx _]. split.
  - by rewrite lookup_insert_eq.
  - eapply dseg_agree; [|exact Hs]. intros p Hp.
    apply lookup_insert_ne. by intros ->.
Qed.

Lemma dseg_insert_ne m pp xs nn p n :
  p ∉ xs → dseg m pp xs nn → dseg (<[p := n]> m) pp xs nn.
Proof.
  intros Hp. apply dseg_agree. intros q Hq. apply lookup_insert_ne. by intros ->.
Qed.

Lemma dseg_lookup m pp xs x ys nn :
  dseg m pp (xs ++ x :: ys) nn →
  m !! x = Some (mkNode (first_of nn ys) (last_of pp xs)).
Proof. intros Hs. apply dseg_app in Hs as [_ [Hx _]]. done. Qed.

(** ** Specifications *)

Lemma dll_empty : dll lstore_empty [].
Proof. split; cbn; [done | done | constructor | set_solver | done]. Qed.

Lemma dll_alloc s xs p : dll s xs → p ∉ xs → dll (node_alloc p s) xs.
Proof.
  intros [Hh Ht Hnd Hnn Hs] Hp. split; [done.. |]. by apply dseg_insert_ne.
Qed.

Lemma dll_nil_inv xs d : last_of NULL xs = NULL → NULL ∉ xs → first_of d xs = d.
Proof.
  intros Hl Hnn. destruct (decide (xs = [])) as [-> | Hne]; [done |].
  exfalso. apply Hnn. rewrite <-Hl. by apply last_of_elem.
Qed.

Lemma hev_list_add_tail_spec s xs p :
  dll s xs → p ∉ xs → p ≠ NULL → is_Some (l_nodes s !! p) →
  ∃ s', hev_list_add_tail p s = Some (tt, s') ∧ dll s' (xs ++ [p]) ∧
    same_outside (p :: xs) s s'.
Proof.
  intros [Hh Ht Hnd Hnn Hs] Hp Hp0 [n Hn].
  assert (NoDup (xs ++ [p])) as Hnd'.
  { apply NoDup_app. split_and!; [done | set_solver | apply NoDup_singleton]. }
  unfold hev_list_add_tail, hev_list_last, set_prev, set_next.
  mrun. rewrite Hn. lst_cbn. rewrite lookup_insert_eq.
  lst_cbn. rewrite insert_insert_eq, Ht.
  destruct (decide (last_of NULL xs ≠ NULL)) as [Hl | Hl].
  - destruct (decide (xs = [])) as [-> | Hne]; [done |].
    destruct (exists_last Hne) as (ys & y & ->). rewrite last_of_snoc.
    assert (p ≠ y) by set_solver.
    assert (l_nodes s !! y = Some (mkNode NULL (last_of NULL ys))) as Hy
      by (apply dseg_lookup in Hs; exact Hs).
    lst_cbn.
    rewrite lookup_insert_ne by done. rewrite Hy; cbn.
    eexists; split; [reflexivity |]. split; [split |]; cbn.
    + rewrite Hh, !first_of_app. done.
    + by rewrite last_of_snoc.
    + done.
    + set_solver.
    + apply dseg_app. split.
      * apply dseg_set_next with (nn := NULL); [done |]. by apply dseg_insert_ne.
      * rewrite last_of_snoc. split; [|done].
        rewrite lookup_insert_ne by done. by rewrite lookup_insert_eq.
    + split; cbn.
      * rewrite !dom_insert_L. pose proof (elem_of_dom_2 _ _ _ Hn).
        pose proof (elem_of_dom_2 _ _ _ Hy). set_solver.
      * intros q Hq. rewrite !lookup_insert_ne by set_solver. done.
  - apply dec_stable in Hl.
    destruct (decide (xs = [])) as [-> | Hne];
      [|exfalso; apply Hnn; rewrite <-Hl; by apply last_of_elem].
    eexists; split; [reflexivity |]. split; [split |]; cbn; try done.
    + set_solver.
    + split; [by rewrite lookup_insert_eq | done].
    + split; cbn.
      * rewrite !dom_insert_L. pose proof (elem_of_dom_2 _ _ _ Hn). set_solver.
      * intros q Hq. rewrite !lookup_insert_ne by set_solver. done.
Qed.

(** The first half of [hev_list_del]: the predecessor (or the head) now points
    past the node. *)
Lemma unlink_forward s xs p ys :
  dll s (xs ++ p :: ys) →
  ∃ s', (if decide (last_of NULL xs ≠ NULL)
         then set_next (last_of NULL xs) (first_of NULL ys)
         else set_head (first_of NULL ys)) s = Some (tt, s') ∧
    head (l_self s') = first_of NULL (xs ++ ys) ∧
    tail (l_self s') = tail (l_self s) ∧
    dseg (l_nodes s') NULL xs (first_of NULL ys) ∧
    same_outside xs s s'.
Proof.
  intros [Hh Ht Hnd Hnn Hs].
  pose proof Hnd as (Hnx & Hdis & _)%NoDup_app.
  apply dseg_app in Hs as [Hs1 _]. rewrite first_of_app in Hh.
  destruct (decide (xs = [])) as [-> | Hne].
  { eexists; split; [reflexivity |]. split_and!; cbn; done. }
  destruct (exists_last Hne) as (zs & z & ->). rewrite last_of_snoc.
  rewrite decide_True by (intros ->; set_solver).
  assert (l_nodes s !! z = Some (mkNode p (last_of NULL zs))) as Hz
    by (apply dseg_lookup in Hs1; exact Hs1).
  unfold set_next. rewrite Hz; cbn.
  eexists; split; [reflexivity |]. split_and!; cbn; [| done | by eapply dseg_set_next |].
  - rewrite Hh, !first_of_app. done.
  - split; cbn.
    + rewrite dom_insert_L. pose proof (elem_of_dom_2 _ _ _ Hz). set_solver.
    + intros q Hq. rewrite lookup_insert_ne by set_solver. done.
Qed.

(** The second half: the successor (or the tail) points back past it. *)
Lemma unlink_backward s pp ys :
  NoDup ys → NULL ∉ ys → dseg (l_nodes s) pp ys NULL → ∀ pp',
  ∃ s', (if decide (first_of NULL ys ≠ NULL)
         then set_prev (first_of NULL ys) pp'
         else set_tail pp') s = Some (tt, s') ∧
    head (l_self s') = head (l_self s) ∧
    tail (l_self s') = (if decide (ys = []) then pp' else tail (l_self s)) ∧
    dseg (l_nodes s') pp' ys NULL ∧
    same_outside ys s s'.
Proof.
  intros Hnd Hnn Hs pp'. destruct ys as [|y ys].
  { eexists; split; [reflexivity |]. split_and!; cbn; done. }
  change (first_of NULL (y :: ys)) with y. rewrite decide_True by (intros ->; set_solver).
  unfold set_prev. destruct Hs as [Hy Hs]. rewrite Hy; cbn.
  eexists; split; [reflexivity |]. cbn [l_self l_nodes head tail].
  split; [done |]. split; [done |]. split; [by apply (dseg_set_prev _ pp) |]. split.
  - cbn. rewrite dom_insert_L. pose proof (elem_of_dom_2 _ _ _ Hy). set_solver.
  - intros q Hq; cbn. rewrite lookup_insert_ne by set_solver. done.
Qed.

Lemma hev_list_del_spec s xs p ys :
  dll s (xs ++ p :: ys) →
  ∃ s', hev_list_del p s = Some (tt, s') ∧ dll s' (xs ++ ys) ∧
    same_outside (xs ++ ys) s s'.
Proof.
  intros Hd. destruct (unlink_forward _ _ _ _ Hd) as (s1 & E1 & Hh1 & Ht1 & Hs1 & Hd1 & Hag1).
  destruct Hd as [Hh Ht Hnd Hnn Hs]. pose proof (dseg_lookup _ _ _ _ _ _ Hs) as Hp.
  pose proof Hnd as (Hnx & Hdis & [Hpy Hny]%NoDup_cons)%NoDup_app.
  assert (p ∉ xs) as Hpx by (intros ?; apply (Hdis p); [done | set_solver]).
  assert (∀ q, q ∈ ys → q ∉ xs) as Hyx by (intros q ??; apply (Hdis q); [done | set_solver]).
  apply dseg_app in Hs as [_ [_ Hs2]].
  destruct (unlink_backward s1 p ys Hny ltac:(set_solver)) with (last_of NULL xs)
    as (s2 & E2 & Hh2 & Ht2 & Hs3 & Hd2 & Hag2).
  { eapply dseg_agree; [|exact Hs2]. intros q Hq. apply Hag1. by apply Hyx. }
  exists s2. split; [|split; [split|split]].
  - unfold hev_list_del, hev_list_node_prev, hev_list_node_next.
    mrun. rewrite Hp. lst_cbn. rewrite Hp. lst_cbn. rewrite E1.
    rewrite (Hag1 p), Hp by done. lst_cbn. rewrite (Hag1 p), Hp by done. done.
  - congruence.
  - rewrite Ht2, Ht1, Ht, last_of_app, last_of_cons, last_of_app.
    destruct ys; [done |]. by rewrite !last_of_cons.
  - apply NoDup_app. split_and!; [done | | done]. intros q ??. by apply (Hyx q).
  - set_solver.
  - apply dseg_app. split; [|done]. eapply dseg_agree; [|exact Hs1].
    intros q Hq. apply Hag2. intros ?. by apply (Hyx q).
  - congruence.
  - intros q Hq. rewrite Hag2 by set_solver. apply Hag1. set_solver.
Qed.

(** Walking the list from its head visits the nodes in order. *)
Lemma list_walk_spec s pp xs fuel :
  dseg (l_nodes s) pp xs NULL → NULL ∉ xs → (length xs < fuel)%nat →
  list_walk fuel (first_of NULL xs) s = Some xs.
Proof.
  revert pp fuel; induction xs as [|x xs IH]; intros pp fuel Hs Hnn Hf;
    (destruct fuel as [|fuel]; [cbn in Hf; lia |]).
  - done.
  - change (first_of NULL (x :: xs)) with x. cbn [list_walk]. destruct Hs as [Hx Hs].
    rewrite decide_False by (intros ->; set_solver). unfold hev_list_node_next. rewrite Hx; cbn.
    rewrite (IH x) by (set_solver || cbn in Hf; lia || done). done.
Qed.

(** ** The interface is implemented *)

#[export] Program Instance dlist_linked : LinkedList lstore := {|
  ll_empty := lstore_empty;
  ll_alloc := node_alloc;
  ll_free := node_free;
  ll_first := hev_list_first;
  ll_next := hev_list_node_next;
  ll_add_tail := hev_list_add_tail;
  ll_del := hev_list_del;
  ll_rep := dll;
  ll_ready s p := is_Some (l_nodes s !! p);
  ll_chain s xs := NoDup xs ∧ ∃ pp, dseg (l_nodes s) pp xs NULL;
|}.
Next Obligation. exact dll_empty. Qed.
Next Obligation. intros s xs []; done. Qed.
Next Obligation.
  intros s xs p Hd Hp. split; [by apply dll_alloc | cbn; rewrite lookup_insert_eq; eauto].
Qed.
Next Obligation.
  intros s xs p [Hh Ht Hn Hz Hs] Hp. split; [done.. |].
  eapply dseg_agree; [|exact Hs]. intros q Hq. cbn. rewrite lookup_delete_ne; [done |]. set_solver.
Qed.
Next Obligation.
  intros s xs p ys [_ _ _ _ Hs]. unfold hev_list_node_next.
  by rewrite (dseg_lookup _ _ _ _ _ _ Hs).
Qed.
Next Obligation. intros s xs []. unfold hev_list_first. congruence. Qed.
Next Obligation.
  intros s xs p Hd Hp Hp0 Hr.
  destruct (hev_list_add_tail_spec s xs p Hd Hp Hp0 Hr) as (s' & ? & ? & ?); eauto.
Qed.
Next Obligation.
  intros s xs p ys Hd.
  destruct (hev_list_del_spec s xs p ys Hd) as (s' & ? & ? & Hdom & _).
  exists s'. split_and!; [done | done |].
  apply elem_of_dom. rewrite Hdom. apply elem_of_dom.
  rewrite (dseg_lookup _ _ _ _ _ _ (dll_seg _ _ Hd)). eauto.
Qed.
Next Obligation. intros s xs [_ _ Hn _ Hs]. eauto. Qed.
Next Obligation. intros s p xs [_ [pp [Hp _]]]. unfold hev_list_node_next. by rewrite Hp. Qed.
Next Obligation.
  intros s p xs [[Hp Hn]%NoDup_cons [pp [_ Hs]]]. split; [done |]. exists p.
  eapply dseg_agree; [|exact Hs]. intros q Hq. cbn. rewrite lookup_delete_ne; [done | by intros ->].
Qed.

(** C3. Unlinking through the node's own pointers is correct: deleting any
    node of a list and linking it again at the tail succeeds, moves it to the
    end, keeps the order of the others, and leaves the storage of every node
    outside the list untouched. *)
Theorem hev_list_move_to_tail s xs p ys :
  dll s (xs ++ p :: ys) →
  ∃ s', (hev_list_del p;; hev_list_add_tail p) s = Some (tt, s') ∧
    dll s' (xs ++ ys ++ [p]) ∧
    list_walk (S (S (length (xs ++ ys)))) (head (l_self s')) s' = Some (xs ++ ys ++ [p]) ∧
    same_outside (xs ++ p :: ys) s s'.
Proof.
  intros Hd. destruct (hev_list_del_spec _ _ _ _ Hd) as (s1 & E1 & Hd1 & Hs1).
  pose proof (dll_nonnull _ _ Hd) as Hnn.
  pose proof (dll_nodup _ _ Hd) as (_ & Hdis & [Hp _]%NoDup_cons)%NoDup_app.
  destruct (hev_list_add_tail_spec s1 (xs ++ ys) p) as (s2 & E2 & Hd2 & Hs2); [done | | | |].
  - rewrite elem_of_app. intros [?|?]; [|done]. apply (Hdis p); set_solver.
  - set_solver.
  - apply elem_of_dom. rewrite (proj1 Hs1). apply elem_of_dom.
    rewrite (dseg_lookup _ _ _ _ _ _ (dll_seg _ _ Hd)). eauto.
  - rewrite <-app_assoc in Hd2. exists s2. split_and!; [| done | |].
    + by rewrite (mbind_some _ _ _ _ _ E1).
    + rewrite (dll_head _ _ Hd2). eapply list_walk_spec; [apply dll_seg, Hd2 | |].
      * apply (dll_nonnull _ _ Hd2).
      * rewrite !length_app; cbn; lia.
    + split; [rewrite (proj1 Hs2); apply Hs1 |].
      intros q Hq. rewrite (proj2 Hs2), (proj2 Hs1) by set_solver. done.
Qed.

Lemma hev_list_move_to_tail_witness :
  ∃ s', (hev_list_del 8;; hev_list_add_tail 8)
      (mkLstore (mkList 8 24)
        {[8 := mkNode 16 0; 16 := mkNode 24 8; 24 := mkNode 0 16]}) = Some (tt, s') ∧
    dll s' [16; 24; 8].
Proof.
  destruct (hev_list_move_to_tail (mkLstore (mkList 8 24)
    {[8 := mkNode 16 0; 16 := mkNode 24 8; 24 := mkNode 0 16]}) [] 8 [16; 24])
    as (s' & E & H & _ & _).
  - split; [done | done | | |].
    + by apply (bool_decide_unpack _).
    + by apply (bool_decide_unpack _).
    + repeat split.
  - exists s'. split; [exact E | exact H].
Defined.
