(* ===== verification/RBTree.v ===== *)
(** * The intrusive red-black tree: the program

    Model of [src/core/src/hev-rbtree.{h,c}].  Nodes live in a store keyed by
    address; the parent pointer and the colour share one word
    ([__parent_color], colour in bit 0), read and written with the masks of
    the C code.  Every function is the sequence of loads and stores of its C
    body; a load from an address that holds no node is undefined ([None]).

    The loops are given fuel: [insert_color] climbs two levels per iteration,
    [erase_color] one, and the walks go one level per iteration, so the number
    of nodes in the store plus one is enough ([RBInsert] and [RBErase] prove
    it). *)

From S2P Require Import Prelude.

(** ** The data structure *)

Record HevRBTreeNode := mkRBNode {
  __parent_color : Z;
  right : ptr;
  left : ptr;
}.

(** [HevRBTree] and the store of its nodes. *)
Record rbstore := mkRBStore { root : ptr; rb_nodes : gmap Z HevRBTreeNode }.

(** [enum _HevRBTreeColor] *)
Definition HEV_RBTREE_RED : Z := 0.
Definition HEV_RBTREE_BLACK : Z := 1.

(** ** Loads and stores *)

Definition ld (node : ptr) : M rbstore HevRBTreeNode := λ s,
  n ← rb_nodes s !! node; Some (n, s).

Definition st (node : ptr) (f : HevRBTreeNode → HevRBTreeNode) : M rbstore unit := λ s,
  n ← rb_nodes s !! node;
  Some (tt, mkRBStore (root s) (<[node := f n]> (rb_nodes s))).

Definition get_pc (node : ptr) : M rbstore Z := n ← ld node; mret (__parent_color n).
Definition get_left (node : ptr) : M rbstore ptr := n ← ld node; mret (left n).
Definition get_right (node : ptr) : M rbstore ptr := n ← ld node; mret (right n).
Definition get_root : M rbstore ptr := λ s, Some (root s, s).

Definition set_pc (node : ptr) (v : Z) : M rbstore unit :=
  st node (λ n, mkRBNode v (right n) (left n)).
Definition set_left (node v : ptr) : M rbstore unit :=
  st node (λ n, mkRBNode (__parent_color n) (right n) v).
Definition set_right (node v : ptr) : M rbstore unit :=
  st node (λ n, mkRBNode (__parent_color n) v (left n)).
Definition set_root (v : ptr) : M rbstore unit := λ s,
  Some (tt, mkRBStore v (rb_nodes s)).

(** ** Parent pointer and colour *)

Definition hev_rbtree_node_empty (node : ptr) : M rbstore bool :=
  pc ← get_pc node; mret (bool_decide (pc = node)).

(** [pc & ~3] *)
Definition _hev_rbtree_node_parent (pc : Z) : ptr := Z.land pc (Z.lnot 3).

Definition hev_rbtree_node_parent (node : ptr) : M rbstore ptr :=
  pc ← get_pc node; mret (Z.land pc (Z.lnot 3)).

(** [hev_rbtree_node_link]: the caller passes the address of the child link
    it stopped at, modelled by [set_link]. *)
Definition hev_rbtree_node_link (node parent : ptr) (set_link : ptr → M rbstore unit)
    : M rbstore unit :=
  set_pc node parent;;
  set_right node NULL;;
  set_left node NULL;;
  set_link node.

Definition hev_rbtree_node_color (node : ptr) : M rbstore Z :=
  pc ← get_pc node; mret (Z.land pc 1).

Definition hev_rbtree_node_is_red (node : ptr) : M rbstore bool :=
  c ← hev_rbtree_node_color node; mret (bool_decide (Z.land c HEV_RBTREE_BLACK = 0)).

Definition hev_rbtree_node_is_black (node : ptr) : M rbstore bool :=
  c ← hev_rbtree_node_color node; mret (bool_decide (Z.land c HEV_RBTREE_BLACK ≠ 0)).

Definition _hev_rbtree_node_is_black (pc : Z) : bool :=
  bool_decide (Z.land pc HEV_RBTREE_BLACK ≠ 0).

Definition hev_rbtree_node_red_parent (node : ptr) : M rbstore ptr := get_pc node.

Definition hev_rbtree_node_set_black (node : ptr) : M rbstore unit :=
  pc ← get_pc node; set_pc node (Z.lor pc HEV_RBTREE_BLACK).

Definition hev_rbtree_node_set_parent (node parent : ptr) : M rbstore unit :=
  c ← hev_rbtree_node_color node; set_pc node (Z.lor c parent).

Definition hev_rbtree_node_set_parent_color (node parent : ptr) (color : Z) : M rbstore unit :=
  set_pc node (Z.lor parent color).

Definition hev_rbtree_change_child (old new parent : ptr) : M rbstore unit :=
  if decide (parent ≠ NULL) then
    l ← get_left parent;
    if decide (l = old) then set_left parent new else set_right parent new
  else set_root new.

Definition hev_rbtree_rotate_set_parents (old new : ptr) (color : Z) : M rbstore unit :=
  parent ← hev_rbtree_node_parent old;
  pc ← get_pc old;
  set_pc new pc;;
  hev_rbtree_node_set_parent_color old new color;;
  hev_rbtree_change_child old new parent.

(** ** Traversal *)

(** [while (node->right) node = node->right;] and its mirror image. *)
Fixpoint go_right (fuel : nat) (node : ptr) : M rbstore ptr :=
  match fuel with
  | O => mfail
  | S fuel => r ← get_right node; if decide (r ≠ NULL) then go_right fuel r else mret node
  end.

Fixpoint go_left (fuel : nat) (node : ptr) : M rbstore ptr :=
  match fuel with
  | O => mfail
  | S fuel => l ← get_left node; if decide (l ≠ NULL) then go_left fuel l else mret node
  end.

(** [while ((parent = parent (node)) && node == parent->left) node = parent;]
    and its mirror image; both return the last [parent]. *)
Fixpoint climb_left (fuel : nat) (node : ptr) : M rbstore ptr :=
  match fuel with
  | O => mfail
  | S fuel =>
      parent ← hev_rbtree_node_parent node;
      if decide (parent = NULL) then mret NULL
      else l ← get_left parent;
           if decide (node = l) then climb_left fuel parent else mret parent
  end.

Fixpoint climb_right (fuel : nat) (node : ptr) : M rbstore ptr :=
  match fuel with
  | O => mfail
  | S fuel =>
      parent ← hev_rbtree_node_parent node;
      if decide (parent = NULL) then mret NULL
      else r ← get_right parent;
           if decide (node = r) then climb_right fuel parent else mret parent
  end.

(** Fuel for every loop: one more than the nodes in the store. *)
Definition rb_fuel : M rbstore nat := λ s, Some (S (size (rb_nodes s)), s).

Definition hev_rbtree_node_prev (node : ptr) : M rbstore ptr :=
  e ← hev_rbtree_node_empty node;
  if e : bool then mret NULL
  else
    l ← get_left node;
    fuel ← rb_fuel;
    if decide (l ≠ NULL) then go_right fuel l
    else climb_left fuel node.

Definition hev_rbtree_node_next (node : ptr) : M rbstore ptr :=
  e ← hev_rbtree_node_empty node;
  if e : bool then mret NULL
  else
    r ← get_right node;
    fuel ← rb_fuel;
    if decide (r ≠ NULL) then go_left fuel r
    else climb_right fuel node.

Definition hev_rbtree_first : M rbstore ptr :=
  n ← get_root;
  if decide (n = NULL) then mret NULL else fuel ← rb_fuel; go_left fuel n.

Definition hev_rbtree_last : M rbstore ptr :=
  n ← get_root;
  if decide (n = NULL) then mret NULL else fuel ← rb_fuel; go_right fuel n.

(** ** Insertion *)

(** Case 2 followed by case 3, on the side where [parent] is the left child
    of [gparent]. *)
Definition insert_rotate_l (node parent gparent : ptr) : M rbstore unit :=
  tmp ← get_right parent;
  '(parent, tmp) ←
    (if decide (node = tmp) then
       tmp ← get_left node;
       set_right parent tmp;;
       set_left node parent;;
       (if decide (tmp ≠ NULL)
        then hev_rbtree_node_set_parent_color tmp parent HEV_RBTREE_BLACK else mret tt);;
       hev_rbtree_node_set_parent_color parent node HEV_RBTREE_RED;;
       tmp ← get_right node;
       mret (node, tmp)
     else mret (parent, tmp));
  set_left gparent tmp;;
  set_right parent gparent;;
  (if decide (tmp ≠ NULL)
   then hev_rbtree_node_set_parent_color tmp gparent HEV_RBTREE_BLACK else mret tt);;
  hev_rbtree_rotate_set_parents gparent parent HEV_RBTREE_RED.

(** The same on the other side. *)
Definition insert_rotate_r (node parent gparent : ptr) : M rbstore unit :=
  tmp ← get_left parent;
  '(parent, tmp) ←
    (if decide (node = tmp) then
       tmp ← get_right node;
       set_left parent tmp;;
       set_right node parent;;
       (if decide (tmp ≠ NULL)
        then hev_rbtree_node_set_parent_color tmp parent HEV_RBTREE_BLACK else mret tt);;
       hev_rbtree_node_set_parent_color parent node HEV_RBTREE_RED;;
       tmp ← get_left node;
       mret (node, tmp)
     else mret (parent, tmp));
  set_right gparent tmp;;
  set_left parent gparent;;
  (if decide (tmp ≠ NULL)
   then hev_rbtree_node_set_parent_color tmp gparent HEV_RBTREE_BLACK else mret tt);;
  hev_rbtree_rotate_set_parents gparent parent HEV_RBTREE_RED.

Definition null_or (f : ptr → M rbstore bool) (p : ptr) : M rbstore bool :=
  if decide (p = NULL) then mret true else f p.

Definition nonnull_and (f : ptr → M rbstore bool) (p : ptr) : M rbstore bool :=
  if decide (p = NULL) then mret false else f p.

(** The [while (1)] loop of [hev_rbtree_insert_color]. *)
Fixpoint insert_color_loop (fuel : nat) (node parent : ptr) : M rbstore unit :=
  match fuel with
  | O => mfail
  | S fuel =>
      if decide (parent = NULL) then
        hev_rbtree_node_set_parent_color node NULL HEV_RBTREE_BLACK
      else
        black ← hev_rbtree_node_is_black parent;
        if black : bool then mret tt
        else
          gparent ← hev_rbtree_node_red_parent parent;
          tmp ← get_right gparent;
          if decide (parent ≠ tmp) then
            red ← nonnull_and hev_rbtree_node_is_red tmp;
            if red : bool then
              hev_rbtree_node_set_parent_color tmp gparent HEV_RBTREE_BLACK;;
              hev_rbtree_node_set_parent_color parent gparent HEV_RBTREE_BLACK;;
              let node := gparent in
              parent ← hev_rbtree_node_parent node;
              hev_rbtree_node_set_parent_color node parent HEV_RBTREE_RED;;
              insert_color_loop fuel node parent
            else insert_rotate_l node parent gparent
          else
            tmp ← get_left gparent;
            red ← nonnull_and hev_rbtree_node_is_red tmp;
            if red : bool then
              hev_rbtree_node_set_parent_color tmp gparent HEV_RBTREE_BLACK;;
              hev_rbtree_node_set_parent_color parent gparent HEV_RBTREE_BLACK;;
              let node := gparent in
              parent ← hev_rbtree_node_parent node;
              hev_rbtree_node_set_parent_color node parent HEV_RBTREE_RED;;
              insert_color_loop fuel node parent
            else insert_rotate_r node parent gparent
  end.

Definition hev_rbtree_insert_color (node : ptr) : M rbstore unit :=
  parent ← hev_rbtree_node_red_parent node;
  fuel ← rb_fuel;
  insert_color_loop fuel node parent.

(** ** Replacement *)

Definition hev_rbtree_replace (victim new : ptr) : M rbstore unit :=
  parent ← hev_rbtree_node_parent victim;
  v ← ld victim;
  st new (λ _, v);;
  l ← get_left victim;
  (if decide (l ≠ NULL) then hev_rbtree_node_set_parent l new else mret tt);;
  r ← get_right victim;
  (if decide (r ≠ NULL) then hev_rbtree_node_set_parent r new else mret tt);;
  hev_rbtree_change_child victim new parent.

(** ** Removal *)

(** [do { parent = successor; successor = tmp; tmp = tmp->left; } while (tmp);]
    returning [(parent, successor)]. *)
Fixpoint find_successor (fuel : nat) (successor tmp : ptr) : M rbstore (ptr * ptr) :=
  match fuel with
  | O => mfail
  | S fuel =>
      l ← get_left tmp;
      if decide (l ≠ NULL) then find_successor fuel tmp l else mret (successor, tmp)
  end.

Definition _hev_rbtree_erase (node : ptr) : M rbstore ptr :=
  child ← get_right node;
  tmp ← get_left node;
  if decide (tmp = NULL) then
    pc ← get_pc node;
    let parent := _hev_rbtree_node_parent pc in
    hev_rbtree_change_child node child parent;;
    if decide (child ≠ NULL) then set_pc child pc;; mret NULL
    else mret (if _hev_rbtree_node_is_black pc then parent else NULL)
  else if decide (child = NULL) then
    pc ← get_pc node;
    set_pc tmp pc;;
    let parent := _hev_rbtree_node_parent pc in
    hev_rbtree_change_child node tmp parent;;
    mret NULL
  else
    tmp ← get_left child;
    '(parent, successor, child2) ←
      (if decide (tmp = NULL) then
         child2 ← get_right child;
         mret (child, child, child2)
       else
         fuel ← rb_fuel;
         '(parent, successor) ← find_successor fuel child tmp;
         child2 ← get_right successor;
         set_left parent child2;;
         set_right successor child;;
         hev_rbtree_node_set_parent child successor;;
         mret (parent, successor, child2));
    tmp ← get_left node;
    set_left successor tmp;;
    hev_rbtree_node_set_parent tmp successor;;
    pc ← get_pc node;
    let tmp := _hev_rbtree_node_parent pc in
    hev_rbtree_change_child node successor tmp;;
    rebalance ←
      (if decide (child2 ≠ NULL) then
         hev_rbtree_node_set_parent_color child2 parent HEV_RBTREE_BLACK;; mret NULL
       else
         b ← hev_rbtree_node_is_black successor;
         mret (if b : bool then parent else NULL));
    set_pc successor pc;;
    mret rebalance.

(** Case 4 of [_hev_rbtree_erase_color]. *)
Definition erase_case4_l (parent sibling tmp1 : ptr) : M rbstore unit :=
  tmp2 ← get_left sibling;
  set_right parent tmp2;;
  set_left sibling parent;;
  hev_rbtree_node_set_parent_color tmp1 sibling HEV_RBTREE_BLACK;;
  (if decide (tmp2 ≠ NULL) then hev_rbtree_node_set_parent tmp2 parent else mret tt);;
  hev_rbtree_rotate_set_parents parent sibling HEV_RBTREE_BLACK.

Definition erase_case4_r (parent sibling tmp1 : ptr) : M rbstore unit :=
  tmp2 ← get_right sibling;
  set_left parent tmp2;;
  set_right sibling parent;;
  hev_rbtree_node_set_parent_color tmp1 sibling HEV_RBTREE_BLACK;;
  (if decide (tmp2 ≠ NULL) then hev_rbtree_node_set_parent tmp2 parent else mret tt);;
  hev_rbtree_rotate_set_parents parent sibling HEV_RBTREE_BLACK.

(** Case 1: the sibling is red; returns the new sibling. *)
Definition erase_case1_l (parent sibling : ptr) : M rbstore ptr :=
  tmp1 ← get_left sibling;
  set_right parent tmp1;;
  set_left sibling parent;;
  hev_rbtree_node_set_parent_color tmp1 parent HEV_RBTREE_BLACK;;
  hev_rbtree_rotate_set_parents parent sibling HEV_RBTREE_RED;;
  mret tmp1.

Definition erase_case1_r (parent sibling : ptr) : M rbstore ptr :=
  tmp1 ← get_right sibling;
  set_left parent tmp1;;
  set_right sibling parent;;
  hev_rbtree_node_set_parent_color tmp1 parent HEV_RBTREE_BLACK;;
  hev_rbtree_rotate_set_parents parent sibling HEV_RBTREE_RED;;
  mret tmp1.

(** Case 3: returns [(tmp1, sibling)] for case 4. *)
Definition erase_case3_l (parent sibling tmp2 : ptr) : M rbstore (ptr * ptr) :=
  tmp1 ← get_right tmp2;
  set_left sibling tmp1;;
  set_right tmp2 sibling;;
  set_right parent tmp2;;
  (if decide (tmp1 ≠ NULL)
   then hev_rbtree_node_set_parent_color tmp1 sibling HEV_RBTREE_BLACK else mret tt);;
  mret (sibling, tmp2).

Definition erase_case3_r (parent sibling tmp2 : ptr) : M rbstore (ptr * ptr) :=
  tmp1 ← get_left tmp2;
  set_right sibling tmp1;;
  set_left tmp2 sibling;;
  set_left parent tmp2;;
  (if decide (tmp1 ≠ NULL)
   then hev_rbtree_node_set_parent_color tmp1 sibling HEV_RBTREE_BLACK else mret tt);;
  mret (sibling, tmp2).

(** The loop body once the sibling is black: cases 2, 3 and 4; [loop] is the
    next iteration ([continue]). *)
Definition erase_black_l (loop : ptr → ptr → M rbstore unit) (parent sibling : ptr)
    : M rbstore unit :=
  tmp1 ← get_right sibling;
  b1 ← null_or hev_rbtree_node_is_black tmp1;
  if b1 : bool then
    tmp2 ← get_left sibling;
    b2 ← null_or hev_rbtree_node_is_black tmp2;
    if b2 : bool then
      hev_rbtree_node_set_parent_color sibling parent HEV_RBTREE_RED;;
      pred ← hev_rbtree_node_is_red parent;
      if pred : bool then hev_rbtree_node_set_black parent
      else
        let node := parent in
        parent ← hev_rbtree_node_parent node;
        if decide (parent ≠ NULL) then loop node parent else mret tt
    else
      '(tmp1, sibling) ← erase_case3_l parent sibling tmp2;
      erase_case4_l parent sibling tmp1
  else erase_case4_l parent sibling tmp1.

Definition erase_black_r (loop : ptr → ptr → M rbstore unit) (parent sibling : ptr)
    : M rbstore unit :=
  tmp1 ← get_left sibling;
  b1 ← null_or hev_rbtree_node_is_black tmp1;
  if b1 : bool then
    tmp2 ← get_right sibling;
    b2 ← null_or hev_rbtree_node_is_black tmp2;
    if b2 : bool then
      hev_rbtree_node_set_parent_color sibling parent HEV_RBTREE_RED;;
      pred ← hev_rbtree_node_is_red parent;
      if pred : bool then hev_rbtree_node_set_black parent
      else
        let node := parent in
        parent ← hev_rbtree_node_parent node;
        if decide (parent ≠ NULL) then loop node parent else mret tt
    else
      '(tmp1, sibling) ← erase_case3_r parent sibling tmp2;
      erase_case4_r parent sibling tmp1
  else erase_case4_r parent sibling tmp1.

(** The [while (1)] loop of [_hev_rbtree_erase_color]. *)
Fixpoint erase_color_loop (fuel : nat) (node parent : ptr) : M rbstore unit :=
  match fuel with
  | O => mfail
  | S fuel =>
      sibling ← get_right parent;
      if decide (node ≠ sibling) then
        red ← hev_rbtree_node_is_red sibling;
        sibling ← (if red : bool then erase_case1_l parent sibling else mret sibling);
        erase_black_l (erase_color_loop fuel) parent sibling
      else
        sibling ← get_left parent;
        red ← hev_rbtree_node_is_red sibling;
        sibling ← (if red : bool then erase_case1_r parent sibling else mret sibling);
        erase_black_r (erase_color_loop fuel) parent sibling
  end.

Definition _hev_rbtree_erase_color (parent : ptr) : M rbstore unit :=
  fuel ← rb_fuel;
  erase_color_loop fuel NULL parent.

Definition hev_rbtree_erase (node : ptr) : M rbstore unit :=
  rebalance ← _hev_rbtree_erase node;
  if decide (rebalance ≠ NULL) then _hev_rbtree_erase_color rebalance else mret tt.
