(* ===== verification/RBSpec.v ===== *)
(** * The intrusive red-black tree: shapes, contexts and representation

    The abstract side of [RBTree]: trees of node addresses, zippers (the path
    the loops of the C code climb), the predicate that a store holds a tree,
    and the red-black discipline.  The rebalancing of insertion and removal
    is stated here as functions on zippers ([ins_fix], [del_fix]); [RBInsert]
    and [RBErase] show the pointer code computes them, and the lemmas below
    that they keep the order and the balance. *)

From S2P Require Import Prelude Interfaces RBTree.

(** ** Trees and zippers *)

Inductive color := Red | Black.

#[export] Instance color_eq_dec : EqDecision color.
Proof. solve_decision. Defined.

Inductive tree := E | T (c : color) (l : tree) (p : ptr) (r : tree).

(** One step of the path from a subtree to the root: [FL c p r], the subtree
    is the left child of [p], whose right subtree is [r]. *)
Inductive frame := FL (c : color) (p : ptr) (r : tree) | FR (c : color) (l : tree) (p : ptr).

Abbreviation ctx := (list frame).

Definition rootp (t : tree) : ptr := match t with E => NULL | T _ _ p _ => p end.
Definition fptr (f : frame) : ptr := match f with FL _ p _ => p | FR _ _ p => p end.
Definition fcol (f : frame) : color := match f with FL c _ _ => c | FR c _ _ => c end.
Definition par (k : ctx) : ptr := match k with [] => NULL | f :: _ => fptr f end.

Definition plug1 (f : frame) (t : tree) : tree :=
  match f with FL c p r => T c t p r | FR c l p => T c l p t end.

Fixpoint plug (k : ctx) (t : tree) : tree :=
  match k with [] => t | f :: k => plug k (plug1 f t) end.

Fixpoint inorder (t : tree) : list ptr :=
  match t with E => [] | T _ l p r => inorder l ++ p :: inorder r end.

(** The nodes before and after the hole of a context. *)
Fixpoint pre (k : ctx) : list ptr :=
  match k with
  | [] => []
  | FL _ _ _ :: k => pre k
  | FR _ l p :: k => pre k ++ inorder l ++ [p]
  end.

Fixpoint post (k : ctx) : list ptr :=
  match k with
  | [] => []
  | FL _ p r :: k => p :: inorder r ++ post k
  | FR _ _ _ :: k => post k
  end.

Definition paint (c : color) (t : tree) : tree :=
  match t with E => E | T _ l p r => T c l p r end.

Definition is_red (t : tree) : bool :=
  match t with T Red _ _ _ => true | _ => false end.

(** ** Representation in the store *)

Definition col (c : color) : Z := match c with Red => HEV_RBTREE_RED | Black => HEV_RBTREE_BLACK end.
Definition enc (parent : ptr) (c : color) : Z := Z.lor parent (col c).

Fixpoint rep (m : gmap Z HevRBTreeNode) (parent : ptr) (t : tree) : Prop :=
  match t with
  | E => True
  | T c l p r =>
      m !! p = Some (mkRBNode (enc parent c) (rootp r) (rootp l)) ∧ rep m p l ∧ rep m p r
  end.

Fixpoint rep_ctx (m : gmap Z HevRBTreeNode) (rt : ptr) (k : ctx) (hole : ptr) : Prop :=
  match k with
  | [] => rt = hole
  | FL c p r :: k =>
      m !! p = Some (mkRBNode (enc (par k) c) (rootp r) hole) ∧ rep m p r ∧ rep_ctx m rt k p
  | FR c l p :: k =>
      m !! p = Some (mkRBNode (enc (par k) c) hole (rootp l)) ∧ rep m p l ∧ rep_ctx m rt k p
  end.

(** The store holds the tree [t] in the context [k]. *)
Record st_ok (s : rbstore) (k : ctx) (t : tree) : Prop := {
  ok_ctx : rep_ctx (rb_nodes s) (root s) k (rootp t);
  ok_rep : rep (rb_nodes s) (par k) t;
  ok_nodup : NoDup (pre k ++ inorder t ++ post k);
  ok_ptrs : Forall okptr (pre k ++ inorder t ++ post k);
}.

Definition rbrep (s : rbstore) (t : tree) : Prop := st_ok s [] t.

(** ** The red-black discipline *)

(** [rb t c n]: no red node has a red child, every path has [n] black nodes,
    and the root (black if empty) has colour [c]. *)
Inductive rb : tree → color → nat → Prop :=
| rb_E : rb E Black 0
| rb_R l p r n : rb l Black n → rb r Black n → rb (T Red l p r) Red n
| rb_B l p r cl cr n : rb l cl n → rb r cr n → rb (T Black l p r) Black (S n).

(** The context accepts a tree of colour [c] and black height [n]. *)
Inductive rbk : ctx → color → nat → Prop :=
| rbk_nil n : rbk [] Black n
| rbk_LB p r k c cr n : rb r cr n → rbk k Black (S n) → rbk (FL Black p r :: k) c n
| rbk_RB p l k c cl n : rb l cl n → rbk k Black (S n) → rbk (FR Black l p :: k) c n
| rbk_LR p r k n : rb r Black n → rbk k Red n → rbk (FL Red p r :: k) Black n
| rbk_RR p l k n : rb l Black n → rbk k Red n → rbk (FR Red l p :: k) Black n.

(** ** Rebalancing on zippers *)

(** After an insertion: the subtree has a red root, which its context may not
    accept. *)
Fixpoint ins_fix (k : ctx) (t : tree) : option tree :=
  match k with
  | [] => Some (paint Black t)
  | f :: k1 =>
      match fcol f, k1 with
      | Black, _ => Some (plug k t)
      | Red, [] => None
      | Red, g :: k2 =>
          match f, g, t with
          | _, _, E => None
          | FL _ p s, FL cg gp u, _ =>
              if is_red u then ins_fix k2 (T Red (T Black t p s) gp (paint Black u))
              else Some (plug k2 (T cg t p (T Red (paint Black s) gp u)))
          | FR _ s p, FL cg gp u, T c a n b =>
              if is_red u then ins_fix k2 (T Red (T Black s p t) gp (paint Black u))
              else Some (plug k2 (T cg (T Red s p (paint Black a)) n (T Red (paint Black b) gp u)))
          | FR _ s p, FR cg u gp, _ =>
              if is_red u then ins_fix k2 (T Red (paint Black u) gp (T Black s p t))
              else Some (plug k2 (T cg (T Red u gp (paint Black s)) p t))
          | FL _ p s, FR cg u gp, T c a n b =>
              if is_red u then ins_fix k2 (T Red (paint Black u) gp (T Black t p s))
              else Some (plug k2 (T cg (T Red u gp (paint Black a)) n (T Red (paint Black b) p s)))
          end
      end
  end.

(** After a removal: the subtree [t] is one black node short.  [del_l] is the
    part of the loop body after the sibling is known to be black, on the left
    side; [rec] is the next iteration. *)
Definition del_l (t : tree) (c : color) (p : ptr) (sib : tree) (k : ctx)
    (rec : tree → option tree) : option tree :=
  match sib with
  | E => None
  | T _ sl s sr =>
      if is_red sr then Some (plug k (T c (T Black t p sl) s (paint Black sr)))
      else match sl with
           | T Red a x b => Some (plug k (T c (T Black t p a) x (T Black (paint Black b) s sr)))
           | _ =>
               match c with
               | Red => Some (plug k (T Black t p (T Red sl s sr)))
               | Black => rec (T Black t p (T Red sl s sr))
               end
           end
  end.

Definition del_r (t : tree) (c : color) (p : ptr) (sib : tree) (k : ctx)
    (rec : tree → option tree) : option tree :=
  match sib with
  | E => None
  | T _ sl s sr =>
      if is_red sl then Some (plug k (T c (paint Black sl) s (T Black sr p t)))
      else match sr with
           | T Red a x b => Some (plug k (T c (T Black sl s (paint Black a)) x (T Black b p t)))
           | _ =>
               match c with
               | Red => Some (plug k (T Black (T Red sl s sr) p t))
               | Black => rec (T Black (T Red sl s sr) p t)
               end
           end
  end.

Fixpoint del_fix (k : ctx) (t : tree) : option tree :=
  match k with
  | [] => Some t
  | FL c p (T Red sl s sr) :: k =>
      del_l t Red p (paint Black sl) (FL c s sr :: k) (λ _, None)
  | FL c p sib :: k => del_l t c p sib k (del_fix k)
  | FR c (T Red sl s sr) p :: k =>
      del_r t Red p (paint Black sr) (FR c sl s :: k) (λ _, None)
  | FR c sib p :: k => del_r t c p sib k (del_fix k)
  end.

(** The leftmost node of [T c l p r] as a zipper inside it: the path, its
    colour, its address and its right subtree. *)
Fixpoint leftmost (c : color) (l : tree) (p : ptr) (r : tree) : ctx * color * ptr * tree :=
  match l with
  | E => ([], c, p, r)
  | T c' l' p' r' =>
      let '(k, cs, s, rs) := leftmost c' l' p' r' in (k ++ [FL c p r], cs, s, rs)
  end.

(** [__rb_erase] on the zipper [k] around the node [T c l p r]. *)
Definition del_node (k : ctx) (c : color) (l r : tree) : option tree :=
  match l, r with
  | E, E => match c with Black => del_fix k E | Red => Some (plug k E) end
  | E, T _ _ _ _ => Some (plug k (paint c r))
  | T _ _ _ _, E => Some (plug k (paint c l))
  | T _ _ _ _, T cr rl rp rr =>
      let '(kr, cs, s, rs) := leftmost cr rl rp rr in
      let k' := kr ++ FR c l s :: k in
      match rs, cs with
      | T _ _ _ _, _ => Some (plug k' (paint Black rs))
      | E, Black => del_fix k' E
      | E, Red => Some (plug k' E)
      end
  end.

(** ** In-order sequences *)

Lemma inorder_plug k t : inorder (plug k t) = pre k ++ inorder t ++ post k.
Proof.
  revert t; induction k as [|[c p r|c l p] k IH]; intros t; cbn [plug plug1 pre post].
  - by rewrite app_nil_r.
  - rewrite IH. cbn [inorder]. by rewrite <-!app_assoc.
  - rewrite IH. cbn [inorder]. by rewrite <-!app_assoc.
Qed.

Lemma inorder_paint c t : inorder (paint c t) = inorder t.
Proof. by destruct t. Qed.

Lemma rootp_paint c t : rootp (paint c t) = rootp t.
Proof. by destruct t. Qed.

Lemma plug_app k1 k2 t : plug (k1 ++ k2) t = plug k2 (plug k1 t).
Proof. revert t; induction k1 as [|f k1 IH]; intros t; [done | apply IH]. Qed.

Lemma plug_find t p :
  p ∈ inorder t → ∃ k c l r, t = plug k (T c l p r).
Proof.
  induction t as [|c l IHl q r IHr]; cbn; [set_solver |].
  rewrite elem_of_app, elem_of_cons. intros [Hl | [-> | Hr]].
  - destruct (IHl Hl) as (k & c' & l' & r' & ->).
    exists (k ++ [FL c q r]), c', l', r'. by rewrite plug_app.
  - by exists [], c, l, r.
  - destruct (IHr Hr) as (k & c' & l' & r' & ->).
    exists (k ++ [FR c l q]), c', l', r'. by rewrite plug_app.
Qed.

(** Equalities between in-order sequences, up to associativity. *)
Ltac ino :=
  cbn [inorder plug plug1 pre post paint];
  rewrite ?inorder_plug; cbn [inorder plug plug1 pre post paint];
  rewrite ?inorder_paint; repeat (rewrite <-app_assoc; cbn [app]);
  rewrite ?app_nil_r; try done.

Lemma ins_fix_inorder k t t' : ins_fix k t = Some t' → inorder t' = pre k ++ inorder t ++ post k.
Proof.
  remember (length k) as n eqn:Hn. revert k t Hn.
  induction n as [n IH] using (well_founded_induction lt_wf). intros k t ->.
  destruct k as [|f [|g k]]; cbn.
  - intros [= <-]. ino.
  - destruct f as [[] p s|[] s p]; intros H; cbn in H; simplify_eq; ino.
  - destruct f as [[] p s|[] s p], g as [cg gp u|cg u gp], t as [|c a x b];
      intros H; cbn in H; try discriminate H;
      try (simplify_eq; ino; done);
      (destruct (is_red u);
       [apply (IH (length k) ltac:(cbn; lia) k) in H; [rewrite H | done] | simplify_eq]); ino.
Qed.

Lemma del_l_inorder t c p sib k rec t' :
  (∀ u v, rec u = Some v → inorder v = pre k ++ inorder u ++ post k) →
  del_l t c p sib k rec = Some t' →
  inorder t' = pre k ++ inorder t ++ p :: inorder sib ++ post k.
Proof.
  intros Hrec. destruct sib as [|cs sl s sr]; [done |]. cbn.
  destruct (is_red sr); [intros; simplify_eq; ino |].
  destruct sl as [|[] a x b]; [| intros; simplify_eq; ino |];
    (destruct c; [intros; simplify_eq; ino | intros H; apply Hrec in H; rewrite H; ino]).
Qed.

Lemma del_r_inorder t c p sib k rec t' :
  (∀ u v, rec u = Some v → inorder v = pre k ++ inorder u ++ post k) →
  del_r t c p sib k rec = Some t' →
  inorder t' = pre k ++ inorder sib ++ p :: inorder t ++ post k.
Proof.
  intros Hrec. destruct sib as [|cs sl s sr]; [done |]. cbn.
  destruct (is_red sl); [intros; simplify_eq; ino |].
  destruct sr as [|[] a x b]; [| intros; simplify_eq; ino |];
    (destruct c; [intros; simplify_eq; ino | intros H; apply Hrec in H; rewrite H; ino]).
Qed.

Lemma del_fix_inorder k t t' : del_fix k t = Some t' → inorder t' = pre k ++ inorder t ++ post k.
Proof.
  revert t t'; induction k as [|f k IH]; intros t t'; cbn; [intros [= <-]; ino |].
  destruct f as [c p [|[] sl s sr]|c [|[] sl s sr] p]; intros H;
    (apply del_l_inorder in H || apply del_r_inorder in H);
    try done; rewrite H; ino.
Qed.

Lemma leftmost_inorder c l p r kr cs s rs :
  leftmost c l p r = (kr, cs, s, rs) →
  T c l p r = plug kr (T cs E s rs) ∧ pre kr = [].
Proof.
  revert c p r kr cs s rs; induction l as [|c' l' IH p' r' _]; intros c p r kr cs s rs; cbn.
  - by intros [= <- <- <- <-].
  - destruct (leftmost c' l' p' r') as [[[k0 cs0] s0] rs0] eqn:Hl.
    intros [= <- <- <- <-]. destruct (IH _ _ _ _ _ _ _ Hl) as [Heq Hpre].
    rewrite plug_app. cbn. rewrite Heq. split; [done |].
    clear -Hpre. induction k0 as [|[] k0 IHk]; cbn in *; [done | auto |].
    by destruct (pre k0), (inorder l).
Qed.

(** ** Balance *)

#[export] Hint Constructors rb rbk : hev.

Lemma rb_plug k t c n : rb t c n → rbk k c n → ∃ m, rb (plug k t) Black m.
Proof.
  revert t c n; induction k as [|f k IH]; intros t c n Ht Hk; inversion Hk; subst;
    cbn; eauto with hev.
Qed.

Lemma rb_plug_some k t c n :
  rb t c n → rbk k c n → ∃ t' m, Some (plug k t) = Some t' ∧ rb t' Black m.
Proof. intros Ht Hk. destruct (rb_plug _ _ _ _ Ht Hk) as [m Hm]. eauto. Qed.

Lemma rb_plug_inv k t m : rb (plug k t) Black m → ∃ c n, rb t c n ∧ rbk k c n.
Proof.
  revert t; induction k as [|f k IH]; intros t Hp; cbn in Hp; [eauto with hev |].
  destruct (IH _ Hp) as (c & n & Ht & Hk).
  destruct f as [cf p r|cf l p]; inversion Ht; subst; eauto 10 with hev.
Qed.

Lemma rb_paint_black t n : rb t Red n → rb (paint Black t) Black (S n).
Proof. inversion 1; subst; cbn; eauto with hev. Qed.

Lemma rb_paint_id t n : rb t Black n → paint Black t = t.
Proof. by inversion 1. Qed.

Lemma rb_is_red t c n : rb t c n → is_red t = match c with Red => true | Black => false end.
Proof. by inversion 1. Qed.

(** Painting a black tree black is the identity. *)
Ltac rb_paint :=
  repeat match goal with
  | H : rb ?t Black _ |- context [paint Black ?t] => rewrite (rb_paint_id _ _ H)
  end.

(** Insertion: a red tree in a context that accepts a black one. *)
Lemma ins_fix_rb k t n :
  rb t Red n → rbk k Black n → ∃ t' m, ins_fix k t = Some t' ∧ rb t' Black m.
Proof.
  remember (length k) as len eqn:Hl. revert k t n Hl.
  induction len as [len IH] using (well_founded_induction lt_wf). intros k t n -> Ht Hk.
  inversion Hk as [| p r k1 c cr m Hr Hk1 | p l k1 c cl m Hl Hk1
                   | p s k1 m Hs Hk1 | p s k1 m Hs Hk1]; subst.
  - cbn. eauto using rb_paint_black.
  - destruct (rb_plug (FL Black p r :: k1) t Red n) as [m Hm]; [done | eauto with hev |].
    cbn. eauto.
  - destruct (rb_plug (FR Black l p :: k1) t Red n) as [m Hm]; [done | eauto with hev |].
    cbn. eauto.
  - inversion Hk1 as [| g u k2 c cu m Hu Hk2 | g u k2 c cu m Hu Hk2 | |]; subst;
      (inversion Ht as [|a x b m Ha Hb|]; subst); cbn; rewrite (rb_is_red _ _ _ Hu);
      (destruct cu;
       [eapply (IH (length k2)); [cbn; lia | done | | exact Hk2];
        eauto using rb_paint_black with hev
       | rb_paint;
         edestruct (rb_plug k2) as [? ?]; [| exact Hk2 | eauto]; eauto with hev]).
  - inversion Hk1 as [| g u k2 c cu m Hu Hk2 | g u k2 c cu m Hu Hk2 | |]; subst;
      (inversion Ht as [|a x b m Ha Hb|]; subst); cbn; rewrite (rb_is_red _ _ _ Hu);
      (destruct cu;
       [eapply (IH (length k2)); [cbn; lia | done | | exact Hk2];
        eauto using rb_paint_black with hev
       | rb_paint;
         edestruct (rb_plug k2) as [? ?]; [| exact Hk2 | eauto]; eauto with hev]).
Qed.

(** Removal: a black tree, one short of what the context accepts. *)
Definition bump (c : color) (n : nat) : nat := match c with Red => n | Black => S n end.

Lemma rbk_black k n : rbk k Red n → rbk k Black n.
Proof. inversion 1; subst; eauto with hev. Qed.

Lemma del_l_rb t c p sib k rec n :
  rb t Black n → rb sib Black (S n) → rbk k c (bump c (S n)) →
  (∀ u, c = Black → rb u Black (S n) → ∃ t' m, rec u = Some t' ∧ rb t' Black m) →
  ∃ t' m, del_l t c p sib k rec = Some t' ∧ rb t' Black m.
Proof.
  intros Ht Hsib Hk Hrec.
  inversion Hsib as [| |sl s sr csl csr n' Hsl Hsr]; subst. cbn.
  rewrite (rb_is_red _ _ _ Hsr). destruct csr.
  - edestruct (rb_plug k) as [m Hm]; [| exact Hk | eauto].
    apply rb_paint_black in Hsr. destruct c; cbn; eauto with hev.
  - inversion Hsl as [|a x b m Ha Hb|a x b ca cb m Ha Hb]; subst; rb_paint;
      try (edestruct (rb_plug k) as [m' Hm]; [| exact Hk | eauto];
           destruct c; cbn; eauto with hev; fail);
      (destruct c; [edestruct (rb_plug k) as [m' Hm];
                     [| exact (rbk_black _ _ Hk) | eauto]; cbn; eauto with hev
                   | apply Hrec; eauto with hev]).
Qed.

Lemma del_r_rb t c p sib k rec n :
  rb t Black n → rb sib Black (S n) → rbk k c (bump c (S n)) →
  (∀ u, c = Black → rb u Black (S n) → ∃ t' m, rec u = Some t' ∧ rb t' Black m) →
  ∃ t' m, del_r t c p sib k rec = Some t' ∧ rb t' Black m.
Proof.
  intros Ht Hsib Hk Hrec.
  inversion Hsib as [| |sl s sr csl csr n' Hsl Hsr]; subst. cbn.
  rewrite (rb_is_red _ _ _ Hsl). destruct csl.
  - edestruct (rb_plug k) as [m Hm]; [| exact Hk | eauto].
    apply rb_paint_black in Hsl. destruct c; cbn; eauto with hev.
  - inversion Hsr as [|a x b m Ha Hb|a x b ca cb m Ha Hb]; subst; rb_paint;
      try (edestruct (rb_plug k) as [m' Hm]; [| exact Hk | eauto];
           destruct c; cbn; eauto with hev; fail);
      (destruct c; [edestruct (rb_plug k) as [m' Hm];
                     [| exact (rbk_black _ _ Hk) | eauto]; cbn; eauto with hev
                   | apply Hrec; eauto with hev]).
Qed.

Lemma del_fix_rb k t n :
  rb t Black n → rbk k Black (S n) → ∃ t' m, del_fix k t = Some t' ∧ rb t' Black m.
Proof.
  revert t n; induction k as [|f k IH]; intros t n Ht Hk; cbn; [eauto |].
  inversion Hk as [| p r k1 c cr m Hr Hk1 | p l k1 c cl m Hl Hk1
                   | p s k1 m Hs Hk1 | p s k1 m Hs Hk1]; subst.
  - destruct cr.
    + inversion Hr as [|sl s sr m Hsl Hsr|]; subst. rewrite (rb_paint_id _ _ Hsl).
      eapply del_l_rb; [done | done | cbn; eauto with hev | done].
    + inversion Hr; subst.
      eapply (del_l_rb t Black p); [done | done | done |]. intros u _ Hu. by eapply IH.
  - destruct cl.
    + inversion Hl as [|sl s sr m Hsl Hsr|]; subst. rewrite (rb_paint_id _ _ Hsr).
      eapply del_r_rb; [done | done | cbn; eauto with hev | done].
    + inversion Hl; subst.
      eapply (del_r_rb t Black p); [done | done | done |]. intros u _ Hu. by eapply IH.
  - inversion Hs; subst. by eapply (del_l_rb t Red p).
  - inversion Hs; subst. by eapply (del_r_rb t Red p).
Qed.

(** The path inside a subtree extends any context that accepts the subtree. *)
Lemma rb_plug_inv_app kr u c n :
  rb (plug kr u) c n →
  ∃ cu nu, rb u cu nu ∧ ∀ k, rbk k c n → rbk (kr ++ k) cu nu.
Proof.
  revert u; induction kr as [|f kr IH]; intros u Hp; cbn in Hp; [eauto |].
  destruct (IH _ Hp) as (c' & n' & Hu & Hk).
  destruct f as [cf p r|cf l p]; inversion Hu; subst; cbn; eauto 10 with hev.
Qed.

Lemma pre_app k1 k2 : pre (k1 ++ k2) = pre k2 ++ pre k1.
Proof.
  induction k1 as [|[] k1 IH]; cbn; rewrite ?IH; [by rewrite app_nil_r | done | ino].
Qed.

Lemma post_app k1 k2 : post (k1 ++ k2) = post k1 ++ post k2.
Proof. induction k1 as [|[] k1 IH]; cbn; rewrite ?IH; [done | ino | done]. Qed.

Lemma del_node_inorder k c l r t' :
  del_node k c l r = Some t' → inorder t' = pre k ++ inorder l ++ inorder r ++ post k.
Proof.
  destruct l as [|cl ll lp lr], r as [|cr rl rp rr]; cbn [del_node].
  - destruct c; [intros; simplify_eq; ino | intros H%del_fix_inorder; rewrite H; ino].
  - intros; simplify_eq. ino.
  - intros; simplify_eq. ino.
  - destruct (leftmost cr rl rp rr) as [[[kr cs] s] rs] eqn:Hlm.
    destruct (leftmost_inorder _ _ _ _ _ _ _ _ Hlm) as [Heq Hpre]. rewrite Heq, inorder_plug, Hpre.
    intros H.
    assert (inorder t' = pre (kr ++ FR c (T cl ll lp lr) s :: k) ++ inorder rs ++
      post (kr ++ FR c (T cl ll lp lr) s :: k)) as ->.
    { destruct rs as [|]; [destruct cs; [|by apply del_fix_inorder in H] |];
        simplify_eq; ino. }
    rewrite pre_app, post_app, Hpre. cbn. ino.
Qed.

Ltac rb_inv :=
  repeat match goal with
  | H : rb E _ _ |- _ => inversion H; subst; clear H
  | H : rb (T _ _ _ _) _ _ |- _ => inversion H; subst; clear H
  end.

Lemma del_node_rb k c l p r n :
  rb (T c l p r) c n → rbk k c n → ∃ t' m, del_node k c l r = Some t' ∧ rb t' Black m.
Proof.
  intros Ht Hk.
  assert (∃ cl cr n', rb l cl n' ∧ rb r cr n' ∧ rbk (FR c l p :: k) cr n') as
    (cl & cr & n' & Hl & Hr & Hfr).
  { inversion Ht; subst; eauto 10 with hev. }
  destruct l as [|cl' ll lp lr], r as [|cr' rl rp rr]; cbn [del_node].
  - rb_inv.
    + edestruct (rb_plug k E) as [m Hm]; [constructor | by apply rbk_black | eauto].
    + eapply del_fix_rb; [constructor | done].
  - rb_inv. eapply rb_plug_some; [| exact Hk]. cbn. eauto with hev.
  - rb_inv. eapply rb_plug_some; [| exact Hk]. cbn. eauto with hev.
  - destruct (leftmost cr' rl rp rr) as [[[kr cs] s] rs] eqn:Hlm.
    destruct (leftmost_inorder _ _ _ _ _ _ _ _ Hlm) as [Heq _]. rewrite Heq in Hr.
    destruct (rb_plug_inv_app _ _ _ _ Hr) as (cu & nu & Hu & Hext).
    assert (rbk (FR c (T cl' ll lp lr) s :: k) cr n') as Hfs
      by (inversion Hfr; subst; eauto with hev).
    specialize (Hext _ Hfs). inversion Hu as [|? ? ? ? H1 H2|? ? ? c1 c2 ? H1 H2]; subst.
    + inversion H1; subst. inversion H2; subst.
      edestruct (rb_plug (kr ++ FR c (T cl' ll lp lr) s :: k) E) as [m Hm];
        [constructor | | eauto]. by apply rbk_black.
    + inversion H1; subst. inversion H2; subst.
      * eapply del_fix_rb; [constructor | done].
      * edestruct (rb_plug (kr ++ FR c (T cl' ll lp lr) s :: k)) as [m Hm];
          [| exact Hext | eauto]. cbn. eauto with hev.
Qed.
