(* ===== verification/RBHeap.v ===== *)
(** * The intrusive red-black tree: reasoning about the store

    The encoding of parent and colour in one word, frame lemmas for the
    representation predicates, and the tactics that execute the loads and
    stores of [RBTree] symbolically. *)

From S2P Require Import Prelude Interfaces RBTree RBSpec.

(** ** One word for parent and colour *)

Lemma aligned_null : aligned NULL.
Proof. done. Qed.

Lemma land_col_lnot c : Z.land (col c) (Z.lnot 3) = 0.
Proof. by destruct c. Qed.

Lemma aligned_bit p : aligned p → Z.land p 1 = 0.
Proof.
  unfold aligned. intros H. rewrite <-(Z.land_0_l 1), <-H, <-Z.land_assoc. done.
Qed.

Lemma enc_parent p c : aligned p → Z.land (enc p c) (Z.lnot 3) = p.
Proof.
  intros H. unfold enc. rewrite Z.land_lor_distr_l, land_col_lnot, Z.lor_0_r.
  rewrite <-Z.ldiff_land. rewrite <-(Z.lor_ldiff_and p 3) at 2.
  unfold aligned in H. by rewrite H, Z.lor_0_r.
Qed.

Lemma enc_color p c : aligned p → Z.land (enc p c) 1 = col c.
Proof.
  intros H. unfold enc. rewrite Z.land_lor_distr_l, aligned_bit by done. by destruct c.
Qed.

Lemma enc_red p : enc p Red = p.
Proof. apply Z.lor_0_r. Qed.

Lemma enc_set_black p c : Z.lor (enc p c) HEV_RBTREE_BLACK = enc p Black.
Proof. unfold enc. rewrite <-Z.lor_assoc. by destruct c. Qed.

Lemma col_enc c p : Z.lor (col c) p = enc p c.
Proof. apply Z.lor_comm. Qed.

Lemma lor_red p : Z.lor p HEV_RBTREE_RED = enc p Red.
Proof. done. Qed.

Lemma lor_black p : Z.lor p HEV_RBTREE_BLACK = enc p Black.
Proof. done. Qed.

(** ** Distinct nodes

    [NoDup] of a concatenation, as atomic facts: two addresses differ, an
    address is not in a sequence, two sequences are disjoint. *)

Definition disj (A B : list ptr) : Prop := ∀ x, x ∈ A → x ∉ B.

Lemma nodup_app A B : NoDup (A ++ B) → NoDup A ∧ disj A B ∧ NoDup B.
Proof. apply NoDup_app. Qed.

Lemma disj_app_l A A' B : disj (A ++ A') B → disj A B ∧ disj A' B.
Proof. unfold disj. set_solver. Qed.

Lemma disj_cons_l x A B : disj (x :: A) B → (x ∉ B) ∧ disj A B.
Proof. unfold disj. set_solver. Qed.

Lemma disj_app_r A B B' : disj A (B ++ B') → disj A B ∧ disj A B'.
Proof. unfold disj. set_solver. Qed.

Lemma disj_cons_r x A B : disj A (x :: B) → (x ∉ A) ∧ disj A B.
Proof. unfold disj. set_solver. Qed.

Lemma notin_app (x : ptr) A B : x ∉ (A ++ B) → (x ∉ A) ∧ (x ∉ B).
Proof. set_solver. Qed.

Lemma notin_cons (x y : ptr) A : x ∉ (y :: A) → x ≠ y ∧ x ∉ A.
Proof. set_solver. Qed.

Lemma notin_app_2 (x : ptr) A B : x ∉ A → x ∉ B → x ∉ (A ++ B).
Proof. set_solver. Qed.

Lemma notin_cons_2 (x y : ptr) A : x ≠ y → x ∉ A → x ∉ (y :: A).
Proof. set_solver. Qed.

Ltac nd_facts H :=
  lazymatch type of H with
  | NoDup (_ ++ _) =>
      let H1 := fresh "D" in let H2 := fresh "D" in let H3 := fresh "D" in
      apply nodup_app in H as (H1 & H2 & H3); nd_facts H1; nd_facts H2; nd_facts H3
  | NoDup (_ :: _) =>
      let H1 := fresh "D" in let H2 := fresh "D" in
      apply NoDup_cons in H as (H1 & H2); nd_facts H1; nd_facts H2
  | NoDup _ => clear H
  | disj (_ ++ _) _ =>
      let H1 := fresh "D" in let H2 := fresh "D" in
      apply disj_app_l in H as (H1 & H2); nd_facts H1; nd_facts H2
  | disj (_ :: _) _ =>
      let H1 := fresh "D" in let H2 := fresh "D" in
      apply disj_cons_l in H as (H1 & H2); nd_facts H1; nd_facts H2
  | disj [] _ => clear H
  | disj _ (_ ++ _) =>
      let H1 := fresh "D" in let H2 := fresh "D" in
      apply disj_app_r in H as (H1 & H2); nd_facts H1; nd_facts H2
  | disj _ (_ :: _) =>
      let H1 := fresh "D" in let H2 := fresh "D" in
      apply disj_cons_r in H as (H1 & H2); nd_facts H1; nd_facts H2
  | disj _ _ => clear H
  | ?x ∉ _ ++ _ =>
      let H1 := fresh "D" in let H2 := fresh "D" in
      apply notin_app in H as (H1 & H2); nd_facts H1; nd_facts H2
  | ?x ∉ _ :: _ =>
      let H1 := fresh "D" in let H2 := fresh "D" in
      apply notin_cons in H as (H1 & H2); nd_facts H2
  | ?x ∉ [] => clear H
  | _ => idtac
  end.

Ltac ok_facts H :=
  lazymatch type of H with
  | Forall okptr (_ ++ _) =>
      let H1 := fresh "K" in let H2 := fresh "K" in
      apply Forall_app in H as (H1 & H2); ok_facts H1; ok_facts H2
  | Forall okptr (_ :: _) =>
      let H1 := fresh "K" in let H2 := fresh "K" in let H3 := fresh "K" in
      apply Forall_cons in H as ([H1 H3] & H2); ok_facts H2
  | _ => idtac
  end.

Lemma not_eq_sym' (x y : ptr) : x ≠ y → y ≠ x.
Proof. congruence. Qed.

Ltac ne := first [assumption | apply not_eq_sym'; assumption | congruence].

Ltac notin :=
  cbn [inorder paint pre post];
  repeat first [apply notin_app_2 | apply notin_cons_2 | apply not_elem_of_nil];
  first [assumption | ne].

(** ** Frames *)

Lemma rep_insert_ne m parent t p n :
  p ∉ inorder t → rep m parent t → rep (<[p := n]> m) parent t.
Proof.
  revert parent; induction t as [|c l IHl q r IHr]; intros parent Hp; cbn in *; [done |].
  apply notin_app in Hp as [Hl [Hq Hr]%notin_cons]. intros (H1 & H2 & H3).
  rewrite lookup_insert_ne by ne. auto.
Qed.

Lemma rep_ctx_insert_ne m rt k hole p n :
  p ∉ pre k → p ∉ post k → rep_ctx m rt k hole → rep_ctx (<[p := n]> m) rt k hole.
Proof.
  revert hole; induction k as [|[c q r|c l q] k IH]; intros hole Hpre Hpost; cbn in *; [done | |].
  - apply notin_cons in Hpost as [Hq [Hr Hp]%notin_app]. intros (H1 & H2 & H3).
    rewrite lookup_insert_ne by ne. split_and!; [done | by apply rep_insert_ne | by apply IH].
  - apply notin_app in Hpre as [Hp [Hl [Hq _]%notin_cons]%notin_app]. intros (H1 & H2 & H3).
    rewrite lookup_insert_ne by ne. split_and!; [done | by apply rep_insert_ne | by apply IH].
Qed.

Lemma st_ok_zoom s f k t : st_ok s (f :: k) t ↔ st_ok s k (plug1 f t).
Proof.
  destruct f as [c p r|c l p]; (split; intros [Hc Hr Hn Ho]; split);
    cbn in *; try tauto; revert Hn Ho; ino; tauto.
Qed.

Lemma st_ok_plug s k t : st_ok s k t ↔ rbrep s (plug k t).
Proof.
  revert t; induction k as [|f k IH]; intros t; [done |].
  rewrite st_ok_zoom. apply IH.
Qed.

Lemma st_ok_par s k t : st_ok s k t → aligned (par k).
Proof.
  intros [_ _ _ Ho]. destruct k as [|[c p r|c l p] k]; cbn in *; [done | |];
    ok_facts Ho; done.
Qed.

(** Every node of the tree is in the store, so paths are no longer than it. *)
Lemma rep_dom m parent t p : rep m parent t → p ∈ inorder t → is_Some (m !! p).
Proof.
  revert parent; induction t as [|c l IHl q r IHr]; intros parent; cbn; [set_solver |].
  intros (H1 & H2 & H3). rewrite elem_of_app, elem_of_cons.
  intros [Hp | [-> | Hp]]; eauto.
Qed.

Lemma inorder_size s t : rbrep s t → (length (inorder t) ≤ size (rb_nodes s))%nat.
Proof.
  intros [_ Hr Hn _]. cbn in Hn. rewrite app_nil_r in Hn.
  rewrite <-size_dom. rewrite <-(size_list_to_set (C := gset Z) (inorder t)) by done.
  apply subseteq_size. intros p. rewrite elem_of_list_to_set, elem_of_dom.
  by eapply rep_dom.
Qed.

Lemma ctx_length k t : (length k ≤ length (inorder (plug k t)))%nat.
Proof.
  revert t. assert (∀ k, length k ≤ length (pre k) + length (post k))%nat as H.
  { clear k. intros k. induction k as [|[] k IH]; cbn; [lia | |];
      rewrite !length_app; cbn; rewrite ?length_app; lia. }
  intros t. rewrite inorder_plug, !length_app. specialize (H k). lia.
Qed.

(** Enough fuel for a loop that starts at [t] in the context [k]. *)
Lemma fuel_enough s k t : st_ok s k t → (length k ≤ size (rb_nodes s))%nat.
Proof.
  intros H%st_ok_plug%inorder_size. pose proof (ctx_length k t). lia.
Qed.

(** ** Symbolic execution *)

Ltac rb_unfold :=
  unfold hev_rbtree_rotate_set_parents, hev_rbtree_node_set_parent_color,
    hev_rbtree_node_set_parent, hev_rbtree_node_set_black, hev_rbtree_node_is_red,
    hev_rbtree_node_is_black, hev_rbtree_node_red_parent, hev_rbtree_node_color,
    hev_rbtree_node_parent, set_pc, set_left, set_right, get_pc, get_left, get_right,
    get_root, set_root, st, ld, nonnull_and, null_or.

Ltac rb_cbn := cbn [root rb_nodes __parent_color right left rootp paint par fptr].

(** One rewriting step: look a node up in the store, decode a colour, decide a
    pointer comparison. *)
Ltac rb_step :=
  match goal with
  | |- context [<[?p := _]> _ !! ?p] => rewrite lookup_insert_eq
  | |- context [<[?p := _]> _ !! ?q] => rewrite lookup_insert_ne by ne
  | H : ?m !! ?p = Some _ |- context [?m !! ?p] => rewrite H
  | |- context [decide (?x = ?x)] => rewrite (decide_True (P := (x = x))) by done
  | |- context [decide (?x = ?y)] =>
      first [rewrite (decide_False (P := (x = y))) by ne
            | rewrite (decide_True (P := (x = y))) by congruence]
  | |- context [decide (?x ≠ ?y)] =>
      first [rewrite (decide_True (P := (x ≠ y))) by ne
            | rewrite (decide_False (P := (x ≠ y))) by (intros ?; congruence)]
  | |- context [Z.land (enc ?p ?c) (Z.lnot 3)] => rewrite (enc_parent p c) by assumption
  | |- context [Z.land (enc ?p ?c) 1] => rewrite (enc_color p c) by assumption
  | |- context [_ !! enc ?p Red] => rewrite (enc_red p)
  | |- context [bool_decide (Z.land (col Red) HEV_RBTREE_BLACK = 0)] =>
      change (bool_decide (Z.land (col Red) HEV_RBTREE_BLACK = 0)) with true
  | |- context [bool_decide (Z.land (col Black) HEV_RBTREE_BLACK = 0)] =>
      change (bool_decide (Z.land (col Black) HEV_RBTREE_BLACK = 0)) with false
  | |- context [bool_decide (Z.land (col Red) HEV_RBTREE_BLACK ≠ 0)] =>
      change (bool_decide (Z.land (col Red) HEV_RBTREE_BLACK ≠ 0)) with false
  | |- context [bool_decide (Z.land (col Black) HEV_RBTREE_BLACK ≠ 0)] =>
      change (bool_decide (Z.land (col Black) HEV_RBTREE_BLACK ≠ 0)) with true
  | |- context [Z.lor (col ?c) ?p] => rewrite (col_enc c p)
  | |- context [Z.lor ?p HEV_RBTREE_RED] => rewrite (lor_red p)
  | |- context [Z.lor (enc ?p ?c) HEV_RBTREE_BLACK] => rewrite (enc_set_black p c)
  | |- context [Z.lor ?p HEV_RBTREE_BLACK] => rewrite (lor_black p)
  end.

Ltac rb_exec := rb_unfold; mrun; rb_cbn; repeat (rb_step; mrun; rb_cbn).

(** ** Replacing a child and rotating *)

Lemma rep_agree m m' parent t :
  (∀ p, p ∈ inorder t → m' !! p = m !! p) → rep m parent t → rep m' parent t.
Proof.
  revert parent; induction t as [|c l IHl q r IHr]; intros parent Hag; cbn in *; [done |].
  intros (H1 & H2 & H3). rewrite Hag by set_solver.
  split_and!; [done | apply IHl | apply IHr]; set_solver.
Qed.

Lemma rootp_notin q t : q ∉ inorder t → q ≠ NULL → rootp t ≠ q.
Proof. destruct t; cbn; set_solver. Qed.

(** Stores that differ only at the nodes of a context. *)
Definition agree_off (k : ctx) (m m' : gmap Z HevRBTreeNode) : Prop :=
  ∀ p, p ∉ pre k → p ∉ post k → m' !! p = m !! p.

Section Rotation.
Context (k : ctx) (old : ptr) (X : list ptr).
Context (Hnd : NoDup (pre k ++ X ++ post k)).
Context (Hold : old ≠ NULL) (Hpre : old ∉ pre k) (Hpost : old ∉ post k).
Context (Hok : Forall okptr (pre k ++ X ++ post k)).

Lemma change_child_spec s new :
  rep_ctx (rb_nodes s) (root s) k old →
  ∃ s', hev_rbtree_change_child old new (par k) s = Some (tt, s') ∧
    rep_ctx (rb_nodes s') (root s') k new ∧
    agree_off k (rb_nodes s) (rb_nodes s').
Proof.
  intros Hctx. unfold hev_rbtree_change_child. destruct k as [|[c p r|c l p] k']; cbn in *.
  - eexists; split; [reflexivity |]. cbn. done.
  - destruct Hctx as (H1 & H2 & H3). nd_facts Hnd. ok_facts Hok. rb_exec.
    eexists; split; [reflexivity |]. rb_cbn. split.
    + split; [by rewrite lookup_insert_eq |].
      split; [by apply rep_insert_ne | by apply rep_ctx_insert_ne].
    + intros q ? [? ?]%notin_cons. cbn. by rewrite lookup_insert_ne by ne.
  - destruct Hctx as (H1 & H2 & H3). pose proof Hpre as Hpre'. nd_facts Hpre'. nd_facts Hnd.
    ok_facts Hok. pose proof (rootp_notin old l ltac:(done) Hold). rb_exec.
    eexists; split; [reflexivity |]. rb_cbn. split.
    + split; [by rewrite lookup_insert_eq |].
      split; [by apply rep_insert_ne | by apply rep_ctx_insert_ne].
    + intros q Hq ?. cbn in *. nd_facts Hq. by rewrite lookup_insert_ne by ne.
Qed.

(** The end of every rotation: [new] takes the place and colour of [old],
    which becomes its child. *)
Lemma rotate_set_parents_spec s new c no nn color :
  rep_ctx (rb_nodes s) (root s) k old →
  old ≠ new → new ∉ pre k → new ∉ post k → aligned (par k) →
  rb_nodes s !! old = Some no → __parent_color no = enc (par k) c →
  rb_nodes s !! new = Some nn →
  ∃ s', hev_rbtree_rotate_set_parents old new (col color) s = Some (tt, s') ∧
    rep_ctx (rb_nodes s') (root s') k new ∧
    agree_off k
      (<[old := mkRBNode (enc new color) (right no) (left no)]>
        (<[new := mkRBNode (enc (par k) c) (right nn) (left nn)]> (rb_nodes s)))
      (rb_nodes s').
Proof.
  intros Hctx Hne Hn1 Hn2 Hal Ho Hpc Hn. rb_exec. rewrite Hpc. rb_exec.
  change (Z.lor new (col color)) with (enc new color).
  edestruct (λ s, change_child_spec s new)
    as (s' & E & Hc & Ha); [| exists s'; split; [exact E | split; [exact Hc | exact Ha]]].
  cbn. by apply rep_ctx_insert_ne, rep_ctx_insert_ne.
Qed.
End Rotation.
