(* ===== verification/RBInsert.v ===== *)
(** * The intrusive red-black tree: insertion is correct

    The loop of [hev_rbtree_insert_color] computes [RBSpec.ins_fix] on the
    path it climbs, so that linking a node and recolouring keeps the store a
    red-black tree with the node in its place. *)

From S2P Require Import Prelude Interfaces RBTree RBSpec RBHeap.

(** Close a goal [rep (<[..]> .. m) parent t] from the facts about [m]. *)
Ltac rb_rep :=
  repeat match goal with
  | |- rep _ _ E => exact I
  | |- rep _ _ (T _ _ _ _) => split; [repeat rb_step; rb_cbn; rewrite ?enc_red; reflexivity | split]
  | |- rep (<[_ := _]> _) _ _ => apply rep_insert_ne; [notin |]
  end; try assumption.

(** From a store that agrees with [M] off the context, rebuild [st_ok]. *)
Lemma st_ok_finish s' k t M X :
  rep_ctx (rb_nodes s') (root s') k (rootp t) →
  agree_off k M (rb_nodes s') →
  rep M (par k) t → inorder t = X →
  NoDup (pre k ++ X ++ post k) → Forall okptr (pre k ++ X ++ post k) →
  st_ok s' k t.
Proof.
  intros Hc Ha Hr <- Hn Ho. split; [done | | done | done].
  eapply rep_agree; [|exact Hr]. intros p Hp. apply Ha.
  - intros Hp'. apply NoDup_app in Hn as (_ & Hn & _). apply (Hn p Hp'). set_solver.
  - intros Hp'. apply NoDup_app in Hn as (_ & _ & (_ & Hn & _)%NoDup_app). by apply (Hn p).
Qed.

(** Open a tree held by the store: lookups, distinctness, alignment. *)
Ltac rb_open Hok Hc Hn Ho :=
  let Hr := fresh "Hr" in let Hn0 := fresh "Hn" in let Ho0 := fresh "Ho" in
  pose proof (st_ok_par _ _ _ Hok);
  destruct Hok as [Hc Hr Hn Ho];
  cbn [plug1 rootp rep inorder paint] in Hc, Hr, Hn, Ho;
  destruct_and? Hr;
  pose proof Hn as Hn0; pose proof Ho as Ho0; nd_facts Hn0; ok_facts Ho0.

(** A rotation ends by installing its new root in the context. *)
Ltac rb_finish Hc Hn Ho :=
  let s' := fresh "s'" in let E := fresh "E" in let Hc' := fresh "Hc" in
  let Ha := fresh "Ha" in
  lazymatch goal with
  | |- ∃ s', hev_rbtree_change_child ?old ?new (par ?k) ?s1 = _ ∧ _ =>
      edestruct (change_child_spec k old _ Hn ltac:(assumption) ltac:(assumption)
        ltac:(assumption) Ho s1 new) as (s' & E & Hc' & Ha);
      [repeat (apply rep_ctx_insert_ne; [assumption | assumption |]); exact Hc
      | exists s'; split; [exact E |];
        eapply st_ok_finish; [exact Hc' | exact Ha | | | exact Hn | exact Ho];
        [rb_cbn; rb_rep | ino]]
  end.

Lemma insert_rotate_l_outer s k cg t p sb g u :
  t ≠ E → st_ok s k (T cg (T Red t p sb) g u) →
  ∃ s', insert_rotate_l (rootp t) p g s = Some (tt, s') ∧
    st_ok s' k (T cg t p (T Red (paint Black sb) g u)).
Proof.
  intros Ht Hok. destruct t as [|ct a n b]; [done |].
  destruct sb as [|cs c x d]; rb_open Hok Hc Hn Ho; unfold insert_rotate_l; rb_exec;
    rb_finish Hc Hn Ho.
Qed.

Lemma insert_rotate_l_inner s k cg sb p ct a n b g u :
  st_ok s k (T cg (T Red sb p (T ct a n b)) g u) →
  ∃ s', insert_rotate_l n p g s = Some (tt, s') ∧
    st_ok s' k (T cg (T Red sb p (paint Black a)) n (T Red (paint Black b) g u)).
Proof.
  intros Hok. destruct a as [|ca al x ar], b as [|cb bl y br];
    rb_open Hok Hc Hn Ho; unfold insert_rotate_l; rb_exec; rb_finish Hc Hn Ho.
Qed.

Lemma insert_rotate_r_outer s k cg t p sb g u :
  t ≠ E → st_ok s k (T cg u g (T Red sb p t)) →
  ∃ s', insert_rotate_r (rootp t) p g s = Some (tt, s') ∧
    st_ok s' k (T cg (T Red u g (paint Black sb)) p t).
Proof.
  intros Ht Hok. destruct t as [|ct a n b]; [done |].
  destruct sb as [|cs c x d]; rb_open Hok Hc Hn Ho; unfold insert_rotate_r; rb_exec;
    rb_finish Hc Hn Ho.
Qed.

Lemma insert_rotate_r_inner s k cg sb p ct a n b g u :
  st_ok s k (T cg u g (T Red (T ct a n b) p sb)) →
  ∃ s', insert_rotate_r n p g s = Some (tt, s') ∧
    st_ok s' k (T cg (T Red u g (paint Black a)) n (T Red (paint Black b) p sb)).
Proof.
  intros Hok. destruct a as [|ca al x ar], b as [|cb bl y br];
    rb_open Hok Hc Hn Ho; unfold insert_rotate_r; rb_exec; rb_finish Hc Hn Ho.
Qed.

(** Stores below the context only. *)
Ltac rb_update Hc Hn Ho :=
  eapply st_ok_finish; [| intros ???; reflexivity | | | exact Hn | exact Ho];
  [rb_cbn; repeat (apply rep_ctx_insert_ne; [assumption | assumption |]); exact Hc
  | rb_cbn; rb_rep | ino].

(** A red uncle: recolour and continue two levels up. *)
Ltac ins_flip u Hok k2 IH Hlen Hfix :=
  let Hc := fresh "Hc" in let Hn := fresh "Hn" in let Ho := fresh "Ho" in
  destruct u as [|[] ? ? ?]; try done; rb_open Hok Hc Hn Ho; cbn [insert_color_loop]; rb_exec;
  rewrite ?enc_red; eapply (IH (length k2));
  [cbn in Hlen; lia | done | | exact Hfix | cbn in *; lia]; rb_update Hc Hn Ho.

(** A black uncle: the rotations, then done. *)
Ltac ins_rotate u Hok spec :=
  let s' := fresh "s'" in let Er := fresh "Er" in let Hs' := fresh "Hs" in
  let Hc := fresh "Hc" in let Hn := fresh "Hn" in let Ho := fresh "Ho" in
  destruct spec as (s' & Er & Hs'); exists s'; split; [|by apply st_ok_plug in Hs'];
  rewrite <-Er; destruct u as [|[] ? ? ?]; try done;
  rb_open Hok Hc Hn Ho; cbn [insert_color_loop]; rb_exec; by rewrite ?enc_red.

(** The loop of [hev_rbtree_insert_color]. *)
Lemma insert_color_loop_spec fuel k a n b t' s :
  st_ok s k (T Red a n b) → ins_fix k (T Red a n b) = Some t' → (length k < fuel)%nat →
  ∃ s', insert_color_loop fuel n (par k) s = Some (tt, s') ∧ rbrep s' t'.
Proof.
  revert fuel a n b s. remember (length k) as len eqn:Hlen. revert k Hlen.
  induction len as [len IH] using (well_founded_induction lt_wf).
  intros k Hlen fuel a n b s Hok Hfix Hfuel. destruct fuel as [|fuel]; [lia |].
  destruct k as [|f k1]; cbn in Hfix.
  { simplify_eq. rb_open Hok Hc Hn Ho. cbn [insert_color_loop]. rb_exec.
    eexists; split; [reflexivity |]. unfold rbrep. rb_update Hc Hn Ho. }
  destruct (fcol f) eqn:Hf; [|].
  2: { simplify_eq. exists s. split; [|by apply st_ok_plug in Hok].
       destruct f as [[] p r|[] l p]; try done;
         (rewrite st_ok_zoom in Hok; rb_open Hok Hc Hn Ho; cbn [insert_color_loop]; by rb_exec). }
  destruct k1 as [|g k2]; [done |].
  destruct f as [[] p sb|[] sb p], g as [cg gp u|cg u gp]; try done;
    rewrite !st_ok_zoom in Hok; cbn [plug1] in Hok.
  - destruct (is_red u) eqn:Hu; [ins_flip u Hok k2 IH Hlen Hfix | simplify_eq].
    ins_rotate u Hok (insert_rotate_l_outer s k2 cg (T Red a n b) p sb gp u ltac:(discriminate) Hok).
  - destruct (is_red u) eqn:Hu; [ins_flip u Hok k2 IH Hlen Hfix | simplify_eq].
    ins_rotate u Hok (insert_rotate_r_inner s k2 cg sb p Red a n b gp u Hok).
  - destruct (is_red u) eqn:Hu; [ins_flip u Hok k2 IH Hlen Hfix | simplify_eq].
    ins_rotate u Hok (insert_rotate_l_inner s k2 cg sb p Red a n b gp u Hok).
  - destruct (is_red u) eqn:Hu; [ins_flip u Hok k2 IH Hlen Hfix | simplify_eq].
    ins_rotate u Hok (insert_rotate_r_outer s k2 cg (T Red a n b) p sb gp u ltac:(discriminate) Hok).
Qed.

(** Linking a fresh node at a leaf position: the store before
    [hev_rbtree_insert_color]. *)
Lemma insert_color_spec s k n :
  st_ok s k (T Red E n E) → rbk k Black 0 →
  ∃ s' t' h, hev_rbtree_insert_color n s = Some (tt, s') ∧ rbrep s' t' ∧ rb t' Black h ∧
    inorder t' = pre k ++ n :: post k.
Proof.
  intros Hok Hk. destruct (ins_fix_rb k (T Red E n E) 0) as (t' & h & Hfix & Hrb);
    [repeat constructor | done |].
  destruct (insert_color_loop_spec (S (size (rb_nodes s))) k E n E t' s) as (s' & Er & Hs');
    [done | done | pose proof (fuel_enough _ _ _ Hok); lia |].
  exists s', t', h. split_and!; [| done | done | by apply ins_fix_inorder in Hfix].
  pose proof (st_ok_par _ _ _ Hok). unfold hev_rbtree_insert_color, rb_fuel.
  destruct Hok as [_ [Hn _] _ _]. rb_exec. by rewrite enc_red.
Qed.
