(* ===== verification/RBErase.v ===== *)
(** * The intrusive red-black tree: removal is correct

    [_hev_rbtree_erase] splices the node out and [_hev_rbtree_erase_color]
    computes [RBSpec.del_fix] on the path it climbs, so that removal keeps
    the store a red-black tree of the remaining nodes, in order. *)

From S2P Require Import Prelude Interfaces RBTree RBSpec RBHeap RBInsert.

(** ** The four cases of the loop body *)

Lemma erase_case4_l_spec s k c t p cs sl x cr rl y rr :
  st_ok s k (T c t p (T cs sl x (T cr rl y rr))) →
  ∃ s', erase_case4_l p x y s = Some (tt, s') ∧
    st_ok s' k (T c (T Black t p sl) x (T Black rl y rr)).
Proof.
  intros Hok. destruct sl as [|csl sll z slr]; rb_open Hok Hc Hn Ho;
    unfold erase_case4_l; rb_exec; rb_finish Hc Hn Ho.
Qed.

Lemma erase_case4_r_spec s k c t p cs sr x cl ll y lr :
  st_ok s k (T c (T cs (T cl ll y lr) x sr) p t) →
  ∃ s', erase_case4_r p x y s = Some (tt, s') ∧
    st_ok s' k (T c (T Black ll y lr) x (T Black sr p t)).
Proof.
  intros Hok. destruct sr as [|csr srl z srr]; rb_open Hok Hc Hn Ho;
    unfold erase_case4_r; rb_exec; rb_finish Hc Hn Ho.
Qed.

Lemma erase_case34_l_spec s k c t p cs cx a x b z sr :
  st_ok s k (T c t p (T cs (T cx a x b) z sr)) →
  ∃ s', ('(tmp1, sibling) ← erase_case3_l p z x; erase_case4_l p sibling tmp1) s = Some (tt, s') ∧
    st_ok s' k (T c (T Black t p a) x (T Black (paint Black b) z sr)).
Proof.
  intros Hok. destruct a as [|ca al u ar], b as [|cb bl v br]; rb_open Hok Hc Hn Ho;
    unfold erase_case3_l, erase_case4_l; rb_exec; rb_finish Hc Hn Ho.
Qed.

Lemma erase_case34_r_spec s k c t p cs cx a x b z sl :
  st_ok s k (T c (T cs sl z (T cx a x b)) p t) →
  ∃ s', ('(tmp1, sibling) ← erase_case3_r p z x; erase_case4_r p sibling tmp1) s = Some (tt, s') ∧
    st_ok s' k (T c (T Black sl z (paint Black a)) x (T Black b p t)).
Proof.
  intros Hok. destruct a as [|ca al u ar], b as [|cb bl v br]; rb_open Hok Hc Hn Ho;
    unfold erase_case3_r, erase_case4_r; rb_exec; rb_finish Hc Hn Ho.
Qed.

Lemma erase_case1_l_spec s k c t p cl ll y lr x sr :
  st_ok s k (T c t p (T Red (T cl ll y lr) x sr)) →
  ∃ s', erase_case1_l p x s = Some (y, s') ∧
    st_ok s' k (T c (T Red t p (T Black ll y lr)) x sr).
Proof.
  intros Hok.
  assert (∃ s', (set_right p y;; set_left x p;;
      hev_rbtree_node_set_parent_color y p HEV_RBTREE_BLACK;;
      hev_rbtree_rotate_set_parents p x HEV_RBTREE_RED) s = Some (tt, s') ∧
    st_ok s' k (T c (T Red t p (T Black ll y lr)) x sr)) as (s' & Er & Hs').
  { rb_open Hok Hc Hn Ho; rb_exec; rb_finish Hc Hn Ho. }
  exists s'. split; [|done]. revert Er. rb_open Hok Hc Hn Ho. unfold erase_case1_l.
  rb_exec. intros ->. done.
Qed.

Lemma erase_case1_r_spec s k c t p cr rl y rr x sl :
  st_ok s k (T c (T Red sl x (T cr rl y rr)) p t) →
  ∃ s', erase_case1_r p x s = Some (y, s') ∧
    st_ok s' k (T c sl x (T Red (T Black rl y rr) p t)).
Proof.
  intros Hok.
  assert (∃ s', (set_left p y;; set_right x p;;
      hev_rbtree_node_set_parent_color y p HEV_RBTREE_BLACK;;
      hev_rbtree_rotate_set_parents p x HEV_RBTREE_RED) s = Some (tt, s') ∧
    st_ok s' k (T c sl x (T Red (T Black rl y rr) p t))) as (s' & Er & Hs').
  { rb_open Hok Hc Hn Ho; rb_exec; rb_finish Hc Hn Ho. }
  exists s'. split; [|done]. revert Er. rb_open Hok Hc Hn Ho. unfold erase_case1_r.
  rb_exec. intros ->. done.
Qed.

(** ** The body after case 1 *)

Section Body.
Context (loop : ptr → ptr → M rbstore unit) (k : ctx) (rec : tree → option tree) (t' : tree).
(** The next iteration, at a node below a parent. *)
Context (Hloop : ∀ s u, u ≠ E → k ≠ [] → st_ok s k u → rec u = Some t' →
  ∃ s', loop (rootp u) (par k) s = Some (tt, s') ∧ rbrep s' t').
(** At the root the climb ends. *)
Context (Hroot : ∀ u, k = [] → rec u = Some t' → u = t').

Lemma erase_black_l_spec s t c p cs sl x sr :
  st_ok s k (T c t p (T cs sl x sr)) →
  del_l t c p (T cs sl x sr) k rec = Some t' →
  ∃ s', erase_black_l loop p x s = Some (tt, s') ∧ rbrep s' t'.
Proof.
  intros Hok Hdel. cbn in Hdel. destruct (is_red sr) eqn:Hsr.
  { destruct sr as [|[] rl y rr]; try done. simplify_eq.
    destruct (erase_case4_l_spec _ _ _ _ _ _ _ _ _ _ _ _ Hok) as (s' & Er & Hs').
    exists s'. split; [|by apply st_ok_plug in Hs']. rewrite <-Er.
    rb_open Hok Hc Hn Ho; unfold erase_black_l; rb_exec; done. }
  destruct (is_red sl) eqn:Hsl.
  { destruct sl as [|[] a y b]; try done. simplify_eq.
    destruct (erase_case34_l_spec _ _ _ _ _ _ _ _ _ _ _ _ Hok) as (s' & Er & Hs').
    exists s'. split; [|by apply st_ok_plug in Hs']. rewrite <-Er.
    destruct sr as [|[] rl z rr]; try done;
      rb_open Hok Hc Hn Ho; unfold erase_black_l; rb_exec; done. }
  assert (match c with
    | Red => Some (plug k (T Black t p (T Red sl x sr)))
    | Black => rec (T Black t p (T Red sl x sr)) end = Some t') as Hd
    by (by destruct sl as [|[] ? ? ?]).
  clear Hdel. destruct c; simplify_eq.
  - assert (∃ s', erase_black_l loop p x s = Some (tt, s') ∧
      st_ok s' k (T Black t p (T Red sl x sr))) as (s' & Er & Hs');
      [|exists s'; split; [done | by apply st_ok_plug in Hs']].
    destruct sl as [|[] ? ? ?], sr as [|[] ? ? ?]; try done;
      rb_open Hok Hc Hn Ho; unfold erase_black_l; rb_exec;
      (eexists; split; [reflexivity |]; rb_update Hc Hn Ho).
  - assert (∃ s1, erase_black_l loop p x s =
        (if decide (par k ≠ NULL) then loop p (par k) else mret tt) s1 ∧
      st_ok s1 k (T Black t p (T Red sl x sr))) as (s1 & Er & Hs1).
    { destruct sl as [|[] ? ? ?], sr as [|[] ? ? ?]; try done;
        rb_open Hok Hc Hn Ho; unfold erase_black_l; rb_exec;
        (eexists; split; [reflexivity |]; rb_update Hc Hn Ho). }
    rewrite Er. destruct (decide (k = [])) as [-> | Hk].
    + cbn. exists s1. split; [done |]. rewrite <-(Hroot _ eq_refl Hd). done.
    + rewrite decide_True; [by apply (Hloop s1 (T Black t p (T Red sl x sr))) |].
      destruct k as [|[? q ?|? ? q] k']; [done | |];
        destruct Hs1 as [_ _ _ Ho]; cbn in Ho; ok_facts Ho; done.
Qed.

Lemma erase_black_r_spec s t c p cs sl x sr :
  st_ok s k (T c (T cs sl x sr) p t) →
  del_r t c p (T cs sl x sr) k rec = Some t' →
  ∃ s', erase_black_r loop p x s = Some (tt, s') ∧ rbrep s' t'.
Proof.
  intros Hok Hdel. cbn in Hdel. destruct (is_red sl) eqn:Hsl.
  { destruct sl as [|[] rl y rr]; try done. simplify_eq.
    destruct (erase_case4_r_spec _ _ _ _ _ _ _ _ _ _ _ _ Hok) as (s' & Er & Hs').
    exists s'. split; [|by apply st_ok_plug in Hs']. rewrite <-Er.
    rb_open Hok Hc Hn Ho; unfold erase_black_r; rb_exec; done. }
  destruct (is_red sr) eqn:Hsr.
  { destruct sr as [|[] a y b]; try done. simplify_eq.
    destruct (erase_case34_r_spec _ _ _ _ _ _ _ _ _ _ _ _ Hok) as (s' & Er & Hs').
    exists s'. split; [|by apply st_ok_plug in Hs']. rewrite <-Er.
    destruct sl as [|[] rl z rr]; try done;
      rb_open Hok Hc Hn Ho; unfold erase_black_r; rb_exec; done. }
  assert (match c with
    | Red => Some (plug k (T Black (T Red sl x sr) p t))
    | Black => rec (T Black (T Red sl x sr) p t) end = Some t') as Hd
    by (by destruct sr as [|[] ? ? ?]).
  clear Hdel. destruct c; simplify_eq.
  - assert (∃ s', erase_black_r loop p x s = Some (tt, s') ∧
      st_ok s' k (T Black (T Red sl x sr) p t)) as (s' & Er & Hs');
      [|exists s'; split; [done | by apply st_ok_plug in Hs']].
    destruct sl as [|[] ? ? ?], sr as [|[] ? ? ?]; try done;
      rb_open Hok Hc Hn Ho; unfold erase_black_r; rb_exec;
      (eexists; split; [reflexivity |]; rb_update Hc Hn Ho).
  - assert (∃ s1, erase_black_r loop p x s =
        (if decide (par k ≠ NULL) then loop p (par k) else mret tt) s1 ∧
      st_ok s1 k (T Black (T Red sl x sr) p t)) as (s1 & Er & Hs1).
    { destruct sl as [|[] ? ? ?], sr as [|[] ? ? ?]; try done;
        rb_open Hok Hc Hn Ho; unfold erase_black_r; rb_exec;
        (eexists; split; [reflexivity |]; rb_update Hc Hn Ho). }
    rewrite Er. destruct (decide (k = [])) as [-> | Hk].
    + cbn. exists s1. split; [done |]. rewrite <-(Hroot _ eq_refl Hd). done.
    + rewrite decide_True; [by apply (Hloop s1 (T Black (T Red sl x sr) p t)) |].
      destruct k as [|[? q ?|? ? q] k']; [done | |];
        destruct Hs1 as [_ _ _ Ho]; cbn in Ho; ok_facts Ho; done.
Qed.
End Body.

(** ** The loop of [_hev_rbtree_erase_color] *)

(** Where the climb starts: the pointer comparison tells the two sides apart. *)
Lemma erase_color_loop_spec fuel k t t' s :
  st_ok s k t → k ≠ [] → del_fix k t = Some t' → (length k < fuel)%nat →
  ∃ s', erase_color_loop fuel (rootp t) (par k) s = Some (tt, s') ∧ rbrep s' t'.
Proof.
  revert fuel t s; induction k as [|f k IH]; intros fuel t s Hok Hk Hfix Hfuel; [done |].
  destruct fuel as [|fuel]; [lia |]. rewrite st_ok_zoom in Hok. cbn in Hfuel.
  destruct f as [c p sib|c sib p]; cbn [del_fix] in Hfix; cbn [plug1] in Hok.
  - destruct sib as [|cs sl x sr]; [done |].
    assert (erase_color_loop (S fuel) (rootp t) p s =
      (sibling ← (if bool_decide (cs = Red) then erase_case1_l p x else mret x);
       erase_black_l (erase_color_loop fuel) p sibling) s) as Er.
    { destruct t as [|ct tl n tr], cs; rb_open Hok Hc Hn Ho; cbn [erase_color_loop]; rb_exec; done. }
    cbn [par fptr]. rewrite Er. destruct cs; cbn.
    + destruct sl as [|cl ll y lr]; [done |].
      destruct (erase_case1_l_spec _ _ _ _ _ _ _ _ _ _ _ Hok) as (s1 & E1 & Hs1).
      rewrite (mbind_some _ _ _ _ _ E1).
      eapply (erase_black_l_spec (erase_color_loop fuel) (FL c x sr :: k) (λ _, None));
        [done | done | by apply st_ok_zoom | exact Hfix].
    + eapply (erase_black_l_spec (erase_color_loop fuel) k (del_fix k));
        [intros; by apply IH; [| | | lia] | | exact Hok | exact Hfix].
      intros u -> [= ->]. done.
  - destruct sib as [|cs sl x sr]; [done |].
    assert (erase_color_loop (S fuel) (rootp t) p s =
      (sibling ← (if bool_decide (cs = Red) then erase_case1_r p x else mret x);
       erase_black_r (erase_color_loop fuel) p sibling) s) as Er.
    { destruct t as [|ct tl n tr], cs; rb_open Hok Hc Hn Ho; cbn [erase_color_loop]; rb_exec; done. }
    cbn [par fptr]. rewrite Er. destruct cs; cbn.
    + destruct sr as [|cr rl y rr]; [done |].
      destruct (erase_case1_r_spec _ _ _ _ _ _ _ _ _ _ _ Hok) as (s1 & E1 & Hs1).
      rewrite (mbind_some _ _ _ _ _ E1).
      eapply (erase_black_r_spec (erase_color_loop fuel) (FR c sl x :: k) (λ _, None));
        [done | done | by apply st_ok_zoom | exact Hfix].
    + eapply (erase_black_r_spec (erase_color_loop fuel) k (del_fix k));
        [intros; by apply IH; [| | | lia] | | exact Hok | exact Hfix].
      intros u -> [= ->]. done.
Qed.

(** ** The path to the successor

    [rep_seg] is [rep_ctx] for a path that ends below a node [pp] instead of
    at the root. *)

Definition par_or (pp : ptr) (k : ctx) : ptr := match k with [] => pp | f :: _ => fptr f end.

Fixpoint top (k : ctx) (hole : ptr) : ptr :=
  match k with [] => hole | f :: k => top k (fptr f) end.

Fixpoint rep_seg (m : gmap Z HevRBTreeNode) (pp : ptr) (k : ctx) (hole : ptr) : Prop :=
  match k with
  | [] => True
  | FL c p r :: k =>
      m !! p = Some (mkRBNode (enc (par_or pp k) c) (rootp r) hole) ∧ rep m p r ∧ rep_seg m pp k p
  | FR c l p :: k =>
      m !! p = Some (mkRBNode (enc (par_or pp k) c) hole (rootp l)) ∧ rep m p l ∧ rep_seg m pp k p
  end.

Lemma par_app k1 k2 : par (k1 ++ k2) = par_or (par k2) k1.
Proof. by destruct k1. Qed.

Lemma rep_ctx_app m rt k1 k2 hole :
  rep_ctx m rt (k1 ++ k2) hole ↔ rep_seg m (par k2) k1 hole ∧ rep_ctx m rt k2 (top k1 hole).
Proof.
  revert hole; induction k1 as [|[c p r|c l p] k1 IH]; intros hole; cbn [app rep_ctx rep_seg top];
    [naive_solver | |]; rewrite IH, par_app; cbn [fptr]; tauto.
Qed.

Lemma rep_seg_plug m pp k t :
  rep m pp (plug k t) ↔ rep_seg m pp k (rootp t) ∧ rep m (par_or pp k) t.
Proof.
  revert t; induction k as [|[c p r|c l p] k IH]; intros t; cbn [plug plug1 rep_seg par_or];
    [tauto | |]; rewrite IH; cbn [rep rootp fptr]; tauto.
Qed.

Lemma rootp_plug k t : rootp (plug k t) = top k (rootp t).
Proof. revert t; induction k as [|[] k IH]; intros t; cbn; [done | |]; apply IH. Qed.

Lemma rep_seg_insert_ne m pp k hole p n :
  p ∉ pre k → p ∉ post k → rep_seg m pp k hole → rep_seg (<[p := n]> m) pp k hole.
Proof.
  revert hole; induction k as [|[c q r|c l q] k IH]; intros hole Hpre Hpost; cbn in *; [done | |].
  - apply notin_cons in Hpost as [Hq [Hr Hp]%notin_app]. intros (H1 & H2 & H3).
    rewrite lookup_insert_ne by ne. split_and!; [done | by apply rep_insert_ne | by apply IH].
  - apply notin_app in Hpre as [Hp [Hl [Hq _]%notin_cons]%notin_app]. intros (H1 & H2 & H3).
    rewrite lookup_insert_ne by ne. split_and!; [done | by apply rep_insert_ne | by apply IH].
Qed.

Lemma top_const k h h' : k ≠ [] → top k h = top k h'.
Proof. by destruct k. Qed.

Lemma rep_seg_agree m m' pp k hole :
  (∀ p, p ∈ pre k ++ post k → m' !! p = m !! p) → rep_seg m pp k hole → rep_seg m' pp k hole.
Proof.
  revert hole; induction k as [|[c q r|c l q] k IH]; intros hole Hag; cbn in *; [done | |];
    intros (H1 & H2 & H3); rewrite Hag by set_solver;
    (split_and!; [done | eapply rep_agree, H2 | apply IH, H3]; set_solver).
Qed.

(** The walk to the leftmost node below [q]. *)
Lemma leftmost_head c l q r kr cs x rs :
  leftmost c l q r = (kr, cs, x, rs) → l ≠ E → ∃ c0 r0 k0, kr = FL c0 (par kr) r0 :: k0.
Proof.
  revert c q r kr; induction l as [|c' l' IH q' r' _]; intros c q r kr Hl Hne; [done |].
  cbn [leftmost] in Hl. destruct (leftmost c' l' q' r') as [[[k1 cs1] x1] rs1] eqn:Hl'.
  simplify_eq. destruct l' as [|c2 l2 q2 r2].
  - cbn in Hl'. simplify_eq. cbn. eauto.
  - destruct (IH _ _ _ _ Hl') as (c0 & r0 & k0 & Hk); [done |]. rewrite Hk. cbn. eauto.
Qed.

Lemma find_successor_spec s c l q r kr cs x rs pp fuel :
  leftmost c l q r = (kr, cs, x, rs) → l ≠ E → rep (rb_nodes s) pp (T c l q r) →
  Forall okptr (inorder (T c l q r)) → (length kr < fuel)%nat →
  find_successor fuel q (rootp l) s = Some ((par kr, x), s).
Proof.
  revert c q r kr pp fuel; induction l as [|c' l' IH q' r' _]; intros c q r kr pp fuel Hl Hne Hr Ho Hf;
    [done |].
  cbn [leftmost] in Hl. destruct (leftmost c' l' q' r') as [[[k1 cs1] x1] rs1] eqn:Hl'.
  simplify_eq. destruct Hr as (H1 & Hr' & H3). destruct fuel as [|fuel]; [lia |].
  cbn [rootp find_successor]. pose proof Hr' as (H4 & _). destruct l' as [|c2 l2 q2 r2].
  - cbn in Hl'. simplify_eq. cbn in H4. rb_exec. done.
  - assert (q2 ≠ NULL) by (cbn in Ho; ok_facts Ho; done). cbn in H4. rb_exec.
    destruct (leftmost_head _ _ _ _ _ _ _ _ Hl') as (c0 & r0 & k0 & Hk); [done |].
    pose proof (IH c' q' r' k1 q fuel Hl') as E1. cbn [rootp] in E1. rewrite E1.
    + by rewrite Hk.
    + done.
    + exact Hr'.
    + cbn [inorder] in Ho |- *. by apply Forall_app in Ho as [? _].
    + rewrite length_app in Hf; cbn in Hf; lia.
Qed.

Lemma find_successor_ok s k c l q r kr cs x rs :
  leftmost c l q r = (kr, cs, x, rs) → l ≠ E → st_ok s k (T c l q r) →
  find_successor (S (size (rb_nodes s))) q (rootp l) s = Some ((par kr, x), s).
Proof.
  intros Hl Hne Hok. eapply find_successor_spec; [exact Hl | done | apply Hok | |].
  - destruct Hok as [_ _ _ Ho]. apply Forall_app in Ho as [_ Ho]. by apply Forall_app in Ho as [? _].
  - destruct (leftmost_inorder _ _ _ _ _ _ _ _ Hl) as [Heq _]. rewrite Heq in Hok.
    apply st_ok_plug in Hok. rewrite <-plug_app in Hok. apply st_ok_plug, fuel_enough in Hok.
    rewrite length_app in Hok. lia.
Qed.

(** ** [_hev_rbtree_erase] *)

(** What [_hev_rbtree_erase] leaves: a finished tree, or a missing black node
    below [rebalance]. *)
Definition erased (rebalance : ptr) (s : rbstore) (t' : tree) : Prop :=
  (rebalance = NULL ∧ rbrep s t') ∨
  (∃ k, k ≠ [] ∧ rebalance = par k ∧ st_ok s k E ∧ del_fix k E = Some t').

Lemma erased_hole s k t' : st_ok s k E → del_fix k E = Some t' → erased (par k) s t'.
Proof.
  intros Hs Hd. destruct k as [|f k]; [left | right; by exists (f :: k)].
  cbn in Hd. injection Hd as <-. by split.
Qed.

Lemma par_nonnull s k t : st_ok s k t → k ≠ [] → par k ≠ NULL.
Proof.
  intros [_ _ _ Ho]. destruct k as [|[? p ?|? ? p] k]; cbn in Ho; [done | |]; ok_facts Ho; done.
Qed.

Lemma erased_finish rebalance s t' :
  erased rebalance s t' →
  ∃ s', (if decide (rebalance ≠ NULL) then _hev_rbtree_erase_color rebalance else mret tt) s
      = Some (tt, s') ∧ rbrep s' t'.
Proof.
  intros [[-> Hr] | (k & Hk & -> & Hs & Hd)]; [rewrite decide_False by auto; eauto |].
  rewrite decide_True by (by eapply par_nonnull).
  destruct (erase_color_loop_spec (S (size (rb_nodes s))) k E t' s) as (s' & Er & Hs');
    [done | done | done | pose proof (fuel_enough _ _ _ Hs); lia |].
  exists s'. split; [exact Er | done].
Qed.

Lemma agree_off_insert k m m' p n :
  agree_off k m m' → agree_off k (<[p := n]> m) (<[p := n]> m').
Proof.
  intros Ha q H1 H2. destruct (decide (p = q)) as [-> | Hne];
    [by rewrite !lookup_insert_eq | rewrite !lookup_insert_ne by done; auto].
Qed.

(** The nodes that remain once [p] is gone. *)
Lemma nodup_drop (A B C D : list ptr) p :
  NoDup (A ++ (B ++ p :: C) ++ D) → NoDup (A ++ (B ++ C) ++ D).
Proof.
  intros H. eapply sublist_NoDup; [exact H |]. apply sublist_app; [done |]. apply sublist_app; [|done].
  apply sublist_app; [done | by apply sublist_cons].
Qed.

Lemma okptr_drop (A B C D : list ptr) p :
  Forall okptr (A ++ (B ++ p :: C) ++ D) → Forall okptr (A ++ (B ++ C) ++ D).
Proof. rewrite !Forall_app, Forall_cons. tauto. Qed.

Lemma erase_leaf s k c p :
  st_ok s k (T c E p E) →
  ∃ s', _hev_rbtree_erase p s = Some (match c with Black => par k | Red => NULL end, s') ∧
    st_ok s' k E.
Proof.
  intros Hok. rb_open Hok Hc Hn Ho.
  destruct (change_child_spec k p _ Hn ltac:(done) ltac:(done) ltac:(done) Ho s NULL Hc)
    as (s' & Er & Hc' & Ha).
  exists s'. split.
  - unfold _hev_rbtree_erase, _hev_rbtree_node_parent, _hev_rbtree_node_is_black.
    rb_exec. rewrite Er. cbn. f_equal. f_equal.
    destruct c; unfold enc; rewrite Z.land_lor_distr_l, aligned_bit by done; done.
  - eapply (st_ok_finish s' k E); [exact Hc' | exact Ha | done | done | |].
    + by apply (nodup_drop _ [] []) in Hn.
    + by apply (okptr_drop _ [] []) in Ho.
Qed.

Lemma erase_right_only s k c p cr rl y rr :
  st_ok s k (T c E p (T cr rl y rr)) →
  ∃ s', _hev_rbtree_erase p s = Some (NULL, s') ∧ st_ok s' k (T c rl y rr).
Proof.
  intros Hok. rb_open Hok Hc Hn Ho.
  destruct (change_child_spec k p _ Hn ltac:(done) ltac:(done) ltac:(done) Ho s y Hc)
    as (s' & Er & Hc' & Ha).
  eexists. split.
  - unfold _hev_rbtree_erase, _hev_rbtree_node_parent. rb_exec. rewrite Er.
    rewrite (Ha y) by done. rb_exec. reflexivity.
  - eapply (st_ok_finish _ k (T c rl y rr)); rb_cbn;
      [by apply rep_ctx_insert_ne | by apply agree_off_insert | rb_rep | done | |].
    + by apply (nodup_drop _ []) in Hn.
    + by apply (okptr_drop _ []) in Ho.
Qed.

(** Run [hev_rbtree_change_child] on the store reached so far. *)
Ltac erase_child Hc Hn Ho :=
  lazymatch goal with
  | |- context [hev_rbtree_change_child ?old ?new (par ?k) ?s1] =>
      edestruct (change_child_spec k old _ Hn ltac:(assumption) ltac:(assumption)
        ltac:(assumption) Ho s1 new) as (s' & Er & Hc' & Ha);
      [repeat (apply rep_ctx_insert_ne; [assumption | assumption |]); exact Hc |];
      cbn [rb_nodes] in Ha; rewrite Er
  end.

(** The stores after [hev_rbtree_change_child]. *)
Ltac erase_exec Ha :=
  rb_exec;
  repeat (match type of Ha with agree_off _ _ ?m =>
    match goal with |- context [m !! ?q] => rewrite (Ha q) by assumption end end; rb_exec).

(** A whole subtree is rebuilt: its nodes are found in the final store. *)
Ltac erase_rep Hc Ha :=
  eapply st_ok_finish; rb_cbn;
  [repeat (apply rep_ctx_insert_ne; [assumption | assumption |]); exact Hc
  | repeat apply agree_off_insert; exact Ha
  | rb_cbn; rb_rep | reflexivity | |].

Lemma erase_left_only s k c p cl ll y lr :
  st_ok s k (T c (T cl ll y lr) p E) →
  ∃ s', _hev_rbtree_erase p s = Some (NULL, s') ∧ st_ok s' k (T c ll y lr).
Proof.
  intros Hok. rb_open Hok Hc Hn Ho.
  unfold _hev_rbtree_erase, _hev_rbtree_node_parent. rb_exec. erase_child Hc Hn Ho.
  exists s'. split; [done |]. erase_rep Hc' Ha.
  - apply (nodup_drop _ _ [] _ p) in Hn. rewrite app_nil_r in Hn. exact Hn.
  - apply (okptr_drop _ _ [] _ p) in Ho. rewrite app_nil_r in Ho. exact Ho.
Qed.

(** Two children, the right one has no left child: it is the successor. *)
Lemma erase_two_near s k c cl ll lp lr p cs sc rs :
  st_ok s k (T c (T cl ll lp lr) p (T cs E sc rs)) →
  ∃ s', _hev_rbtree_erase p s =
      Some (match rs, cs with E, Black => sc | _, _ => NULL end, s') ∧
    st_ok s' k (T c (T cl ll lp lr) sc (paint Black rs)).
Proof.
  intros Hok. unfold _hev_rbtree_erase, _hev_rbtree_node_parent.
  destruct rs as [|c2 a z b]; rb_open Hok Hc Hn Ho; rb_exec; erase_child Hc Hn Ho;
    destruct cs; erase_exec Ha; (eexists; split; [reflexivity |]); erase_rep Hc' Ha;
    first [by apply nodup_drop in Hn | by apply okptr_drop in Ho].
Qed.

(** The successor is the left child of the right child. *)
Lemma erase_two_mid s k c cl ll lp lr p cr cs sc rs rp rr :
  st_ok s k (T c (T cl ll lp lr) p (T cr (T cs E sc rs) rp rr)) →
  ∃ s', _hev_rbtree_erase p s =
      Some (match rs, cs with E, Black => rp | _, _ => NULL end, s') ∧
    st_ok s' k (T c (T cl ll lp lr) sc (T cr (paint Black rs) rp rr)).
Proof.
  intros Hok. unfold _hev_rbtree_erase, _hev_rbtree_node_parent, rb_fuel.
  destruct rs as [|c2 a z b]; rb_open Hok Hc Hn Ho; rb_exec; cbn [find_successor]; rb_exec;
    erase_child Hc Hn Ho; destruct cs; erase_exec Ha; (eexists; split; [reflexivity |]);
    erase_rep Hc' Ha; first [by apply nodup_drop in Hn | by apply okptr_drop in Ho].
Qed.

(** The successor is deeper: its path ends below [q1]. *)
Lemma erase_two_far s k c cl ll lp lr p cr c1 l1 q1 r1 rp rr k1 cs sc rs :
  leftmost c1 l1 q1 r1 = (k1, cs, sc, rs) → l1 ≠ E →
  st_ok s k (T c (T cl ll lp lr) p (T cr (T c1 l1 q1 r1) rp rr)) →
  ∃ s', _hev_rbtree_erase p s =
      Some (match rs, cs with E, Black => par k1 | _, _ => NULL end, s') ∧
    st_ok s' (k1 ++ FL cr rp rr :: FR c (T cl ll lp lr) sc :: k) (paint Black rs).
Proof.
  intros Hl Hl1 Hok.
  assert (leftmost cr (T c1 l1 q1 r1) rp rr = (k1 ++ [FL cr rp rr], cs, sc, rs)) as Hl'
    by (cbn; by rewrite Hl).
  pose proof (find_successor_ok s (FR c (T cl ll lp lr) p :: k) _ _ _ _ _ _ _ _ Hl' ltac:(done)) as Ef.
  rewrite st_ok_zoom in Ef. specialize (Ef Hok). cbn [rootp] in Ef.
  destruct (leftmost_head _ _ _ _ _ _ _ _ Hl Hl1) as (c0 & r0 & k0 & Hk1).
  destruct (leftmost_inorder _ _ _ _ _ _ _ _ Hl) as [Heq Hpre].
  pose proof (rootp_plug k1 (T cs E sc rs)) as Htop. rewrite <-Heq in Htop. cbn [rootp] in Htop.
  assert (par (k1 ++ [FL cr rp rr]) = par k1) as Hp by (by rewrite Hk1). rewrite Hp in Ef.
  set (pk := par k1) in *. clearbody pk. subst k1.
  assert (q1 ≠ NULL) by (destruct Hok as [_ _ _ Ho]; cbn [inorder] in Ho; ok_facts Ho; done).
  rewrite Heq in Hok. pose proof (st_ok_par _ _ _ Hok). destruct Hok as [Hc Hr Hn Ho].
  cbn [rootp] in Hc. cbn [rep] in Hr. rewrite rep_seg_plug, <-Heq in Hr. cbn [rep rep_seg rootp] in Hr.
  cbn [inorder] in Hn, Ho. rewrite inorder_plug in Hn, Ho. rewrite Hpre in Hn, Ho.
  cbn [pre post app inorder] in Hpre, Hn, Ho. cbn [par_or fptr] in Hr.
  enough (∃ s', _hev_rbtree_erase p s =
      Some (match rs, cs with E, Black => pk | _, _ => NULL end, s') ∧
    st_ok s' k (T c (T cl ll lp lr) sc (T cr (plug (FL c0 pk r0 :: k0) (paint Black rs)) rp rr)))
    as (s' & Er & Hs').
  { exists s'. split; [done |]. rewrite st_ok_plug, plug_app in *. exact Hs'. }
  unfold _hev_rbtree_erase, _hev_rbtree_node_parent, rb_fuel.
  destruct rs as [|c2 a z b]; cbn [rep rootp inorder] in *; destruct_and?;
    (pose proof Hn as Hn0; pose proof Ho as Ho0; nd_facts Hn0; ok_facts Ho0);
    rb_exec; rewrite Ef; rb_exec; erase_child Hc Hn Ho; destruct cs; erase_exec Ha;
    (eexists; split; [reflexivity |]);
    (eapply st_ok_finish; [| repeat apply agree_off_insert; exact Ha | | reflexivity | |]); rb_cbn.
  all: lazymatch goal with
    | |- rep_ctx _ _ _ _ =>
        repeat (apply rep_ctx_insert_ne; [assumption | assumption |]); exact Hc'
    | |- rep _ _ _ => idtac
    | |- _ => cbn [inorder]; rewrite inorder_plug; cbn [pre post inorder app]; rewrite Hpre;
        first [apply nodup_drop in Hn; exact Hn | apply okptr_drop in Ho; exact Ho]
    end.
  all: split; [| split]; [| rb_rep |]; [repeat rb_step; reflexivity |].
  all: split; [| split]; [rewrite rootp_plug; cbn; repeat rb_step; rewrite Htop; reflexivity | | rb_rep].
  all: rewrite rep_seg_plug; cbn [rep_seg par_or fptr rootp]; split; [| rb_rep].
  all: split_and!; [repeat rb_step; reflexivity | rb_rep |].
  all: repeat (apply rep_seg_insert_ne; [rewrite Hpre; apply not_elem_of_nil | assumption |]);
    assumption.
Qed.

(** ** [hev_rbtree_erase] *)

Lemma erase_spec s k c l p r t' :
  st_ok s k (T c l p r) → del_node k c l r = Some t' →
  ∃ s' rebalance, _hev_rbtree_erase p s = Some (rebalance, s') ∧ erased rebalance s' t'.
Proof.
  intros Hok Hd. destruct l as [|cl ll lp lr], r as [|cr rl rp rr]; cbn [del_node] in Hd.
  - destruct (erase_leaf _ _ _ _ Hok) as (s' & Er & Hs). exists s'. eexists. split; [exact Er |].
    destruct c; [left | by apply erased_hole]. simplify_eq. split; [done |].
    exact (proj1 (st_ok_plug _ _ _) Hs).
  - destruct (erase_right_only _ _ _ _ _ _ _ _ Hok) as (s' & Er & Hs). simplify_eq.
    exists s', NULL. split; [done | left; split; [done |]]. exact (proj1 (st_ok_plug _ _ _) Hs).
  - destruct (erase_left_only _ _ _ _ _ _ _ _ Hok) as (s' & Er & Hs). simplify_eq.
    exists s', NULL. split; [done | left; split; [done |]]. exact (proj1 (st_ok_plug _ _ _) Hs).
  - destruct (leftmost cr rl rp rr) as [[[kr cs] sc] rs] eqn:Hl.
    assert (∃ s', _hev_rbtree_erase p s =
        Some (match rs, cs with E, Black => par (kr ++ FR c (T cl ll lp lr) sc :: k) | _, _ => NULL end, s') ∧
      st_ok s' (kr ++ FR c (T cl ll lp lr) sc :: k) (paint Black rs)) as (s' & Er & Hs).
    { destruct rl as [|c1 l1 q1 r1]; cbn [leftmost] in Hl.
      - simplify_eq. destruct (erase_two_near _ _ _ _ _ _ _ _ _ _ _ Hok) as (s' & Er & Hs).
        exists s'. split; [exact Er |]. by apply st_ok_zoom.
      - destruct (leftmost c1 l1 q1 r1) as [[[k1 cs1] x1] rs1] eqn:Hl1. simplify_eq.
        rewrite <-app_assoc. cbn [app]. destruct l1 as [|c2 l2 q2 r2].
        + cbn in Hl1. simplify_eq.
          destruct (erase_two_mid _ _ _ _ _ _ _ _ _ _ _ _ _ _ Hok) as (s' & Er & Hs).
          exists s'. split; [exact Er |]. cbn [app]. by do 2 apply st_ok_zoom.
        + destruct (erase_two_far _ _ _ _ _ _ _ _ _ _ _ _ _ _ _ _ _ _ _ Hl1 ltac:(done) Hok)
            as (s' & Er & Hs).
          exists s'. split; [|exact Hs]. rewrite Er.
          destruct (leftmost_head _ _ _ _ _ _ _ _ Hl1) as (c0 & r0 & k0 & Hk1); [done |].
          by rewrite Hk1. }
    exists s'. eexists. split; [exact Er |].
    destruct rs as [|c2 a z b]; [destruct cs; [left | by apply erased_hole] | left];
      simplify_eq; (split; [done |]); exact (proj1 (st_ok_plug _ _ _) Hs).
Qed.

Lemma hev_rbtree_erase_spec s k c l p r t' :
  st_ok s k (T c l p r) → del_node k c l r = Some t' →
  ∃ s', hev_rbtree_erase p s = Some (tt, s') ∧ rbrep s' t'.
Proof.
  intros Hok Hd. destruct (erase_spec _ _ _ _ _ _ _ Hok Hd) as (s1 & rb & Er & Hs1).
  destruct (erased_finish _ _ _ Hs1) as (s' & Ef & Hs').
  exists s'. split; [|done]. unfold hev_rbtree_erase. by rewrite (mbind_some _ _ _ _ _ Er).
Qed.
