(* ===== verification/RBMap.v ===== *)
(** * The intrusive red-black tree: what its clients see

    In-order traversal with [hev_rbtree_first], [hev_rbtree_node_next] and
    their mirror images, insertion at the link a descent stopped at, removal,
    replacement, and the instance of the [SearchTree] interface. *)

From S2P Require Import Prelude Interfaces RBTree RBSpec RBHeap RBInsert RBErase.

(** ** Links *)

Definition load_link (k : link) : M rbstore ptr :=
  match k with LRoot => get_root | LLeft p => get_left p | LRight p => get_right p end.

Definition store_link (k : link) (v : ptr) : M rbstore unit :=
  match k with LRoot => set_root v | LLeft p => set_left p v | LRight p => set_right p v end.

Definition link_of (k : ctx) : link :=
  match k with [] => LRoot | FL _ p _ :: _ => LLeft p | FR _ _ p :: _ => LRight p end.

Lemma link_of_parent k : link_parent (link_of k) = par k.
Proof. by destruct k as [|[] k]. Qed.

Lemma load_link_spec s k t : st_ok s k t → load_link (link_of k) s = Some (rootp t, s).
Proof.
  intros [Hc _ _ _]. destruct k as [|[c p r|c l p] k]; cbn in *.
  - unfold get_root. by rewrite Hc.
  - destruct Hc as (H & _). by rb_exec.
  - destruct Hc as (H & _). by rb_exec.
Qed.

(** Linking a node with storage at an empty position. *)
Lemma node_link_spec s k n :
  st_ok s k E → okptr n → n ∉ pre k → n ∉ post k → is_Some (rb_nodes s !! n) →
  ∃ s', hev_rbtree_node_link n (par k) (store_link (link_of k)) s = Some (tt, s') ∧
    st_ok s' k (T Red E n E).
Proof.
  intros [Hc Hr Hn Ho] Hok Hpre Hpost [x Hx]. cbn in Hn, Ho.
  assert (NoDup (pre k ++ (inorder (T Red E n E)) ++ post k)) as Hn'.
  { cbn. apply NoDup_app in Hn as (H1 & H2 & H3). apply NoDup_app. split_and!; [done | |].
    - intros y Hy. specialize (H2 y Hy). intros [->|]%elem_of_cons; done.
    - by apply NoDup_cons. }
  assert (Forall okptr (pre k ++ (inorder (T Red E n E)) ++ post k)) as Ho'.
  { cbn. apply Forall_app in Ho as [? ?]. apply Forall_app; split; [done | by constructor]. }
  clear Hn Ho. unfold hev_rbtree_node_link.
  destruct k as [|[c p r|c l p] k]; cbn in Hc; [| destruct Hc as (H1 & H2 & H3)..];
    pose proof Hn' as Hnd; cbn [pre post inorder app] in Hnd, Hpre, Hpost;
    nd_facts Hnd; nd_facts Hpre; nd_facts Hpost;
    cbn [store_link link_of par fptr]; rb_exec; (eexists; split; [reflexivity |]);
    (split; [| | exact Hn' | exact Ho']); cbn [rootp root rb_nodes rep_ctx rep par fptr];
    split_and?; repeat rb_step; try done; rewrite ?enc_red; try done;
    repeat first [apply rep_insert_ne; [assumption |] | apply rep_ctx_insert_ne; [assumption.. |]];
    try assumption.
Qed.

(** ** Walks *)

Fixpoint height (t : tree) : nat :=
  match t with E => 0 | T _ l _ r => S (Nat.max (height l) (height r)) end.

Lemma height_inorder t : (height t ≤ length (inorder t))%nat.
Proof. induction t; cbn; rewrite ?length_app; cbn; lia. Qed.

Lemma height_fuel s k t : st_ok s k t → (height t ≤ size (rb_nodes s))%nat.
Proof.
  intros H%st_ok_plug%inorder_size. rewrite inorder_plug, !length_app in H.
  pose proof (height_inorder t). lia.
Qed.

Lemma mid_nonnull A p B : Forall okptr (A ++ p :: B) → p ≠ NULL.
Proof. intros Ho. ok_facts Ho. done. Qed.

Lemma go_left_spec m s pp t fuel :
  m = rb_nodes s → rep m pp t → Forall okptr (inorder t) → t ≠ E → (height t ≤ fuel)%nat →
  go_left fuel (rootp t) s = Some (first_of NULL (inorder t), s).
Proof.
  intros ->. revert pp fuel; induction t as [|c l IHl p r _]; intros pp fuel Hr Ho Ht Hf; [done |].
  destruct fuel as [|fuel]; [cbn in Hf; lia |]. destruct Hr as (H1 & H2 & H3).
  cbn [go_left]. destruct l as [|cl ll q lr].
  - cbn [rootp] in *. rb_exec. done.
  - cbn [rootp] in *. cbn [inorder] in Ho. apply Forall_app in Ho as [Hol Ho].
    pose proof (mid_nonnull _ _ _ Hol). rb_exec.
    rewrite (IHl p fuel H2 Hol ltac:(done)) by (cbn in Hf |- *; lia).
    cbn [inorder]. do 2 f_equal. by destruct (inorder ll).
Qed.

Lemma go_right_spec m s pp t fuel :
  m = rb_nodes s → rep m pp t → Forall okptr (inorder t) → t ≠ E → (height t ≤ fuel)%nat →
  go_right fuel (rootp t) s = Some (last_of NULL (inorder t), s).
Proof.
  intros ->. revert pp fuel; induction t as [|c l _ p r IHr]; intros pp fuel Hr Ho Ht Hf; [done |].
  destruct fuel as [|fuel]; [cbn in Hf; lia |]. destruct Hr as (H1 & H2 & H3).
  cbn [go_right]. unfold last_of in *. destruct r as [|cr rl q rr].
  - cbn [rootp] in *. rb_exec. cbn. by rewrite last_snoc.
  - cbn [rootp] in *. cbn [inorder] in Ho. apply Forall_app in Ho as [Hol [_ Ho]%Forall_cons].
    pose proof (mid_nonnull _ _ _ Ho). rb_exec.
    rewrite (IHr p fuel H3 Ho ltac:(done)) by (cbn in Hf |- *; lia).
    cbn [inorder]. rewrite !last_app, !last_cons, !last_app, !last_cons.
    by destruct (list.last (inorder rr)).
Qed.

Lemma climb_right_spec k t s fuel :
  st_ok s k t → t ≠ E → (length k < fuel)%nat →
  climb_right fuel (rootp t) s = Some (first_of NULL (post k), s).
Proof.
  revert t fuel; induction k as [|f k IH]; intros t fuel Hok Ht Hf;
    (destruct fuel as [|fuel]; [lia |]); (destruct t as [|c l q r]; [done |]); cbn [climb_right rootp].
  - rb_open Hok Hc Hn Ho. rb_exec. done.
  - pose proof Hok as Hok'. apply st_ok_zoom in Hok'. destruct f as [c' p r'|c' l' p].
    + rb_open Hok Hc Hn Ho. cbn [pre post] in *. destruct Hc as (H4 & _).
      pose proof Hn as Hnd; nd_facts Hnd. ok_facts Ho.
      pose proof (rootp_notin q r' ltac:(assumption) ltac:(assumption)). rb_exec. done.
    + rb_open Hok Hc Hn Ho. cbn [pre post] in *. destruct Hc as (H4 & _). ok_facts Ho. rb_exec.
      apply (IH _ fuel Hok'); [done | cbn in Hf; lia].
Qed.

Lemma climb_left_spec k t s fuel :
  st_ok s k t → t ≠ E → (length k < fuel)%nat →
  climb_left fuel (rootp t) s = Some (last_of NULL (pre k), s).
Proof.
  revert t fuel; induction k as [|f k IH]; intros t fuel Hok Ht Hf;
    (destruct fuel as [|fuel]; [lia |]); (destruct t as [|c l q r]; [done |]); cbn [climb_left rootp].
  - rb_open Hok Hc Hn Ho. rb_exec. done.
  - pose proof Hok as Hok'. apply st_ok_zoom in Hok'. destruct f as [c' p r'|c' l' p].
    + rb_open Hok Hc Hn Ho. cbn [pre post] in *. destruct Hc as (H4 & _). ok_facts Ho. rb_exec.
      apply (IH _ fuel Hok'); [done | cbn in Hf; lia].
    + rb_open Hok Hc Hn Ho. cbn [pre post] in *. destruct Hc as (H4 & _).
      pose proof Hn as Hnd; nd_facts Hnd. ok_facts Ho.
      pose proof (rootp_notin q l' ltac:(assumption) ltac:(assumption)). rb_exec.
      unfold last_of. by rewrite app_assoc, last_snoc.
Qed.

Lemma first_of_nonnull xs : Forall okptr xs → xs ≠ [] → first_of NULL xs ≠ NULL.
Proof. destruct xs as [|x xs]; [done |]. intros [[? _] _]%Forall_cons _. done. Qed.

Lemma node_not_empty s k c l p r :
  st_ok s k (T c l p r) → hev_rbtree_node_empty p s = Some (false, s).
Proof.
  intros Hok. assert (par k ≠ p) as Hp.
  { destruct Hok as [_ _ Hn Ho]. destruct k as [|[? q ?|? ? q] k]; cbn in *; nd_facts Hn; ok_facts Ho; ne. }
  rb_open Hok Hc Hn Ho. unfold hev_rbtree_node_empty. rb_exec.
  rewrite bool_decide_eq_false_2; [done |]. destruct c; [by rewrite enc_red |].
  intros Heq. pose proof (enc_color (par k) Black ltac:(assumption)) as Hcol.
  rewrite Heq, aligned_bit in Hcol by done. done.
Qed.

Lemma subtree_ok s k c l p r :
  st_ok s k (T c l p r) → Forall okptr (inorder l) ∧ Forall okptr (inorder r).
Proof. intros [_ _ _ Ho]. cbn in Ho. ok_facts Ho. done. Qed.

Lemma node_next_spec s k c l p r :
  st_ok s k (T c l p r) →
  hev_rbtree_node_next p s = Some (first_of NULL (inorder r ++ post k), s).
Proof.
  intros Hok. unfold hev_rbtree_node_next, rb_fuel.
  rewrite (mbind_some _ _ _ _ _ (node_not_empty _ _ _ _ _ _ Hok)).
  pose proof (subtree_ok _ _ _ _ _ _ Hok) as [_ Hor].
  pose proof Hok as [_ (H1 & _ & H3) _ _]. pose proof (height_fuel _ _ _ Hok).
  destruct r as [|cr rl q rr]; cbn [rootp] in H1.
  - rb_exec. rewrite (climb_right_spec k (T c l p E)); [done | done | done |].
    pose proof (fuel_enough _ _ _ Hok); lia.
  - pose proof (mid_nonnull _ _ _ Hor). rb_exec.
    rewrite (go_left_spec _ _ p (T cr rl q rr)) by (done || cbn in *; lia).
    do 2 f_equal. cbn. by destruct (inorder rl).
Qed.

Lemma node_prev_spec s k c l p r :
  st_ok s k (T c l p r) →
  hev_rbtree_node_prev p s = Some (last_of NULL (pre k ++ inorder l), s).
Proof.
  intros Hok. unfold hev_rbtree_node_prev, rb_fuel.
  rewrite (mbind_some _ _ _ _ _ (node_not_empty _ _ _ _ _ _ Hok)).
  pose proof (subtree_ok _ _ _ _ _ _ Hok) as [Hol _].
  pose proof Hok as [_ (H1 & H2 & _) _ _]. pose proof (height_fuel _ _ _ Hok).
  destruct l as [|cl ll q lr]; cbn [rootp] in H1.
  - rb_exec. cbn [inorder]. rewrite app_nil_r. rewrite (climb_left_spec k (T c E p r)); [done | done | done |].
    pose proof (fuel_enough _ _ _ Hok); lia.
  - pose proof (mid_nonnull _ _ _ Hol). rb_exec.
    rewrite (go_right_spec _ _ p (T cl ll q lr)) by (done || cbn in *; lia).
    do 2 f_equal. unfold last_of. cbn. rewrite !last_app, !last_cons. by destruct (list.last (inorder lr)).
Qed.

Lemma rbtree_first_spec s t : rbrep s t → hev_rbtree_first s = Some (first_of NULL (inorder t), s).
Proof.
  intros Hok. pose proof (height_fuel _ _ _ Hok). pose proof Hok as [Hc Hr _ Ho].
  cbn in Hc, Hr, Ho. rewrite app_nil_r in Ho. unfold hev_rbtree_first, rb_fuel.
  destruct t as [|c l p r]; cbn [rootp] in Hc; rb_unfold; mrun; rewrite Hc; [done |].
  pose proof (mid_nonnull _ _ _ Ho). rb_exec.
  rewrite (go_left_spec _ _ NULL (T c l p r)) by (done || cbn in *; lia). done.
Qed.

Lemma rbtree_last_spec s t : rbrep s t → hev_rbtree_last s = Some (last_of NULL (inorder t), s).
Proof.
  intros Hok. pose proof (height_fuel _ _ _ Hok). pose proof Hok as [Hc Hr _ Ho].
  cbn in Hc, Hr, Ho. rewrite app_nil_r in Ho. unfold hev_rbtree_last, rb_fuel.
  destruct t as [|c l p r]; cbn [rootp] in Hc; rb_unfold; mrun; rewrite Hc; [done |].
  pose proof (mid_nonnull _ _ _ Ho). rb_exec.
  rewrite (go_right_spec _ _ NULL (T c l p r)) by (done || cbn in *; lia). done.
Qed.

(** ** Height *)

Lemma rb_height t c n : rb t c n → (height t ≤ 2 * n + (if is_red t then 1 else 0))%nat.
Proof.
  induction 1 as [|l p r n Hl IHl Hr IHr|l p r cl cr n Hl IHl Hr IHr]; cbn; [lia | |].
  - inversion Hl; inversion Hr; subst; cbn in *; lia.
  - destruct (is_red l), (is_red r); lia.
Qed.

Lemma rb_weight t c n : rb t c n → (2 ^ n ≤ S (length (inorder t)))%nat.
Proof. induction 1; cbn; rewrite ?length_app; cbn; lia. Qed.

Lemma rb_log t n : rb t Black n → (height t ≤ 2 * Nat.log2 (S (length (inorder t))))%nat.
Proof.
  intros H. pose proof (rb_height _ _ _ H). pose proof (rb_weight _ _ _ H) as Hw.
  apply Nat.log2_le_mono in Hw. rewrite Nat.log2_pow2 in Hw by lia.
  inversion H; subst; cbn [is_red] in *; lia.
Qed.

(** ** Whole operations *)

(** The store holds a red-black tree with these nodes, in this order. *)
Definition rb_tree (s : rbstore) (l : list ptr) : Prop :=
  ∃ t h, rbrep s t ∧ rb t Black h ∧ inorder t = l.

Lemma insert_at s k n h :
  rbrep s (plug k E) → rb (plug k E) Black h → okptr n → n ∉ pre k ++ post k →
  is_Some (rb_nodes s !! n) →
  ∃ s1 s2 t' h', hev_rbtree_node_link n (par k) (store_link (link_of k)) s = Some (tt, s1) ∧
    hev_rbtree_insert_color n s1 = Some (tt, s2) ∧
    rbrep s2 t' ∧ rb t' Black h' ∧ inorder t' = pre k ++ n :: post k.
Proof.
  intros Hs Hrb Hn [Hpre Hpost]%notin_app Hsome. apply (proj2 (st_ok_plug _ _ _)) in Hs.
  destruct (node_link_spec _ _ _ Hs Hn Hpre Hpost Hsome) as (s1 & E1 & Hs1).
  destruct (rb_plug_inv _ _ _ Hrb) as (c & m & Ht & Hk). inversion Ht; subst.
  destruct (insert_color_spec _ _ _ Hs1 Hk) as (s2 & t' & h' & E2 & ? & ? & ?).
  exists s1, s2, t', h'. done.
Qed.

Lemma erase_at s A p B :
  rb_tree s (A ++ p :: B) →
  ∃ s', hev_rbtree_erase p s = Some (tt, s') ∧ rb_tree s' (A ++ B).
Proof.
  intros (t & h & Hs & Hrb & Hin).
  destruct (plug_find t p) as (k & c & l & r & ->); [rewrite Hin; set_solver |].
  assert (NoDup (A ++ p :: B)) as Hnd
    by (rewrite <-Hin; destruct Hs as [_ _ Hn _]; cbn in Hn; by rewrite app_nil_r in Hn).
  apply (proj2 (st_ok_plug _ _ _)) in Hs.
  destruct (rb_plug_inv _ _ _ Hrb) as (c' & m & Ht & Hk).
  assert (c' = c) as -> by (by inversion Ht).
  destruct (del_node_rb _ _ _ _ _ _ Ht Hk) as (t' & h' & Hd & Hrb').
  destruct (hev_rbtree_erase_spec _ _ _ _ _ _ _ Hs Hd) as (s' & Er & Hs').
  exists s'. split; [done |]. exists t', h'. split_and!; [done | done |].
  apply del_node_inorder in Hd. rewrite Hd. rewrite inorder_plug in Hin. cbn in Hin.
  assert ((pre k ++ inorder l) ++ p :: (inorder r ++ post k) = A ++ p :: B) as Heq
    by (rewrite <-Hin, <-!app_assoc; done).
  apply nodup_split_unique in Heq as [<- <-]; [by rewrite <-!app_assoc |].
  by rewrite Heq.
Qed.

(** A walk that starts at [hev_rbtree_first] and follows
    [hev_rbtree_node_next], as the callers iterate. *)
Fixpoint rb_walk (fuel : nat) (n : ptr) (s : rbstore) : option (list ptr) :=
  match fuel with
  | O => None
  | S fuel =>
      if decide (n = NULL) then Some []
      else '(n', _) ← hev_rbtree_node_next n s; cons n <$> rb_walk fuel n' s
  end.

Lemma rb_next_at s A p B :
  rb_tree s (A ++ p :: B) →
  hev_rbtree_node_next p s = Some (first_of NULL B, s) ∧
  hev_rbtree_node_prev p s = Some (last_of NULL A, s).
Proof.
  intros (t & h & Hs & _ & Hin).
  destruct (plug_find t p) as (k & c & l & r & ->); [rewrite Hin; set_solver |].
  assert (NoDup (A ++ p :: B)) as Hnd
    by (rewrite <-Hin; destruct Hs as [_ _ Hn _]; cbn in Hn; by rewrite app_nil_r in Hn).
  apply (proj2 (st_ok_plug _ _ _)) in Hs. rewrite inorder_plug in Hin. cbn in Hin.
  assert (A ++ p :: B = (pre k ++ inorder l) ++ p :: (inorder r ++ post k)) as Heq
    by (rewrite <-Hin, <-!app_assoc; done).
  apply nodup_split_unique in Heq as [-> ->]; [|done].
  split; [by eapply node_next_spec | by eapply node_prev_spec].
Qed.

Lemma rb_tree_ok s l :
  rb_tree s l → NoDup l ∧ Forall okptr l ∧ (length l ≤ size (rb_nodes s))%nat.
Proof.
  intros (t & h & Hs & _ & <-). pose proof (inorder_size _ _ Hs).
  destruct Hs as [_ _ Hn Ho]. cbn in Hn, Ho. rewrite app_nil_r in Hn, Ho. done.
Qed.

Lemma rb_walk_spec s A B fuel :
  rb_tree s (A ++ B) → (length B < fuel)%nat → rb_walk fuel (first_of NULL B) s = Some B.
Proof.
  revert A fuel; induction B as [|p B IH]; intros A fuel Hs Hf; (destruct fuel as [|fuel]; [lia |]);
    cbn [rb_walk].
  - done.
  - destruct (rb_tree_ok _ _ Hs) as (_ & Ho & _). pose proof (mid_nonnull _ _ _ Ho).
    unfold first_of; cbn. rewrite decide_False by done.
    destruct (rb_next_at _ _ _ _ Hs) as [En _]. rewrite En. cbn.
    fold (first_of NULL B). rewrite (IH (A ++ [p])); [done | by rewrite <-app_assoc | cbn in Hf; lia].
Qed.

(** The same backwards, by [hev_rbtree_node_prev]. *)
Fixpoint rb_walk_back (fuel : nat) (n : ptr) (s : rbstore) : option (list ptr) :=
  match fuel with
  | O => None
  | S fuel =>
      if decide (n = NULL) then Some []
      else '(n', _) ← hev_rbtree_node_prev n s; cons n <$> rb_walk_back fuel n' s
  end.

Lemma rb_walk_back_spec s A B fuel :
  rb_tree s (A ++ B) → (length A < fuel)%nat → rb_walk_back fuel (last_of NULL A) s = Some (rev A).
Proof.
  revert B fuel; induction A as [|p A IH] using rev_ind; intros B fuel Hs Hf; (destruct fuel as [|fuel]; [lia |]);
    cbn [rb_walk_back]; [done |].
  rewrite <-app_assoc in Hs. cbn [app] in Hs. rewrite length_app in Hf. cbn in Hf.
  destruct (rb_tree_ok _ _ Hs) as (_ & Ho & _). pose proof (mid_nonnull _ _ _ Ho).
  rewrite last_of_snoc, decide_False by done.
  destruct (rb_next_at _ _ _ _ Hs) as [_ Ep]. rewrite Ep. cbn.
  rewrite (IH (p :: B)) by (done || lia). by rewrite rev_app_distr.
Qed.

(** Storage for a node inside a freshly [calloc]ed record, and its release. *)
Definition rb_alloc (node : ptr) (s : rbstore) : rbstore :=
  mkRBStore (root s) (<[node := mkRBNode 0 NULL NULL]> (rb_nodes s)).

Definition rb_free (node : ptr) (s : rbstore) : rbstore :=
  mkRBStore (root s) (delete node (rb_nodes s)).

Definition rb_empty : rbstore := mkRBStore NULL ∅.

Lemma rep_ctx_agree m m' rt k hole :
  (∀ p, p ∈ pre k ++ post k → m' !! p = m !! p) → rep_ctx m rt k hole → rep_ctx m' rt k hole.
Proof.
  revert hole; induction k as [|[c q r|c l q] k IH]; intros hole Hag; cbn in *; [done | |];
    intros (H1 & H2 & H3); rewrite Hag by set_solver;
    (split_and!; [done | eapply rep_agree, H2 | apply IH, H3]; set_solver).
Qed.

Lemma st_ok_agree s s' k t :
  root s' = root s → (∀ p, p ∈ pre k ++ inorder t ++ post k → rb_nodes s' !! p = rb_nodes s !! p) →
  st_ok s k t → st_ok s' k t.
Proof.
  intros Hrt Hag [Hc Hr Hn Ho]. split; [| | done | done].
  - rewrite Hrt. eapply rep_ctx_agree, Hc. set_solver.
  - eapply rep_agree, Hr. set_solver.
Qed.

(** ** The interface is implemented *)

Definition rb_at (s : rbstore) (lk : link) (A m B : list ptr) : Prop :=
  ∃ k t h, st_ok s k t ∧ rb (plug k t) Black h ∧
    lk = link_of k ∧ A = pre k ∧ m = inorder t ∧ B = post k.

#[export] Program Instance rbtree_search : SearchTree rbstore := {|
  tr_empty := rb_empty;
  tr_alloc := rb_alloc;
  tr_free := rb_free;
  tr_load := load_link;
  tr_link n parent k := hev_rbtree_node_link n parent (store_link k);
  tr_insert_color := hev_rbtree_insert_color;
  tr_erase := hev_rbtree_erase;
  tr_first := hev_rbtree_first;
  tr_fuel s := S (size (rb_nodes s));
  tr_rep := rb_tree;
  tr_at := rb_at;
  tr_ready s p := is_Some (rb_nodes s !! p);
|}.
Next Obligation. exists E, 0%nat. split_and!; [|constructor | done]. repeat split; constructor. Qed.
Next Obligation. intros s l H. destruct (rb_tree_ok _ _ H) as (? & ? & ?). split_and!; auto with lia. Qed.
Next Obligation. intros s l (t & h & Hs & Hrb & <-). exists [], t, h. done. Qed.
Next Obligation.
  intros s lk A m B (k & t & h & Hs & Hrb & -> & -> & -> & ->).
  exists (rootp t). split; [by apply load_link_spec |]. destruct t as [|c l p r]; [by left | right].
  split. { destruct Hs as [_ _ _ Ho]. cbn in Ho. ok_facts Ho. done. }
  exists (inorder l), (inorder r). split_and!; [done | |].
  - exists (FL c p r :: k), l, h. split_and!; try done. by apply st_ok_zoom.
  - exists (FR c l p :: k), r, h. split_and!; try done. by apply st_ok_zoom.
Qed.
Next Obligation.
  intros s lk A m B p (k & t & h & Hs & Hrb & -> & -> & -> & ->) Hp.
  split; [|cbn; rewrite lookup_insert_eq; eauto]. exists k, t, h. split_and!; try done.
  eapply st_ok_agree, Hs; [done |]. intros q Hq. cbn. rewrite lookup_insert_ne; [done |]. set_solver.
Qed.
Next Obligation.
  intros s lk A B p (k & t & h & Hs & Hrb & -> & -> & Ht & ->) Hp Hok Hsome.
  destruct t as [|c l q r]; [| cbn in Ht; by destruct (inorder l)].
  apply (proj1 (st_ok_plug _ _ _)) in Hs.
  destruct (insert_at _ _ _ _ Hs Hrb Hok Hp Hsome) as (s1 & s2 & t' & h' & E1 & E2 & ? & ? & ?).
  exists s1, s2. rewrite link_of_parent. split_and!; [done | done |]. by exists t', h'.
Qed.
Next Obligation. exact erase_at. Qed.
Next Obligation.
  intros s l p (t & h & Hs & Hrb & <-) Hp. exists t, h. split_and!; try done.
  eapply st_ok_agree, Hs; [done |]. intros q Hq. cbn in *. rewrite app_nil_r in Hq.
  rewrite lookup_delete_ne; [done |]. set_solver.
Qed.
Next Obligation. intros s l (t & h & Hs & _ & <-). by apply rbtree_first_spec. Qed.

(** ** Theorems *)

(** A tree of three nodes with a fourth record outside it, for concrete runs. *)
Definition demo_store : rbstore := mkRBStore 16
  (<[8 := mkRBNode 16 NULL NULL]> (<[16 := mkRBNode 1 24 8]>
    (<[24 := mkRBNode 16 NULL NULL]> (<[32 := mkRBNode 0 NULL NULL]> ∅)))).

Definition demo_tree : tree := T Black (T Red E 8 E) 16 (T Red E 24 E).

Lemma demo_rep : rbrep demo_store demo_tree.
Proof.
  split; [done | repeat split; vm_compute; reflexivity | |].
  - cbn. repeat (apply NoDup_cons; split; [set_solver |]). constructor.
  - cbn. repeat (apply Forall_cons; split; [done |]). constructor.
Qed.

Lemma demo_rb : rb demo_tree Black 1.
Proof. repeat econstructor. Qed.

Lemma demo_rb_tree : rb_tree demo_store [8; 16; 24].
Proof. exists demo_tree, 1%nat. split_and!; [apply demo_rep | apply demo_rb | done]. Qed.

(** C4. Insertion is correct: linking a record at any empty position of a
    red-black tree and rebalancing terminates without an invalid access and
    leaves a red-black tree whose sequence of nodes has the new one exactly at
    that position, and whose height is logarithmic in its size. *)
Theorem hev_rbtree_insert_correct s k n h :
  rbrep s (plug k E) → rb (plug k E) Black h → okptr n → n ∉ pre k ++ post k →
  is_Some (rb_nodes s !! n) →
  ∃ s' t' h', (hev_rbtree_node_link n (par k) (store_link (link_of k));;
               hev_rbtree_insert_color n) s = Some (tt, s') ∧
    rbrep s' t' ∧ rb t' Black h' ∧ inorder t' = pre k ++ n :: post k ∧
    (height t' ≤ 2 * Nat.log2 (S (length (inorder t'))))%nat.
Proof.
  intros Hs Hrb Hn Hp Hsome.
  destruct (insert_at _ _ _ _ Hs Hrb Hn Hp Hsome) as (s1 & s2 & t' & h' & E1 & E2 & ? & ? & ?).
  exists s2, t', h'. rewrite (mbind_some _ _ _ _ _ E1). split_and!; eauto using rb_log.
Qed.

Lemma hev_rbtree_insert_correct_witness :
  ∃ s' t' h', (hev_rbtree_node_link 32 24 (store_link (LLeft 24));;
               hev_rbtree_insert_color 32) demo_store = Some (tt, s') ∧
    rbrep s' t' ∧ rb t' Black h' ∧ inorder t' = [8; 16; 32; 24] ∧
    (height t' ≤ 2 * Nat.log2 (S (length (inorder t'))))%nat.
Proof.
  apply (hev_rbtree_insert_correct demo_store [FL Red 24 E; FR Black (T Red E 8 E) 16] 32 1).
  - exact demo_rep.
  - exact demo_rb.
  - split; done.
  - cbn. set_solver.
  - vm_compute. eauto.
Defined.

(** C5. Removal is correct: [hev_rbtree_erase] of any node of a red-black tree
    terminates without an invalid access and leaves a red-black tree with the
    other nodes in the same order. *)
Theorem hev_rbtree_erase_correct s A p B :
  rb_tree s (A ++ p :: B) →
  ∃ s', hev_rbtree_erase p s = Some (tt, s') ∧ rb_tree s' (A ++ B).
Proof. apply erase_at. Qed.

Lemma hev_rbtree_erase_correct_witness :
  ∃ s', hev_rbtree_erase 16 demo_store = Some (tt, s') ∧ rb_tree s' [8; 24].
Proof. apply (hev_rbtree_erase_correct demo_store [8] 16 [24]). exact demo_rb_tree. Defined.

(** C6. Iteration is in order and complete in both directions: from
    [hev_rbtree_first], [hev_rbtree_node_next] visits every node of the tree
    once, in order, and then returns [NULL]; from [hev_rbtree_last],
    [hev_rbtree_node_prev] visits every node once, in the opposite order, and
    then returns [NULL].  From every node both return its neighbours in the
    order, [NULL] where there is none. *)
Theorem hev_rbtree_iteration s l :
  rb_tree s l →
  (∃ n, hev_rbtree_first s = Some (n, s) ∧ rb_walk (S (length l)) n s = Some l) ∧
  (∃ n, hev_rbtree_last s = Some (n, s) ∧ rb_walk_back (S (length l)) n s = Some (rev l)) ∧
  (∀ A p B, l = A ++ p :: B →
     hev_rbtree_node_next p s = Some (first_of NULL B, s) ∧
     hev_rbtree_node_prev p s = Some (last_of NULL A, s)).
Proof.
  intros Hs. pose proof Hs as (t & h & Hr & _ & Hl). split_and!.
  - exists (first_of NULL l). split; [rewrite <-Hl; by apply rbtree_first_spec |].
    apply (rb_walk_spec s []); [done | lia].
  - exists (last_of NULL l). split; [rewrite <-Hl; by apply rbtree_last_spec |].
    apply (rb_walk_back_spec s l []); [by rewrite app_nil_r | lia].
  - intros A p B ->. by apply rb_next_at.
Qed.

Lemma hev_rbtree_iteration_witness :
  (∃ n, hev_rbtree_first demo_store = Some (n, demo_store) ∧
     rb_walk 4 n demo_store = Some [8; 16; 24]) ∧
  (∃ n, hev_rbtree_last demo_store = Some (n, demo_store) ∧
     rb_walk_back 4 n demo_store = Some [24; 16; 8]) ∧
  hev_rbtree_node_prev 8 demo_store = Some (NULL, demo_store).
Proof.
  destruct (hev_rbtree_iteration demo_store [8; 16; 24] demo_rb_tree) as (H1 & H2 & H3).
  split; [exact H1 | split; [exact H2 | apply (H3 [] 8 [16; 24]); reflexivity]].
Defined.

Lemma replace_at s k c l victim new r :
  st_ok s k (T c l victim r) → okptr new → new ∉ pre k ++ inorder (T c l victim r) ++ post k →
  is_Some (rb_nodes s !! new) →
  ∃ s', hev_rbtree_replace victim new s = Some (tt, s') ∧ st_ok s' k (T c l new r).
Proof.
  intros Hok [Hz Hal] Hnew [x Hx].
  assert (NoDup (pre k ++ inorder (T c l new r) ++ post k)) as Hn'.
  { destruct Hok as [_ _ Hn _]. cbn [inorder] in *. rewrite <-!app_assoc in *. cbn [app] in *.
    rewrite (app_assoc (pre k)) in *. by eapply nodup_replace. }
  assert (Forall okptr (pre k ++ inorder (T c l new r) ++ post k)) as Ho'.
  { destruct Hok as [_ _ _ Ho]. cbn [inorder] in *. rewrite !Forall_app, !Forall_cons in *.
    destruct_and! Ho. done. }
  unfold hev_rbtree_replace.
  destruct l as [|cl ll lp lr], r as [|cr rl rp rr]; rb_open Hok Hc Hn Ho;
    cbn [inorder app] in Hnew; nd_facts Hnew; rb_exec; erase_child Hc Hn Ho;
    exists s'; (split; [done |]); erase_rep Hc' Ha; assumption.
Qed.

(** [hev_rbtree_replace] puts a new record in the place of a node: the
    result is a red-black tree in which the new node has the position of the
    victim and the other nodes theirs, and the shape and the colours, around
    and below the victim, are unchanged. *)
Theorem hev_rbtree_replace_correct s A victim B new :
  rb_tree s (A ++ victim :: B) → okptr new → new ∉ A ++ victim :: B → is_Some (rb_nodes s !! new) →
  ∃ s' k c l r, hev_rbtree_replace victim new s = Some (tt, s') ∧ rb_tree s' (A ++ new :: B) ∧
    rbrep s (plug k (T c l victim r)) ∧ rbrep s' (plug k (T c l new r)).
Proof.
  intros (t & h & Hs & Hrb & Hin) Hok Hnew Hx.
  destruct (plug_find t victim) as (k & c & l & r & ->); [rewrite Hin; set_solver |].
  pose proof (rb_tree_ok _ _ (ex_intro _ _ (ex_intro _ h (conj Hs (conj Hrb Hin))))) as (Hnd & _).
  rewrite inorder_plug in Hin. pose proof Hin as Hin'. cbn in Hin.
  assert ((pre k ++ inorder l) ++ victim :: (inorder r ++ post k) = A ++ victim :: B) as Heq
    by (rewrite <-Hin, <-!app_assoc; done).
  apply nodup_split_unique in Heq as [<- <-]; [|by rewrite Heq].
  apply (proj2 (st_ok_plug _ _ _)) in Hs.
  destruct (replace_at s k c l victim new r Hs Hok) as (s' & E & Hs'); [by rewrite Hin' | done |].
  exists s', k, c, l, r. split_and!; [done | | by apply (proj1 (st_ok_plug _ _ _))..].
  destruct (rb_plug_inv _ _ _ Hrb) as (c' & m & Ht & Hk).
  destruct (rb_plug k (T c l new r) c' m) as (h' & Hrb'); [inversion Ht; subst; by econstructor | done |].
  exists (plug k (T c l new r)), h'. split_and!; [by apply (proj1 (st_ok_plug _ _ _)) | done |].
  rewrite inorder_plug. cbn. by rewrite <-!app_assoc.
Qed.

Lemma hev_rbtree_replace_correct_witness :
  ∃ s' k c l r, hev_rbtree_replace 16 32 demo_store = Some (tt, s') ∧ rb_tree s' [8; 32; 24] ∧
    rbrep demo_store (plug k (T c l 16 r)) ∧ rbrep s' (plug k (T c l 32 r)).
Proof.
  apply (hev_rbtree_replace_correct demo_store [8] 16 [24] 32).
  - exact demo_rb_tree.
  - split; done.
  - cbn. set_solver.
  - vm_compute. eauto.
Defined.
