(* ===== verification/MappedDNS.v ===== *)
(** * Mapped DNS: fake addresses for domain names

    Model of [src/hev-mapped-dns.{h,c}].  A DNS query for a name is answered
    with an address of a private network; a later connection to that address
    is mapped back to the name.  The table keeps its nodes in a red-black tree
    ordered by name, in a list in least-recently-used order, and in an array
    indexed by the host part of the address.

    The tree and the list are used through the interfaces of [Interfaces], on
    stores keyed by the address of the [HevMappedDNSNode] that embeds both
    nodes ([container_of] is the identity on addresses here).  The allocator
    is outside the program: the address it returns is an argument. *)

From stdpp Require Import sorting.
From S2P Require Import Prelude Buffer Interfaces.

(** ** The table *)

Record HevMappedDNSNode := mkDNode { name : list Z; idx : Z }.

Record HevMappedDNS (T L : Type) := mkDNS {
  tree : T;
  list_ : L;
  dnodes : gmap Z HevMappedDNSNode;
  net : Z;
  mask : Z;
  use : Z;
  max_ : Z;
  records : list ptr;
}.
Arguments mkDNS {T L}.
Arguments tree {T L}.
Arguments list_ {T L}.
Arguments dnodes {T L}.
Arguments net {T L}.
Arguments mask {T L}.
Arguments use {T L}.
Arguments max_ {T L}.
Arguments records {T L}.

Section Program.
Context {T L : Type} `{!SearchTree T} `{!LinkedList L}.
Abbreviation DNS := (HevMappedDNS T L).

Definition on_tree {A} (m : M T A) : M DNS A := λ s,
  '(a, t) ← m (tree s);
  Some (a, mkDNS t (list_ s) (dnodes s) (net s) (mask s) (use s) (max_ s) (records s)).

Definition on_list {A} (m : M L A) : M DNS A := λ s,
  '(a, l) ← m (list_ s);
  Some (a, mkDNS (tree s) l (dnodes s) (net s) (mask s) (use s) (max_ s) (records s)).

Definition node_get (p : ptr) : M DNS HevMappedDNSNode := λ s,
  d ← dnodes s !! p; Some (d, s).

Definition set_dnodes (f : gmap Z HevMappedDNSNode → gmap Z HevMappedDNSNode) : M DNS unit := λ s,
  Some (tt, mkDNS (tree s) (list_ s) (f (dnodes s)) (net s) (mask s) (use s) (max_ s) (records s)).

Definition set_idx (p : ptr) (i : Z) : M DNS unit :=
  d ← node_get p; set_dnodes <[p := mkDNode (name d) i]>.

Definition set_use (u : Z) : M DNS unit := λ s,
  Some (tt, mkDNS (tree s) (list_ s) (dnodes s) (net s) (mask s) u (max_ s) (records s)).

(** [self->records[i]], undefined outside the [max] slots allocated by
    [hev_mapped_dns_new]. *)
Definition get_record (i : Z) : M DNS ptr := λ s,
  if decide (0 ≤ i) then p ← records s !! Z.to_nat i; Some (p, s) else None.

Definition set_record (i : Z) (p : ptr) : M DNS unit := λ s,
  if decide (0 ≤ i < Z.of_nat (length (records s))) then
    Some (tt, mkDNS (tree s) (list_ s) (dnodes s) (net s) (mask s) (use s) (max_ s)
                    (<[Z.to_nat i := p]> (records s)))
  else None.

(** [hev_mapped_dns_construct] on the zeroed object of [hev_mapped_dns_new];
    [None] is the error return. *)
Definition hev_mapped_dns_construct (net mask max : Z) : option DNS :=
  if decide (max > Z.lnot mask) then None
  else Some (mkDNS tr_empty ll_empty ∅ net mask 0 max (replicate (Z.to_nat max) NULL)).

Definition hev_mapped_dns_new (malloc : bool) (net mask max : Z) : option DNS :=
  if malloc then hev_mapped_dns_construct net mask max else None.

(** [hev_mapped_dns_node_alloc]: [node] is what [hev_malloc0] returns and
    [dup] whether [strdup] succeeds. *)
Definition hev_mapped_dns_node_alloc (node : ptr) (dup : bool) (nm : list Z) : M DNS ptr :=
  if decide (node = NULL) then mret NULL
  else if dup then λ s,
    Some (node, mkDNS (tr_alloc node (tree s)) (ll_alloc node (list_ s))
                      (<[node := mkDNode nm 0]> (dnodes s))
                      (net s) (mask s) (use s) (max_ s) (records s))
  else mret NULL.

Definition hev_mapped_dns_node_free (node : ptr) : M DNS unit := λ s,
  Some (tt, mkDNS (tr_free node (tree s)) (ll_free node (list_ s)) (delete node (dnodes s))
                  (net s) (mask s) (use s) (max_ s) (records s)).

(** The comparison in the descent of [hev_mapped_dns_find]. *)
Definition find_cmp (nm : list Z) (n : ptr) : M DNS Z :=
  node ← node_get n; mret (strcmp (name node) nm).

(** The descent: [inl node] when the name is there, [inr (parent, new)]
    otherwise. *)
Definition find_descend (fuel : nat) (nm : list Z) (new : link) (parent : ptr)
    : M DNS (ptr + ptr * link) :=
  tr_descend (λ A, on_tree) (find_cmp nm) fuel new parent.

Definition hev_mapped_dns_find (malloc : ptr) (dup : bool) (nm : list Z) : M DNS Z :=
  idx0 ← mgets use;
  fuel ← mgets (λ s, tr_fuel (tree s));
  found ← find_descend fuel nm LRoot NULL;
  match found with
  | inl n =>
      on_list (ll_del n);;
      on_list (ll_add_tail n);;
      node ← node_get n;
      mret (idx node)
  | inr (parent, new) =>
      node ← hev_mapped_dns_node_alloc malloc dup nm;
      if decide (node = NULL) then mret (-1)
      else
        on_tree (tr_link node parent new);;
        on_tree (tr_insert_color node);;
        on_list (ll_add_tail node);;
        u ← mgets use;
        m ← mgets max_;
        idx0 ←
          (if decide (u < m) then set_use (u + 1);; mret idx0
           else
             nl ← on_list ll_first;
             nf ← node_get nl;
             let idx0 := idx nf in
             on_tree (tr_erase nl);;
             on_list (ll_del nl);;
             hev_mapped_dns_node_free nl;;
             mret idx0);
        set_record idx0 node;;
        set_idx node idx0;;
        d ← node_get node;
        mret (idx d)
  end.

(** [hev_mapped_dns_lookup]: [None] inside the result is the [NULL] return. *)
Definition hev_mapped_dns_lookup (ip : Z) : M DNS (option (list Z)) :=
  msk ← mgets mask;
  m ← mgets max_;
  let i := Z.land ip (Z.lnot msk) in
  if decide (i >= m) then mret None
  else
    node ← get_record i;
    if decide (node = NULL) then mret None
    else
      on_list (ll_del node);;
      on_list (ll_add_tail node);;
      d ← node_get node;
      mret (Some (name d)).

(** The loop of [hev_mapped_dns_destruct]. *)
Fixpoint destruct_loop (fuel : nat) (n : ptr) : M DNS unit :=
  match fuel with
  | O => mfail
  | S fuel =>
      if decide (n = NULL) then mret tt
      else
        let t := n in
        n ← on_list (ll_next n);
        hev_mapped_dns_node_free t;;
        destruct_loop fuel n
  end.

Definition hev_mapped_dns_destruct : M DNS unit :=
  n ← on_list ll_first;
  fuel ← mgets (λ s, S (size (dnodes s)));
  destruct_loop fuel n.
End Program.

(** ** The abstract table: a bounded map in least-recently-used order *)

Abbreviation entries := (list (list Z * Z)).

(** A name in the table keeps its index and becomes the most recent; a new
    name takes the next free index, or the index of the least recent one. *)
Definition lru_find (max : Z) (nm : list Z) (es : entries) : Z * entries :=
  match list_find (λ e, e.1 = nm) es with
  | Some (j, e) => (e.2, delete j es ++ [e])
  | None =>
      let u := Z.of_nat (length es) in
      if decide (u < max) then (u, es ++ [(nm, u)])
      else match es with
           | [] => (0, [])
           | e :: es => (e.2, es ++ [(nm, e.2)])
           end
  end.

(** When the allocator fails, a name that is not in the table is refused. *)
Definition lru_find_alloc (ok : bool) (max : Z) (nm : list Z) (es : entries) : Z * entries :=
  match list_find (λ e, e.1 = nm) es with
  | Some _ => lru_find max nm es
  | None => if ok then lru_find max nm es else (-1, es)
  end.

Definition lru_lookup (i : Z) (es : entries) : option (list Z) * entries :=
  match list_find (λ e, e.2 = i) es with
  | Some (j, e) => (Some e.1, delete j es ++ [e])
  | None => (None, es)
  end.

(** ** The order of names *)

Definition nm_of (dn : gmap Z HevMappedDNSNode) (p : ptr) : list Z :=
  default [] (name <$> dn !! p).

(** The tree is searched with smaller names on the right. *)
Definition desc (dn : gmap Z HevMappedDNSNode) (p q : ptr) : Prop :=
  strcmp (nm_of dn p) (nm_of dn q) > 0.

(** ** The representation invariant *)

Section Proofs.
Context {T L : Type} `{!SearchTree T} `{!LinkedList L}.
Abbreviation DNS := (HevMappedDNS T L).

Definition holds (dn : gmap Z HevMappedDNSNode) (p : ptr) (e : list Z * Z) : Prop :=
  dn !! p = Some (mkDNode e.1 e.2).

(** The table [s] holds the entries [es], least recent first; [l] is the
    order of the tree and [q] that of the list. *)
Record table (s : DNS) (l q : list ptr) (es : entries) : Prop := {
  tb_tree : tr_rep (tree s) l;
  tb_list : ll_rep (list_ s) q;
  tb_perm : l ≡ₚ q;
  tb_sorted : StronglySorted (desc (dnodes s)) l;
  tb_dom : ∀ p, is_Some (dnodes s !! p) → p ∈ q;
  tb_abs : Forall2 (holds (dnodes s)) q es;
  tb_use : use s = Z.of_nat (length es);
  tb_max : use s ≤ max_ s;
  tb_recs : length (records s) = Z.to_nat (max_ s);
  tb_rec : ∀ i p, records s !! i = Some p →
    (p = NULL ∧ use s ≤ Z.of_nat i) ∨
    (p ∈ q ∧ Z.of_nat i < use s ∧ ∃ d, dnodes s !! p = Some d ∧ idx d = Z.of_nat i);
  tb_idx : ∀ p d, dnodes s !! p = Some d →
    0 ≤ idx d < use s ∧ records s !! Z.to_nat (idx d) = Some p;
}.

(** The parameters [hev_mapped_dns_new] is called with: at least one slot, a
    contiguous netmask whose host part holds the slots, and a network address
    without host bits. *)
Record params (s : DNS) : Prop := {
  pr_max : 0 < max_ s ≤ Z.lnot (mask s);
  pr_net : Z.land (net s) (Z.lnot (mask s)) = 0;
  pr_mask : ∃ k, 0 ≤ k ∧ Z.lnot (mask s) = Z.ones k;
}.

Definition refines (s : DNS) (es : entries) : Prop := ∃ l q, table s l q es.

(** Same network, mask and capacity. *)
Definition same_params (s s' : DNS) : Prop :=
  net s' = net s ∧ mask s' = mask s ∧ max_ s' = max_ s.

Lemma on_tree_some {A} (m : M T A) (s : DNS) a t :
  m (tree s) = Some (a, t) →
  on_tree m s = Some (a, mkDNS t (list_ s) (dnodes s) (net s) (mask s) (use s) (max_ s) (records s)).
Proof. intros E. unfold on_tree. by rewrite E. Qed.

Lemma on_tree_pure {A} (m : M T A) (s : DNS) a :
  m (tree s) = Some (a, tree s) → on_tree m s = Some (a, s).
Proof. intros E. rewrite (on_tree_some _ _ _ _ E). by destruct s. Qed.

Lemma on_list_some {A} (m : M L A) (s : DNS) a l :
  m (list_ s) = Some (a, l) →
  on_list m s = Some (a, mkDNS (tree s) l (dnodes s) (net s) (mask s) (use s) (max_ s) (records s)).
Proof. intros E. unfold on_list. by rewrite E. Qed.

Lemma on_list_pure {A} (m : M L A) (s : DNS) a :
  m (list_ s) = Some (a, list_ s) → on_list m s = Some (a, s).
Proof. intros E. rewrite (on_list_some _ _ _ _ E). by destruct s. Qed.

Lemma node_get_some (s : DNS) p d : dnodes s !! p = Some d → node_get p s = Some (d, s).
Proof. intros E. unfold node_get. by rewrite E. Qed.

(** ** The descent *)

Lemma find_descend_spec nm (s : DNS) fuel lk A m B :
  tr_at (tree s) lk A m B → (∀ p, p ∈ m → is_Some (dnodes s !! p)) →
  StronglySorted (desc (dnodes s)) m → (length m < fuel)%nat →
  (∃ n, find_descend fuel nm lk (link_parent lk) s = Some (inl n, s) ∧
     n ∈ m ∧ nm_of (dnodes s) n = nm) ∨
  (∃ lk' A' B', find_descend fuel nm lk (link_parent lk) s = Some (inr (link_parent lk', lk'), s) ∧
     m = A' ++ B' ∧ tr_at (tree s) lk' (A ++ A') [] (B' ++ B) ∧
     (∀ p, p ∈ A' → strcmp (nm_of (dnodes s) p) nm > 0) ∧
     (∀ p, p ∈ B' → strcmp (nm_of (dnodes s) p) nm < 0)).
Proof.
  intros Hat Hdom Hso Hf. unfold find_descend.
  destruct (tr_descend_spec tree (λ A, on_tree) (find_cmp nm) (@on_tree_pure)
    s (λ p, strcmp (nm_of (dnodes s) p) nm) fuel lk A m B Hat)
    as [(n & E & Hn & Hz) | (lk' & A' & B' & E & Hm & Hat' & H1 & H2)].
  - intros p Hp. destruct (Hdom p Hp) as [d Hd]. unfold find_cmp, nm_of. rewrite Hd.
    by rewrite (mbind_some _ _ _ _ _ (node_get_some _ _ _ Hd)).
  - eapply sorted_mono, Hso. intros p q _ _ Hpq Hle. cbv beta in Hle |- *. unfold desc in Hpq.
    destruct (decide (strcmp (nm_of (dnodes s) q) nm = 0)) as [Heq%strcmp_eq | Hne].
    + rewrite Heq in Hpq. lia.
    + destruct (decide (strcmp (nm_of (dnodes s) q) nm > 0)) as [Hgt | ?]; [|lia].
      pose proof (strcmp_trans _ _ _ Hpq Hgt). lia.
  - done.
  - left. exists n. split_and!; [done | done | by apply strcmp_eq].
  - right. by exists lk', A', B'.
Qed.

(** ** Facts about the invariant *)

Lemma nm_of_some dn p d : dn !! p = Some d → nm_of dn p = name d.
Proof. intros E. unfold nm_of. by rewrite E. Qed.

Lemma nm_of_insert_ne dn p q d : p ≠ q → nm_of (<[q := d]> dn) p = nm_of dn p.
Proof. intros. unfold nm_of. by rewrite lookup_insert_ne. Qed.

Lemma desc_agree dn dn' l :
  (∀ p, p ∈ l → nm_of dn' p = nm_of dn p) →
  StronglySorted (desc dn) l → StronglySorted (desc dn') l.
Proof. intros Hag. apply sorted_mono. intros x y Hx Hy. unfold desc. by rewrite !Hag. Qed.

Lemma desc_insert dn A B n d :
  StronglySorted (desc dn) (A ++ B) → n ∉ A ++ B →
  (∀ p, p ∈ A → strcmp (nm_of dn p) (name d) > 0) →
  (∀ p, p ∈ B → strcmp (nm_of dn p) (name d) < 0) →
  StronglySorted (desc (<[n := d]> dn)) (A ++ n :: B).
Proof.
  intros Hs Hn HA HB.
  assert (nm_of (<[n := d]> dn) n = name d) as Hnm by (apply nm_of_some, lookup_insert_eq).
  assert (StronglySorted (desc (<[n := d]> dn)) (A ++ B)) as Hs'.
  { eapply desc_agree, Hs. intros p Hp. apply nm_of_insert_ne. set_solver. }
  apply StronglySorted_app in Hs' as (H1 & H2 & H3). apply StronglySorted_app.
  split_and!; [| done |].
  - intros x y Hx [-> | Hy]%elem_of_cons; [|auto]. unfold desc. rewrite Hnm.
    rewrite nm_of_insert_ne by set_solver. auto.
  - apply StronglySorted_cons. split; [|done]. apply Forall_forall. intros y Hy.
    unfold desc. rewrite Hnm, nm_of_insert_ne by set_solver. apply strcmp_anti. auto.
Qed.

Lemma desc_delete dn A p B : StronglySorted (desc dn) (A ++ p :: B) → StronglySorted (desc dn) (A ++ B).
Proof.
  rewrite !StronglySorted_app, StronglySorted_cons. intros (H1 & H2 & _ & H3).
  split_and!; [|done..]. set_solver.
Qed.

Definition idx_of (dn : gmap Z HevMappedDNSNode) (p : ptr) : Z := default 0 (idx <$> dn !! p).

Lemma holds_fields dn q es :
  Forall2 (holds dn) q es → fst <$> es = nm_of dn <$> q ∧ snd <$> es = idx_of dn <$> q.
Proof.
  induction 1 as [|p e q es He _ [IH1 IH2]]; [done |]. cbn. rewrite IH1, IH2.
  unfold nm_of, idx_of. by rewrite He.
Qed.

Lemma holds_agree dn dn' q es :
  (∀ p, p ∈ q → dn' !! p = dn !! p) → Forall2 (holds dn) q es → Forall2 (holds dn') q es.
Proof.
  intros Hag. induction 1 as [|p e q es He _ IH]; constructor.
  - unfold holds. rewrite Hag by set_solver. done.
  - apply IH. set_solver.
Qed.

Section Facts.
Context (s : DNS) (l q : list ptr) (es : entries) (Ht : table s l q es).

Lemma table_nodup : NoDup l ∧ NoDup q ∧ (NULL ∉ q) ∧ length q = length es.
Proof.
  destruct (ll_rep_nodup _ _ (tb_list _ _ _ _ Ht)) as [Hn Hz].
  split_and!; [| done | done | by eapply Forall2_length, tb_abs].
  by rewrite (tb_perm _ _ _ _ Ht).
Qed.

Lemma table_lookup p : p ∈ q → is_Some (dnodes s !! p).
Proof.
  intros Hp. pose proof (tb_abs _ _ _ _ Ht) as Ha.
  apply list_elem_of_lookup_1 in Hp as [i Hi].
  destruct (Forall2_lookup_l _ _ _ _ _ Ha Hi) as (e & _ & He). rewrite He. eauto.
Qed.

Lemma table_names_inj p p' :
  p ∈ q → p' ∈ q → nm_of (dnodes s) p = nm_of (dnodes s) p' → p = p'.
Proof.
  intros Hp Hp' Heq. rewrite <-(tb_perm _ _ _ _ Ht) in Hp, Hp'.
  destruct (decide (p = p')) as [|Hne]; [done | exfalso].
  pose proof (tb_sorted _ _ _ _ Ht) as Hs.
  apply list_elem_of_split in Hp as (A & B & ->).
  apply StronglySorted_app in Hs as (H1 & _ & [H2 _]%StronglySorted_cons).
  rewrite Forall_forall in H2. apply elem_of_app in Hp' as [Hp' | [|Hp']%elem_of_cons]; [| done |].
  - specialize (H1 p' p Hp' ltac:(set_solver)). unfold desc in H1.
    rewrite Heq, strcmp_refl in H1. lia.
  - specialize (H2 p' Hp'). unfold desc in H2. rewrite Heq, strcmp_refl in H2. lia.
Qed.

Lemma table_names_nodup : NoDup (fst <$> es).
Proof.
  rewrite (proj1 (holds_fields _ _ _ (tb_abs _ _ _ _ Ht))). apply NoDup_fmap_2_strong; [apply table_names_inj | apply table_nodup].
Qed.

Lemma table_idx_nodup : NoDup (snd <$> es).
Proof.
  rewrite (proj2 (holds_fields _ _ _ (tb_abs _ _ _ _ Ht))).
  apply NoDup_fmap_2_strong; [|apply table_nodup]. intros p p' Hp Hp'.
  destruct (table_lookup p Hp) as [d Hd], (table_lookup p' Hp') as [d' Hd'].
  unfold idx_of. rewrite Hd, Hd'. cbn.
  destruct (tb_idx _ _ _ _ Ht _ _ Hd) as [_ H1], (tb_idx _ _ _ _ Ht _ _ Hd') as [_ H2]. congruence.
Qed.
End Facts.

Lemma list_find_unique {A B} `{!EqDecision B} (f : A → B) xs x ys :
  NoDup (f <$> (xs ++ x :: ys)) → list_find (λ y, f y = f x) (xs ++ x :: ys) = Some (length xs, x).
Proof.
  intros Hnd. apply list_find_Some. split_and!; [by rewrite list_lookup_middle | done |].
  intros j y Hj Hlt Heq. rewrite fmap_app in Hnd. apply NoDup_app in Hnd as (_ & Hd & _).
  rewrite lookup_app_l in Hj by done. apply (Hd (f y)).
  - apply list_elem_of_fmap. exists y. split; [done | by eapply list_elem_of_lookup_2].
  - rewrite Heq. cbn. set_solver.
Qed.

(** Replacing the list store of a table. *)
Definition with_list (s : DNS) (l : L) : DNS :=
  mkDNS (tree s) l (dnodes s) (net s) (mask s) (use s) (max_ s) (records s).

(** A node of the table becomes the most recently used. *)
Lemma table_touch (s : DNS) l Q1 n Q2 es :
  table s l (Q1 ++ n :: Q2) es →
  ∃ e E1 E2 l', es = E1 ++ e :: E2 ∧ dnodes s !! n = Some (mkDNode e.1 e.2) ∧
    (on_list (ll_del n);; on_list (ll_add_tail n)) s = Some (tt, with_list s l') ∧
    table (with_list s l') l (Q1 ++ Q2 ++ [n]) (E1 ++ E2 ++ [e]).
Proof.
  intros Ht. pose proof (tb_list _ _ _ _ Ht) as Hl.
  destruct (ll_touch_spec _ _ _ _ Hl) as (l' & El & Hl'). unfold ll_touch in El.
  apply mbind_inv in El as ([] & l1 & El1 & El2).
  destruct (proj1 (Forall2_app_inv_l _ _ _ _) (tb_abs _ _ _ _ Ht)) as (E1 & E2' & H1 & H2 & ->).
  inversion H2 as [|? e ? E2 He H3]; subst.
  exists e, E1, E2, l'. split_and!; [done | exact He | |].
  { rewrite (mbind_some _ _ _ _ _ (on_list_some _ _ _ _ El1)).
    etransitivity; [apply on_list_some; exact El2 | done]. }
  assert (Q1 ++ Q2 ++ [n] ≡ₚ Q1 ++ n :: Q2) as Hp
    by (apply Permutation_app_head; symmetry; apply Permutation_cons_append).
  destruct Ht as [Htr Hli Hpm Hso Hdo Hab Hus Hmx Hrs Hrc Hix]. split; try done.
  - by rewrite Hp.
  - intros p Hpd. rewrite Hp. auto.
  - apply Forall2_app; [done |]. apply Forall2_app; [done | by constructor].
  - cbn. rewrite Hus, !length_app. cbn. lia.
  - cbn. intros i p Hi. rewrite Hp. auto.
Qed.

(** [hev_mapped_dns_find], the name is in the table. *)
Lemma find_hit (s : DNS) l q es n malloc dup nm :
  table s l q es →
  find_descend (tr_fuel (tree s)) nm LRoot NULL s = Some (inl n, s) → n ∈ q →
  nm_of (dnodes s) n = nm →
  ∃ s', hev_mapped_dns_find malloc dup nm s = Some ((lru_find (max_ s) nm es).1, s') ∧
    refines s' (lru_find (max_ s) nm es).2 ∧ same_params s s'.
Proof.
  intros Ht Ed Hn Hnm. apply list_elem_of_split in Hn as (Q1 & Q2 & ->).
  destruct (table_touch _ _ _ _ _ _ Ht) as (e & E1 & E2 & l' & -> & Hd & Et & Ht').
  assert (lru_find (max_ s) nm (E1 ++ e :: E2) = (e.2, E1 ++ E2 ++ [e])) as ->.
  { unfold lru_find. rewrite (nm_of_some _ _ _ Hd) in Hnm. cbn in Hnm. subst nm.
    rewrite (list_find_unique fst) by (by eapply table_names_nodup).
    by rewrite delete_middle, <-app_assoc. }
  exists (with_list s l'). cbn [fst snd]. split_and!; [| by exists l, (Q1 ++ Q2 ++ [n]) | done].
  unfold hev_mapped_dns_find. mrun. rewrite Ed.
  unfold mbind, M_bind in Et.
  destruct (on_list (ll_del n) s) as [[[] s1]|] eqn:E1'; [|done]. rewrite Et.
  by rewrite (node_get_some (with_list s l') n _ Hd).
Qed.

(** [hev_mapped_dns_lookup] on an index in the table. *)
Lemma lookup_hit (s : DNS) es i :
  refines s es → 0 ≤ i < max_ s →
  ∃ s', (node ← get_record i;
         if decide (node = NULL) then mret None
         else on_list (ll_del node);; on_list (ll_add_tail node);;
              d ← node_get node; mret (Some (name d))) s
        = Some ((lru_lookup i es).1, s') ∧
    refines s' (lru_lookup i es).2 ∧ same_params s s'.
Proof.
  intros (l & q & Ht) Hi. destruct (lookup_lt_is_Some_2 (records s) (Z.to_nat i)) as [n Hn].
  { rewrite (tb_recs _ _ _ _ Ht). lia. }
  assert (get_record i s = Some (n, s)) as Eg.
  { unfold get_record. rewrite decide_True by lia. by rewrite Hn. }
  rewrite (mbind_some _ _ _ _ _ Eg).
  destruct (tb_rec _ _ _ _ Ht _ _ Hn) as [[-> Hu] | (Hq & Hu & d & Hd & Hx)].
  - rewrite decide_True by done.
    assert (lru_lookup i es = (None, es)) as ->.
    { unfold lru_lookup. rewrite (proj2 (list_find_None _ _)); [done |].
      apply Forall_forall. intros e He Heq. apply list_elem_of_lookup_1 in He as [j Hj].
      destruct (Forall2_lookup_r _ _ _ _ _ (tb_abs _ _ _ _ Ht) Hj) as (p & _ & Hp).
      destruct (tb_idx _ _ _ _ Ht _ _ Hp) as [Hb _]. cbn in Hb. lia. }
    exists s. split_and!; [done | by exists l, q | done].
  - assert (n ≠ NULL) by (destruct (table_nodup _ _ _ _ Ht) as (_ & _ & Hz & _); set_solver).
    rewrite decide_False by done. apply list_elem_of_split in Hq as (Q1 & Q2 & ->).
    destruct (table_touch _ _ _ _ _ _ Ht) as (e & E1 & E2 & l' & -> & Hd' & Et & Ht').
    rewrite Hd in Hd'. simplify_eq. cbn in Hx.
    assert (lru_lookup i (E1 ++ e :: E2) = (Some e.1, E1 ++ E2 ++ [e])) as ->.
    { unfold lru_lookup. replace i with (e.2) by lia.
      rewrite (list_find_unique snd) by (by eapply table_idx_nodup).
      by rewrite delete_middle, <-app_assoc. }
    exists (with_list s l'). split_and!; [| by exists l, (Q1 ++ Q2 ++ [n]) | done].
    unfold mbind, M_bind in Et |- *.
    destruct (on_list (ll_del n) s) as [[[] s1]|] eqn:E1'; [|done]. rewrite Et.
    by rewrite (node_get_some (with_list s l') n _ Hd).
Qed.

(** ** A name that is not in the table *)

Section Miss.
Context (s : DNS) (A B q : list ptr) (es : entries) (Ht : table s (A ++ B) q es).
Context (n : ptr) (nm : list Z) (Hn : dnodes s !! n = None).
Context (HA : ∀ p, p ∈ A → strcmp (nm_of (dnodes s) p) nm > 0).
Context (HB : ∀ p, p ∈ B → strcmp (nm_of (dnodes s) p) nm < 0).

Lemma miss_notin p : p ∈ q → p ≠ n.
Proof. intros Hp ->. destruct (table_lookup _ _ _ _ Ht n Hp). congruence. Qed.

Lemma miss_notin_tree : n ∉ A ++ B.
Proof. rewrite (tb_perm _ _ _ _ Ht). intros Hin. by apply (miss_notin n). Qed.

Lemma miss_none : list_find (λ e, e.1 = nm) es = None.
Proof.
  apply list_find_None, Forall_forall. intros e He Heq. apply list_elem_of_lookup_1 in He as [j Hj].
  destruct (Forall2_lookup_r _ _ _ _ _ (tb_abs _ _ _ _ Ht) Hj) as (p & Hp & Hd).
  assert (p ∈ A ++ B) as Hin by (rewrite (tb_perm _ _ _ _ Ht); by eapply list_elem_of_lookup_2).
  assert (nm_of (dnodes s) p = nm) as Hnm by (by rewrite (nm_of_some _ _ _ Hd)).
  apply elem_of_app in Hin as [Hin | Hin]; [specialize (HA p Hin) | specialize (HB p Hin)];
    rewrite Hnm, strcmp_refl in *; lia.
Qed.

Lemma miss_lru : lru_find (max_ s) nm es =
  let u := Z.of_nat (length es) in
  if decide (u < max_ s) then (u, es ++ [(nm, u)])
  else match es with [] => (0, []) | e :: es => (e.2, es ++ [(nm, e.2)]) end.
Proof.
  unfold lru_find. by rewrite miss_none.
Qed.

Lemma table_grow t2 l2 :
  tr_rep t2 (A ++ n :: B) → ll_rep l2 (q ++ [n]) → use s < max_ s →
  table (mkDNS t2 l2 (<[n := mkDNode nm (use s)]> (dnodes s)) (net s) (mask s) (use s + 1) (max_ s)
               (<[Z.to_nat (use s) := n]> (records s)))
        (A ++ n :: B) (q ++ [n]) (es ++ [(nm, use s)]).
Proof.
  intros Ht2 Hl2 Hu. pose proof miss_notin_tree as Hnt.
  pose proof Ht as [Htr Hli Hpm Hso Hdo Hab Hus Hmx Hrs Hrc Hix]. split; cbn; try done.
  - rewrite <-Permutation_middle, Hpm. apply Permutation_cons_append.
  - by apply desc_insert.
  - intros p [-> | [_ Hp]]%lookup_insert_is_Some; set_solver.
  - apply Forall2_app.
    + eapply holds_agree, Hab. intros p Hp. apply lookup_insert_ne. apply not_eq_sym. by apply miss_notin.
    + constructor; [|constructor]. unfold holds. by rewrite lookup_insert_eq.
  - rewrite length_app; cbn. lia.
  - lia.
  - by rewrite length_insert.
  - intros i p Hi. rewrite list_lookup_insert in Hi. case_decide as Hc.
    + right. destruct Hc as [<- Hc]. simplify_eq. split_and!; [set_solver | lia |].
      eexists. rewrite lookup_insert_eq. split; [done |]. cbn. lia.
    + destruct (Hrc _ _ Hi) as [[-> Hge] | (Hq & Hlt & d & Hd & Hx)].
      * left. split; [done |]. assert (i ≠ Z.to_nat (use s)); [|lia]. intros ->. apply Hc.
        split; [done |]. lia.
      * right. split_and!; [set_solver | lia |]. exists d. rewrite lookup_insert_ne; [done |]. congruence.
  - intros p d. rewrite lookup_insert. case_decide as Hc; [intros; simplify_eq; cbn |].
    + split; [lia |]. rewrite list_lookup_insert_eq; [done |]. lia.
    + intros Hd. destruct (Hix _ _ Hd) as [Hb Hr]. split; [lia |].
      rewrite list_lookup_insert_ne by lia. done.
Qed.

Lemma table_evict v q1 ev es1 X Y t3 l3 :
  q = v :: q1 → es = ev :: es1 → X ++ v :: Y = A ++ n :: B →
  tr_rep t3 (X ++ Y) → ll_rep l3 (q1 ++ [n]) → use s = max_ s →
  table (mkDNS t3 l3 (<[n := mkDNode nm ev.2]> (delete v (dnodes s))) (net s) (mask s) (use s) (max_ s)
               (<[Z.to_nat ev.2 := n]> (records s)))
        (X ++ Y) (q1 ++ [n]) (es1 ++ [(nm, ev.2)]).
Proof.
  intros Hqv Hes HXY Ht3 Hl3 Hu.
  pose proof miss_notin_tree as Hnt. pose proof miss_notin as Hmn. pose proof Ht as Ht'.
  revert Hmn Ht'. rewrite Hqv, Hes. clear Ht Hqv Hes q es. intros Hmn Ht.
  pose proof (Hmn v ltac:(set_solver)) as Hvn.
  destruct (table_nodup _ _ _ _ Ht) as (_ & [Hv1 _]%NoDup_cons & _ & _).
  pose proof Ht as [Htr Hli Hpm Hso Hdo Hab Hus Hmx Hrs Hrc Hix].
  assert (X ++ Y ≡ₚ q1 ++ [n]) as Hp.
  { apply (Permutation_cons_inv (a := v)). rewrite Permutation_middle, HXY, <-Permutation_middle, Hpm.
    rewrite <-Permutation_cons_append. constructor. }
  inversion Hab as [|? ? ? ? Hev Hab1]; subst.
  destruct (Hix _ _ Hev) as [Hbv Hrv]. cbn in Hbv, Hrv.
  assert (∀ p, p ∈ q1 → p ≠ v ∧ p ≠ n) as Hq1.
  { intros p Hpq. split; [congruence |]. apply Hmn. set_solver. }
  split; cbn; try done.
  - assert (StronglySorted (desc (<[n := mkDNode nm ev.2]> (dnodes s))) (X ++ Y)) as Hs'.
    { apply (desc_delete _ _ v). rewrite HXY. by apply desc_insert. }
    eapply desc_agree, Hs'. intros p. rewrite Hp, elem_of_app, list_elem_of_singleton. unfold nm_of.
    intros [Hpq | ->]; [|by rewrite !lookup_insert_eq].
    destruct (Hq1 p Hpq). by rewrite !lookup_insert_ne, lookup_delete_ne by done.
  - intros p [-> | [_ [Hpv Hpd]%lookup_delete_is_Some]]%lookup_insert_is_Some; [set_solver |].
    apply Hdo in Hpd. set_solver.
  - apply Forall2_app; [|constructor; [unfold holds; by rewrite lookup_insert_eq | constructor]].
    eapply holds_agree, Hab1. intros p Hpq. destruct (Hq1 p Hpq).
    by rewrite lookup_insert_ne, lookup_delete_ne by done.
  - rewrite length_app; cbn in *. lia.
  - by rewrite length_insert.
  - intros i p Hi. rewrite list_lookup_insert in Hi. case_decide as Hc.
    + right. destruct Hc as [<- Hc]. simplify_eq. split_and!; [set_solver | lia |].
      eexists. rewrite lookup_insert_eq. split; [done |]. cbn. lia.
    + destruct (Hrc _ _ Hi) as [Hl | (Hq & Hlt & d & Hd & Hx)]; [by left | right].
      assert (p ≠ v) as Hpv.
      { intros ->. unfold holds in Hev. rewrite Hev in Hd. simplify_eq. cbn in Hx. apply Hc. split; [lia |].
        apply lookup_lt_Some in Hi. lia. }
      assert (p ≠ n) by congruence.
      split_and!; [set_solver | lia |]. exists d. by rewrite lookup_insert_ne, lookup_delete_ne.
  - intros p d. rewrite lookup_insert. case_decide as Hc; [intros; simplify_eq; cbn |].
    + split; [lia |]. rewrite list_lookup_insert_eq; [done |]. apply lookup_lt_Some in Hrv. lia.
    + intros [Hpv Hd]%lookup_delete_Some. destruct (Hix _ _ Hd) as [Hb Hr]. split; [lia |].
      rewrite list_lookup_insert_ne; [done |]. intros Heq. rewrite Heq in Hrv. congruence.
Qed.
End Miss.

(** What the allocator may return: [NULL], or an aligned address that holds no
    record. *)
Definition malloc_ok (s : DNS) (p : ptr) : Prop :=
  p = NULL ∨ (okptr p ∧ dnodes s !! p = None).

Lemma find_miss (s : DNS) l q es lk A B malloc nm :
  table s l q es → 0 < max_ s → okptr malloc → dnodes s !! malloc = None →
  find_descend (tr_fuel (tree s)) nm LRoot NULL s = Some (inr (link_parent lk, lk), s) →
  l = A ++ B → tr_at (tree s) lk A [] B →
  (∀ p, p ∈ A → strcmp (nm_of (dnodes s) p) nm > 0) →
  (∀ p, p ∈ B → strcmp (nm_of (dnodes s) p) nm < 0) →
  ∃ s', hev_mapped_dns_find malloc true nm s = Some ((lru_find (max_ s) nm es).1, s') ∧
    refines s' (lru_find (max_ s) nm es).2 ∧ same_params s s'.
Proof.
  intros Ht Hmax Hok Hn Ed -> Hat HA HB. pose proof Hok as [Hnz _].
  rewrite (miss_lru _ _ _ _ _ Ht nm HA HB). cbv zeta.
  pose proof (miss_notin_tree _ _ _ _ _ Ht _ Hn) as Hnt.
  destruct (tr_alloc_spec _ _ _ _ _ malloc Hat) as [Hat1 Hrdy]; [done |].
  destruct (tr_insert_spec _ _ _ _ _ Hat1 Hnt Hok Hrdy) as (t1 & t2 & Et1 & Et2 & Ht2).
  assert (malloc ∉ q) as Hnq by (rewrite <-(tb_perm _ _ _ _ Ht); done).
  destruct (ll_alloc_spec _ _ malloc (tb_list _ _ _ _ Ht) Hnq) as [Hl1 Hlr].
  destruct (ll_add_tail_spec _ _ malloc Hl1 Hnq Hnz Hlr) as (l2 & El2 & Hl2).
  unfold hev_mapped_dns_find. mrun. rewrite Ed. unfold hev_mapped_dns_node_alloc.
  rewrite !decide_False by done. erewrite on_tree_some by exact Et1. cbn [tree].
  erewrite on_tree_some by exact Et2. erewrite on_list_some by exact El2. cbn [use max_ tree list_ dnodes net mask records].
  rewrite <-(tb_use _ _ _ _ Ht). pose proof (tb_max _ _ _ _ Ht). pose proof (tb_recs _ _ _ _ Ht) as Hrs.
  pose proof (tb_use _ _ _ _ Ht) as Hus. destruct (decide (use s < max_ s)) as [Hu | Hu].
  - unfold set_use, set_record, set_idx, node_get, set_dnodes. mrun. cbn [dnodes use max_ tree list_ net mask records].
    rewrite decide_True by lia. cbn [dnodes use max_ tree list_ net mask records].
    rewrite lookup_insert_eq. cbn [dnodes use max_ tree list_ net mask records name idx].
    rewrite lookup_insert_eq, insert_insert_eq. cbn [idx].
    eexists. split; [reflexivity |]. split; [|done]. eexists _, _. eapply table_grow; eauto.
  - destruct (table_nodup _ _ _ _ Ht) as (_ & _ & _ & Hlen).
    destruct q as [|v q1], es as [|ev es1]; cbn in Hlen, Hus; try lia.
    assert (v ≠ malloc) as Hvn by (eapply miss_notin; [exact Ht | exact Hn | set_solver]).
    pose proof (tb_abs _ _ _ _ Ht) as Hab. inversion Hab as [|? ? ? ? Hev _]; subst.
    pose proof (ll_first_spec _ _ Hl2) as Ef. cbn in Ef.
    assert (∃ X Y, X ++ v :: Y = A ++ malloc :: B) as (X & Y & HXY).
    { assert (v ∈ A ++ malloc :: B) as Hin.
      { assert (v ∈ A ++ B) by (rewrite (tb_perm _ _ _ _ Ht); set_solver). set_solver. }
      apply list_elem_of_split in Hin as (X & Y & HXY). by exists X, Y. }
    rewrite <-HXY in Ht2. destruct (tr_erase_spec _ _ _ _ Ht2) as (t3 & Et3 & Ht3).
    destruct (ll_del_spec l2 [] v (q1 ++ [malloc]) Hl2) as (l3 & El3 & Hl3 & _).
    erewrite on_list_pure by exact Ef. unfold node_get at 1. cbn [dnodes].
    rewrite lookup_insert_ne by done. unfold holds in Hev. rewrite Hev. mrun. cbn [idx].
    erewrite on_tree_some by exact Et3. cbn [dnodes use max_ tree list_ net mask records].
    erewrite on_list_some by exact El3. cbn [dnodes use max_ tree list_ net mask records].
    assert (tr_rep (tr_free v t3) (X ++ Y)) as Ht4.
    { apply tr_free_spec; [done |]. destruct (tr_rep_ok _ _ Ht2) as (Hnd & _).
      apply NoDup_app in Hnd as (_ & Hd & [? _]%NoDup_cons). set_solver. }
    assert (ll_rep (ll_free v l3) (q1 ++ [malloc])) as Hl4.
    { apply ll_free_spec; [done |]. destruct (table_nodup _ _ _ _ Ht) as (_ & [? _]%NoDup_cons & _ & _).
      set_solver. }
    destruct (tb_idx _ _ _ _ Ht _ _ Hev) as [Hbv _]. cbn [idx] in Hbv.
    unfold hev_mapped_dns_node_free, set_record, set_idx, node_get, set_dnodes. mrun.
    cbn [dnodes use max_ tree list_ net mask records]. rewrite decide_True by lia.
    cbn [dnodes use max_ tree list_ net mask records].
    rewrite lookup_delete_ne, lookup_insert_eq by done.
    cbn [dnodes use max_ tree list_ net mask records name idx]. rewrite lookup_insert_eq. cbn [idx fst snd].
    eexists. split; [reflexivity |]. split; [|done].
    exists (X ++ Y), (q1 ++ [malloc]). rewrite delete_insert_ne by done. rewrite insert_insert_eq.
    eapply table_evict; eauto. lia.
Qed.

Lemma find_refines (s : DNS) es malloc dup nm :
  refines s es → 0 < max_ s → malloc_ok s malloc →
  let r := lru_find_alloc (bool_decide (malloc ≠ NULL) && dup) (max_ s) nm es in
  ∃ s', hev_mapped_dns_find malloc dup nm s = Some (r.1, s') ∧ refines s' r.2 ∧ same_params s s'.
Proof.
  intros (l & q & Ht) Hmax Hok r.
  destruct (tr_rep_ok _ _ (tb_tree _ _ _ _ Ht)) as (_ & _ & Hf).
  destruct (find_descend_spec nm s (tr_fuel (tree s)) LRoot [] l [])
    as [(n & Ed & Hin & Hnm) | (lk & A & B & Ed & Hl & Hat & HA & HB)].
  - by apply tr_root_spec, (tb_tree _ _ _ _ Ht).
  - intros p Hp. eapply table_lookup; [done |]. by rewrite <-(tb_perm _ _ _ _ Ht).
  - by apply (tb_sorted _ _ _ _ Ht).
  - done.
  - rewrite (tb_perm _ _ _ _ Ht) in Hin. assert (r = lru_find (max_ s) nm es) as ->.
    { unfold r, lru_find_alloc. destruct (list_find _ es) eqn:El; [done |]. exfalso.
      apply list_find_None in El. rewrite Forall_forall in El.
      apply list_elem_of_lookup_1 in Hin as [i Hi].
      destruct (Forall2_lookup_l _ _ _ _ _ (tb_abs _ _ _ _ Ht) Hi) as (e & He & Hd).
      apply (El e); [by eapply list_elem_of_lookup_2 |]. by rewrite <-Hnm, (nm_of_some _ _ _ Hd). }
    by eapply find_hit.
  - rewrite app_nil_r in Hat. subst l. cbn [link_parent] in Ed.
    assert (list_find (λ e, e.1 = nm) es = None) as El.
    { by eapply miss_none. }
    unfold r, lru_find_alloc. rewrite El.
    destruct (decide (malloc = NULL)) as [-> | Hz]; [| destruct dup].
    + exists s. split_and!; [| by exists (A ++ B), q | done].
      unfold hev_mapped_dns_find. mrun. rewrite Ed. done.
    + destruct Hok as [-> | [Hok Hn]]; [done |]. rewrite bool_decide_eq_true_2 by done.
      by eapply find_miss.
    + rewrite andb_false_r. exists s. split_and!; [| by exists (A ++ B), q | done].
      unfold hev_mapped_dns_find. mrun. rewrite Ed. unfold hev_mapped_dns_node_alloc.
      by rewrite !decide_False by done.
Qed.

Lemma lookup_refines (s : DNS) es ip :
  refines s es → params s →
  let i := Z.land ip (Z.lnot (mask s)) in
  let r := if decide (i < max_ s) then lru_lookup i es else (None, es) in
  ∃ s', hev_mapped_dns_lookup ip s = Some (r.1, s') ∧ refines s' r.2 ∧ same_params s s'.
Proof.
  intros Hr [Hm Hnet _] i r. unfold hev_mapped_dns_lookup, mgets.
  assert (0 ≤ i) by (apply Z.land_nonneg; lia). unfold r. destruct (decide (i < max_ s)) as [Hi | Hi].
  - destruct (lookup_hit s es i Hr) as (s' & Er & Hr' & Hs'); [lia |]. exists s'. split; [|done].
    rewrite <-Er. mrun. fold i. rewrite decide_False by lia. done.
  - exists s. split_and!; [| done | done]. mrun. fold i. rewrite decide_True by lia. done.
Qed.

Lemma params_same (s s' : DNS) : same_params s s' → params s → params s'.
Proof. intros (E1 & E2 & E3) [H1 H2 H3]. split; rewrite ?E1, ?E2, ?E3; done. Qed.

(** The address of a slot determines the slot. *)
Lemma slot_of_address (s : DNS) i :
  params s → 0 ≤ i < max_ s → Z.land (Z.lor (net s) i) (Z.lnot (mask s)) = i.
Proof.
  intros [Hm Hnet (k & Hk & Hmask)] Hi. rewrite Z.land_lor_distr_l, Hnet, Z.lor_0_l, Hmask.
  rewrite Hmask, Z.ones_equiv in Hm. rewrite Z.land_ones by done. apply Z.mod_small. lia.
Qed.

Lemma construct_refines net mask max (s : DNS) :
  0 ≤ max → hev_mapped_dns_construct net mask max = Some s → refines s [] ∧ max_ s = max.
Proof.
  intros Hmax. unfold hev_mapped_dns_construct. case_decide; [done |]. intros [= <-]. split; [|done].
  exists [], []. split; cbn; try done.
  - apply tr_rep_empty.
  - apply ll_rep_empty.
  - constructor.
  - intros p [d Hd]. done.
  - by rewrite length_replicate.
  - intros i p Hi. left. apply lookup_replicate in Hi as [-> _]. split; [done | lia].
Qed.

(** ** Uniqueness and recency of the entries *)

(** The entries of a table: distinct names, distinct indices in range. *)
Definition entries_ok (max : Z) (es : entries) : Prop :=
  NoDup (fst <$> es) ∧ NoDup (snd <$> es) ∧ Z.of_nat (length es) ≤ max ∧
  Forall (λ e, 0 ≤ e.2 < max) es.

Lemma refines_entries_ok (s : DNS) es : refines s es → entries_ok (max_ s) es.
Proof.
  intros (l & q & Ht). pose proof (tb_use _ _ _ _ Ht). pose proof (tb_max _ _ _ _ Ht).
  split_and!; [by eapply table_names_nodup | by eapply table_idx_nodup | lia |].
  apply Forall_forall. intros e He. apply list_elem_of_lookup_1 in He as [j Hj].
  destruct (Forall2_lookup_r _ _ _ _ _ (tb_abs _ _ _ _ Ht) Hj) as (p & _ & Hp).
  destruct (tb_idx _ _ _ _ Ht _ _ Hp) as [Hb _]. cbn in Hb. lia.
Qed.
End Proofs.

(** The entry just found is the most recent one. *)
Lemma lru_find_last max nm es :
  0 < max → ∃ es', (lru_find max nm es).2 = es' ++ [(nm, (lru_find max nm es).1)].
Proof.
  intros Hmax. unfold lru_find. destruct (list_find _ es) as [[j e]|] eqn:El.
  - apply list_find_Some in El as (_ & <- & _). exists (delete j es). by destruct e.
  - cbv zeta. case_decide; [by eexists |]. destruct es as [|e es]; [cbn in *; lia | by eexists].
Qed.

Lemma lru_lookup_at es A nm i B :
  NoDup (snd <$> es) → es = A ++ (nm, i) :: B → (lru_lookup i es).1 = Some nm.
Proof.
  intros Hnd ->. unfold lru_lookup.
  by rewrite (list_find_unique snd A (nm, i) B Hnd).
Qed.

Lemma delete_app_l {E} (A B : list E) j : (j < length A)%nat → delete j (A ++ B) = delete j A ++ B.
Proof.
  revert j; induction A as [|a A IH]; intros [|j] Hj; cbn in *; try lia; [done |].
  f_equal. apply IH. lia.
Qed.

Lemma delete_app_r {E} (A B : list E) j :
  (length A ≤ j)%nat → delete j (A ++ B) = A ++ delete (j - length A)%nat B.
Proof.
  revert j; induction A as [|a A IH]; intros j Hj; cbn in *; [by rewrite Nat.sub_0_r |].
  destruct j as [|j]; [lia |]. cbn. f_equal. apply IH. lia.
Qed.

(** Moving one entry to the end: behind another entry come the ones that
    were behind it, and the one that moved. *)
Lemma move_end {E} (A : list E) e B j x :
  (A ++ e :: B) !! j = Some x →
  ∃ A' B', delete j (A ++ e :: B) ++ [x] = A' ++ e :: B' ∧ B' ⊆ x :: B.
Proof.
  intros Hj. destruct (decide (j < length A)%nat) as [Hlt | Hge].
  - exists (delete j A), (B ++ [x]). rewrite delete_app_l by done. rewrite <-app_assoc.
    split; [done | set_solver].
  - rewrite lookup_app_r in Hj by lia. rewrite delete_app_r by lia.
    destruct (j - length A)%nat as [|j'] eqn:Ej; cbn in Hj |- *.
    + simplify_eq. exists (A ++ B), []. split; [by rewrite <-app_assoc | set_solver].
    + exists A, (delete j' B ++ [x]). rewrite <-app_assoc. split; [done |].
      intros y [Hy | ->%list_elem_of_singleton]%elem_of_app; [|set_solver].
      apply list_elem_of_further. by eapply list_elem_of_delete_inv.
Qed.

(** A search keeps an entry when the name is known, or when there is a free
    index, or when the entry is not the least recent one. *)
Lemma lru_find_keeps ok max nm es A e B :
  es = A ++ e :: B →
  (A = [] → nm ∉ fst <$> e :: B → Z.of_nat (S (length B)) < max) →
  ∃ A' B', (lru_find_alloc ok max nm es).2 = A' ++ e :: B' ∧ B'.*1 ⊆ nm :: B.*1.
Proof.
  intros -> Hb. unfold lru_find_alloc, lru_find.
  destruct (list_find _ (A ++ e :: B)) as [[j x]|] eqn:El.
  { apply list_find_Some in El as (Hj & <- & _).
    destruct (move_end A e B j x Hj) as (A' & B' & E & Hsub). exists A', B'. split; [exact E |].
    intros y (z & -> & Hz)%list_elem_of_fmap. apply Hsub, elem_of_cons in Hz as [-> | Hz]; [set_solver |].
    apply list_elem_of_further, list_elem_of_fmap. eauto. }
  destruct ok; [|by exists A, B; split; [|set_solver]]. cbv zeta. case_decide as Hu.
  - exists A, (B ++ [(nm, Z.of_nat (length (A ++ e :: B)))]). rewrite <-app_assoc, fmap_app. cbn.
    split; [done | set_solver].
  - destruct A as [|a A].
    + exfalso. apply Hu. cbn. apply Hb; [done |]. apply list_find_None in El. rewrite Forall_forall in El.
      intros (z & -> & Hz)%list_elem_of_fmap. by apply (El z).
    + cbn. exists A, (B ++ [(nm, a.2)]). rewrite <-app_assoc, fmap_app. cbn. split; [done | set_solver].
Qed.

(** The names of the entries are C strings, and stay so. *)
Definition c_names (es : entries) : Prop := Forall (λ e, c_string e.1) es.

Lemma c_names_move es j e x : es !! j = Some e → x.1 = e.1 → c_names es → c_names (delete j es ++ [x]).
Proof.
  intros Hj Hx H. apply Forall_app. split; [by apply Forall_delete |]. apply Forall_singleton. rewrite Hx.
  unfold c_names in H. rewrite Forall_lookup in H. by apply (H j).
Qed.

Lemma lru_find_names ok max nm es : c_string nm → c_names es → c_names (lru_find_alloc ok max nm es).2.
Proof.
  intros Hn H. unfold lru_find_alloc, lru_find. destruct (list_find _ es) as [[j e]|] eqn:E.
  - apply list_find_Some in E as (Hj & _ & _). by apply (c_names_move es j e).
  - destruct ok; [|done]. cbv zeta. case_decide; [apply Forall_app; split; [done | by apply Forall_singleton] |].
    destruct es as [|e es]; [done |]. inversion H; subst. apply Forall_app. split; [done | by apply Forall_singleton].
Qed.

Lemma lru_lookup_names i es : c_names es → c_names (lru_lookup i es).2 ∧ ∀ nm, (lru_lookup i es).1 = Some nm → c_string nm.
Proof.
  intros H. unfold lru_lookup. destruct (list_find _ es) as [[j e]|] eqn:E; [|by split].
  apply list_find_Some in E as (Hj & _ & _). split; [by apply (c_names_move es j e) |]. intros nm [= <-].
  unfold c_names in H. rewrite Forall_lookup in H. by apply (H j).
Qed.

Lemma lru_lookup_keeps i es A e B :
  es = A ++ e :: B →
  ∃ A' B', (lru_lookup i es).2 = A' ++ e :: B' ∧ B'.*1 ⊆ option_list (lru_lookup i es).1 ++ B.*1.
Proof.
  intros ->. unfold lru_lookup. destruct (list_find _ (A ++ e :: B)) as [[j x]|] eqn:El.
  - apply list_find_Some in El as (Hj & _).
    destruct (move_end A e B j x Hj) as (A' & B' & E & Hsub). exists A', B'. split; [exact E |].
    intros y (z & -> & Hz)%list_elem_of_fmap. apply Hsub, elem_of_cons in Hz as [-> | Hz]; [set_solver |].
    apply list_elem_of_further, list_elem_of_fmap. eauto.
  - exists A, B. split; [done | set_solver].
Qed.
