(* ===== verification/DNSHandle.v ===== *)
(** * Mapped DNS: the packet handler

    Model of [hev_mapped_dns_handle] of [src/hev-mapped-dns.c]: the request
    and the response are byte buffers, an access outside them is undefined
    ([None]).  The handler patches the request in place (the label lengths
    become dots, so that the name is a C string) after it has been copied to
    the response. *)

From S2P Require Import Prelude Buffer Interfaces MappedDNS.

(** ** Words in packets *)

Definition read_u16 (m : list Z) (off : Z) : option Z :=
  b0 ← mem_get m off; b1 ← mem_get m (off + 1); Some (Z.lor (Z.shiftl b0 8) b1).

Definition write_u16 (m : list Z) (off v : Z) : option (list Z) :=
  m ← mem_set m off (u8 (Z.shiftr v 8)); mem_set m (off + 1) (u8 v).

Definition write_u32 (m : list Z) (off v : Z) : option (list Z) :=
  m ← mem_set m off (u8 (Z.shiftr v 24));
  m ← mem_set m (off + 1) (u8 (Z.shiftr v 16));
  m ← mem_set m (off + 2) (u8 (Z.shiftr v 8));
  mem_set m (off + 3) (u8 v).

(** A [uint16_t] member of the header overlaid on a buffer (little endian). *)
Definition hdr_get (m : list Z) (off : Z) : option Z :=
  b0 ← mem_get m off; b1 ← mem_get m (off + 1); Some (un_le16 b0 b1).

Definition hdr_set (m : list Z) (off v : Z) : option (list Z) :=
  m ← mem_set m off (u8 v); mem_set m (off + 1) (u8 (Z.shiftr v 8)).

(** ** The handler *)

(** Offsets of the members of [struct _DNSHdr]. *)
Definition HDR_FL : Z := 2.
Definition HDR_QD : Z := 4.
Definition HDR_AN : Z := 6.
Definition HDR_NS : Z := 8.
Definition HDR_AR : Z := 10.
Definition SIZEOF_HDR : Z := 12.

Section Handler.
Context {T L : Type} `{!SearchTree T} `{!LinkedList L}.
Abbreviation DNS := (HevMappedDNS T L).
Abbreviation nodes := (gmap Z HevMappedDNSNode).

Record hstate := mkH { h_self : DNS; rb : list Z; sb : list Z }.

Definition q_get (off : Z) : M hstate Z := λ s, b ← mem_get (rb s) off; Some (b, s).

Definition q_upd (f : list Z → option (list Z)) : M hstate unit := λ s,
  m ← f (rb s); Some (tt, mkH (h_self s) m (sb s)).

Definition s_upd (f : list Z → option (list Z)) : M hstate unit := λ s,
  m ← f (sb s); Some (tt, mkH (h_self s) (rb s) m).

Definition on_self {A} (m : M DNS A) : M hstate A := λ s,
  '(a, d) ← m (h_self s); Some (a, mkH d (rb s) (sb s)).

(** [while (rb[off]) ...]: the offset of the terminator, or [None] for the
    early [return -1].  Every iteration advances [off]. *)
Fixpoint skip_name (fuel : nat) (qlen off : Z) : M hstate (option Z) :=
  match fuel with
  | O => mfail
  | S fuel =>
      b ← q_get off;
      if decide (b = 0) then mret (Some off)
      else
        let poff := off in
        let off := off + (1 + b) in
        if decide (off >= qlen) then mret None
        else
          q_upd (λ m, mem_set m poff 46);;
          skip_name fuel qlen off
  end.

(** One question; the result is the offset after it and, for an address
    query that could be mapped, the pair of [ipo] and [ips].  [alloc] is what
    [hev_malloc0] and [strdup] return when the given nodes are live. *)
Definition question (alloc : nodes → ptr * bool) (qlen off : Z) : M hstate (option (Z * list (Z * Z))) :=
  let ipo := off in
  if decide (off >= qlen) then mret None
  else
    r ← skip_name (S (Z.to_nat qlen)) qlen off;
    match r with
    | None => mret None
    | Some off =>
        let off := off + 1 in
        if decide (off + 3 >= qlen) then mret None
        else
          m ← mgets rb;
          t ← mlift (read_u16 m off);
          c ← mlift (read_u16 m (off + 2));
          ans ←
            (if decide (t = 1 ∧ c = 1) then
               nm ← mlift (cstr (drop (Z.to_nat (ipo + 1)) m));
               mem ← mgets (λ s, alloc (dnodes (h_self s)));
               idx ← on_self (hev_mapped_dns_find mem.1 mem.2 nm);
               if decide (idx >= 0) then
                 n ← mgets (λ s, net (h_self s));
                 mret [(ipo, Z.lor n idx)]
               else mret []
             else mret []);
          mret (Some (off + 4, ans))
    end.

(** The loop over the [n] questions left; [alloc] is the allocator, at each
    question. *)
Fixpoint questions (n : nat) (alloc : nat → nodes → ptr * bool) (qlen off : Z) (acc : list (Z * Z))
    : M hstate (option (Z * list (Z * Z))) :=
  match n with
  | O => mret (Some (off, acc))
  | S n =>
      r ← question (alloc n) qlen off;
      match r with
      | None => mret None
      | Some (off, ans) => questions n alloc qlen off (acc ++ ans)
      end
  end.

(** The loop over the answers. *)
Fixpoint answers (slen off : Z) (ans : list (Z * Z)) : M hstate (option Z) :=
  match ans with
  | [] => mret (Some off)
  | (ipo, ip) :: ans =>
      if decide (off + 15 >= slen) then mret None
      else
        s_upd (λ m, write_u16 m (off + 0) (Z.lor 0xc000 ipo));;
        s_upd (λ m, write_u16 m (off + 2) 1);;
        s_upd (λ m, write_u16 m (off + 4) 1);;
        s_upd (λ m, write_u32 m (off + 6) 1);;
        s_upd (λ m, write_u16 m (off + 10) 4);;
        s_upd (λ m, write_u32 m (off + 12) ip);;
        answers slen (off + 16) ans
  end.

(** [qlen] is an [int] that is compared with a [size_t], and then the size of
    a [memcpy]. *)
Definition hev_mapped_dns_handle (alloc : nat → nodes → ptr * bool) (qlen slen : Z) : M hstate Z :=
  if decide (slen < qlen) then mret (-1)
  else if decide (u64 qlen < SIZEOF_HDR) then mret (-1)
  else
    q ← mgets rb;
    bs ← mlift (mem_read q 0 qlen);
    s_upd (λ m, mem_write m 0 bs);;
    qd ← mlift (hdr_get q HDR_QD);
    let qd := ntohs qd in
    q_upd (λ m, hdr_set m HDR_QD qd);;
    r ← mgets sb;
    fl ← mlift (hdr_get r HDR_FL);
    s_upd (λ m, hdr_set m HDR_FL (ntohs fl));;
    s_upd (λ m, hdr_set m HDR_NS 0);;
    s_upd (λ m, hdr_set m HDR_AN 0);;
    s_upd (λ m, hdr_set m HDR_AR 0);;
    if decide (qd > 32) then mret (-1)
    else
      r ← questions (Z.to_nat qd) alloc qlen SIZEOF_HDR [];
      match r with
      | None => mret (-1)
      | Some (off, ans) =>
          r ← answers slen off ans;
          match r with
          | None => mret (-1)
          | Some off =>
              m ← mgets sb;
              fl ← mlift (hdr_get m HDR_FL);
              s_upd (λ m, hdr_set m HDR_FL
                (htons (Z.lor (Z.lor fl 0x8000) (Z.shiftr (Z.land fl 0x100) 1))));;
              s_upd (λ m, hdr_set m HDR_AN (htons (Z.of_nat (length ans))));;
              mret off
          end
      end.
End Handler.
Arguments hstate : clear implicits.
Arguments mkH {T L}.

(** ** Buffer lemmas *)

Lemma read_u16_app a m j : 0 ≤ j → read_u16 (a ++ m) (Z.of_nat (length a) + j) = read_u16 m j.
Proof. intros Hj. unfold read_u16. rewrite <-Z.add_assoc, !mem_get_app by lia. done. Qed.

Lemma write_u16_app a m j v :
  0 ≤ j → write_u16 (a ++ m) (Z.of_nat (length a) + j) v = app a <$> write_u16 m j v.
Proof.
  intros Hj. unfold write_u16. rewrite mem_set_app by lia. destruct (mem_set m j _); [|done]. cbn [fmap option_fmap option_map mbind option_bind].
  by rewrite <-Z.add_assoc, mem_set_app by lia.
Qed.

Lemma write_u32_app a m j v :
  0 ≤ j → write_u32 (a ++ m) (Z.of_nat (length a) + j) v = app a <$> write_u32 m j v.
Proof.
  intros Hj. unfold write_u32. rewrite <-!Z.add_assoc, mem_set_app by lia. destruct (mem_set m j _) as [m1|]; [|done]. cbn [fmap option_fmap option_map mbind option_bind].
  rewrite mem_set_app by lia. destruct (mem_set m1 _ _) as [m2|]; [|done]. cbn [fmap option_fmap option_map mbind option_bind].
  rewrite mem_set_app by lia. destruct (mem_set m2 _ _) as [m3|]; [|done]. cbn [fmap option_fmap option_map mbind option_bind].
  by rewrite mem_set_app by lia.
Qed.

(** A write that stays inside the buffer succeeds and keeps its length. *)
Definition writes (lo hi : Z) (f : list Z → option (list Z)) : Prop := ∀ m,
  0 ≤ lo → hi ≤ Z.of_nat (length m) →
  ∃ m', f m = Some m' ∧ length m' = length m ∧ (bytes_ok m → bytes_ok m').

Lemma mem_set_writes off v : byte_ok v → writes off (off + 1) (λ m, mem_set m off v).
Proof.
  intros Hv m H1 H2. rewrite mem_set_in by lia. eexists; split_and!; [done | by rewrite length_insert |].
  intros Hm. by apply Forall_insert.
Qed.

Lemma writes_seq lo mid hi f g :
  lo ≤ mid ≤ hi → writes lo mid f → writes mid hi g → writes lo hi (λ m, f m ≫= g).
Proof.
  intros Hle Hf Hg m H1 H2. destruct (Hf m) as (m1 & E1 & L1 & B1); [lia | lia |].
  destruct (Hg m1) as (m2 & E2 & L2 & B2); [lia | lia |].
  exists m2. rewrite E1. cbn. split_and!; [done | lia | auto].
Qed.

Lemma write_u16_writes off v : writes off (off + 2) (λ m, write_u16 m off v).
Proof.
  eapply (writes_seq _ (off + 1)); [lia | apply mem_set_writes, u8_range |].
  replace (off + 2) with (off + 1 + 1) by lia. apply mem_set_writes, u8_range.
Qed.

Lemma hdr_set_writes off v : writes off (off + 2) (λ m, hdr_set m off v).
Proof.
  eapply (writes_seq _ (off + 1)); [lia | apply mem_set_writes, u8_range |].
  replace (off + 2) with (off + 1 + 1) by lia. apply mem_set_writes, u8_range.
Qed.

Lemma write_u32_writes off v : writes off (off + 4) (λ m, write_u32 m off v).
Proof.
  unfold write_u32. eapply (writes_seq _ (off + 1)); [lia | apply mem_set_writes, u8_range |].
  eapply (writes_seq _ (off + 2)); [lia | |].
  { replace (off + 2) with (off + 1 + 1) by lia. apply mem_set_writes, u8_range. }
  eapply (writes_seq _ (off + 3)); [lia | |].
  { replace (off + 3) with (off + 2 + 1) by lia. apply mem_set_writes, u8_range. }
  replace (off + 4) with (off + 3 + 1) by lia. apply mem_set_writes, u8_range.
Qed.

Lemma read_u16_in m off :
  0 ≤ off → off + 1 < Z.of_nat (length m) → bytes_ok m →
  ∃ b0 b1, mem_get m off = Some b0 ∧ read_u16 m off = Some (Z.lor (Z.shiftl b0 8) b1) ∧
    byte_ok b0 ∧ byte_ok b1.
Proof.
  intros H1 H2 Hb. rewrite Forall_forall in Hb. unfold read_u16.
  destruct (mem_get_in m off) as (b0 & E0 & Hb0); [lia |].
  destruct (mem_get_in m (off + 1)) as (b1 & E1 & Hb1); [lia |].
  exists b0, b1. rewrite E0, E1. split_and!; auto.
Qed.

Lemma be16_one b0 b1 : byte_ok b0 → byte_ok b1 → Z.lor (Z.shiftl b0 8) b1 = 1 → b0 = 0 ∧ b1 = 1.
Proof.
  intros H0 H1 H. rewrite lor_shift8 in H by (done || apply H0). unfold byte_ok in *. lia.
Qed.

(** ** Memory safety *)

Section Safety.
Context {T L : Type} `{!SearchTree T} `{!LinkedList L}.
Context (qlen slen : Z) (es0 : entries).

(** The buffers have their lengths, hold bytes, and the table is well
    formed; its names are C strings if those of [es0] were. *)
Record hsafe (st : hstate T L) : Prop := {
  hs_q : Z.of_nat (length (rb st)) = qlen;
  hs_s : Z.of_nat (length (sb st)) = slen;
  hs_b : bytes_ok (rb st);
  hs_t : ∃ es, refines (h_self st) es ∧ (c_names es0 → c_names es);
  hs_max : 0 < max_ (h_self st);
}.

(** What the allocator may return, at every question and whatever nodes are
    live: [NULL], or an aligned address that is not one of theirs.  It may
    return the address of a node that has been freed. *)
Definition alloc_ok (alloc : nat → gmap Z HevMappedDNSNode → ptr * bool) : Prop := ∀ k live,
  (alloc k live).1 = NULL ∨ (okptr (alloc k live).1 ∧ live !! (alloc k live).1 = None).

Lemma skip_name_safe fuel off st :
  hsafe st → 0 ≤ off < qlen → (Z.to_nat (qlen - off) < fuel)%nat →
  ∃ r st', skip_name fuel qlen off st = Some (r, st') ∧ hsafe st' ∧
    h_self st' = h_self st ∧ sb st' = sb st ∧
    ∀ off', r = Some off' → off ≤ off' < qlen ∧ mem_get (rb st') off' = Some 0.
Proof.
  revert off st; induction fuel as [|fuel IH]; intros off st Hs Ho Hf; [lia |].
  pose proof Hs as [Hq Hsl Hb Ht Hm].
  destruct (mem_get_in (rb st) off) as (b & Eb & Hin); [lia |].
  rewrite Forall_forall in Hb. pose proof (Hb b Hin) as Hbb. unfold byte_ok in Hbb.
  cbn [skip_name]. unfold q_get, q_upd. mrun. rewrite Eb. case_decide as Hz.
  { exists (Some off), st. split_and!; try done. intros ? [= <-]. rewrite Eb, Hz. split; [lia | done]. }
  case_decide; [by exists None, st |].
  rewrite mem_set_in by lia.
  edestruct (IH (off + (1 + b)) (mkH (h_self st) (<[Z.to_nat off := 46]> (rb st)) (sb st)))
    as (r & st' & E & Hs' & H1 & H2 & H3).
  - split; cbn; try done; [by rewrite length_insert |].
    apply Forall_insert; [by apply Forall_forall | done].
  - lia.
  - lia.
  - exists r, st'. split_and!; [exact E | done | done | done |].
    intros off' Hr. destruct (H3 off' Hr). split; [lia | done].
Qed.

Lemma question_safe alloc k off st :
  hsafe st → 0 ≤ off → alloc_ok alloc →
  ∃ r st', question (alloc k) qlen off st = Some (r, st') ∧ hsafe st' ∧ sb st' = sb st ∧
    same_params (h_self st) (h_self st') ∧
    ∀ off' ans, r = Some (off', ans) → off < off' ≤ qlen ∧ (length ans ≤ 1)%nat.
Proof.
  intros Hs Ho Hmem. unfold question. case_decide; [by exists None, st |].
  destruct (skip_name_safe (S (Z.to_nat qlen)) off st) as (r & st1 & E1 & Hs1 & Hself & Hsb & Hr);
    [done | lia | lia |].
  rewrite (mbind_some _ _ _ _ _ E1). destruct r as [off1|]; [|exists None, st1; rewrite Hself; by split_and!].
  destruct (Hr off1 eq_refl) as [Hb1 Hz1]. pose proof Hs1 as [Hq1 Hsl1 Hby1 (es & Ht1 & Hn1) Hm1].
  case_decide; [exists None, st1; rewrite Hself; by split_and! |].
  destruct (read_u16_in (rb st1) (off1 + 1)) as (b0 & b1 & G0 & E16 & Hb0 & Hbb1); [lia | lia | done |].
  destruct (read_u16_in (rb st1) (off1 + 1 + 2)) as (c0 & c1 & _ & E16' & _ & _); [lia | lia | done |].
  unfold mgets, mlift. mrun. rewrite E16, E16'.
  case_decide as Htc; [|].
  2: { exists (Some (off1 + 1 + 4, [])), st1. rewrite Hself. split_and!; try done.
       intros ? ? [= <- <-]. split; [lia | cbn; lia]. }
  assert (is_Some (cstr (drop (Z.to_nat (off + 1)) (rb st1)))) as [nm Enm].
  { destruct (decide (off1 = off)) as [-> | Hne].
    - apply (cstr_some _ 0). rewrite lookup_drop. destruct (be16_one b0 b1) as [-> _]; [done | done | tauto |].
      unfold mem_get in G0. rewrite decide_True in G0 by lia. by rewrite Nat.add_0_r.
    - apply (cstr_some _ (Z.to_nat (off1 - (off + 1)))). rewrite lookup_drop.
      unfold mem_get in Hz1. rewrite decide_True in Hz1 by lia. rewrite <-Hz1. f_equal. lia. }
  assert (c_string nm) as Hnm by (eapply cstr_bytes; [|exact Enm]; by apply Forall_drop).
  rewrite Enm. clear Enm. set (mem := alloc k (dnodes (h_self st1))).
  destruct (find_refines (h_self st1) es mem.1 mem.2 nm Ht1 Hm1 (Hmem _ _)) as (d' & Ef & Ht' & Hp').
  pose proof (λ H, lru_find_names (bool_decide (mem.1 ≠ NULL) && mem.2) (max_ (h_self st1)) nm es Hnm (Hn1 H)) as Hn'.
  generalize dependent (lru_find_alloc (bool_decide (mem.1 ≠ NULL) && mem.2) (max_ (h_self st1)) nm es).
  intros [i es'] Ef Ht' Hn'. cbn [fst snd] in Ef, Ht', Hn'. unfold on_self. rewrite Ef. mrun.
  exists (Some (off1 + 1 + 4, if decide (i >= 0) then [(off, Z.lor (net d') i)] else [])),
    (mkH d' (rb st1) (sb st1)).
  split_and!.
  - by case_decide.
  - split; cbn; try done; [eauto |]. destruct Hp' as (_ & _ & ->). done.
  - done.
  - rewrite <-Hself. done.
  - intros ? ? [= <- <-]. split; [lia |]. case_decide; cbn; lia.
Qed.

Lemma questions_safe n alloc off acc st :
  hsafe st → 0 ≤ off ≤ qlen → alloc_ok alloc →
  ∃ r st', questions n alloc qlen off acc st = Some (r, st') ∧ hsafe st' ∧ sb st' = sb st ∧
    same_params (h_self st) (h_self st') ∧
    ∀ off' ans, r = Some (off', ans) →
      off ≤ off' ≤ qlen ∧ (length ans ≤ length acc + n)%nat.
Proof.
  intros Hs Ho Hm. revert off acc st Hs Ho; induction n as [|n IH]; intros off acc st Hs Ho; cbn [questions].
  { exists (Some (off, acc)), st. split_and!; try done. intros ? ? [= <- <-]. lia. }
  destruct (question_safe alloc n off st Hs (proj1 Ho) Hm) as (r & st1 & E1 & Hs1 & Hsb & Hp & Hr).
  rewrite (mbind_some _ _ _ _ _ E1). destruct r as [[off1 ans1]|]; [|exists None, st1; by split_and!].
  destruct (Hr _ _ eq_refl) as [Hb Hl].
  destruct (IH off1 (acc ++ ans1) st1 Hs1 ltac:(lia)) as (r & st2 & E2 & Hs2 & Hsb2 & Hp2 & Hr2).
  exists r, st2. split_and!; [done | done | congruence | |].
  - destruct Hp as (? & ? & ?), Hp2 as (? & ? & ?). repeat split; congruence.
  - intros off' ans Heq. destruct (Hr2 _ _ Heq) as [? Hlen]. rewrite length_app in Hlen. lia.
Qed.

(** An update of the response inside its bounds. *)
Lemma s_upd_safe lo hi f st :
  writes lo hi f → 0 ≤ lo → hi ≤ slen → hsafe st →
  ∃ m, s_upd f st = Some (tt, mkH (h_self st) (rb st) m) ∧ hsafe (mkH (h_self st) (rb st) m).
Proof.
  intros Hw Hlo Hhi [Hq Hs Hb Ht Hm]. destruct (Hw (sb st)) as (m & E & Hlen & _); [done | lia |].
  exists m. unfold s_upd. rewrite E. split; [done |]. split; cbn; try done. lia.
Qed.

Ltac s_step :=
  lazymatch goal with
  | Hs : hsafe ?st |- context [s_upd ?f ?st] =>
      let m := fresh "m" in let E := fresh "E" in let Hs' := fresh "Hs" in
      assert (∃ m, s_upd f st = Some (tt, mkH (h_self st) (rb st) m) ∧
        hsafe (mkH (h_self st) (rb st) m)) as (m & E & Hs')
        by (eapply s_upd_safe;
            [first [apply write_u16_writes | apply write_u32_writes | apply hdr_set_writes]
            | unfold HDR_FL, HDR_NS, HDR_AN, HDR_AR; lia
            | unfold HDR_FL, HDR_NS, HDR_AN, HDR_AR; lia
            | exact Hs]);
      rewrite E; cbv beta iota; clear E Hs
  end.

Lemma answers_safe ans off st :
  hsafe st → 0 ≤ off ≤ slen →
  ∃ r st', answers slen off ans st = Some (r, st') ∧ hsafe st' ∧ h_self st' = h_self st ∧
    ∀ off', r = Some off' → off ≤ off' ≤ slen.
Proof.
  revert off st; induction ans as [|[ipo ip] ans IH]; intros off st Hs Ho; cbn [answers].
  { exists (Some off), st. split_and!; try done. intros ? [= <-]. lia. }
  case_decide; [by exists None, st |]. unfold mbind, M_bind. do 6 s_step.
  match goal with Hs' : hsafe ?st' |- _ =>
    destruct (IH (off + 16) st' Hs' ltac:(lia)) as (r & st2 & -> & Hs2 & Hself & Hr) end.
  exists r, st2. split_and!; [done | done | done |]. intros off' Heq. specialize (Hr off' Heq). lia.
Qed.

Lemma hdr_get_in m off :
  0 ≤ off → off + 2 ≤ Z.of_nat (length m) → is_Some (hdr_get m off).
Proof.
  intros H1 H2. unfold hdr_get. destruct (mem_get_in m off) as (b0 & -> & _); [lia |].
  destruct (mem_get_in m (off + 1)) as (b1 & -> & _); [lia |]. eauto.
Qed.

Lemma handle_safe alloc st :
  hsafe st → alloc_ok alloc →
  ∃ r st', hev_mapped_dns_handle alloc qlen slen st = Some (r, st') ∧ hsafe st' ∧
    same_params (h_self st) (h_self st') ∧ (r = -1 ∨ SIZEOF_HDR ≤ r ≤ slen).
Proof.
  intros Hs Hm. unfold hev_mapped_dns_handle, SIZEOF_HDR.
  case_decide; [exists (-1), st; by split_and!; try left |].
  case_decide as Hu; [exists (-1), st; by split_and!; try left |].
  pose proof Hs as [Hq Hsl Hb Ht Hmax].
  assert (12 ≤ qlen) by (unfold u64 in Hu; pose proof (Z.mod_le qlen (2 ^ 64)); lia).
  assert (mem_read (rb st) 0 qlen = Some (rb st)) as Erd by (rewrite <-Hq; apply mem_read_all).
  destruct (mem_write (sb st) 0 (rb st)) as [m0|] eqn:Ewr; [|by rewrite mem_write_front in Ewr by lia].
  pose proof (mem_write_length _ _ _ _ Ewr) as Hm0.
  assert (s_upd (λ m, mem_write m 0 (rb st)) st = Some (tt, mkH (h_self st) (rb st) m0)) as Eup.
  { unfold s_upd. mrun. by rewrite Ewr. }
  unfold mgets, mlift. mrun. rewrite Erd, Eup. clear Erd Ewr Eup.
  destruct (hdr_get_in (rb st) HDR_QD) as [qd ->]; [unfold HDR_QD; lia.. |].
  unfold q_upd. cbn [rb]. destruct (hdr_set_writes HDR_QD (ntohs qd) (rb st)) as (q1 & E1 & Hl1 & Hb1);
    [unfold HDR_QD; lia.. |]. rewrite E1. cbn [mbind option_bind sb rb h_self].
  mrun. cbn [sb].
  destruct (hdr_get_in m0 HDR_FL) as [fl ->]; [unfold HDR_FL; lia.. |].
  assert (hsafe (mkH (h_self st) q1 m0)) as Hs1 by (split; cbn; eauto; lia).
  do 4 s_step. case_decide.
  { match goal with Hs' : hsafe ?st' |- _ => exists (-1), st'; split_and!; try done; by left end. }
  match goal with Hs' : hsafe ?st' |- _ =>
    destruct (questions_safe (Z.to_nat (ntohs qd)) alloc 12 [] st' Hs' ltac:(lia) Hm)
      as (r & st2 & E2 & Hs2 & Hsb2 & Hp2 & Hr2) end.
  rewrite E2. destruct r as [[off ans]|]; [|exists (-1), st2; split_and!; try done; by left].
  destruct (Hr2 _ _ eq_refl) as [Ho2 _].
  destruct (answers_safe ans off st2 Hs2 ltac:(lia)) as (r & st3 & E3 & Hs3 & Hself3 & Hr3).
  rewrite E3. destruct r as [off'|]; [|exists (-1), st3; rewrite Hself3; split_and!; try done; by left].
  destruct (hdr_get_in (sb st3) HDR_FL) as [fl' Efl]; [unfold HDR_FL; lia | destruct Hs3; unfold HDR_FL; lia |].
  rewrite Efl. do 2 s_step.
  match goal with Hs' : hsafe ?st' |- _ => exists off', st'; split_and! end; try done.
  - cbn. by rewrite Hself3.
  - specialize (Hr3 off' eq_refl). lia.
Qed.
End Safety.

(** ** The answer to an address query *)

(** A domain name on the wire is a sequence of labels, each behind its
    length. *)
Definition label_ok (l : list Z) : Prop :=
  (0 < length l < 256)%nat ∧ Forall (λ b, 0 < b < 256) l.

Definition enc_labels (ls : list (list Z)) : list Z :=
  concat ((λ l, Z.of_nat (length l) :: l) <$> ls).

Definition dots (ls : list (list Z)) : list Z := concat (cons 46 <$> ls).

(** The name the table sees: the labels, separated by dots. *)
Definition dotted (ls : list (list Z)) : list Z := list.tail (dots ls).

Definition query (i0 i1 f0 f1 : Z) (rest : list Z) (ls : list (list Z)) (extra : list Z) : list Z :=
  [i0; i1; f0; f1; 0; 1] ++ rest ++ enc_labels ls ++ [0; 0; 1; 0; 1] ++ extra.

Definition response_flags (fl : Z) : Z :=
  Z.lor (Z.lor fl 0x8000) (Z.shiftr (Z.land fl 0x100) 1).

Definition answer (ipo ip : Z) : list Z :=
  [u8 (Z.shiftr (Z.lor 0xc000 ipo) 8); u8 (Z.lor 0xc000 ipo); 0; 1; 0; 1; 0; 0; 0; 1; 0; 4;
   u8 (Z.shiftr ip 24); u8 (Z.shiftr ip 16); u8 (Z.shiftr ip 8); u8 ip].

(** The same question, one answer that points at it, and flags that say so. *)
Definition response (i0 i1 f0 f1 : Z) (ls : list (list Z)) (ip : Z) : list Z :=
  let fl := response_flags (256 * f0 + f1) in
  [i0; i1; u8 (Z.shiftr fl 8); u8 fl; 0; 1; 0; 1; 0; 0; 0; 0] ++
  enc_labels ls ++ [0; 0; 1; 0; 1] ++ answer 12 ip.

Lemma dots_length ls : length (dots ls) = length (enc_labels ls).
Proof.
  unfold dots, enc_labels. induction ls as [|l ls IH]; [done |]. cbn. rewrite !length_app. lia.
Qed.

Lemma dots_bytes ls : Forall label_ok ls → Forall (λ b, 0 < b < 256) (dots ls).
Proof.
  unfold dots. induction 1 as [|l ls [_ Hl] _ IH]; cbn; [constructor |].
  constructor; [lia |]. by apply Forall_app.
Qed.

Lemma cstr_dotted pre ls post :
  Forall label_ok ls →
  cstr (drop (S (length pre)) (pre ++ dots ls ++ 0 :: 0 :: post)) = Some (dotted ls).
Proof.
  intros Hls. replace (S (length pre)) with (length pre + 1)%nat by lia. rewrite <-drop_drop, drop_app_length.
  pose proof (dots_bytes _ Hls) as Hd. unfold dotted. destruct ls as [|l ls]; [done |].
  unfold dots in *. cbn in *. apply Forall_cons in Hd as [_ Hd]. by apply cstr_app.
Qed.

Lemma write_u16_at pre x y post v off :
  off = Z.of_nat (length pre) →
  write_u16 (pre ++ x :: y :: post) off v = Some (pre ++ u8 (Z.shiftr v 8) :: u8 v :: post).
Proof.
  intros ->. unfold write_u16. rewrite mem_set_at by done. cbn [mbind option_bind].
  rewrite (cons_middle _ pre), app_assoc, mem_set_at by (rewrite length_app; cbn; lia).
  by rewrite <-app_assoc.
Qed.

Lemma write_u32_at pre x y z w post v off :
  off = Z.of_nat (length pre) →
  write_u32 (pre ++ x :: y :: z :: w :: post) off v =
    Some (pre ++ u8 (Z.shiftr v 24) :: u8 (Z.shiftr v 16) :: u8 (Z.shiftr v 8) :: u8 v :: post).
Proof.
  intros ->. unfold write_u32. rewrite mem_set_at by done. cbn [mbind option_bind].
  rewrite (cons_middle _ pre), app_assoc, mem_set_at by (rewrite length_app; cbn; lia). cbn [mbind option_bind].
  rewrite (cons_middle _ (pre ++ _)), app_assoc, mem_set_at by (rewrite !length_app; cbn; lia). cbn [mbind option_bind].
  rewrite (cons_middle _ ((pre ++ _) ++ _)), app_assoc, mem_set_at by (rewrite !length_app; cbn; lia).
  by rewrite <-!app_assoc.
Qed.

Lemma hdr_set_at pre x y post v off :
  off = Z.of_nat (length pre) →
  hdr_set (pre ++ x :: y :: post) off v = Some (pre ++ u8 v :: u8 (Z.shiftr v 8) :: post).
Proof.
  intros ->. unfold hdr_set. rewrite mem_set_at by done. cbn [mbind option_bind].
  rewrite (cons_middle _ pre), app_assoc, mem_set_at by (rewrite length_app; cbn; lia).
  by rewrite <-app_assoc.
Qed.

Lemma hdr_get_at pre x y post off :
  off = Z.of_nat (length pre) → hdr_get (pre ++ x :: y :: post) off = Some (un_le16 x y).
Proof.
  intros ->. unfold hdr_get. rewrite mem_get_app by lia.
  rewrite <-(Z.add_0_r (Z.of_nat (length pre))), mem_get_app by lia. done.
Qed.

Lemma write_u16_at2 a w x y post v off :
  off = Z.of_nat (length a) + Z.of_nat (length w) →
  write_u16 (a ++ w ++ x :: y :: post) off v = Some (a ++ w ++ u8 (Z.shiftr v 8) :: u8 v :: post).
Proof. intros ->. rewrite !(app_assoc a). apply write_u16_at. rewrite length_app. lia. Qed.

Lemma write_u32_at2 a w x y z u post v off :
  off = Z.of_nat (length a) + Z.of_nat (length w) →
  write_u32 (a ++ w ++ x :: y :: z :: u :: post) off v =
    Some (a ++ w ++ u8 (Z.shiftr v 24) :: u8 (Z.shiftr v 16) :: u8 (Z.shiftr v 8) :: u8 v :: post).
Proof. intros ->. rewrite !(app_assoc a). apply write_u32_at. rewrite length_app. lia. Qed.

Section Answer.
Context {T L : Type} `{!SearchTree T} `{!LinkedList L}.

Lemma skip_name_labels ls : ∀ fuel pre post (st : hstate T L),
  Forall label_ok ls → rb st = pre ++ enc_labels ls ++ 0 :: post →
  (length ls < fuel)%nat →
  skip_name fuel (Z.of_nat (length (rb st))) (Z.of_nat (length pre)) st =
    Some (Some (Z.of_nat (length pre + length (enc_labels ls))),
          mkH (h_self st) (pre ++ dots ls ++ 0 :: post) (sb st)).
Proof.
  induction ls as [|l ls IH]; intros fuel pre post st Hls Hrb Hf; (destruct fuel as [|fuel]; [lia |]);
    cbn [skip_name]; unfold q_get, q_upd; mrun.
  - rewrite Hrb. cbn. rewrite <-(Z.add_0_r (Z.of_nat _)), mem_get_app by lia. cbn.
    rewrite Z.add_0_r, Nat.add_0_r. destruct st; cbn in *. by subst.
  - apply Forall_cons in Hls as [[Hl Hlb] Hls].
    assert (rb st = pre ++ Z.of_nat (length l) :: l ++ enc_labels ls ++ 0 :: post) as Hrb'.
    { rewrite Hrb. unfold enc_labels. cbn. by rewrite <-!app_assoc. }
    rewrite Hrb' at 1. rewrite <-(Z.add_0_r (Z.of_nat (length pre))), mem_get_app by lia. cbn [mem_get].
    change (mem_get (Z.of_nat (length l) :: l ++ enc_labels ls ++ 0 :: post) 0) with (Some (Z.of_nat (length l))).
    cbv beta iota. rewrite decide_False by lia.
    rewrite decide_False by (rewrite Hrb', length_app; cbn; rewrite !length_app; cbn; lia).
    cbn [rb]. rewrite Hrb' at 1. rewrite mem_set_app by lia.
    rewrite mem_set_in by (cbn; rewrite !length_app; cbn; lia). cbn [fmap option_fmap option_map].
    change (<[Z.to_nat 0 := 46]> (Z.of_nat (length l) :: l ++ enc_labels ls ++ 0 :: post))
      with (46 :: l ++ enc_labels ls ++ 0 :: post).
    assert (length (pre ++ 46 :: l ++ enc_labels ls ++ 0 :: post) = length (rb st)) as Hlen
      by (rewrite Hrb', !length_app; done).
    specialize (IH fuel (pre ++ 46 :: l) post (mkH (h_self st) (pre ++ 46 :: l ++ enc_labels ls ++ 0 :: post) (sb st)) Hls).
    cbn [rb sb h_self] in IH. rewrite Hlen in IH.
    replace (Z.of_nat (length pre) + 0 + (1 + Z.of_nat (length l))) with (Z.of_nat (length (pre ++ 46 :: l)))
      by (rewrite length_app; cbn; lia).
    rewrite IH by ((by rewrite <-app_assoc) || cbn in Hf; lia). f_equal. f_equal; [f_equal |].
    + unfold enc_labels. rewrite length_app. cbn. rewrite length_app. lia.
    + f_equal. unfold dots. cbn. by rewrite <-!app_assoc.
Qed.

Lemma s_upd_bind {A} f (k : unit → M (hstate T L) A) (st : hstate T L) m :
  f (sb st) = Some m → (s_upd f ≫= k) st = k tt (mkH (h_self st) (rb st) m).
Proof. intros E. unfold s_upd. mrun. by rewrite E. Qed.

Lemma q_upd_bind {A} f (k : unit → M (hstate T L) A) (st : hstate T L) m :
  f (rb st) = Some m → (q_upd f ≫= k) st = k tt (mkH (h_self st) m (sb st)).
Proof. intros E. unfold q_upd. mrun. by rewrite E. Qed.

Lemma lift_bind {A B} (o : option B) (k : B → M (hstate T L) A) (st : hstate T L) b :
  o = Some b → (mlift o ≫= k) st = k b st.
Proof. intros ->. done. Qed.

Lemma answers_one a old rest ipo ip slen (st : hstate T L) :
  sb st = a ++ old ++ rest → length old = 16%nat → Z.of_nat (length a) + 15 < slen →
  answers slen (Z.of_nat (length a)) [(ipo, ip)] st =
    Some (Some (Z.of_nat (length a) + 16), mkH (h_self st) (rb st) (a ++ answer ipo ip ++ rest)).
Proof.
  intros Hsb Hold Hs. destruct st as [d q m]; cbn in Hsb; subst m.
  do 16 (destruct old as [|? old]; [done |]). destruct old; [|done].
  cbn [answers]. rewrite decide_False by lia. rewrite !Z.add_0_r.
  erewrite s_upd_bind; [| cbn [sb app]; apply (write_u16_at2 a []); cbn; lia].
  erewrite s_upd_bind; [| cbn [sb app]; apply (write_u16_at2 a [_; _]); cbn; lia].
  erewrite s_upd_bind; [| cbn [sb app]; apply (write_u16_at2 a [_; _; _; _]); cbn; lia].
  erewrite s_upd_bind; [| cbn [sb app]; apply (write_u32_at2 a [_; _; _; _; _; _]); cbn; lia].
  erewrite s_upd_bind; [| cbn [sb app]; apply (write_u16_at2 a [_; _; _; _; _; _; _; _; _; _]); cbn; lia].
  erewrite s_upd_bind; [| cbn [sb app]; apply (write_u32_at2 a [_; _; _; _; _; _; _; _; _; _; _; _]); cbn; lia].
  reflexivity.
Qed.

(** One address question: the name is looked up, the answer points at it. *)
Lemma question_a (d : HevMappedDNS T L) es mem pre ls extra m :
  Forall label_ok ls → refines d es → 0 < max_ d → malloc_ok d mem.1 →
  let q := pre ++ enc_labels ls ++ [0; 0; 1; 0; 1] ++ extra in
  let r := lru_find_alloc (bool_decide (mem.1 ≠ NULL) && mem.2) (max_ d) (dotted ls) es in
  0 ≤ r.1 →
  ∃ d' q', question (λ _, mem) (Z.of_nat (length q)) (Z.of_nat (length pre)) (mkH d q m) =
      Some (Some (Z.of_nat (length pre + length (enc_labels ls) + 5),
                  [(Z.of_nat (length pre), Z.lor (net d) r.1)]), mkH d' q' m) ∧
    refines d' r.2 ∧ same_params d d'.
Proof.
  intros Hls Hr Hmax Hmem q r Hr0. unfold question.
  assert (length q = length pre + length (enc_labels ls) + 5 + length extra)%nat as Hq
    by (unfold q; rewrite !length_app; cbn; lia).
  rewrite decide_False by lia.
  pose proof (skip_name_labels ls (S (Z.to_nat (Z.of_nat (length q)))) pre ([0; 1; 0; 1] ++ extra)
    (mkH d q m) Hls eq_refl) as Esk. cbn [rb] in Esk.
  erewrite mbind_some; [|apply Esk].
  2: { assert (length ls ≤ length (enc_labels ls))%nat; [|lia]. clear. unfold enc_labels.
       induction ls as [|l ls IH]; cbn; rewrite ?length_app; lia. }
  cbv beta iota zeta. rewrite decide_False by lia. cbn [h_self sb].
  destruct (find_refines d es mem.1 mem.2 (dotted ls) Hr Hmax Hmem) as (d' & Ef & Hr' & Hp').
  fold r in Ef, Hr'.
  assert (length (pre ++ dots ls ++ [0%Z]) = length pre + length (enc_labels ls) + 1)%nat as Hpl
    by (rewrite !length_app, dots_length; cbn; lia).
  assert (pre ++ dots ls ++ 0 :: [0; 1; 0; 1] ++ extra = (pre ++ dots ls ++ [0]) ++ [0; 1; 0; 1] ++ extra) as Hspl
    by (by rewrite <-!app_assoc).
  unfold mgets, mlift. mrun. cbn [rb].
  assert (∀ j, 0 ≤ j → read_u16 (pre ++ dots ls ++ 0 :: [0; 1; 0; 1] ++ extra)
      (Z.of_nat (length pre + length (enc_labels ls)) + 1 + j) = read_u16 ([0; 1; 0; 1] ++ extra) j) as Hrd.
  { intros j Hj. rewrite Hspl. etransitivity; [|by apply (read_u16_app (pre ++ dots ls ++ [0]))].
    f_equal. lia. }
  pose proof (Hrd 0 ltac:(lia)) as Hrd0. rewrite Z.add_0_r in Hrd0. rewrite Hrd0, Hrd by lia. change (read_u16 ([0; 1; 0; 1] ++ extra) 0) with (Some 1).
  change (read_u16 ([0; 1; 0; 1] ++ extra) 2) with (Some 1). cbv beta iota.
  rewrite decide_True by done.
  replace (Z.to_nat (Z.of_nat (length pre) + 1)) with (S (length pre)) by lia.
  change ([0; 1; 0; 1] ++ extra) with (0 :: [1; 0; 1] ++ extra).
  rewrite (cstr_dotted pre ls ([1; 0; 1] ++ extra) Hls). unfold on_self. cbn [h_self].
  rewrite Ef. mrun. cbn [h_self rb sb]. rewrite decide_True by lia.
  cbv beta iota. cbn [h_self].
  destruct Hp' as (Hnet & Hp'). rewrite Hnet.
  eexists d', _. split; [|split; [done | by split]].
  do 4 f_equal. lia.
Qed.

Lemma flags_bytes f0 f1 :
  byte_ok f0 → byte_ok f1 →
  let fl := response_flags (256 * f0 + f1) in
  0 ≤ fl < 65536 ∧ u8 (htons fl) = u8 (Z.shiftr fl 8) ∧ u8 (Z.shiftr (htons fl) 8) = u8 fl.
Proof.
  intros H0 H1 fl. assert (0 ≤ fl < 65536) as Hfl.
  { unfold fl, response_flags, byte_ok in *. apply (lor_bound _ _ 16); [lia | apply lor_bound; lia |].
    pose proof (land_bound (256 * f0 + f1) 256 9 ltac:(lia) ltac:(lia) ltac:(lia)).
    rewrite Z.shiftr_div_pow2 by lia. change (2 ^ 1) with 2.
    split; [apply Z.div_pos; lia | apply Z.div_lt_upper_bound; lia]. }
  destruct (word_split fl Hfl) as (Hv & Hh & Hl). split; [done |].
  rewrite Hv, htons_sum by done. rewrite !u8_lo, !u8_hi by done. done.
Qed.

Lemma handle_query (d : HevMappedDNS T L) es mem i0 i1 f0 f1 r0 r1 r2 r3 r4 r5 ls extra s :
  Forall label_ok ls → byte_ok f0 → byte_ok f1 → refines d es → 0 < max_ d → malloc_ok d mem.1 →
  let q := query i0 i1 f0 f1 [r0; r1; r2; r3; r4; r5] ls extra in
  let r := lru_find_alloc (bool_decide (mem.1 ≠ NULL) && mem.2) (max_ d) (dotted ls) es in
  let resp := response i0 i1 f0 f1 ls (Z.lor (net d) r.1) in
  0 ≤ r.1 → (length q ≤ length s)%nat → (length resp ≤ length s)%nat → Z.of_nat (length s) < 2 ^ 31 →
  ∃ st', hev_mapped_dns_handle (λ _ _, mem) (Z.of_nat (length q)) (Z.of_nat (length s)) (mkH d q s) =
      Some (Z.of_nat (length resp), st') ∧
    take (length resp) (sb st') = resp ∧ refines (h_self st') r.2 ∧ same_params d (h_self st').
Proof.
  intros Hls Hf0 Hf1 Hr Hmax Hmem q r resp Hr0 Hqs Hrs Hs31.
  set (body := enc_labels ls ++ [0; 0; 1; 0; 1]).
  assert (q = [i0; i1; f0; f1; 0; 1; r0; r1; r2; r3; r4; r5] ++ body ++ extra) as Hq
    by (unfold q, query, body; by rewrite <-!app_assoc).
  set (ip := Z.lor (net d) r.1) in *.
  assert (length resp = 12 + length body + 16)%nat as Hlr
    by (unfold resp, response, body; rewrite !length_app; cbn; lia).
  unfold hev_mapped_dns_handle. rewrite decide_False by lia.
  rewrite u64_small by lia.
  rewrite decide_False by (rewrite Hq, length_app; unfold SIZEOF_HDR; cbn; lia).
  unfold mgets at 1. erewrite mbind_some by done. cbv beta. cbn [rb].
  erewrite lift_bind by apply mem_read_all.
  erewrite s_upd_bind by (by apply mem_write_front).
  cbn [sb h_self rb]. assert (length q = 12 + length body + length extra)%nat as Hlq
    by (rewrite Hq, !length_app; cbn; lia).
  set (ql := length q) in *. rewrite Hq, <-!app_assoc.
  set (tl := extra ++ drop ql s).
  assert (length tl = length s - 12 - length body)%nat as Htl
    by (unfold tl; rewrite length_app, length_drop; lia).
  erewrite lift_bind by (apply (hdr_get_at [i0; i1; f0; f1]); done).
  change (ntohs (un_le16 0 1)) with 1. cbv beta zeta.
  erewrite q_upd_bind by (apply (hdr_set_at [i0; i1; f0; f1]); done). cbn [sb h_self rb].
  erewrite mbind_some by done. cbv beta. cbn [sb].
  erewrite lift_bind by (apply (hdr_get_at [i0; i1]); done).
  assert (ntohs (un_le16 f0 f1) = 256 * f0 + f1) as ->.
  { rewrite un_le16_sum by done. unfold ntohs. rewrite Z.add_comm, htons_sum by done. lia. }
  erewrite s_upd_bind by (apply (hdr_set_at [i0; i1]); done). cbn [sb h_self rb app].
  erewrite s_upd_bind by (apply (hdr_set_at [i0; i1; _; _; _; _; _; _]); done). cbn [sb h_self rb app].
  erewrite s_upd_bind by (apply (hdr_set_at [i0; i1; _; _; _; _]); done). cbn [sb h_self rb app].
  erewrite s_upd_bind by (apply (hdr_set_at [i0; i1; _; _; _; _; _; _; _; _]); done). cbn [sb h_self rb app].
  rewrite (u8_lo f0 f1), (u8_hi f0 f1) by done. rewrite decide_False by lia.
  change (Z.to_nat 1) with 1%nat. cbn [questions].
  destruct (question_a d es mem [i0; i1; f0; f1; 1; 0; r0; r1; r2; r3; r4; r5] ls extra
    ([i0; i1; f1; f0; 0; 1; 0; 0; 0; 0; 0; 0] ++ body ++ tl) Hls Hr Hmax Hmem Hr0)
    as (d' & q' & Eq & Hr' & Hp').
  fold r ip in Eq, Hr'. rewrite mbind_assoc. erewrite mbind_some.
  2: { etransitivity; [|exact Eq]. f_equal.
       unfold body. by rewrite <-app_assoc. }
  cbv beta iota. erewrite mbind_some by done. cbv beta iota. cbn [app].
  set (hdr := [i0; i1; f1; f0; 0; 1; 0; 0; 0; 0; 0; 0]).
  change (i0 :: i1 :: f1 :: f0 :: 0 :: 1 :: 0 :: 0 :: 0 :: 0 :: 0 :: 0 :: body ++ tl) with (hdr ++ body ++ tl).
  set (pos := Z.of_nat (length (hdr ++ body))).
  match goal with |- context [answers _ ?o ?a] =>
    replace o with pos by (unfold pos, body; rewrite !length_app; cbn; lia); change a with [(12, ip)] end.
  erewrite mbind_some.
  2: { apply (answers_one (hdr ++ body) (take 16 tl) (drop 16 tl)); cbn [sb].
       - by rewrite take_drop, <-app_assoc.
       - rewrite length_take. lia.
       - rewrite length_app. cbn. lia. }
  cbv beta iota. erewrite mbind_some by done. cbv beta iota. cbn [sb h_self rb].
  rewrite <-!app_assoc. unfold hdr. cbn [app].
  erewrite lift_bind by (apply (hdr_get_at [i0; i1]); done). rewrite un_le16_sum by done.
  replace (f1 + 256 * f0) with (256 * f0 + f1) by lia.
  fold (response_flags (256 * f0 + f1)). destruct (flags_bytes f0 f1 Hf0 Hf1) as (_ & Hh & Hl).
  erewrite s_upd_bind by (apply (hdr_set_at [i0; i1]); done). cbn [sb h_self rb app].
  erewrite s_upd_bind by (apply (hdr_set_at [i0; i1; _; _; _; _]); done). cbn [sb h_self rb app].
  rewrite Hh, Hl. match goal with |- context [mret ?z] =>
    replace z with (Z.of_nat (length resp)) by (rewrite Hlr; cbn; lia) end.
  eexists. split; [reflexivity | split; [|split; [exact Hr' | exact Hp']]].
  cbn [sb]. match goal with |- take _ ?l = _ => assert (l = resp ++ drop 16 tl) as -> end.
  { unfold resp, response, body. cbn [app]. rewrite <-!app_assoc. done. }
  apply take_app_length.
Qed.
End Answer.
