(* ===== verification/DNSProps.v ===== *)
(** * Mapped DNS: theorems

    The table refines the bounded least-recently-used map of [MappedDNS], for
    every implementation of the tree and list interfaces; addresses handed
    out stay valid while few enough other names are used; the packet handler is
    memory safe and answers an address query with an address that maps back
    to the name of the query. *)

From S2P Require Import Prelude Interfaces DList RBTree RBMap MappedDNS DNSHandle.

(** Operations of the table, with what the allocator returns. *)
Inductive dns_op := OFind (malloc : ptr) (dup : bool) (nm : list Z) | OLookup (ip : Z).

Section Runs.
Context {T L : Type} `{!SearchTree T} `{!LinkedList L}.
Abbreviation DNS := (HevMappedDNS T L).

(** One operation from a state, as the tunnel performs it, and the name it
    concerns: the name that is searched, or the name at the address. *)
Definition dns_step (o : dns_op) (n : option (list Z)) (s s' : DNS) : Prop :=
  match o with
  | OFind malloc dup nm =>
      n = Some nm ∧ malloc_ok s malloc ∧ ∃ i, hev_mapped_dns_find malloc dup nm s = Some (i, s')
  | OLookup ip => hev_mapped_dns_lookup ip s = Some (n, s')
  end.

(** A sequence of operations, and the names they concern. *)
Inductive dns_run : list dns_op → list (list Z) → DNS → DNS → Prop :=
| run_nil s : dns_run [] [] s s
| run_cons o os n ns s s1 s2 :
    dns_step o n s s1 → dns_run os ns s1 s2 → dns_run (o :: os) (option_list n ++ ns) s s2.

(** Distinct names of a set of fewer than [max] elements. *)
Lemma names_count (X : gset (list Z)) ns max :
  NoDup ns → Forall (.∈ X) ns → Z.of_nat (size X) < max → Z.of_nat (length ns) < max.
Proof.
  intros Hnd HX Hs. enough (length ns ≤ size X)%nat by lia.
  rewrite <-(size_list_to_set (C := gset (list Z)) ns Hnd). apply subseteq_size.
  rewrite Forall_forall in HX. set_solver.
Qed.

(** Whatever the length of a run, an entry stays when the names behind it and
    the names of the run, without its own, are fewer than the table holds. *)
Lemma dns_step_keeps (X : gset (list Z)) o n (s s' : DNS) es A e B :
  refines s es → params s → dns_step o n s s' → es = A ++ e :: B →
  Z.of_nat (size X) < max_ s →
  Forall (.∈ X) (B.*1) → Forall (λ m, m = e.1 ∨ m ∈ X) (option_list n) →
  ∃ es' A' B', refines s' es' ∧ same_params s s' ∧ es' = A' ++ e :: B' ∧ Forall (.∈ X) (B'.*1).
Proof.
  intros Hr Hp Hst Hes Hsz HB Hn.
  assert (∀ es' A' B', refines s' es' → es' = A' ++ e :: B' → B'.*1 ⊆ option_list n ++ B.*1 →
    Forall (.∈ X) (B'.*1)) as Hkeep.
  { intros es' A' B' Hr' -> Hsub. destruct (refines_entries_ok _ _ Hr') as (Hnd & _).
    rewrite fmap_app in Hnd. apply NoDup_app in Hnd as (_ & _ & [He _]%NoDup_cons).
    rewrite !Forall_forall in *. intros m Hm. pose proof (proj1 (elem_of_app _ _ _) (Hsub _ Hm)) as Hm'.
    destruct Hm' as [Hm' | Hm']; [|by apply HB]. destruct (Hn m Hm') as [-> | Hx]; [by destruct He | exact Hx]. }
  destruct o as [malloc dup nm | ip]; cbn in Hst.
  - destruct Hst as (-> & Hm & i & Hf). change (option_list (Some nm)) with [nm] in *. apply Forall_cons in Hn as [Hn _].
    destruct (find_refines s es malloc dup nm Hr (proj1 (pr_max _ Hp)) Hm) as (s1 & E & Hr1 & Hs1).
    rewrite E in Hf. injection Hf as <- <-.
    destruct (lru_find_keeps (bool_decide (malloc ≠ NULL) && dup) (max_ s) nm es A e B Hes)
      as (A' & B' & He & Hl).
    { intros HA Hnew. subst A. destruct (refines_entries_ok _ _ Hr) as (Hnd & _). rewrite Hes in Hnd. cbn in Hnd.
      apply NoDup_cons in Hnd as [_ Hnd]. destruct Hn as [-> | Hn]; [set_solver |].
      assert (Z.of_nat (length (nm :: B.*1)) < max_ s) as Hc.
      { apply (names_count X); [constructor; [set_solver | done] | by constructor | done]. }
      cbn in Hc. by rewrite length_fmap in Hc. }
    eexists _, A', B'. split_and!; [exact Hr1 | done | done | eauto].
  - destruct (lookup_refines s es ip Hr Hp) as (s1 & E & Hr1 & Hs1).
    rewrite E in Hst. injection Hst as <- <-.
    destruct (decide _) as [Hi | Hi]; cbn [fst snd] in *.
    + destruct (lru_lookup_keeps (Z.land ip (Z.lnot (mask s))) es A e B Hes) as (A' & B' & He & Hl).
      eexists _, A', B'. split_and!; [exact Hr1 | done | done | eauto].
    + exists es, A, B. by split_and!.
Qed.

Lemma same_params_trans (s1 s2 s3 : DNS) : same_params s1 s2 → same_params s2 s3 → same_params s1 s3.
Proof. intros (? & ? & ?) (? & ? & ?). repeat split; congruence. Qed.

Lemma dns_run_keeps (X : gset (list Z)) os ns (s s' : DNS) es A e B :
  refines s es → params s → dns_run os ns s s' → es = A ++ e :: B →
  Z.of_nat (size X) < max_ s →
  Forall (.∈ X) (B.*1) → Forall (λ m, m = e.1 ∨ m ∈ X) ns →
  ∃ es' A' B', refines s' es' ∧ same_params s s' ∧ es' = A' ++ e :: B'.
Proof.
  intros Hr Hp Hrun. revert es A B Hr Hp.
  induction Hrun as [s | o os n ns s s1 s2 Hst Hrun IH]; intros es A B Hr Hp Hes Hsz HB Hn.
  - by exists es, A, B.
  - apply Forall_app in Hn as [Hn Hns].
    destruct (dns_step_keeps X _ _ _ _ _ _ _ _ Hr Hp Hst Hes Hsz HB Hn) as (es1 & A1 & B1 & Hr1 & Hs1 & He1 & HB1).
    destruct (IH es1 A1 B1 Hr1 (params_same _ _ Hs1 Hp) He1) as (es2 & A2 & B2 & Hr2 & Hs2 & He2); [|done..|].
    { by destruct Hs1 as (_ & _ & ->). }
    exists es2, A2, B2. split_and!; [done | by eapply same_params_trans | done].
Qed.

(** The slot an operation returned maps back to its name. *)
Lemma lookup_entry (s : DNS) es nm i A B :
  refines s es → params s → es = A ++ (nm, i) :: B →
  ∃ s', hev_mapped_dns_lookup (Z.lor (net s) i) s = Some (Some nm, s').
Proof.
  intros Hr Hp Hes. destruct (refines_entries_ok _ _ Hr) as (_ & Hnd & _ & Hf).
  assert (0 ≤ i < max_ s) as Hi.
  { rewrite Forall_forall in Hf. apply (Hf (nm, i)). rewrite Hes. set_solver. }
  destruct (lookup_refines s es (Z.lor (net s) i) Hr Hp) as (s' & E & _).
  exists s'. rewrite E, slot_of_address by done. rewrite decide_True by lia.
  by rewrite (lru_lookup_at es A nm i B Hnd Hes).
Qed.
End Runs.

(** ** Concrete tables *)

Abbreviation DNS0 := (HevMappedDNS rbstore lstore).

(** An empty table with two slots in 10.0.0.0/30. *)
Definition demo_dns : DNS0 := mkDNS tr_empty ll_empty ∅ 0x0a000000 (-4) 0 2 (replicate 2 NULL).

Lemma demo_dns_refines : refines demo_dns [].
Proof. by apply (construct_refines 0x0a000000 (-4) 2). Qed.

Lemma demo_dns_params : params demo_dns.
Proof. split; [vm_compute; split; [reflexivity | discriminate] | done | by exists 2]. Qed.

Lemma demo_malloc : malloc_ok demo_dns 16.
Proof. right. split; [by split | done]. Qed.

(** ** Theorems *)

(** C8. [hev_mapped_dns_find] and [hev_mapped_dns_lookup] implement the
    abstract table.  The constructor makes an empty one.  A search never goes
    wrong, returns the index of a known name and otherwise the next free index
    or the index of the least recently used name, whose entry it replaces; the
    name becomes the most recently used.  When the allocator fails an unknown
    name is refused with -1 and nothing changes.  A look-up never goes wrong
    either, returns the name at the host part of the address, which becomes
    the most recently used, and [NULL] for an index that is not in use. *)
Theorem mapped_dns_refines {T L} `{!SearchTree T} `{!LinkedList L} :
  (∀ net mask max (s : HevMappedDNS T L),
    0 ≤ max → hev_mapped_dns_construct net mask max = Some s → refines s [] ∧ max_ s = max) ∧
  ∀ (s : HevMappedDNS T L) es, refines s es →
    (∀ malloc dup nm, 0 < max_ s → malloc_ok s malloc →
      let r := lru_find_alloc (bool_decide (malloc ≠ NULL) && dup) (max_ s) nm es in
      ∃ s', hev_mapped_dns_find malloc dup nm s = Some (r.1, s') ∧ refines s' r.2 ∧ same_params s s') ∧
    (∀ ip, params s →
      let i := Z.land ip (Z.lnot (mask s)) in
      let r := if decide (i < max_ s) then lru_lookup i es else (None, es) in
      ∃ s', hev_mapped_dns_lookup ip s = Some (r.1, s') ∧ refines s' r.2 ∧ same_params s s').
Proof.
  split; [apply construct_refines |]. intros s es Hr. split; intros.
  - by apply find_refines.
  - by apply lookup_refines.
Qed.

Lemma mapped_dns_refines_witness :
  ∃ s1 s2, hev_mapped_dns_find 16 true [97] demo_dns = Some (0, s1) ∧ refines s1 [([97], 0)] ∧
    hev_mapped_dns_lookup 0x0a000000 s1 = Some (Some [97], s2) ∧ refines s2 [([97], 0)].
Proof.
  destruct (proj2 (@mapped_dns_refines rbstore lstore _ _) demo_dns [] demo_dns_refines) as [Hf _].
  destruct (Hf 16 true [97]) as (s1 & E1 & Hr1 & Hp1); [vm_compute; reflexivity | exact demo_malloc |].
  pose proof (params_same _ _ Hp1 demo_dns_params) as Hpar.
  destruct (proj2 (proj2 (@mapped_dns_refines rbstore lstore _ _) s1 _ Hr1) 0x0a000000 Hpar)
    as (s2 & E2 & Hr2 & _).
  destruct Hp1 as (_ & Hmask & Hmax). rewrite Hmask, Hmax in E2, Hr2.
  exists s1, s2. split_and!; [exact E1 | exact Hr1 | exact E2 | exact Hr2].
Defined.

(** C9. An address stays valid: after [hev_mapped_dns_find] returned index [i]
    for a name, and any number of operations that concern, besides this name,
    fewer than [max] distinct names, looking up the address [net | i] still
    gives that name. *)
Theorem mapped_dns_address_stable {T L} `{!SearchTree T} `{!LinkedList L}
    (s s1 s2 : HevMappedDNS T L) es malloc dup nm i os ns :
  refines s es → params s → malloc_ok s malloc →
  hev_mapped_dns_find malloc dup nm s = Some (i, s1) → 0 ≤ i →
  dns_run os ns s1 s2 →
  Z.of_nat (size (list_to_set ns ∖ {[nm]} : gset (list Z))) < max_ s →
  ∃ s3, hev_mapped_dns_lookup (Z.lor (net s) i) s2 = Some (Some nm, s3).
Proof.
  intros Hr Hp Hm Hf Hi Hrun Hsz.
  destruct (find_refines s es malloc dup nm Hr (proj1 (pr_max _ Hp)) Hm) as (s1' & E & Hr1 & Hs1).
  rewrite E in Hf. injection Hf as <- <-.
  assert (∃ es', (lru_find_alloc (bool_decide (malloc ≠ NULL) && dup) (max_ s) nm es).2 =
    es' ++ (nm, (lru_find_alloc (bool_decide (malloc ≠ NULL) && dup) (max_ s) nm es).1) :: []) as [es' He].
  { destruct (lru_find_last (max_ s) nm es (proj1 (pr_max _ Hp))) as (es' & He). exists es'.
    unfold lru_find_alloc in *. destruct (list_find _ es); [done |].
    destruct (_ && _); [done | cbn in Hi; lia]. }
  pose proof (params_same _ _ Hs1 Hp) as Hp1.
  destruct (dns_run_keeps (list_to_set ns ∖ {[nm]}) _ _ _ _ _ _ _ _ Hr1 Hp1 Hrun He)
    as (es2 & A2 & B2 & Hr2 & Hs2 & He2).
  - by destruct Hs1 as (_ & _ & ->).
  - constructor.
  - apply Forall_forall. intros m Hin. cbn. destruct (decide (m = nm)); [by left | right]. set_solver.
  - pose proof (same_params_trans _ _ _ Hs1 Hs2) as Hs. rewrite <-(proj1 Hs).
    eapply lookup_entry; [exact Hr2 | by eapply params_same | exact He2].
Qed.

Lemma mapped_dns_address_stable_witness :
  ∃ s1 s2, hev_mapped_dns_find 16 true [97] demo_dns = Some (0, s1) ∧
    dns_run [OFind 32 true [98]; OFind 48 true [98]; OLookup 0x0a000001] [[98]; [98]; [98]] s1 s2 ∧
    ∃ s3, hev_mapped_dns_lookup 0x0a000000 s2 = Some (Some [97], s3).
Proof.
  assert (∃ s1 s2, hev_mapped_dns_find 16 true [97] demo_dns = Some (0, s1) ∧
    dns_run [OFind 32 true [98]; OFind 48 true [98]; OLookup 0x0a000001] [[98]; [98]; [98]] s1 s2)
    as (s1 & s2 & E1 & Hrun).
  { eexists _, _. split; [vm_compute; reflexivity |].
    eapply (run_cons _ _ (Some _)); [split; [reflexivity | split; [right; split; [by split | reflexivity] |
      eexists; vm_compute; reflexivity]] |].
    eapply (run_cons _ _ (Some _)); [split; [reflexivity | split; [right; split; [by split | reflexivity] |
      eexists; vm_compute; reflexivity]] |].
    eapply (run_cons _ _ (Some _)); [vm_compute; reflexivity | apply run_nil]. }
  exists s1, s2. split; [exact E1 | split; [exact Hrun |]].
  apply (mapped_dns_address_stable demo_dns s1 s2 [] 16 true [97] 0 [OFind 32 true [98]; OFind 48 true [98]; OLookup 0x0a000001] [[98]; [98]; [98]]
    demo_dns_refines demo_dns_params demo_malloc E1); [lia | exact Hrun | vm_compute; reflexivity].
Defined.

(** C10. [hev_mapped_dns_handle] is memory safe on every packet: whatever the
    request bytes, the sizes of the two buffers and the allocator, which may
    fail and may return the address of a node the same packet has evicted, it
    never reads or writes outside the buffers, keeps the table well formed
    and its names C strings, and returns -1 or a length between the DNS header and the size of the
    response buffer. *)
Theorem mapped_dns_handle_safe {T L} `{!SearchTree T} `{!LinkedList L}
    (d : HevMappedDNS T L) es alloc req res :
  refines d es → 0 < max_ d → alloc_ok alloc → bytes_ok req →
  ∃ r st, hev_mapped_dns_handle alloc (Z.of_nat (length req)) (Z.of_nat (length res)) (mkH d req res)
      = Some (r, st) ∧
    length (sb st) = length res ∧ (∃ es', refines (h_self st) es' ∧ (c_names es → c_names es')) ∧
    (r = -1 ∨ SIZEOF_HDR ≤ r ≤ Z.of_nat (length res)).
Proof.
  intros Hr Hmax Hm Hb.
  destruct (handle_safe (Z.of_nat (length req)) (Z.of_nat (length res)) es alloc (mkH d req res))
    as (r & st & E & [Hq Hs _ Ht _] & _ & Hret); [by split; cbn; eauto | done |].
  exists r, st. split_and!; [done | lia | done | done].
Qed.

(** An allocator that hands out the first free address of three. *)
Definition first_free (_ : nat) (live : gmap Z HevMappedDNSNode) : ptr * bool :=
  (match live !! 16, live !! 32, live !! 48 with
   | None, _, _ => 16 | _, None, _ => 32 | _, _, None => 48 | _, _, _ => NULL
   end, true).

Lemma first_free_ok : alloc_ok first_free.
Proof.
  intros k live. unfold first_free. cbn.
  destruct (live !! 16) eqn:E1; [destruct (live !! 32) eqn:E2; [destruct (live !! 48) eqn:E3 |] |];
    [by left | right..]; (split; [by split | done]).
Qed.

(** Four questions for a table of two slots: the third evicts the first name,
    whose node the fourth gets. *)
Definition four_questions : list Z :=
  [1; 2; 1; 0; 0; 4; 0; 0; 0; 0; 0; 0; 1; 97; 0; 0; 1; 0; 1; 1; 98; 0; 0; 1; 0; 1;
   1; 99; 0; 0; 1; 0; 1; 1; 100; 0; 0; 1; 0; 1].

Lemma mapped_dns_handle_safe_witness :
  ∃ r st, hev_mapped_dns_handle first_free 40 120 (mkH demo_dns four_questions (replicate 120 0)) = Some (r, st) ∧
    length (sb st) = 120%nat ∧ (∃ es', refines (h_self st) es' ∧ (c_names [] → c_names es')) ∧ (r = -1 ∨ SIZEOF_HDR ≤ r ≤ 120).
Proof.
  apply (mapped_dns_handle_safe demo_dns [] first_free four_questions (replicate 120 0)).
  - exact demo_dns_refines.
  - vm_compute. reflexivity.
  - exact first_free_ok.
  - apply (bool_decide_unpack _). vm_compute. exact I.
Defined.

(** The answer to these questions, and the nodes that are left. *)
Lemma four_questions_answered : ∃ st,
  hev_mapped_dns_handle first_free 40 120 (mkH demo_dns four_questions (replicate 120 0)) = Some (104, st) ∧
  dnodes (h_self st) = {[48 := mkDNode [99] 0; 16 := mkDNode [100] 1]}.
Proof. eexists. split; [vm_compute; reflexivity |]. vm_compute. reflexivity. Qed.

(** C11. The handler and the lookup compose: a query for the address of a
    domain name is answered with the same identifier and question, response
    flags and one answer; looking the answered address up gives the dotted
    name back. *)
Theorem mapped_dns_round_trip {T L} `{!SearchTree T} `{!LinkedList L}
    (d : HevMappedDNS T L) es malloc i0 i1 f0 f1 r0 r1 r2 r3 r4 r5 ls extra res :
  refines d es → params d → okptr malloc → dnodes d !! malloc = None →
  Forall label_ok ls → byte_ok f0 → byte_ok f1 →
  let q := query i0 i1 f0 f1 [r0; r1; r2; r3; r4; r5] ls extra in
  let n := (12 + length (enc_labels ls) + 5 + 16)%nat in
  (length q ≤ length res)%nat → (n ≤ length res)%nat → Z.of_nat (length res) < 2 ^ 31 →
  ∃ st ip s', hev_mapped_dns_handle (λ _ _, (malloc, true)) (Z.of_nat (length q)) (Z.of_nat (length res)) (mkH d q res)
      = Some (Z.of_nat n, st) ∧
    take n (sb st) = response i0 i1 f0 f1 ls ip ∧
    Z.land ip (mask d) = Z.land (net d) (mask d) ∧
    hev_mapped_dns_lookup ip (h_self st) = Some (Some (dotted ls), s').
Proof.
  intros Hr Hp Hok Hd Hls Hf0 Hf1 q n Hq Hn Hres. pose proof (proj1 (pr_max _ Hp)) as Hmax. pose proof Hok as [Hz _].
  set (r := lru_find_alloc (bool_decide (malloc ≠ NULL) && true) (max_ d) (dotted ls) es).
  assert (r = lru_find (max_ d) (dotted ls) es) as Hrl.
  { unfold r, lru_find_alloc. rewrite bool_decide_eq_true_2 by done. cbn. by destruct (list_find _ es). }
  destruct (lru_find_last (max_ d) (dotted ls) es Hmax) as (es' & He). rewrite <-Hrl in He.
  destruct (find_refines d es malloc true (dotted ls) Hr Hmax (or_intror (conj Hok Hd))) as (d1 & _ & Hr1 & _ & _ & Hx1).
  fold r in Hr1. destruct (refines_entries_ok _ _ Hr1) as (_ & _ & _ & Hf). rewrite Hx1 in Hf.
  assert (0 ≤ r.1 < max_ d) as Hi.
  { rewrite Forall_forall in Hf. apply (Hf (dotted ls, r.1)). rewrite He. set_solver. }
  assert (length (response i0 i1 f0 f1 ls (Z.lor (net d) r.1)) = n) as Hlen
    by (unfold response, n; rewrite !length_app; cbn; lia).
  destruct (handle_query d es (malloc, true) i0 i1 f0 f1 r0 r1 r2 r3 r4 r5 ls extra res)
    as (st & E & Ht & Hr2 & Hs2); try done.
  { right. by split. }
  { cbn [fst snd]. fold r. lia. }
  { cbn [fst snd]. fold r. rewrite Hlen. lia. }
  cbn [fst snd] in E, Ht, Hr2. fold r in E, Ht, Hr2. rewrite Hlen in E, Ht.
  pose proof (params_same _ _ Hs2 Hp) as Hp2.
  destruct (lookup_entry _ _ _ _ _ [] Hr2 Hp2 He) as (s' & El).
  exists st, (Z.lor (net d) r.1), s'. destruct Hs2 as (Hn2 & _). rewrite Hn2 in El.
  split_and!; [exact E | exact Ht | | exact El].
  rewrite Z.land_lor_distr_l. destruct (pr_mask _ Hp) as (k & Hk & Hm).
  pose proof (slot_of_address d r.1 Hp Hi) as Hslot.
  assert (Z.land r.1 (mask d) = 0) as ->; [|by rewrite Z.lor_0_r].
  rewrite <-(Z.lnot_involutive (mask d)), Hm, <-Z.ldiff_land, Z.ldiff_ones_r by done.
  pose proof (pr_max _ Hp) as [_ Hmk]. rewrite Hm, Z.ones_equiv in Hmk.
  rewrite Z.shiftr_div_pow2, Z.div_small, Z.shiftl_0_l by lia. done.
Qed.

Lemma mapped_dns_round_trip_witness :
  ∃ st ip s', hev_mapped_dns_handle (λ _ _, (16, true)) 25 64
      (mkH demo_dns (query 1 2 1 0 [0; 0; 0; 0; 0; 0] [[97; 46]; [99; 111]] [7; 7]) (replicate 64 0))
      = Some (39, st) ∧
    take 39 (sb st) = response 1 2 1 0 [[97; 46]; [99; 111]] ip ∧
    Z.land ip (-4) = 0x0a000000 ∧
    hev_mapped_dns_lookup ip (h_self st) = Some (Some [97; 46; 46; 99; 111], s').
Proof.
  apply (mapped_dns_round_trip demo_dns [] 16 1 2 1 0 0 0 0 0 0 0 [[97; 46]; [99; 111]] [7; 7] (replicate 64 0)).
  - exact demo_dns_refines.
  - exact demo_dns_params.
  - by split.
  - reflexivity.
  - repeat constructor; cbn; lia.
  - by split.
  - by split.
  - cbn. lia.
  - cbn. lia.
  - cbn. lia.
Defined.
