(* ===== verification/Auth.v ===== *)
(** * Users and the authenticator

    Model of [src/core/src/hev-socks5-user.c] and
    [src/core/src/hev-socks5-authenticator.c]: a red-black tree of users
    ordered by the length of the name and then by its bytes, used through the
    [SearchTree] interface.  A user object embeds its tree node, so it and
    the node have one address; its reference count is kept with it, and
    [hev_object_unref] runs the destructor when it drops to zero. *)

From stdpp Require Import sorting.
From S2P Require Import Prelude Interfaces RBTree RBSpec RBMap.

(** [memcmp] on the first [n] bytes; only its sign is used. *)
Fixpoint memcmp (n : nat) (a b : list Z) : option Z :=
  match n with
  | O => Some 0
  | S n =>
      match a, b with
      | x :: a, y :: b =>
          if decide (x < y) then Some (-1) else if decide (y < x) then Some 1 else memcmp n a b
      | _, _ => None
      end
  end.

(** ** Users *)

Record HevSocks5User := mkUser {
  u_name : list Z;
  u_pass : list Z;
  name_len : Z;
  pass_len : Z;
  ref_count : Z;
}.

(** [malloc (len + 1)], [memcpy (p, src, len)], [p[len] = 0]: [len + 1] is
    computed in [unsigned int], and the writes must stay in the block. *)
Definition dup_bytes (src : list Z) (len : Z) : option (list Z) :=
  if decide (len < u32 (len + 1) ∧ len ≤ Z.of_nat (length src))
  then Some (take (Z.to_nat len) src ++ [0]) else None.

(** [hev_socks5_user_construct]; [malloc1] and [malloc2] say whether the two
    allocations succeed.  [inr] is the error return, with everything freed. *)
Definition hev_socks5_user_construct (malloc1 malloc2 : bool)
    (name : list Z) (name_len : Z) (pass : list Z) (pass_len : Z) : option (HevSocks5User + Z) :=
  if malloc1 then
    n ← dup_bytes name name_len;
    if malloc2 then
      p ← dup_bytes pass pass_len;
      Some (inl (mkUser n p name_len pass_len 1))
    else Some (inr (-1))
  else Some (inr (-1)).

Definition hev_socks5_user_checker (self : HevSocks5User) (pass : list Z) (plen : Z) : option Z :=
  if decide (pass_len self ≠ plen) then Some (-1)
  else
    r ← memcmp (Z.to_nat plen) (u_pass self) pass;
    if decide (r ≠ 0) then Some (-1) else Some 0.

(** ** The authenticator *)

Record HevSocks5Authenticator (T : Type) := mkAuth {
  a_tree : T;
  users : gmap Z HevSocks5User;
}.
Arguments mkAuth {T}.
Arguments a_tree {T}.
Arguments users {T}.

Section Program.
Context {T : Type} `{!SearchTree T}.
Abbreviation Auth := (HevSocks5Authenticator T).

Definition on_atree {A} (m : M T A) : M Auth A := λ s,
  '(a, t) ← m (a_tree s); Some (a, mkAuth t (users s)).

Definition user_get (p : ptr) : M Auth HevSocks5User := λ s, u ← users s !! p; Some (u, s).

(** [hev_socks5_user_new] at the address [self] that [calloc] returns. *)
Definition hev_socks5_user_new (self : ptr) (malloc1 malloc2 : bool)
    (name : list Z) (name_len : Z) (pass : list Z) (pass_len : Z) : M Auth ptr := λ s,
  if decide (self = NULL) then Some (NULL, s)
  else
    r ← hev_socks5_user_construct malloc1 malloc2 name name_len pass pass_len;
    match r with
    | inl u => Some (self, mkAuth (tr_alloc self (a_tree s)) (<[self := u]> (users s)))
    | inr _ => Some (NULL, s)
    end.

(** The virtual call [klass->checker] of [hev_socks5_user_check]; every user
    of the program has the class of [hev_socks5_user_class]. *)
Definition hev_socks5_user_check (self : ptr) (pass : list Z) (plen : Z) : M Auth Z :=
  u ← user_get self; mlift (hev_socks5_user_checker u pass plen).

(** [hev_socks5_user_destruct]: the name, the password and the object go. *)
Definition hev_socks5_user_destruct (self : ptr) : M Auth unit := λ s,
  Some (tt, mkAuth (tr_free self (a_tree s)) (delete self (users s))).

Definition hev_object_unref (self : ptr) : M Auth unit :=
  u ← user_get self;
  let rc := ref_count u - 1 in
  if decide (rc = 0) then hev_socks5_user_destruct self
  else λ s, Some (tt, mkAuth (a_tree s)
         (<[self := mkUser (u_name u) (u_pass u) (name_len u) (pass_len u) rc]> (users s))).

(** The comparison of the three descents: lengths first. *)
Definition user_cmp (name : list Z) (nlen : Z) (n : ptr) : M Auth Z :=
  this ← user_get n;
  if decide (name_len this < nlen) then mret (-1)
  else if decide (name_len this > nlen) then mret 1
  else mlift (memcmp (Z.to_nat nlen) (u_name this) name).

Definition auth_descend (name : list Z) (nlen : Z) : M Auth (ptr + ptr * link) :=
  fuel ← mgets (λ s, tr_fuel (a_tree s));
  tr_descend (λ A, on_atree) (user_cmp name nlen) fuel LRoot NULL.

Definition hev_socks5_authenticator_add (user : ptr) : M Auth Z :=
  u ← user_get user;
  found ← auth_descend (u_name u) (name_len u);
  match found with
  | inl _ => mret (-1)
  | inr (parent, new) =>
      on_atree (tr_link user parent new);;
      on_atree (tr_insert_color user);;
      mret 0
  end.

Definition hev_socks5_authenticator_del (name : list Z) (nlen : Z) : M Auth Z :=
  found ← auth_descend name nlen;
  match found with
  | inl this =>
      on_atree (tr_erase this);;
      hev_object_unref this;;
      mret 0
  | inr _ => mret (-1)
  end.

Definition hev_socks5_authenticator_get (name : list Z) (nlen : Z) : M Auth ptr :=
  found ← auth_descend name nlen;
  match found with inl this => mret this | inr _ => mret NULL end.

(** [while ((n = hev_rbtree_first (&self->tree)))]; every iteration removes a
    node. *)
Fixpoint clear_loop (fuel : nat) : M Auth unit :=
  match fuel with
  | O => mfail
  | S fuel =>
      n ← on_atree tr_first;
      if decide (n = NULL) then mret tt
      else
        on_atree (tr_erase n);;
        hev_object_unref n;;
        clear_loop fuel
  end.

Definition hev_socks5_authenticator_clear : M Auth unit :=
  fuel ← mgets (λ s, tr_fuel (a_tree s)); clear_loop fuel.
End Program.

(** ** The order of names *)

(** Shorter names first, then byte order. *)
Definition keycmp (a b : list Z) : Z :=
  if decide (length a < length b)%nat then -1
  else if decide (length b < length a)%nat then 1 else strcmp a b.

Lemma keycmp_eq a b : keycmp a b = 0 → a = b.
Proof. unfold keycmp. repeat case_decide; try lia. apply strcmp_eq. Qed.

Lemma keycmp_refl a : keycmp a a = 0.
Proof. unfold keycmp. rewrite !decide_False by lia. apply strcmp_refl. Qed.

Lemma keycmp_trans a b c : keycmp a b > 0 → keycmp b c > 0 → keycmp a c > 0.
Proof. unfold keycmp. repeat case_decide; try lia. apply strcmp_trans. Qed.

Lemma keycmp_anti a b : keycmp a b > 0 ↔ keycmp b a < 0.
Proof. unfold keycmp. repeat case_decide; try lia. apply strcmp_anti. Qed.

Lemma memcmp_strcmp n a b :
  (n ≤ length a)%nat → (n ≤ length b)%nat → memcmp n a b = Some (strcmp (take n a) (take n b)).
Proof.
  revert a b; induction n as [|n IH]; intros [|x a] [|y b] Ha Hb; cbn in *; try lia; try done.
  rewrite IH by lia. by repeat case_decide.
Qed.

(** ** Passwords *)

Definition upass (u : HevSocks5User) : list Z := take (Z.to_nat (pass_len u)) (u_pass u).

Definition pass_wf (u : HevSocks5User) : Prop :=
  u_pass u = upass u ++ [0] ∧ pass_len u = Z.of_nat (length (upass u)).

Lemma user_checker_spec u pw pwlen :
  pass_wf u → 0 ≤ pwlen ≤ Z.of_nat (length pw) →
  hev_socks5_user_checker u pw pwlen =
    Some (if decide (take (Z.to_nat pwlen) pw = upass u) then 0 else -1).
Proof.
  intros [Hp Hl] Hw. unfold hev_socks5_user_checker. case_decide as Hne.
  - rewrite decide_False; [done |]. intros Heq%(f_equal length). rewrite length_take in Heq. lia.
  - assert (pwlen = pass_len u) as -> by lia.
    rewrite memcmp_strcmp by (rewrite ?Hp, ?length_app; cbn; lia).
    fold (upass u). cbn [mbind option_bind].
    destruct (decide (take (Z.to_nat (pass_len u)) pw = upass u)) as [-> | Hd].
    + rewrite strcmp_refl. by rewrite decide_False by lia.
    + rewrite decide_True; [done |]. intros Heq%strcmp_eq. congruence.
Qed.

(** ** The abstract authenticator: a finite map from names to users *)

Definition ukey (u : HevSocks5User) : list Z := take (Z.to_nat (name_len u)) (u_name u).

Definition user_wf (u : HevSocks5User) : Prop :=
  u_name u = ukey u ++ [0] ∧ name_len u = Z.of_nat (length (ukey u)) ∧ 0 < ref_count u.

Definition key_of (us : gmap Z HevSocks5User) (p : ptr) : list Z := default [] (ukey <$> us !! p).

Definition key_desc (us : gmap Z HevSocks5User) (p q : ptr) : Prop :=
  keycmp (key_of us p) (key_of us q) > 0.

Section Proofs.
Context {T : Type} `{!SearchTree T}.
Abbreviation Auth := (HevSocks5Authenticator T).

Record auth_rep (s : Auth) (l : list ptr) (m : gmap (list Z) ptr) : Prop := {
  ar_tree : tr_rep (a_tree s) l;
  ar_sorted : StronglySorted (key_desc (users s)) l;
  ar_users : ∀ p, p ∈ l → ∃ u, users s !! p = Some u ∧ user_wf u;
  ar_map : ∀ k p, m !! k = Some p ↔ p ∈ l ∧ key_of (users s) p = k;
}.

Lemma on_atree_some {A} (m : M T A) (s : Auth) a t :
  m (a_tree s) = Some (a, t) → on_atree m s = Some (a, mkAuth t (users s)).
Proof. intros E. unfold on_atree. by rewrite E. Qed.

Lemma on_atree_pure {A} (m : M T A) (s : Auth) a :
  m (a_tree s) = Some (a, a_tree s) → on_atree m s = Some (a, s).
Proof. intros E. rewrite (on_atree_some _ _ _ _ E). by destruct s. Qed.

Lemma user_get_some (s : Auth) p u : users s !! p = Some u → user_get p s = Some (u, s).
Proof. intros E. unfold user_get. by rewrite E. Qed.

Lemma user_cmp_spec (s : Auth) p u name nlen :
  users s !! p = Some u → user_wf u → 0 ≤ nlen ≤ Z.of_nat (length name) →
  user_cmp name nlen p s = Some (keycmp (key_of (users s) p) (take (Z.to_nat nlen) name), s).
Proof.
  intros Hu (Hn & Hl & _) Hlen. unfold user_cmp. rewrite (mbind_some _ _ _ _ _ (user_get_some _ _ _ Hu)).
  unfold key_of. rewrite Hu. cbn. unfold keycmp. rewrite length_take_le by lia.
  destruct (decide (name_len u < nlen)); [by rewrite decide_True by lia |].
  rewrite (decide_False (P := (length _ < _)%nat)) by lia.
  destruct (decide (name_len u > nlen)); [by rewrite decide_True by lia |].
  rewrite (decide_False (P := (_ < length _)%nat)) by lia.
  unfold mlift. assert (Z.to_nat nlen = length (ukey u)) as Heq by lia.
  rewrite memcmp_strcmp by (rewrite ?Hn, ?length_app; cbn; lia).
  do 3 f_equal. rewrite Hn at 1. by rewrite Heq, take_app_length.
Qed.

(** The descent finds the user of the name or the place for it. *)
Lemma auth_descend_spec (s : Auth) l m name nlen :
  auth_rep s l m → 0 ≤ nlen ≤ Z.of_nat (length name) →
  let k := take (Z.to_nat nlen) name in
  match m !! k with
  | Some p => auth_descend name nlen s = Some (inl p, s)
  | None => ∃ lk A B, auth_descend name nlen s = Some (inr (link_parent lk, lk), s) ∧ l = A ++ B ∧
      tr_at (a_tree s) lk A [] B ∧ (∀ p, p ∈ A → keycmp (key_of (users s) p) k > 0) ∧
      (∀ p, p ∈ B → keycmp (key_of (users s) p) k < 0)
  end.
Proof.
  intros [Ht Hs Hu Hm] Hlen k. unfold auth_descend, mgets. mrun.
  destruct (tr_rep_ok _ _ Ht) as (_ & _ & Hf).
  destruct (tr_descend_spec a_tree (λ A, on_atree) (user_cmp name nlen) (@on_atree_pure)
    s (λ p, keycmp (key_of (users s) p) k) (tr_fuel (a_tree s)) LRoot [] l [])
    as [(n & E & Hn & Hz) | (lk' & A' & B' & E & Hl & Hat' & H1 & H2)].
  - by apply tr_root_spec.
  - intros p Hp. destruct (Hu p Hp) as (u & Hup & Hwf). by apply (user_cmp_spec s p u).
  - eapply sorted_mono, Hs. intros p q _ _ Hpq Hle. cbv beta in Hle |- *. unfold key_desc in Hpq.
    destruct (decide (keycmp (key_of (users s) q) k = 0)) as [Heq%keycmp_eq | Hne].
    + rewrite Heq in Hpq. lia.
    + destruct (decide (keycmp (key_of (users s) q) k > 0)) as [Hgt | ?]; [|lia].
      pose proof (keycmp_trans _ _ _ Hpq Hgt). lia.
  - done.
  - apply keycmp_eq in Hz. assert (m !! k = Some n) as -> by (by apply Hm). exact E.
  - destruct (m !! k) as [p|] eqn:Hk.
    + apply Hm in Hk as [Hp Hk]. exfalso. rewrite Hl in Hp.
      apply elem_of_app in Hp as [Hp | Hp]; [specialize (H1 p Hp) | specialize (H2 p Hp)];
        cbv beta in *; rewrite Hk, keycmp_refl in *; lia.
    + rewrite app_nil_r in Hat'. by exists lk', A', B'.
Qed.

Lemma key_desc_agree us us' l :
  (∀ p, p ∈ l → key_of us' p = key_of us p) →
  StronglySorted (key_desc us) l → StronglySorted (key_desc us') l.
Proof. intros Hag. apply sorted_mono. intros x y Hx Hy. unfold key_desc. by rewrite !Hag. Qed.

Lemma auth_add_spec (s : Auth) l m p u :
  auth_rep s l m → users s !! p = Some u → user_wf u → p ∉ l → okptr p → tr_ready (a_tree s) p →
  match m !! ukey u with
  | Some _ => hev_socks5_authenticator_add p s = Some (-1, s)
  | None => ∃ s' l', hev_socks5_authenticator_add p s = Some (0, s') ∧
      auth_rep s' l' (<[ukey u := p]> m) ∧ users s' = users s
  end.
Proof.
  intros Hr Hu Hwf Hp Hok Hrdy. pose proof Hwf as (Hn & Hl & _).
  unfold hev_socks5_authenticator_add. rewrite (mbind_some _ _ _ _ _ (user_get_some _ _ _ Hu)).
  pose proof (auth_descend_spec s l m (u_name u) (name_len u) Hr) as Hd. fold (ukey u) in Hd. cbv zeta in Hd.
  specialize (Hd ltac:(rewrite Hn, length_app; lia)). pose proof Hr as [Ht Hs Hus Hm].
  destruct (m !! ukey u) as [p'|] eqn:Hk.
  { by rewrite (mbind_some _ _ _ _ _ Hd). }
  destruct Hd as (lk & A & B & Ed & -> & Hat & HA & HB).
  rewrite (mbind_some _ _ _ _ _ Ed).
  destruct (tr_insert_spec _ _ _ _ _ Hat Hp Hok Hrdy) as (t1 & t2 & E1 & E2 & Ht2).
  rewrite (mbind_some _ _ _ _ _ (on_atree_some _ _ _ _ E1)).
  erewrite mbind_some by (apply on_atree_some; exact E2). cbn [users].
  assert (key_of (users s) p = ukey u) as Hkp by (unfold key_of; by rewrite Hu).
  eexists _, (A ++ p :: B). split; [reflexivity | split; [|done]]. split; cbn.
  - done.
  - apply StronglySorted_app in Hs as (H3 & H1 & H2). apply StronglySorted_app.
    split_and!; [| done | apply StronglySorted_cons; split; [|done]].
    + intros x y Hx [-> | Hy]%elem_of_cons; [unfold key_desc; rewrite Hkp; auto | auto].
    + apply Forall_forall. intros y Hy. unfold key_desc. rewrite Hkp. apply keycmp_anti. auto.
  - intros q [Hq | [-> | Hq]%elem_of_cons]%elem_of_app; [apply Hus; set_solver | eauto | apply Hus; set_solver].
  - intros k q. rewrite lookup_insert. case_decide as Hc.
    + subst k. split; [intros [= <-]; split; [set_solver | done] |].
      intros [[Hq | [-> | Hq]%elem_of_cons]%elem_of_app Hkq]; [| done |]; exfalso;
        [specialize (HA q Hq) | specialize (HB q Hq)]; rewrite Hkq, keycmp_refl in *; lia.
    + rewrite Hm. split; intros [Hq Hkq]; (split; [|done]); [set_solver |].
      apply elem_of_app in Hq as [? | [-> | ?]%elem_of_cons]; [set_solver | congruence | set_solver].
Qed.

(** Removing a user of the tree and dropping the tree's reference. *)
Lemma erase_unref_spec (s : Auth) A p B m :
  auth_rep s (A ++ p :: B) m →
  ∃ s', (on_atree (tr_erase p);; hev_object_unref p) s = Some (tt, s') ∧
    auth_rep s' (A ++ B) (delete (key_of (users s) p) m) ∧
    (∀ q, q ≠ p → users s' !! q = users s !! q) ∧
    (∀ u, users s !! p = Some u → ref_count u ≠ 1 → is_Some (users s' !! p)).
Proof.
  intros Hr. pose proof Hr as [Ht Hs Hus Hm].
  destruct (tr_erase_spec _ _ _ _ Ht) as (t' & E & Ht').
  rewrite (mbind_some _ _ _ _ _ (on_atree_some _ _ _ _ E)).
  destruct (Hus p) as (u & Hu & Hwf); [set_solver |].
  destruct (tr_rep_ok _ _ Ht) as (Hnd & _). apply NoDup_app in Hnd as (HndA & Hd & [HpB HndB]%NoDup_cons).
  assert (p ∉ A ++ B) as Hp by (rewrite elem_of_app; intros [?|?]; [apply (Hd p); set_solver | done]).
  assert (StronglySorted (key_desc (users s)) (A ++ B)) as Hs'.
  { revert Hs. rewrite !StronglySorted_app, StronglySorted_cons. intros (H1 & H2 & _ & H3).
    split_and!; [|done..]. set_solver. }
  assert (∀ us' t, tr_rep t (A ++ B) → (∀ q, q ≠ p → us' !! q = users s !! q) →
    auth_rep (mkAuth t us') (A ++ B) (delete (key_of (users s) p) m)) as Hfin.
  { intros us' t Htr Hag.
    assert (∀ q, q ∈ A ++ B → key_of us' q = key_of (users s) q) as Hk.
    { intros q Hq. unfold key_of. rewrite Hag; [done |]. congruence. }
    split; cbn; [done | by eapply key_desc_agree | |].
    - intros q Hq. rewrite Hag by congruence. apply Hus. set_solver.
    - intros k q. rewrite lookup_delete. case_decide as Hc.
      + split; [done |]. intros [Hq Hkq]. exfalso. subst k. rewrite (Hk q Hq) in Hkq.
        assert (m !! key_of (users s) p = Some q) as H1 by (apply Hm; split; [set_solver | done]).
        assert (m !! key_of (users s) p = Some p) as H2 by (apply Hm; split; [set_solver | done]).
        congruence.
      + rewrite Hm. split.
        * intros [Hq Hkq]. assert (q ∈ A ++ B) by (assert (q ≠ p) by congruence; set_solver).
          split; [done |]. by rewrite Hk.
        * intros [Hq Hkq]. rewrite Hk in Hkq by done. split; [set_solver | done]. }
  unfold hev_object_unref. erewrite mbind_some by (apply user_get_some; exact Hu). cbv zeta.
  case_decide as Hrc.
  - eexists. split; [reflexivity |]. cbn [a_tree users]. split.
    + apply Hfin; [by apply tr_free_spec |]. intros q Hq. by rewrite lookup_delete_ne.
    + cbn. split; [intros q Hq; by rewrite lookup_delete_ne |]. intros u' Hu' H1. simplify_eq. lia.
  - eexists. split; [reflexivity |]. cbn [a_tree users]. split.
    + apply Hfin; [done |]. intros q Hq. by rewrite lookup_insert_ne.
    + cbn. split; [intros q Hq; by rewrite lookup_insert_ne |]. intros. rewrite lookup_insert_eq. eauto.
Qed.

Lemma clear_loop_spec fuel (s : Auth) l m :
  auth_rep s l m → (length l < fuel)%nat →
  ∃ s' m', clear_loop fuel s = Some (tt, s') ∧ auth_rep s' [] m' ∧
    (∀ q, is_Some (users s !! q) →
       (∀ u, q ∈ l → users s !! q = Some u → ref_count u ≠ 1) → is_Some (users s' !! q)).
Proof.
  revert s l m; induction fuel as [|fuel IH]; intros s l m Hr Hf; [lia |]. cbn [clear_loop].
  pose proof (tr_first_spec _ _ (ar_tree _ _ _ Hr)) as Ef.
  rewrite (mbind_some _ _ _ _ _ (on_atree_pure _ _ _ Ef)). destruct l as [|p l].
  - exists s, m. by rewrite decide_True.
  - destruct (tr_rep_ok _ _ (ar_tree _ _ _ Hr)) as (_ & Ho & _).
    apply Forall_cons in Ho as [[Hz _] _]. cbn. rewrite decide_False by done.
    destruct (erase_unref_spec s [] p l m Hr) as (s1 & E1 & Hr1 & Hne & Heq).
    apply mbind_inv in E1 as ([] & s0 & E0 & E1). rewrite (mbind_some _ _ _ _ _ E0), (mbind_some _ _ _ _ _ E1).
    destruct (IH s1 l _ Hr1) as (s' & m' & E & Hr' & Hq); [cbn in *; lia |].
    exists s', m'. split_and!; [done.. |]. intros q Hs Hl.
    destruct (tr_rep_ok _ _ (ar_tree _ _ _ Hr)) as ([Hpl _]%NoDup_cons & _ & _).
    destruct (decide (q = p)) as [-> | Hqp].
    + destruct Hs as [u Hu]. apply Hq; [apply (Heq u Hu), (Hl u); set_solver | done].
    + apply Hq; rewrite Hne by done; [done |]. intros u Hin. apply Hl. set_solver.
Qed.

Lemma auth_get_spec (s : Auth) l m name nlen :
  auth_rep s l m → 0 ≤ nlen ≤ Z.of_nat (length name) →
  hev_socks5_authenticator_get name nlen s = Some (default NULL (m !! take (Z.to_nat nlen) name), s).
Proof.
  intros Hr Hl. pose proof (auth_descend_spec s l m name nlen Hr Hl) as Hd. cbv zeta in Hd.
  unfold hev_socks5_authenticator_get. destruct (m !! _) as [p|].
  - by rewrite (mbind_some _ _ _ _ _ Hd).
  - destruct Hd as (lk & A & B & Ed & _). by rewrite (mbind_some _ _ _ _ _ Ed).
Qed.

Lemma auth_clear_spec (s : Auth) l m :
  auth_rep s l m →
  ∃ s' m', hev_socks5_authenticator_clear s = Some (tt, s') ∧ auth_rep s' [] m' ∧
    (∀ q, is_Some (users s !! q) →
       (∀ u, q ∈ l → users s !! q = Some u → ref_count u ≠ 1) → is_Some (users s' !! q)).
Proof.
  intros Hr. unfold hev_socks5_authenticator_clear, mgets.
  destruct (tr_rep_ok _ _ (ar_tree _ _ _ Hr)) as (_ & _ & Hf). exact (clear_loop_spec _ s l m Hr Hf).
Qed.
End Proofs.

(** ** Theorems *)

(** The operations against the map of names. *)
Definition get_ok {T} `{!SearchTree T} (s : HevSocks5Authenticator T) (m : gmap (list Z) ptr) : Prop :=
  ∀ name nlen, 0 ≤ nlen ≤ Z.of_nat (length name) →
    hev_socks5_authenticator_get name nlen s =
      Some (default NULL (m !! take (Z.to_nat nlen) name), s).

Definition del_ok {T} `{!SearchTree T} (s : HevSocks5Authenticator T) (m : gmap (list Z) ptr) : Prop :=
  ∀ name nlen, 0 ≤ nlen ≤ Z.of_nat (length name) →
    let k := take (Z.to_nat nlen) name in
    ∃ s' l', hev_socks5_authenticator_del name nlen s =
        Some (if decide (is_Some (m !! k)) then 0 else -1, s') ∧
      auth_rep s' l' (delete k m) ∧ (∀ q, m !! k ≠ Some q → users s' !! q = users s !! q).

Definition add_ok {T} `{!SearchTree T} (s : HevSocks5Authenticator T) (l : list ptr)
    (m : gmap (list Z) ptr) : Prop :=
  ∀ p u, users s !! p = Some u → user_wf u → p ∉ l → okptr p → tr_ready (a_tree s) p →
    ∃ s' l', hev_socks5_authenticator_add p s =
        Some (if decide (is_Some (m !! ukey u)) then -1 else 0, s') ∧ users s' = users s ∧
      auth_rep s' l' (if decide (is_Some (m !! ukey u)) then m else <[ukey u := p]> m).

(** C12. The authenticator is a map from names to users: [get] finds exactly
    the user of the name, [add] refuses a name that is taken and otherwise
    adds one binding, [del] removes the binding (and only then releases the
    user) and reports whether there was one, [clear] empties the map; none of
    them goes wrong. *)
Theorem authenticator_is_map {T} `{!SearchTree T} (s : HevSocks5Authenticator T) l m :
  auth_rep s l m →
  get_ok s m ∧ del_ok s m ∧ add_ok s l m ∧
  ∃ s' m', hev_socks5_authenticator_clear s = Some (tt, s') ∧ auth_rep s' [] m'.
Proof.
  intros Hr. split_and!.
  - intros name nlen Hl. by eapply auth_get_spec.
  - intros name nlen Hl k. pose proof (auth_descend_spec s l m name nlen Hr Hl) as Hd. cbv zeta in Hd.
    fold k in Hd. unfold hev_socks5_authenticator_del. destruct (m !! k) as [p|] eqn:Hk.
    + rewrite (mbind_some _ _ _ _ _ Hd). rewrite decide_True by eauto.
      destruct (proj1 (ar_map _ _ _ Hr k p) Hk) as [Hp Hkp].
      apply list_elem_of_split in Hp as (A & B & ->).
      destruct (erase_unref_spec s A p B m Hr) as (s1 & E1 & Hr1 & Hus & _). rewrite Hkp in Hr1.
      apply mbind_inv in E1 as ([] & s0 & E0 & E1).
      rewrite (mbind_some _ _ _ _ _ E0), (mbind_some _ _ _ _ _ E1).
      exists s1, (A ++ B). split_and!; [done | done |]. intros q Hq. apply Hus. congruence.
    + destruct Hd as (lk & A & B & Ed & _). rewrite (mbind_some _ _ _ _ _ Ed).
      rewrite decide_False by (by intros [? ?]). exists s, l.
      rewrite delete_id by done. done.
  - intros p u Hu Hwf Hp Hok Hrdy. pose proof (auth_add_spec s l m p u Hr Hu Hwf Hp Hok Hrdy) as Ha.
    destruct (m !! ukey u) as [p'|] eqn:Hk.
    + exists s, l. rewrite !decide_True by eauto. done.
    + destruct Ha as (s' & l' & E & Hr' & Hus). exists s', l'.
      rewrite !decide_False by (by intros [? ?]). done.
  - destruct (auth_clear_spec s l m Hr) as (s' & m' & ? & ? & _). eauto.
Qed.

(** A user object outside an empty tree, for a concrete run. *)
Definition demo_user : HevSocks5User := mkUser [117; 0] [112; 0] 1 1 1.
Definition demo_auth : HevSocks5Authenticator rbstore :=
  mkAuth (tr_alloc 16 tr_empty) {[16 := demo_user]}.

Lemma demo_auth_rep : auth_rep demo_auth [] ∅.
Proof.
  split; [| constructor | intros p Hp; by apply elem_of_nil in Hp |].
  - exists E, 0%nat. split_and!; [repeat split; constructor | constructor | done].
  - intros k p. split; [by rewrite lookup_empty | intros [Hp _]; by apply elem_of_nil in Hp].
Qed.

Lemma authenticator_is_map_witness :
  ∃ s1, hev_socks5_authenticator_add 16 demo_auth = Some (0, s1) ∧
    hev_socks5_authenticator_get [117] 1 s1 = Some (16, s1) ∧
    hev_socks5_authenticator_get [118] 1 s1 = Some (NULL, s1).
Proof.
  destruct (authenticator_is_map demo_auth [] ∅ demo_auth_rep) as (_ & _ & Hadd & _).
  destruct (Hadd 16 demo_user) as (s1 & l1 & E1 & _ & Hr1);
    [reflexivity | repeat split | intros H; by apply elem_of_nil in H | by split | by vm_compute; eauto |].
  exists s1. destruct (authenticator_is_map s1 l1 _ Hr1) as (Hget & _).
  split; [exact E1 |]. split; [apply (Hget [117] 1); cbn; lia | apply (Hget [118] 1); cbn; lia].
Defined.

(** A user accepts exactly its password: [hev_socks5_user_construct]
    never overflows its buffers for lengths below the largest [unsigned int],
    and the checker of the user it makes returns 0 if and only if the bytes
    presented are the password, and -1 otherwise. *)
Theorem user_checker_correct name nlen pass plen pw pwlen :
  0 ≤ nlen ≤ Z.of_nat (length name) → nlen < 2 ^ 32 - 1 →
  0 ≤ plen ≤ Z.of_nat (length pass) → plen < 2 ^ 32 - 1 →
  0 ≤ pwlen ≤ Z.of_nat (length pw) →
  ∃ u, hev_socks5_user_construct true true name nlen pass plen = Some (inl u) ∧ user_wf u ∧
    ukey u = take (Z.to_nat nlen) name ∧
    hev_socks5_user_checker u pw pwlen =
      Some (if decide (take (Z.to_nat pwlen) pw = take (Z.to_nat plen) pass) then 0 else -1).
Proof.
  intros Hn Hn32 Hp Hp32 Hw. unfold hev_socks5_user_construct, dup_bytes.
  rewrite !u32_small by lia. rewrite !decide_True by lia. cbn [mbind option_bind].
  eexists. split; [reflexivity |].
  assert (ukey (mkUser (take (Z.to_nat nlen) name ++ [0]) (take (Z.to_nat plen) pass ++ [0]) nlen plen 1)
    = take (Z.to_nat nlen) name) as Hk.
  { unfold ukey. cbn. rewrite take_app_le by (rewrite length_take; lia). by rewrite take_take, Nat.min_id. }
  split_and!.
  - unfold user_wf. rewrite Hk. cbn. rewrite length_take. split_and!; [done | lia | lia].
  - done.
  - assert (upass (mkUser (take (Z.to_nat nlen) name ++ [0]) (take (Z.to_nat plen) pass ++ [0]) nlen plen 1)
      = take (Z.to_nat plen) pass) as Hpw.
    { unfold upass. cbn. rewrite take_app_le by (rewrite length_take; lia). by rewrite take_take, Nat.min_id. }
    rewrite user_checker_spec; [by rewrite Hpw | | done].
    unfold pass_wf. rewrite Hpw. cbn. rewrite length_take. split; [done | lia].
Qed.

Lemma user_checker_correct_witness :
  ∃ u, hev_socks5_user_construct true true [117] 1 [112; 119] 2 = Some (inl u) ∧ user_wf u ∧
    ukey u = [117] ∧ hev_socks5_user_checker u [112; 120] 2 = Some (-1).
Proof. apply (user_checker_correct [117] 1 [112; 119] 2 [112; 120] 2); cbn; lia. Defined.
