(* ===== verification/Socks5.v ===== *)
(** * The SOCKS5 object

    Model of [src/core/src/hev-socks5.c] and of the settings, the yielder and
    the socket function of [src/core/src/hev-socks5-misc.c].  The static
    variables of the latter are one record; programs read them through a
    section parameter, the setters return the new record.  The classes of the
    object system are type classes: [Socks5Object] says how a class embeds
    [HevSocks5] and what its [binder] does, the clients and the server are
    instances. *)

From S2P Require Import Prelude IO Addr.

(** ** Settings *)

Record misc := mkMisc {
  connect_timeout : Z;
  tcp_timeout : Z;
  udp_timeout : Z;
  task_stack_size : Z;
  udp_recv_buffer_size : Z;
  udp_copy_buffer_nums : Z;
}.

Definition misc_init : misc := mkMisc 10000 300000 60000 8192 (512 * 1024) 10.

Definition hev_socks5_set_connect_timeout (timeout : Z) (g : misc) : misc :=
  mkMisc timeout (tcp_timeout g) (udp_timeout g) (task_stack_size g) (udp_recv_buffer_size g)
    (udp_copy_buffer_nums g).
Definition hev_socks5_get_connect_timeout (g : misc) : Z := connect_timeout g.
Definition hev_socks5_set_tcp_timeout (timeout : Z) (g : misc) : misc :=
  mkMisc (connect_timeout g) timeout (udp_timeout g) (task_stack_size g) (udp_recv_buffer_size g)
    (udp_copy_buffer_nums g).
Definition hev_socks5_get_tcp_timeout (g : misc) : Z := tcp_timeout g.
Definition hev_socks5_set_udp_timeout (timeout : Z) (g : misc) : misc :=
  mkMisc (connect_timeout g) (tcp_timeout g) timeout (task_stack_size g) (udp_recv_buffer_size g)
    (udp_copy_buffer_nums g).
Definition hev_socks5_get_udp_timeout (g : misc) : Z := udp_timeout g.
Definition hev_socks5_set_task_stack_size (stack_size : Z) (g : misc) : misc :=
  mkMisc (connect_timeout g) (tcp_timeout g) (udp_timeout g) stack_size (udp_recv_buffer_size g)
    (udp_copy_buffer_nums g).
Definition hev_socks5_get_task_stack_size (g : misc) : Z := task_stack_size g.
Definition hev_socks5_set_udp_recv_buffer_size (buffer_size : Z) (g : misc) : misc :=
  mkMisc (connect_timeout g) (tcp_timeout g) (udp_timeout g) (task_stack_size g) buffer_size
    (udp_copy_buffer_nums g).
Definition hev_socks5_set_udp_copy_buffer_nums (nums : Z) (g : misc) : misc :=
  mkMisc (connect_timeout g) (tcp_timeout g) (udp_timeout g) (task_stack_size g)
    (udp_recv_buffer_size g) nums.
Definition hev_socks5_get_udp_copy_buffer_nums (g : misc) : Z := udp_copy_buffer_nums g.

(** ** The object *)

Definition HEV_SOCKS5_TYPE_NONE : Z := 0.
Definition HEV_SOCKS5_TYPE_TCP : Z := 1.
Definition HEV_SOCKS5_TYPE_UDP_IN_TCP : Z := 2.
Definition HEV_SOCKS5_TYPE_UDP_IN_UDP : Z := 3.

(** [IPPROTO_IPV6], [IPV6_V6ONLY], [SOL_SOCKET], [SO_REUSEADDR] and
    [SO_RCVBUF] of the target. *)
Definition IPPROTO_IPV6 : Z := 41.
Definition IPV6_V6ONLY : Z := 26.
Definition SOL_SOCKET : Z := 1.
Definition SO_REUSEADDR : Z := 2.
Definition SO_RCVBUF : Z := 8.

Record HevSocks5 := mkSocks5 {
  sk_fd : Z;
  sk_timeout : Z;
  sk_type : Z;
  sk_udp_associated : Z;
  sk_addr_family : Z;
}.

Definition set_sk_fd (fd : Z) (b : HevSocks5) : HevSocks5 :=
  mkSocks5 fd (sk_timeout b) (sk_type b) (sk_udp_associated b) (sk_addr_family b).
Definition set_sk_type (ty : Z) (b : HevSocks5) : HevSocks5 :=
  mkSocks5 (sk_fd b) (sk_timeout b) (ty mod 4) (sk_udp_associated b) (sk_addr_family b).
Definition set_sk_udp_associated (v : Z) (b : HevSocks5) : HevSocks5 :=
  mkSocks5 (sk_fd b) (sk_timeout b) (sk_type b) v (sk_addr_family b).

Definition hev_socks5_get_timeout (self : HevSocks5) : Z := sk_timeout self.

(** A timeout of 0 is final. *)
Definition hev_socks5_set_timeout (timeout : Z) (self : HevSocks5) : HevSocks5 :=
  if decide (sk_timeout self ≠ 0)
  then mkSocks5 (sk_fd self) timeout (sk_type self) (sk_udp_associated self) (sk_addr_family self)
  else self.

Definition hev_socks5_get_addr_family (self : HevSocks5) : Z := sk_addr_family self.

Definition hev_socks5_set_addr_family (family : Z) (self : HevSocks5) : HevSocks5 :=
  mkSocks5 (sk_fd self) (sk_timeout self) (sk_type self) (sk_udp_associated self) family.

(** The base constructor on zeroed memory. *)
Definition hev_socks5_construct (ty : Z) : HevSocks5 :=
  set_sk_type ty (mkSocks5 (-1) (-1) 0 0 AF_UNSPEC).

(** How a class embeds the object, and its virtual [binder]. *)
Class Socks5Object (C : Type) := {
  base : C → HevSocks5;
  set_base : HevSocks5 → C → C;
  binder : Z → sockaddr_in6 → P C Z;
  base_set_base : ∀ b c, base (set_base b c) = b;
}.

Definition upd_base {C} `{Socks5Object C} (f : HevSocks5 → HevSocks5) : P C unit :=
  pmod (λ c, set_base (f (base c)) c).
Definition get_base {C} `{Socks5Object C} {A} (f : HevSocks5 → A) : P C A := pgets (λ c, f (base c)).

Definition hev_socks5_bind {S} (sock : Z) (dest : sockaddr_in6) : P S Z := mret 0.

(** Close a descriptor of the task: [hev_task_del_fd] and [close]. *)
Definition del_close {S} (fd : Z) : P S unit := call (DelFd fd);; call (Close fd);; mret tt.

Definition hev_socks5_destruct {C} `{Socks5Object C} : P C unit :=
  fd ← get_base sk_fd;
  if decide (0 ≤ fd) then del_close fd else mret tt.

Definition hev_socks5_task_io_yielder {C} `{Socks5Object C} (ty : yield_type) : P C Z :=
  match ty with
  | HEV_TASK_YIELD => call (TaskYield HEV_TASK_YIELD);; mret 0
  | HEV_TASK_WAITIO =>
      timeout ← get_base sk_timeout;
      if decide (timeout < 0) then call (TaskYield HEV_TASK_WAITIO);; mret 0
      else
        r ← call (TaskSleep timeout);
        if decide (ret r ≤ 0) then mret (-1) else mret 0
  end.

Definition hev_socks5_socket {S} (g : misc) (type : Z) : P S Z :=
  r ← call (Socket AF_INET6 type);
  let fd := ret r in
  if decide (fd < 0) then mret (-1)
  else
    r ← call (SetSockOpt fd IPPROTO_IPV6 IPV6_V6ONLY 0);
    if decide (ret r < 0) then call (Close fd);; mret (-1)
    else
      r ← call (AddFd fd);
      (if decide (ret r < 0) then call (ModFd fd);; mret tt else mret tt);;
      (if decide (type = SOCK_DGRAM) then
         call (SetSockOpt fd SOL_SOCKET SO_RCVBUF (udp_recv_buffer_size g));; mret tt
       else mret tt);;
      mret fd.

(** [hev-socks5-tcp.c]: the relay itself is [hev_task_io_splice]. *)
Definition hev_socks5_tcp_splicer {C} `{Socks5Object C} (fd : Z) : P C Z :=
  cfd ← get_base sk_fd;
  if decide (cfd < 0) then mret (-1)
  else
    r ← call (AddFd fd);
    (if decide (ret r < 0) then call (ModFd fd);; mret tt else mret tt);;
    call (Splice cfd fd);;
    mret 0.

(** ** Lemmas *)

(** [hev_socks5_socket] opens one descriptor, or none when it fails. *)
Lemma socket_spec ub {S} g ty (s : S) :
  wp ub (hev_socks5_socket g ty s) (λ r tr, r.2 = s ∧ -1 ≤ r.1 ∧
    (∀ fd, sent fd tr = [] ∧ rcvd fd tr = []) ∧
    ∀ l, fds_after l tr = Some (if decide (0 ≤ r.1) then r.1 :: l else l)).
Proof.
  unfold hev_socks5_socket. apply wp_call. intros x _. cbv zeta.
  case_decide as Hf; [cbn; split_and!; try done; intros l; cbn; by rewrite decide_False by lia |].
  apply wp_call. intros y _. case_decide.
  { apply wp_call. intros z _. cbn. split_and!; try done. intros l. cbn.
    rewrite decide_True by lia. cbn. by rewrite decide_True. }
  apply wp_call. intros z _. rewrite <-(Z.le_ngt 0 (ret x)) in Hf.
  repeat (case_decide || rewrite pret_bind || apply wp_call || intros ?); cbn;
    split_and!; cbn; try done; lia.
Qed.

Lemma del_close_spec ub {S} fd (s : S) :
  wp ub (del_close fd s) (λ r tr, r.2 = s ∧ (∀ f, sent f tr = [] ∧ rcvd f tr = []) ∧
    ∀ l l', remove_one fd l = Some l' → fds_after l tr = Some l').
Proof. cbn. intros x _ y _. by split_and!. Qed.
