(* ===== verification/Client.v ===== *)
(** * SOCKS5 clients

    Model of [src/core/src/hev-socks5-client.c], [hev-socks5-client-tcp.c]
    and [hev-socks5-client-udp.c]: connecting to the proxy, the standard and
    the pipelined handshake.  The virtual methods of [HevSocks5ClientClass]
    are the class [Socks5Client]; the handshake is written, and its theorems
    are proved, against the class, and the TCP and UDP clients are
    instances.  Addresses allocated on the heap are their bytes. *)

From S2P Require Import Prelude Buffer IO Addr Socks5.

(** ** The client class *)

Record HevSocks5Client := mkClient {
  cl_base : HevSocks5;
  auth_user : option (list Z);
  auth_pass : option (list Z);
}.

Class Socks5Client (C : Type) := {
  client_object :: Socks5Object C;
  client : C → HevSocks5Client;
  set_client : HevSocks5Client → C → C;
  get_upstream_addr : P C (option (list Z));
  set_upstream_addr : list Z → P C Z;
  base_client : ∀ c, base c = cl_base (client c);
  set_base_client : ∀ b c,
    client (set_base b c) = mkClient b (auth_user (client c)) (auth_pass (client c));
}.

Definition hev_socks5_client_construct (ty : Z) : HevSocks5Client :=
  mkClient (hev_socks5_construct ty) None None.

(** [saddr] starts zeroed. *)
Definition zero_sockaddr : sockaddr_in6 := mkSockaddr 0 0 (replicate 16 0).

(** Bind and connect a fresh socket; on failure it is closed. *)
Definition bind_connect_with {C} (bnd : Z → sockaddr_in6 → P C Z) (fd : Z) (saddr : sockaddr_in6) : P C Z :=
  res ← bnd fd saddr;
  if decide (res < 0) then del_close fd;; mret (-1)
  else
    res ← call (Connect fd saddr);
    if decide (ret res < 0) then del_close fd;; mret (-1) else mret 0.

Definition bind_connect {C} `{Socks5Object C} : Z → sockaddr_in6 → P C Z := bind_connect_with binder.

Definition hev_socks5_client_destruct {C} `{Socks5Object C} : P C unit := hev_socks5_destruct.

Section Program.
Context (inet_pton4 inet_pton6 : list Z → option (list Z)).
Context (g : misc).
(** The indeterminate contents of the [HevSocks5Addr] of a stack frame. *)
Context (frame : list Z).
Context {C : Type} `{!Socks5Client C}.

Definition hev_socks5_client_set_auth (user pass : option (list Z)) : P C unit :=
  pmod (λ c, set_client (mkClient (cl_base (client c)) user pass) c).

(** The credentials, when both are set. *)
Definition client_creds : P C (option (list Z * list Z)) :=
  pgets (λ c, match auth_user (client c), auth_pass (client c) with
              | Some u, Some p => Some (u, p)
              | _, _ => None
              end).

Definition hev_socks5_client_write_auth_methods : P C Z :=
  creds ← client_creds;
  let method := match creds with
                | None => HEV_SOCKS5_AUTH_METHOD_NONE
                | Some _ => HEV_SOCKS5_AUTH_METHOD_USER
                end in
  fd ← get_base sk_fd;
  res ← call (Send fd [HEV_SOCKS5_VERSION_5; 1; method]);
  if decide (ret res ≤ 0) then mret (-1) else mret 0.

Definition hev_socks5_client_write_auth_creds : P C Z :=
  creds ← client_creds;
  match creds with
  | None => mret 0
  | Some (user, pass) =>
      let ub1 := u8 (Z.of_nat (length user)) in
      let ub2 := u8 (Z.of_nat (length pass)) in
      u ← plift (mem_read user 0 ub1);
      p ← plift (mem_read pass 0 ub2);
      fd ← get_base sk_fd;
      res ← call (Send fd (HEV_SOCKS5_AUTH_VERSION_1 :: ub1 :: u ++ ub2 :: p));
      if decide (ret res ≤ 0) then mret (-1) else mret 0
  end.

(** The command of the request, by the type of the client. *)
Definition request_cmd (ty : Z) : option Z :=
  if decide (ty = HEV_SOCKS5_TYPE_TCP) then Some HEV_SOCKS5_REQ_CMD_CONNECT
  else if decide (ty = HEV_SOCKS5_TYPE_UDP_IN_TCP) then Some HEV_SOCKS5_REQ_CMD_FWD_UDP
  else if decide (ty = HEV_SOCKS5_TYPE_UDP_IN_UDP) then Some HEV_SOCKS5_REQ_CMD_UDP_ASC
  else None.

Definition hev_socks5_client_write_request : P C Z :=
  ty ← get_base sk_type;
  match request_cmd ty with
  | None => mret (-1)
  | Some cmd =>
      addr ← get_upstream_addr;
      addr ← plift addr;
      addrlen ← plift (hev_socks5_addr_len addr);
      if decide (addrlen < 0) then mret (-1)
      else
        bs ← plift (mem_read addr 0 addrlen);
        fd ← get_base sk_fd;
        res ← call (Send fd (HEV_SOCKS5_VERSION_5 :: cmd :: 0 :: bs));
        if decide (ret res ≤ 0) then mret (-1)
        else call Free;; mret 0
  end.

Definition hev_socks5_client_read_auth_method : P C Z :=
  fd ← get_base sk_fd;
  res ← call (Recv fd 2);
  if decide (ret res ≠ 2) then mret (-1)
  else
    ver ← plift (mem_get (data res) 0);
    if decide (ver ≠ HEV_SOCKS5_VERSION_5) then mret (-1)
    else plift (mem_get (data res) 1).

Definition hev_socks5_client_read_auth_creds : P C Z :=
  fd ← get_base sk_fd;
  res ← call (Recv fd 2);
  if decide (ret res ≠ 2) then mret (-1)
  else
    ver ← plift (mem_get (data res) 0);
    if decide (ver ≠ HEV_SOCKS5_AUTH_VERSION_1) then mret (-1)
    else
      rep ← plift (mem_get (data res) 1);
      if decide (rep ≠ HEV_SOCKS5_RES_REP_SUCC) then mret (-1) else mret 0.

Definition hev_socks5_client_read_response : P C Z :=
  fd ← get_base sk_fd;
  res ← call (Recv fd 4);
  if decide (ret res ≠ 4) then mret (-1)
  else
    ver ← plift (mem_get (data res) 0);
    if decide (ver ≠ HEV_SOCKS5_VERSION_5) then mret (-1)
    else
      rep ← plift (mem_get (data res) 1);
      if decide (rep ≠ HEV_SOCKS5_RES_REP_SUCC) then mret (-1)
      else
        atype ← plift (mem_get (data res) 3);
        let addrlen := if decide (atype = HEV_SOCKS5_ADDR_TYPE_IPV4) then 6
                       else if decide (atype = HEV_SOCKS5_ADDR_TYPE_IPV6) then 18 else -1 in
        if decide (addrlen < 0) then mret (-1)
        else
          res ← call (Recv fd addrlen);
          if decide (ret res ≠ addrlen) then mret (-1)
          else
            addr ← plift (mem_write frame 0 (atype :: data res));
            r ← set_upstream_addr addr;
            if decide (r < 0) then mret (-1) else mret 0.

Definition hev_socks5_client_connect (addr : list Z) (port : Z) : P C Z :=
  upd_base (hev_socks5_set_timeout (hev_socks5_get_connect_timeout g));;
  addr_family ← get_base hev_socks5_get_addr_family;
  '(res, saddr, addr_family) ←
    hev_socks5_name_into_sockaddr6 inet_pton4 inet_pton6 addr port zero_sockaddr addr_family;
  if decide (res < 0) then mret (-1)
  else
    fd ← hev_socks5_socket g SOCK_STREAM;
    if decide (fd < 0) then mret (-1)
    else
      res ← bind_connect fd saddr;
      if decide (res < 0) then mret (-1)
      else
        upd_base (set_sk_fd fd);;
        upd_base (hev_socks5_set_addr_family addr_family);;
        mret 0.

(** The method the server chose: [creds] runs for the user method. *)
Definition after_method (creds : P C Z) (res : Z) : P C Z :=
  if decide (res < 0) then mret (-1)
  else if decide (res = HEV_SOCKS5_AUTH_METHOD_USER) then creds
  else if decide (res ≠ HEV_SOCKS5_AUTH_METHOD_NONE) then mret (-1) else mret 0.

(** [if (res < 0) return -1;] and go on. *)
Definition ok_then (m : P C Z) (k : P C Z) : P C Z :=
  res ← m; if decide (res < 0) then mret (-1) else k.

Definition hev_socks5_client_handshake_standard : P C Z :=
  ok_then hev_socks5_client_write_auth_methods (
  ok_then
    (method ← hev_socks5_client_read_auth_method;
     after_method (ok_then hev_socks5_client_write_auth_creds hev_socks5_client_read_auth_creds) method) (
  ok_then hev_socks5_client_write_request (
  ok_then hev_socks5_client_read_response (mret 0)))).

Definition hev_socks5_client_handshake_pipeline : P C Z :=
  ok_then hev_socks5_client_write_auth_methods (
  ok_then hev_socks5_client_write_auth_creds (
  ok_then hev_socks5_client_write_request (
  ok_then
    (method ← hev_socks5_client_read_auth_method;
     after_method hev_socks5_client_read_auth_creds method) (
  ok_then hev_socks5_client_read_response (mret 0))))).

Definition hev_socks5_client_handshake (pipeline : bool) : P C Z :=
  upd_base (hev_socks5_set_timeout (hev_socks5_get_tcp_timeout g));;
  res ← (if pipeline then hev_socks5_client_handshake_pipeline
         else hev_socks5_client_handshake_standard);
  ty ← get_base sk_type;
  (if decide (ty = HEV_SOCKS5_TYPE_UDP_IN_TCP ∨ ty = HEV_SOCKS5_TYPE_UDP_IN_UDP)
   then upd_base (hev_socks5_set_timeout (hev_socks5_get_udp_timeout g)) else mret tt);;
  mret res.
End Program.

(** ** The TCP client *)

Record HevSocks5ClientTCP := mkClientTCP {
  tcp_client : HevSocks5Client;
  tcp_addr : option (list Z);
}.

Definition set_tcp_client (cl : HevSocks5Client) (c : HevSocks5ClientTCP) : HevSocks5ClientTCP :=
  mkClientTCP cl (tcp_addr c).

Definition hev_socks5_client_tcp_get_upstream_addr : P HevSocks5ClientTCP (option (list Z)) :=
  addr ← pgets tcp_addr;
  pmod (λ c, mkClientTCP (tcp_client c) None);;
  mret addr.

Definition hev_socks5_client_tcp_set_upstream_addr (addr : list Z) : P HevSocks5ClientTCP Z := mret 0.

(** [hev_socks5_client_tcp_construct]: the address is copied to the heap. *)
Definition hev_socks5_client_tcp_construct {S} (addr : list Z) : P S (HevSocks5ClientTCP * Z) :=
  let base := hev_socks5_client_construct HEV_SOCKS5_TYPE_TCP in
  res ← plift (hev_socks5_addr_len addr);
  r ← call (Malloc res);
  if decide (ret r = NULL) then mret (mkClientTCP base None, -1)
  else
    b ← plift (mem_read addr 0 res);
    mret (mkClientTCP base (Some b), 0).

(** [hev_socks5_client_tcp_new_*], for an address the caller's codec wrote
    into the uninitialised [HevSocks5Addr] of the frame. *)
Definition client_tcp_new {S} (addr : option (Z * list Z)) : P S (option HevSocks5ClientTCP) :=
  r ← call (Malloc 0);
  if decide (ret r = NULL) then mret None
  else
    '(_, addr) ← plift addr;
    '(self, res) ← hev_socks5_client_tcp_construct addr;
    if decide (res < 0) then call Free;; mret None else mret (Some self).

Definition hev_socks5_client_tcp_new_name {S} (frame name : list Z) (port : Z) :
    P S (option HevSocks5ClientTCP) := client_tcp_new (hev_socks5_addr_from_name frame name port).
Definition hev_socks5_client_tcp_new_ipv4 {S} (frame ipv4 : list Z) (port : Z) :
    P S (option HevSocks5ClientTCP) := client_tcp_new (hev_socks5_addr_from_ipv4 frame ipv4 port).
Definition hev_socks5_client_tcp_new_ipv6 {S} (frame ipv6 : list Z) (port : Z) :
    P S (option HevSocks5ClientTCP) := client_tcp_new (hev_socks5_addr_from_ipv6 frame ipv6 port).

#[export] Instance tcp_object : Socks5Object HevSocks5ClientTCP := {|
  base c := cl_base (tcp_client c);
  set_base b c := set_tcp_client (mkClient b (auth_user (tcp_client c)) (auth_pass (tcp_client c))) c;
  binder := hev_socks5_bind;
  base_set_base b c := eq_refl;
|}.

#[export] Instance tcp_is_client : Socks5Client HevSocks5ClientTCP := {|
  client := tcp_client;
  set_client := set_tcp_client;
  get_upstream_addr := hev_socks5_client_tcp_get_upstream_addr;
  set_upstream_addr := hev_socks5_client_tcp_set_upstream_addr;
  base_client c := eq_refl;
  set_base_client b c := eq_refl;
|}.

Definition hev_socks5_client_tcp_destruct : P HevSocks5ClientTCP unit :=
  addr ← pgets tcp_addr;
  (match addr with Some _ => call Free;; mret tt | None => mret tt end);;
  hev_socks5_client_destruct.

(** ** The UDP client *)

Record HevSocks5ClientUDP := mkClientUDP {
  udp_client : HevSocks5Client;
  udp_fd : Z;
}.

Definition set_udp_client (cl : HevSocks5Client) (c : HevSocks5ClientUDP) : HevSocks5ClientUDP :=
  mkClientUDP cl (udp_fd c).

#[export] Instance udp_object : Socks5Object HevSocks5ClientUDP := {|
  base c := cl_base (udp_client c);
  set_base b c := set_udp_client (mkClient b (auth_user (udp_client c)) (auth_pass (udp_client c))) c;
  binder := hev_socks5_bind;
  base_set_base b c := eq_refl;
|}.

Definition hev_socks5_client_udp_get_upstream_addr : P HevSocks5ClientUDP (option (list Z)) :=
  family ← get_base hev_socks5_get_addr_family;
  if decide (family = AF_INET) then
    r ← call (Malloc 7);
    mret (if decide (ret r = NULL) then None else Some (HEV_SOCKS5_ADDR_TYPE_IPV4 :: replicate 6 0))
  else if decide (family = AF_INET6) then
    r ← call (Malloc 19);
    mret (if decide (ret r = NULL) then None else Some (HEV_SOCKS5_ADDR_TYPE_IPV6 :: replicate 18 0))
  else mret None.

Section UDP.
Context (inet_pton4 inet_pton6 : list Z → option (list Z)).
Context (g : misc).

(** [bnd] is the [binder] of the class of the object. *)
Definition hev_socks5_client_udp_set_upstream_addr (bnd : Z → sockaddr_in6 → P HevSocks5ClientUDP Z)
    (addr : list Z) : P HevSocks5ClientUDP Z :=
  ty ← get_base sk_type;
  if decide (ty ≠ HEV_SOCKS5_TYPE_UDP_IN_UDP) then mret 0
  else
    addr_family ← get_base hev_socks5_get_addr_family;
    '(res, saddr, addr_family) ←
      hev_socks5_addr_into_sockaddr6 inet_pton4 inet_pton6 addr zero_sockaddr addr_family;
    if decide (res < 0) then mret (-1)
    else
      fd ← hev_socks5_socket g SOCK_DGRAM;
      if decide (fd < 0) then mret (-1)
      else
        res ← bind_connect_with bnd fd saddr;
        if decide (res < 0) then mret (-1)
        else
          upd_base (set_sk_udp_associated 1);;
          pmod (λ c, mkClientUDP (udp_client c) fd);;
          mret 0.

#[export] Instance udp_is_client : Socks5Client HevSocks5ClientUDP := {|
  client := udp_client;
  set_client := set_udp_client;
  get_upstream_addr := hev_socks5_client_udp_get_upstream_addr;
  set_upstream_addr := hev_socks5_client_udp_set_upstream_addr hev_socks5_bind;
  base_client c := eq_refl;
  set_base_client b c := eq_refl;
|}.
End UDP.

Definition hev_socks5_client_udp_get_fd : P HevSocks5ClientUDP Z :=
  ty ← get_base sk_type;
  if decide (ty = HEV_SOCKS5_TYPE_UDP_IN_TCP) then get_base sk_fd
  else if decide (ty = HEV_SOCKS5_TYPE_UDP_IN_UDP) then pgets udp_fd
  else mret (-1).

Definition hev_socks5_client_udp_construct (ty : Z) : HevSocks5ClientUDP :=
  mkClientUDP (hev_socks5_client_construct ty) (-1).

Definition hev_socks5_client_udp_new {S} (ty : Z) : P S (option HevSocks5ClientUDP) :=
  r ← call (Malloc 0);
  mret (if decide (ret r = NULL) then None else Some (hev_socks5_client_udp_construct ty)).

Definition hev_socks5_client_udp_destruct : P HevSocks5ClientUDP unit :=
  fd ← pgets udp_fd;
  (if decide (0 ≤ fd) then del_close fd else mret tt);;
  hev_socks5_client_destruct.
