(* ===== verification/ClientProps.v ===== *)
(** * Properties of the clients

    Against any server, a handshake ends without undefined behaviour, that of
    the UDP client while the allocator does not fail, returns 0 only after a
    well-formed conversation, and a failed connect leaves no
    descriptor open.  The proofs are against the interface of the client
    class: what its two virtual methods promise. *)

From S2P Require Import Prelude Buffer IO Addr Socks5 Client.

(** ** Bytes of an address *)

Lemma le16_of_bytes b0 b1 : byte_ok b0 → byte_ok b1 →
  ∃ p, [b0; b1] = le16 p ∧ 0 ≤ p < 65536.
Proof.
  intros H0 H1. exists (256 * b1 + b0). unfold le16. rewrite u8_lo, u8_hi by done.
  split; [done | unfold byte_ok in *; lia].
Qed.

Lemma wire_of_v4 bs : bytes_ok bs → length bs = 6%nat →
  ∃ a, HEV_SOCKS5_ADDR_TYPE_IPV4 :: bs = wire a ∧ address_ok a.
Proof.
  intros Hb Hl. do 6 (destruct bs as [|? bs]; [done |]). destruct bs; [|done].
  repeat match goal with H : bytes_ok (_ :: _) |- _ => apply Forall_cons in H as [? H] end.
  destruct (le16_of_bytes z3 z4) as (p & E & Hp); [done.. |].
  exists (A4 [z; z0; z1; z2] p). cbn [wire app]. rewrite <-E. split; [done |].
  split; [done |]. split; [|lia]. by rewrite !Forall_cons, Forall_nil.
Qed.

Lemma wire_of_v6 bs : bytes_ok bs → length bs = 18%nat →
  ∃ a, HEV_SOCKS5_ADDR_TYPE_IPV6 :: bs = wire a ∧ address_ok a.
Proof.
  intros Hb Hl. destruct (block_split bs 16) as (ip & tl & -> & Hip); [lia |].
  rewrite length_app in Hl. destruct tl as [|b0 [|b1 [|? ?]]]; cbn in Hl; try lia.
  apply Forall_app in Hb as [Hb1 Hb2].
  repeat match goal with H : Forall _ (_ :: _) |- _ => apply Forall_cons in H as [? H] end.
  destruct (le16_of_bytes b0 b1) as (p & E & Hp); [done.. |].
  exists (A6 ip p). cbn [wire]. rewrite <-E. done.
Qed.

(** A receive that returned [n > 0] stored [n] bytes. *)
Lemma valid_recv fd n x : valid (Recv fd n) x → 0 < n → ret x = n →
  Z.of_nat (length (data x)) = n ∧ bytes_ok (data x).
Proof. intros (Hb & [[H1 H2] | [H1 H2]]) Hn Hr; [split; [lia | done] | lia]. Qed.

(** A two byte message. *)
Lemma recv2 fd x : valid (Recv fd 2) x → ret x = 2 →
  ∃ b0 b1, data x = [b0; b1] ∧ byte_ok b0 ∧ byte_ok b1.
Proof.
  intros Hv Hr. destruct (valid_recv _ _ _ Hv) as [Hl Hb]; [lia | done |].
  destruct (data x) as [|b0 [|b1 [|? ?]]]; cbn in Hl; try lia.
  repeat match goal with H : bytes_ok (_ :: _) |- _ => apply Forall_cons in H as [? H] end. eauto.
Qed.

(** ** The steps of the handshake *)

(** What a client keeps through a handshake. *)
Definition kept {C} `{!Socks5Client C} (c c' : C) : Prop :=
  sk_fd (base c') = sk_fd (base c) ∧ sk_type (base c') = sk_type (base c) ∧
  auth_user (client c') = auth_user (client c) ∧ auth_pass (client c') = auth_pass (client c).

Section Steps.
(** [U] says where a run may go wrong: a trace of which an end satisfies it
    satisfies it. *)
Context (U : list (ev * resp) → Prop) (HU : ∀ t1 t2, U t2 → U (t1 ++ t2)).
Context (g : misc) (frame : list Z) (Hframe : length frame = SIZEOF_ADDR).
Context {C : Type} `{!Socks5Client C}.
Implicit Types c : C.

Abbreviation fd_of c := (sk_fd (base c)).

#[global] Instance kept_refl : Reflexive (@kept C _).
Proof. done. Qed.
#[global] Instance kept_trans : Transitive (@kept C _).
Proof. intros c1 c2 c3 (? & ? & ? & ?) (? & ? & ? & ?). split_and!; congruence. Qed.

(** The credentials of a client, and what it sends for them. *)
Definition creds_of c : option (list Z * list Z) :=
  match auth_user (client c), auth_pass (client c) with
  | Some u, Some p => Some (u, p)
  | _, _ => None
  end.

Definition methods_bytes c : list Z :=
  [5; 1; match creds_of c with None => 0 | Some _ => 2 end].

Definition creds_bytes c : list Z :=
  match creds_of c with
  | None => []
  | Some (u, p) =>
      let n := u8 (Z.of_nat (length u)) in
      let k := u8 (Z.of_nat (length p)) in
      1 :: n :: take (Z.to_nat n) u ++ k :: take (Z.to_nat k) p
  end.

Definition request_bytes c (a : address) : list Z := 5 :: default 0 (request_cmd (sk_type (base c))) :: 0 :: wire a.

Lemma kept_bytes c c' a : kept c c' →
  methods_bytes c' = methods_bytes c ∧ creds_bytes c' = creds_bytes c ∧ request_bytes c' a = request_bytes c a.
Proof.
  intros (_ & Ht & Hu & Hp). unfold methods_bytes, creds_bytes, request_bytes, creds_of. by rewrite Ht, Hu, Hp.
Qed.

(** A step sent [s] and received [r] if it returned 0 or more. *)
Definition step_ok c (s r : list Z) (res : Z) c' (tr : list (ev * resp)) : Prop :=
  kept c c' ∧ (0 ≤ res → sent (fd_of c) tr = s ∧ rcvd (fd_of c) tr = r).

Lemma write_auth_methods_spec c :
  wp False (hev_socks5_client_write_auth_methods c) (λ r tr,
    r.2 = c ∧ r.1 ≤ 0 ∧ step_ok c (methods_bytes c) [] r.1 r.2 tr).
Proof.
  unfold hev_socks5_client_write_auth_methods, client_creds, get_base. rewrite !pgets_bind.
  apply wp_call. intros x _. case_decide; cbn; (split; [done |]); (split; [lia |]); split; try done; intros; try lia.
  unfold sent, rcvd. cbn. rewrite decide_True by done. rewrite app_nil_r.
  unfold methods_bytes, creds_of. by destruct (auth_user (client c)), (auth_pass (client c)).
Qed.

Lemma write_auth_creds_spec c :
  wp False (hev_socks5_client_write_auth_creds c) (λ r tr,
    r.2 = c ∧ r.1 ≤ 0 ∧ step_ok c (creds_bytes c) [] r.1 r.2 tr).
Proof.
  unfold hev_socks5_client_write_auth_creds, client_creds, get_base. rewrite pgets_bind.
  change (match auth_user (client c), auth_pass (client c) with Some u, Some p => Some (u, p) | _, _ => None end)
    with (creds_of c).
  destruct (creds_of c) as [[u p]|] eqn:Hc.
  - cbv zeta. pose proof (u8_range (Z.of_nat (length u))). pose proof (u8_le (length u)).
    pose proof (u8_range (Z.of_nat (length p))). pose proof (u8_le (length p)). unfold byte_ok in *.
    eapply wp_lift; [apply mem_read_prefix; lia |]. eapply wp_lift; [apply mem_read_prefix; lia |].
    rewrite pgets_bind. apply wp_call. intros x _.
    case_decide; cbn; (split; [done |]); (split; [lia |]); split; try done; intros; try lia.
    unfold sent, rcvd, creds_bytes. rewrite Hc. cbn. rewrite decide_True by done. by rewrite app_nil_r.
  - cbn. split; [done |]. split; [done |]. split; [done |]. intros _. unfold creds_bytes. by rewrite Hc.
Qed.

Lemma read_auth_method_spec c :
  wp False (hev_socks5_client_read_auth_method c) (λ r tr, r.2 = c ∧ step_ok c [] [5; r.1] r.1 r.2 tr).
Proof.
  unfold hev_socks5_client_read_auth_method, get_base. rewrite pgets_bind.
  apply wp_call. intros x Hx. case_decide as Hr; [cbn; split; [done |]; split; [done | lia] |].
  destruct (recv2 _ _ Hx) as (b0 & b1 & E & H0 & H1); [lia |]. rewrite E.
  eapply wp_lift; [reflexivity |]. case_decide as Hv; cbn; (split; [done |]); (split; [done |]); [lia |].
  intros _. unfold sent, rcvd. cbn. rewrite decide_True by done. rewrite E. cbn.
  split; [done |]. f_equal. unfold HEV_SOCKS5_VERSION_5 in Hv. lia.
Qed.

Lemma read_auth_creds_spec c :
  wp False (hev_socks5_client_read_auth_creds c) (λ r tr, r.2 = c ∧ r.1 ≤ 0 ∧ step_ok c [] [1; 0] r.1 r.2 tr).
Proof.
  unfold hev_socks5_client_read_auth_creds, get_base. rewrite pgets_bind.
  apply wp_call. intros x Hx. case_decide as Hr; [cbn; split; [done |]; split; [lia |]; split; [done | lia] |].
  destruct (recv2 _ _ Hx) as (b0 & b1 & E & H0 & H1); [lia |]. rewrite E.
  eapply wp_lift; [reflexivity |]. case_decide as Hv; [cbn; split; [done |]; split; [lia |]; split; [done | lia] |].
  eapply wp_lift; [reflexivity |]. case_decide as Hp; cbn; (split; [done |]); (split; [lia |]); (split; [done |]); [lia |].
  intros _. unfold sent, rcvd. cbn. rewrite decide_True by done. rewrite E. cbn.
  unfold HEV_SOCKS5_AUTH_VERSION_1, HEV_SOCKS5_RES_REP_SUCC in *.
  split; [done |]. repeat f_equal; lia.
Qed.

(** ** The handshake against the virtual methods *)

Context (a : address) (Ha : address_ok a).
(** [get_upstream_addr] yields the address, once, or no address in a run that
    may go wrong; [set_upstream_addr] accepts any well-formed address. *)
Context (ready : C → Prop).
Context (ready_kept : ∀ t c, ready c → ready (set_base (hev_socks5_set_timeout t (base c)) c)).

Definition upstream_post c (o : option (list Z)) c' (tr : list (ev * resp)) : Prop :=
  match o with Some blk => ∃ rest, blk = wire a ++ rest | None => U tr end ∧ kept c c' ∧
  sent (fd_of c) tr = [] ∧ rcvd (fd_of c) tr = [].

Context (get_upstream_spec : ∀ c, ready c →
  wpu U (get_upstream_addr c) (λ r tr, upstream_post c r.1 r.2 tr)).
Context (set_upstream_spec : ∀ c b blk, address_ok b → (∃ rest, blk = wire b ++ rest) → length blk = SIZEOF_ADDR →
  wp False (set_upstream_addr blk c) (λ r tr, kept c r.2 ∧
    sent (fd_of c) tr = [] ∧ rcvd (fd_of c) tr = [])).

Lemma write_request_spec c : ready c →
  wpu U (hev_socks5_client_write_request c) (λ r tr, r.1 ≤ 0 ∧ step_ok c (request_bytes c a) [] r.1 r.2 tr).
Proof.
  intros Hc. unfold hev_socks5_client_write_request, get_base. rewrite pgets_bind. unfold request_bytes.
  destruct (request_cmd _) as [cmd|]; [|cbn; split; [lia |]; split; [done | lia]].
  eapply wpu_then; [by apply get_upstream_spec |].
  intros o c1 t1 (Ho & Hk & Hs & Hr). cbn [fst snd] in *. destruct o as [blk|].
  2: { unfold mbind, P_bind, plift. cbn. by rewrite app_nil_r. }
  destruct Ho as [rest ->]. apply wpu_of_wp.
  eapply wp_lift; [reflexivity |]. eapply wp_lift; [by apply addr_len_wire |].
  rewrite decide_False by lia.
  eapply wp_lift; [apply (mem_read_at [] (wire a) rest); reflexivity |].
  rewrite pgets_bind. apply wp_call. intros x _.
  assert (fd_of c1 = fd_of c) as Hfd by apply Hk.
  case_decide; cbn; [split; [lia |]; split; [done | lia] |].
  intros y _. cbn. split; [lia |]. split; [done |]. intros _.
  rewrite sent_app, rcvd_app, Hs, Hr. unfold sent, rcvd. cbn. rewrite decide_True by done.
  by rewrite app_nil_r.
Qed.

(** The replies a client accepts. *)
Definition good_response (r : list Z) : Prop :=
  ∃ rsv b, r = 5 :: 0 :: rsv :: wire b ∧ address_ok b ∧ ∀ n p, b ≠ AName n p.

Lemma frame_write b : (∃ bs t, b = t :: bs ∧ (length bs < 260)%nat) →
  ∃ rest, mem_write frame 0 b = Some (b ++ rest) ∧ length (b ++ rest) = SIZEOF_ADDR.
Proof.
  intros (bs & t & -> & Hl).
  unfold SIZEOF_ADDR in Hframe.
  destruct (block_split frame (length (t :: bs))) as (x & y & E & Hx); [cbn; lia |].
  exists y. rewrite E. pose proof (mem_write_at [] x (t :: bs) y 0 eq_refl Hx) as Hw.
  split; [exact Hw |].
  rewrite length_app, <-Hx, <-length_app, <-E. done.
Qed.

Lemma read_response_spec c :
  wp False (hev_socks5_client_read_response frame c) (λ r tr,
    r.1 ≤ 0 ∧ ∃ resp, step_ok c [] resp r.1 r.2 tr ∧ (0 ≤ r.1 → good_response resp)).
Proof.
  assert (∀ c' tr, kept c c' → -1 ≤ 0 ∧ ∃ resp, step_ok c [] resp (-1) c' tr ∧ (0 ≤ -1 → good_response resp)) as Hfail.
  { intros c' tr Hk. split; [lia |]. exists []. split; [split; [done | lia] | lia]. }
  unfold hev_socks5_client_read_response, get_base. rewrite pgets_bind.
  apply wp_call. intros x Hx. case_decide as Hr; [by apply Hfail |].
  destruct (valid_recv _ _ _ Hx) as [Hl Hb]; [lia.. |].
  destruct (data x) as [|v [|rep [|rsv [|at_ [|? ?]]]]] eqn:Ex; cbn in Hl; try lia.
  do 4 apply Forall_cons in Hb as [? Hb].
  eapply wp_lift; [reflexivity |]. case_decide as Hv; [by apply Hfail |].
  eapply wp_lift; [reflexivity |]. case_decide as Hrep; [by apply Hfail |].
  eapply wp_lift; [reflexivity |]. cbv zeta.
  destruct (decide (at_ = HEV_SOCKS5_ADDR_TYPE_IPV4 ∨ at_ = HEV_SOCKS5_ADDR_TYPE_IPV6)) as [Hat | Hat].
  2: { rewrite !(decide_False (P := at_ = _)) by tauto. rewrite decide_True by lia. by apply Hfail. }
  set (n := if decide (at_ = HEV_SOCKS5_ADDR_TYPE_IPV4) then 6 else if decide (at_ = HEV_SOCKS5_ADDR_TYPE_IPV6) then 18 else -1).
  assert (n = 6 ∨ n = 18) as Hn by (unfold n; repeat case_decide; tauto).
  rewrite decide_False by lia. apply wp_call. intros y Hy. case_decide as Hr2; [by apply Hfail |].
  destruct (valid_recv _ _ _ Hy) as [Hl2 Hb2]; [lia.. |].
  assert (∃ b, at_ :: data y = wire b ∧ address_ok b ∧ ∀ nm p, b ≠ AName nm p) as (b & Hw & Hok & Hnn).
  { destruct Hat as [-> | ->]; [change n with 6 in Hl2 | change n with 18 in Hl2].
    - destruct (wire_of_v4 (data y)) as (b & E & ?); [done | lia |]. exists b. split_and!; [done..|]. by intros ? ? ->.
    - destruct (wire_of_v6 (data y)) as (b & E & ?); [done | lia |]. exists b. split_and!; [done..|]. by intros ? ? ->. }
  destruct (frame_write (at_ :: data y)) as (rest & Ew & Hlen); [exists (data y), at_; split; [done | lia] |].
  eapply wp_lift; [exact Ew |]. rewrite Hw in Hlen |- *.
  eapply (wp_seq _ _ _ _ (λ r c' tr, kept c c' ∧ sent (fd_of c) tr = [] ∧ rcvd (fd_of c) tr = [])).
  { eapply set_upstream_spec; eauto. }
  intros r c1 t1 (Hk & Hs & Hrc). case_decide; [by apply Hfail |].
  cbn. split; [lia |]. exists (data x ++ data y). split; [split; [done |]; intros _ |].
  - unfold sent, rcvd in *. cbn. rewrite !decide_True by done. rewrite app_nil_r, Hs, Hrc.
    by rewrite app_nil_r.
  - intros _. exists rsv, b. split; [|done]. rewrite <-Hw, Ex. cbn. unfold HEV_SOCKS5_VERSION_5, HEV_SOCKS5_RES_REP_SUCC in *.
    repeat f_equal; lia.
Qed.
(** ** Composition *)

(** A part that ended with 0 or more reached a state and had a conversation
    that satisfy [Q]. *)
Definition talk c (Q : Z → C → list Z → list Z → Prop) (r : Z * C) (tr : list (ev * resp)) : Prop :=
  kept c r.2 ∧ (0 ≤ r.1 → Q r.1 r.2 (sent (fd_of c) tr) (rcvd (fd_of c) tr)).

Lemma talk_seq {A} c (m : P C A) (f : A → P C Z) (R : A → C → list Z → list Z → Prop) Q :
  wpu U (m c) (λ r tr, kept c r.2 ∧ R r.1 r.2 (sent (fd_of c) tr) (rcvd (fd_of c) tr)) →
  (∀ v c1 s1 r1, kept c c1 → R v c1 s1 r1 →
    wpu U (f v c1) (talk c1 (λ res c2 s2 r2, Q res c2 (s1 ++ s2) (r1 ++ r2)))) →
  wpu U ((m ≫= f) c) (talk c Q).
Proof.
  intros Hm Hf. eapply wpu_then; [exact Hm |]. intros v c1 t1 [Hk HR]. cbn [fst snd] in *.
  eapply wpu_mono; [by apply (Hf _ _ _ _ Hk HR) | apply HU |].
  intros [res c2] t2 [Hk2 HQ]. split; [by etrans |]. cbn in *. intros Hres.
  assert (fd_of c1 = fd_of c) as Hfd by apply Hk. rewrite Hfd in HQ. rewrite sent_app, rcvd_app. by apply HQ.
Qed.

Lemma talk_ok_then c (m k : P C Z) Q1 Q :
  wpu U (m c) (talk c Q1) →
  (∀ v c1 s1 r1, kept c c1 → 0 ≤ v → Q1 v c1 s1 r1 →
    wpu U (k c1) (talk c1 (λ res c2 s2 r2, Q res c2 (s1 ++ s2) (r1 ++ r2)))) →
  wpu U (ok_then m k c) (talk c Q).
Proof.
  intros Hm Hk. unfold ok_then.
  eapply (talk_seq _ _ _ (λ v c1 s r, 0 ≤ v → Q1 v c1 s r)).
  - eapply wpu_mono; [exact Hm | done |]. intros [v c1] tr [? ?]. done.
  - intros v c1 s1 r1 Hk1 HR. case_decide; [split; [done | cbn; lia] |].
    apply (Hk v); [done | lia | apply HR; lia].
Qed.

(** The steps in this form. *)
Lemma write_methods_talk c :
  wpu U (hev_socks5_client_write_auth_methods c)
    (talk c (λ res c' s r, c' = c ∧ s = methods_bytes c ∧ r = [])).
Proof. eapply wpu_mono; [apply wpu_of_wp, write_auth_methods_spec | done |]. intros [] ? (? & ? & ? & Hs). split; [done |]. intros Hr%Hs. naive_solver. Qed.

Lemma write_creds_talk c :
  wpu U (hev_socks5_client_write_auth_creds c)
    (talk c (λ res c' s r, c' = c ∧ s = creds_bytes c ∧ r = [])).
Proof. eapply wpu_mono; [apply wpu_of_wp, write_auth_creds_spec | done |]. intros [] ? (? & ? & ? & Hs). split; [done |]. intros Hr%Hs. naive_solver. Qed.

Lemma read_creds_talk c :
  wpu U (hev_socks5_client_read_auth_creds c) (talk c (λ res c' s r, c' = c ∧ s = [] ∧ r = [1; 0])).
Proof. eapply wpu_mono; [apply wpu_of_wp, read_auth_creds_spec | done |]. intros [] ? (? & ? & ? & Hs). split; [done |]. intros Hr%Hs. naive_solver. Qed.

Lemma write_request_talk c : ready c →
  wpu U (hev_socks5_client_write_request c) (talk c (λ res c' s r, s = request_bytes c a ∧ r = [])).
Proof. intros Hc. eapply wpu_mono; [by apply write_request_spec | done |]. intros [] ? (? & ? & Hs). split; [done |]. intros Hr%Hs. done. Qed.

Lemma read_response_talk c :
  wpu U (hev_socks5_client_read_response frame c) (talk c (λ res c' s r, res = 0 ∧ s = [] ∧ good_response r)).
Proof.
  eapply wpu_mono; [by apply wpu_of_wp, read_response_spec | done |]. intros [] ? (? & resp & [? Hs] & Hg).
  split; [done |]. cbn in *. intros H'. destruct (Hs H') as [-> ->]. split_and!; [lia | done | by apply Hg].
Qed.

(** The choice of a method: [creds] sends [s] and receives the verdict. *)
Lemma after_method_talk c (creds : P C Z) s :
  wpu U (creds c) (talk c (λ _ c' s' r', c' = c ∧ s' = s ∧ r' = [1; 0])) →
  wpu U ((hev_socks5_client_read_auth_method ≫= after_method creds) c)
    (talk c (λ res c' s' r', c' = c ∧ ∃ method, (method = 0 ∨ method = 2) ∧
       s' = (if decide (method = 2) then s else []) ∧
       r' = [5; method] ++ (if decide (method = 2) then [1; 0] else []))).
Proof.
  intros Hc. eapply (talk_seq _ _ _ (λ m c1 s1 r1, c1 = c ∧ (0 ≤ m → s1 = [] ∧ r1 = [5; m]))).
  - eapply wpu_mono; [apply wpu_of_wp, read_auth_method_spec | done |]. intros [m c1] tr (? & ? & Hs). done.
  - intros m c1 s1 r1 _ [-> Hm]. unfold after_method. case_decide; [split; [done | cbn; lia] |].
    destruct Hm as [-> ->]; [lia |]. unfold HEV_SOCKS5_AUTH_METHOD_USER, HEV_SOCKS5_AUTH_METHOD_NONE.
    destruct (decide (m = 2)) as [-> | Hm2].
    + eapply wpu_mono; [exact Hc | done |]. intros [res c2] tr [? HQ]. split; [done |]. intros Hres.
      destruct (HQ Hres) as (-> & -> & ->). split; [done |]. exists 2. split_and!; [by right | done..].
    + case_decide as Hm0; [split; [done | cbn; lia] |]. cbn. split; [done |]. intros _.
      split; [done |]. exists m. rewrite !decide_False by done. cbn. split_and!; [left; lia | done..].
Qed.

(** The whole conversation of a handshake that returned 0: what was sent, and
    what was received. *)
Definition conversation (pipeline : bool) c (s r : list Z) : Prop :=
  ∃ method resp, (method = 0 ∨ method = 2) ∧ good_response resp ∧
    r = [5; method] ++ (if decide (method = 2) then [1; 0] else []) ++ resp ∧
    s = methods_bytes c ++ (if decide (pipeline ∨ method = 2) then creds_bytes c else []) ++ request_bytes c a.

Lemma standard_talk c : ready c →
  wpu U (hev_socks5_client_handshake_standard frame c)
    (talk c (λ res c' s r, res = 0 ∧ conversation false c s r)).
Proof.
  intros Hc. eapply talk_ok_then; [apply write_methods_talk |].
  intros a1 c1 s1 r1 _ _ (-> & -> & ->).
  eapply talk_ok_then; [eapply (after_method_talk c _ (creds_bytes c)) |].
  { eapply talk_ok_then; [apply write_creds_talk |]. intros a2 c2 s2 r2 _ _ (-> & -> & ->).
    eapply wpu_mono; [apply read_creds_talk | done |]. intros [] tr [? HQ]. split; [done |]. intros Hr%HQ.
    destruct Hr as (-> & -> & ->). by rewrite app_nil_r. }
  intros a2 c2 s2 r2 _ _ (-> & method & Hm & -> & ->).
  eapply talk_ok_then; [by apply write_request_talk |]. intros a3 c3 s3 r3 _ _ (-> & ->).
  eapply talk_ok_then; [apply read_response_talk |]. intros a4 c4 s4 r4 _ _ (-> & -> & Hg).
  split; [done |]. intros _. split; [done |]. exists method, r4. rewrite !app_nil_r. cbn [sent rcvd fmap list_fmap concat app].
  rewrite (decide_ext (false ∨ method = 2) (method = 2)) by naive_solver. done.
Qed.

Lemma pipeline_talk c : ready c →
  wpu U (hev_socks5_client_handshake_pipeline frame c)
    (talk c (λ res c' s r, res = 0 ∧ conversation true c s r)).
Proof.
  intros Hc. eapply talk_ok_then; [apply write_methods_talk |].
  intros a1 c1 s1 r1 _ _ (-> & -> & ->).
  eapply talk_ok_then; [apply write_creds_talk |]. intros a2 c2 s2 r2 _ _ (-> & -> & ->).
  eapply talk_ok_then; [by apply write_request_talk |]. intros a3 c3 s3 r3 Hk3 _ (-> & ->).
  eapply talk_ok_then; [eapply (after_method_talk c3 _ []); apply read_creds_talk |].
  intros a4 c4 s4 r4 _ _ (-> & method & Hm & -> & ->).
  eapply talk_ok_then; [apply read_response_talk |]. intros a5 c5 s5 r5 _ _ (-> & -> & Hg).
  split; [done |]. intros _. split; [done |]. exists method, r5. rewrite !app_nil_r. cbn [sent rcvd fmap list_fmap concat app].
  rewrite (decide_True (P := true ∨ _)) by (by left). split_and!; [done..|].
  by case_decide; rewrite ?app_nil_r.
Qed.

Lemma kept_timeout c t : kept c (set_base (hev_socks5_set_timeout t (base c)) c).
Proof.
  unfold kept. rewrite base_set_base, set_base_client. unfold hev_socks5_set_timeout. by case_decide.
Qed.

Lemma handshake_talk pipeline c : ready c →
  wpu U (hev_socks5_client_handshake g frame pipeline c)
    (talk c (λ res c' s r, res = 0 ∧ conversation pipeline c s r)).
Proof.
  intros Hc. unfold hev_socks5_client_handshake, upd_base. rewrite pmod_bind.
  set (c1 := set_base _ c). assert (kept c c1) as Hk1 by apply kept_timeout.
  assert (fd_of c1 = fd_of c) as Hfd by apply Hk1.
  eapply wpu_then with (R := talk c1 (λ res c' s r, res = 0 ∧ conversation pipeline c1 s r)).
  { destruct pipeline; [apply pipeline_talk | apply standard_talk]; by apply ready_kept. }
  intros res c2 t1 [Hk2 HQ]. cbn [fst snd] in *. unfold get_base. rewrite pgets_bind.
  assert (0 ≤ res → res = 0 ∧ conversation pipeline c (sent (fd_of c) t1) (rcvd (fd_of c) t1)) as HQ'.
  { intros Hr%HQ. rewrite Hfd in Hr. destruct Hr as [-> (m & resp & Hr)]. split; [done |].
    exists m, resp. destruct (kept_bytes _ _ a Hk1) as (<- & <- & <-). done. }
  case_decide; [rewrite pmod_bind | rewrite pret_bind]; unfold mret, P_ret; cbn [wpu];
    rewrite app_nil_r; (split; [| exact HQ']); cbn.
  - etrans; [exact Hk1 |]. etrans; [exact Hk2 |]. apply kept_timeout.
  - by etrans.
Qed.
End Steps.

(** ** Binding and connecting *)

(** What a [binder] may do: no descriptor opened or closed, no bytes. *)
Definition binder_ok (C : Type) `{Socks5Object C} : Prop :=
  ∀ ub fd sa (c : C), wp ub (binder fd sa c) (λ r tr, r.2 = c ∧ silent tr).

Lemma bind_ok ub {S} fd sa (s : S) :
  wp ub (hev_socks5_bind fd sa s) (λ r tr, r.2 = s ∧ silent tr).
Proof. done. Qed.

Definition no_bytes (tr : list (ev * resp)) : Prop := ∀ fd, sent fd tr = [] ∧ rcvd fd tr = [].

Lemma no_bytes_app t1 t2 : no_bytes t1 → no_bytes t2 → no_bytes (t1 ++ t2).
Proof. intros H1 H2 fd. rewrite sent_app, rcvd_app. by destruct (H1 fd) as [-> ->], (H2 fd) as [-> ->]. Qed.

Definition bind_connect_post {C} (fd : Z) (sa : sockaddr_in6) (c : C) (r : Z * C) (tr : list (ev * resp)) : Prop :=
  r.2 = c ∧ (r.1 = 0 ∨ r.1 = -1) ∧ no_bytes tr ∧
  (r.1 = 0 → (∃ x, (Connect fd sa, x) ∈ tr ∧ 0 ≤ ret x) ∧ ∀ l, fds_after l tr = Some l) ∧
  (r.1 = -1 → ∀ l, fds_after (fd :: l) tr = Some l).

Lemma close_fail ub {C} fd sa (c : C) t1 :
  no_bytes t1 → (∀ l, fds_after l t1 = Some l) →
  wp ub ((del_close fd;; mret (-1)) c) (λ r t2, bind_connect_post fd sa c r (t1 ++ t2)).
Proof.
  intros Hn Ht. eapply wp_then; [apply del_close_spec |]. cbn [fst snd].
  intros _ ? t3 (-> & Hn3 & Hr). cbn. rewrite app_nil_r.
  split; [done |]. split; [by right |]. split; [by apply no_bytes_app |]. split; [done |]. cbn.
  intros _ l. rewrite (fds_after_app _ _ _ _ (Ht _)). apply Hr. cbn. by rewrite decide_True.
Qed.

Lemma bind_connect_with_spec ub {C} (bnd : Z → sockaddr_in6 → P C Z) fd sa (c : C) :
  wp ub (bnd fd sa c) (λ r tr, r.2 = c ∧ silent tr) →
  wp ub (bind_connect_with bnd fd sa c) (bind_connect_post fd sa c).
Proof.
  intros Hb. unfold bind_connect_with.
  eapply (wp_seq _ _ _ _ (λ _ c' tr, c' = c ∧ silent tr)); [apply Hb |].
  intros res ? t1 (-> & Hs & Hl). case_decide; [by apply close_fail |].
  apply wp_call. intros x _. case_decide.
  - eapply wp_mono; [apply (close_fail _ fd sa c (t1 ++ [(Connect fd sa, x)])) |].
    + by apply no_bytes_app.
    + intros l. by rewrite (fds_after_app _ _ _ _ (Hl l)).
    + cbn beta. intros r tr HQ. rewrite <-app_assoc in HQ. exact HQ.
  - cbn. split; [done |]. split; [by left |]. split; [by apply no_bytes_app |]. split; [intros _ | done].
    split; [exists x; split; [set_solver | lia] |]. intros l. by rewrite (fds_after_app _ _ _ _ (Hl l)).
Qed.

Lemma bind_connect_spec ub {C} `{Socks5Object C} fd sa (c : C) : binder_ok C →
  wp ub (bind_connect fd sa c) (bind_connect_post fd sa c).
Proof. intros Hb. apply bind_connect_with_spec, Hb. Qed.

(** ** The TCP client *)

(** A TCP client that has not sent its request. *)
Definition tcp_ready (a : address) (c : HevSocks5ClientTCP) : Prop := tcp_addr c = Some (wire a).

Lemma tcp_get_upstream U a c : tcp_ready a c →
  wpu U (get_upstream_addr c) (λ r tr, upstream_post U a c r.1 r.2 tr).
Proof. intros Hc. cbn. split; [| done]. rewrite Hc. exists []. by rewrite app_nil_r. Qed.

(** ** The UDP client *)

(** A UDP client that has connected: the address of its request is the
    unspecified one of its family. *)
Definition udp_ready (a : address) (c : HevSocks5ClientUDP) : Prop :=
  (sk_addr_family (base c) = AF_INET ∧ a = A4 (replicate 4 0) 0) ∨
  (sk_addr_family (base c) = AF_INET6 ∧ a = A6 (replicate 16 0) 0).

(** The allocator failed. *)
Definition out_of_memory (tr : list (ev * resp)) : Prop := ∃ n x, (Malloc n, x) ∈ tr ∧ ret x = NULL.

Lemma out_of_memory_app t1 t2 : out_of_memory t2 → out_of_memory (t1 ++ t2).
Proof. intros (n & x & Hin & Hx). exists n, x. split; [set_solver | done]. Qed.

Lemma udp_ready_ok a c : udp_ready a c → address_ok a.
Proof. intros [[_ ->] | [_ ->]]; (split; [done |]; split; [apply Forall_replicate; unfold byte_ok; lia | lia]). Qed.

Section UDP.
Context (p4 p6 : list Z → option (list Z)) (H4 : pton_ok 4 p4) (H6 : pton_ok 16 p6) (g : misc).
#[local] Instance udp_methods : Socks5Client HevSocks5ClientUDP := udp_is_client p4 p6 g.

Lemma udp_get_upstream a c : udp_ready a c →
  wpu out_of_memory (get_upstream_addr c) (λ r tr, upstream_post out_of_memory a c r.1 r.2 tr).
Proof.
  intros Hc. cbn [get_upstream_addr udp_methods udp_is_client]. unfold hev_socks5_client_udp_get_upstream_addr, get_base.
  rewrite pgets_bind. unfold hev_socks5_get_addr_family. unfold udp_ready in Hc.
  destruct Hc as [[-> ->] | [-> ->]].
  - rewrite decide_True by done. intros x _. unfold mret, P_ret. cbn [io_bind wpu fst snd]. split; [|done].
    case_decide; [exists 7, x; split; [by left | done] | by exists []].
  - rewrite decide_False, decide_True by done. intros x _. unfold mret, P_ret. cbn [io_bind wpu fst snd]. split; [|done].
    case_decide; [exists 19, x; split; [by left | done] | by exists []].
Qed.

Lemma udp_set_upstream c b blk : address_ok b → (∃ rest, blk = wire b ++ rest) → length blk = SIZEOF_ADDR →
  wp False (set_upstream_addr blk c) (λ r tr, kept c r.2 ∧
    sent (sk_fd (base c)) tr = [] ∧ rcvd (sk_fd (base c)) tr = []).
Proof.
  intros Hb (rest & ->) _. cbn [set_upstream_addr udp_methods udp_is_client].
  unfold hev_socks5_client_udp_set_upstream_addr, get_base. rewrite pgets_bind. case_decide; [done |].
  rewrite pgets_bind. eapply wp_then with (R := λ r tr, r.2 = c ∧ no_bytes tr).
  { rewrite into_sockaddr6_wire by done. destruct b as [ip p | ip p | n p]; cbn [resolve]; [done.. |].
    eapply wp_mono; [by apply name_into_sockaddr6_spec |]. intros [[[? ?] ?] c'] tr (-> & [Hs _] & _). done. }
  intros [[res sa] fam] c1 t1 [E Hn1]. cbn [snd] in E. subst c1.
  case_decide; [cbn; rewrite app_nil_r; split; [done | apply Hn1] |].
  eapply wp_then; [apply socket_spec |]. cbn [fst snd]. intros fd ? t2 (-> & _ & Hn2 & _).
  assert (no_bytes (t1 ++ t2)) as Hn12 by by apply no_bytes_app.
  case_decide; [cbn; rewrite app_nil_r; split; [done | apply Hn12] |].
  eapply wp_then; [apply bind_connect_with_spec, bind_ok |].
  intros r c2 t3 (E & _ & Hn3 & _). cbn [fst snd] in *. subst c2.
  assert (no_bytes (t1 ++ t2 ++ t3)) as Hn by (rewrite app_assoc; by apply no_bytes_app).
  case_decide; [cbn; rewrite app_nil_r; split; [done | apply Hn] |].
  unfold upd_base. rewrite !pmod_bind. cbn. rewrite app_nil_r. split; [done | apply Hn].
Qed.
End UDP.

(** C16. Whatever the server sends, a client's handshake, standard or
    pipelined, returns a value that is not negative only if it is 0 and the
    whole exchange is a well-formed conversation: the client offered its one
    method, sent its credentials exactly when it had to, and requested its
    address; the server chose a known method, accepted the credentials, and
    answered with success and an IP address. The handshake of a TCP client
    ends without undefined behaviour; that of a UDP client that has connected,
    whose address is the unspecified one of its family, goes wrong only when
    the allocator has failed. *)
Theorem client_handshake_sound g frame p4 p6 pipeline :
  length frame = SIZEOF_ADDR → pton_ok 4 p4 → pton_ok 16 p6 →
  (∀ a (c : HevSocks5ClientTCP), address_ok a → tcp_ready a c →
    safe (hev_socks5_client_handshake g frame pipeline c) ∧
    ∀ tr res c', runs (hev_socks5_client_handshake g frame pipeline c) tr (res, c') →
      kept c c' ∧ (0 ≤ res → res = 0 ∧
        conversation a pipeline c (sent (sk_fd (base c)) tr) (rcvd (sk_fd (base c)) tr))) ∧
  (∀ a (c : HevSocks5ClientUDP), udp_ready a c →
    let client := udp_is_client p4 p6 g in
    wpu out_of_memory (hev_socks5_client_handshake g frame pipeline c) (λ r tr,
      kept c r.2 ∧ (0 ≤ r.1 → r.1 = 0 ∧
        conversation a pipeline c (sent (sk_fd (base c)) tr) (rcvd (sk_fd (base c)) tr)))).
Proof.
  intros Hf H4 H6. split.
  - intros a c Ha Hc.
    assert (wp False (hev_socks5_client_handshake g frame pipeline c)
      (talk c (λ res c' s r, res = 0 ∧ conversation a pipeline c s r))) as Hwp.
    { apply wp_of_wpu_False. eapply (handshake_talk (λ _, False) (λ _ _ H, H) g frame Hf a Ha (tcp_ready a)); try done.
      intros. by apply tcp_get_upstream. }
    split; [eapply wp_safe, Hwp |]. intros tr res c' Hr. exact (wp_runs False _ _ _ _ Hwp Hr).
  - intros a c Hc client. eapply wpu_mono;
      [apply (handshake_talk _ out_of_memory_app g frame Hf a (udp_ready_ok a c Hc) (udp_ready a)) | done |].
    + intros t c1. unfold udp_ready. rewrite base_set_base. unfold hev_socks5_set_timeout. by case_decide.
    + intros c1. by apply udp_get_upstream.
    + intros c1 b blk. by apply udp_set_upstream.
    + exact Hc.
    + intros [res c'] tr H. exact H.
Qed.

Definition demo_client : HevSocks5ClientTCP :=
  mkClientTCP (mkClient (set_sk_fd 5 (hev_socks5_construct HEV_SOCKS5_TYPE_TCP)) (Some [117]) (Some [112]))
    (Some (wire (A4 [10; 0; 0; 1] 80))).

(** A UDP client that has connected over IPv4. *)
Definition demo_udp_client : HevSocks5ClientUDP :=
  mkClientUDP (mkClient (mkSocks5 5 (-1) HEV_SOCKS5_TYPE_UDP_IN_TCP 0 AF_INET) None None) (-1).

Lemma client_handshake_sound_witness :
  safe (hev_socks5_client_handshake misc_init (replicate SIZEOF_ADDR 0) true demo_client) ∧
  wpu out_of_memory (hev_socks5_client_handshake (Socks5Client0 := udp_is_client (λ _, None) (λ _, None) misc_init)
      misc_init (replicate SIZEOF_ADDR 0) false demo_udp_client) (λ r tr,
    0 ≤ r.1 → r.1 = 0 ∧ conversation (C := HevSocks5ClientUDP) (Socks5Client0 := udp_is_client (λ _, None) (λ _, None) misc_init)
      (A4 [0; 0; 0; 0] 0) false demo_udp_client (sent 5 tr) (rcvd 5 tr)).
Proof.
  split.
  - refine (proj1 (proj1 (client_handshake_sound misc_init (replicate SIZEOF_ADDR 0) (λ _, None) (λ _, None) true eq_refl
      ltac:(done) ltac:(done)) (A4 [10; 0; 0; 1] 80) demo_client _ eq_refl)).
    split; [done |]. split; [|lia]. rewrite !Forall_cons, Forall_nil. unfold byte_ok. lia.
  - eapply wpu_mono; [refine (proj2 (client_handshake_sound misc_init (replicate SIZEOF_ADDR 0) (λ _, None) (λ _, None) false
      eq_refl ltac:(done) ltac:(done)) (A4 [0; 0; 0; 0] 0) demo_udp_client _); by left | done |].
    intros r tr [_ H]. exact H.
Defined.

(** [hev_socks5_client_write_request] does not look at what
    [get_upstream_addr] returns: when the allocator fails, the UDP client
    reads the address through a null pointer. *)
Theorem udp_request_null :
  ¬ safe (hev_socks5_client_handshake (Socks5Client0 := udp_is_client (λ _, None) (λ _, None) misc_init)
    misc_init (replicate SIZEOF_ADDR 0) true demo_udp_client).
Proof.
  eapply (play_wrong_unsafe _ [val 3; val 0]); [vm_compute; reflexivity |]. by repeat constructor.
Qed.

(** ** Connecting *)

(** What [hev_socks5_client_connect] leaves, and that the rest of the object
    is kept: [own] is whatever the settings of the base do not change. *)
Lemma client_connect_spec ub p4 p6 g {C} `{!Socks5Client C} {X} (own : C → X) (c : C) name port :
  pton_ok 4 p4 → pton_ok 16 p6 → binder_ok C → (∀ b c, own (set_base b c) = own c) →
  wp ub (hev_socks5_client_connect p4 p6 g name port c) (λ r tr,
    ((r.1 = 0 ∨ r.1 = -1) ∧
    (r.1 = 0 → ∃ sa x, (Connect (sk_fd (base r.2)) sa, x) ∈ tr ∧ 0 ≤ ret x ∧
       sin6_port sa = htons port ∧ denotes p4 p6 name tr (sin6_addr sa) ∧
       (sk_addr_family (base r.2) = AF_INET ∨ sk_addr_family (base r.2) = AF_INET6) ∧
       ∀ l, fds_after l tr = Some (sk_fd (base r.2) :: l)) ∧
    (r.1 = -1 → sk_fd (base r.2) = sk_fd (base c) ∧ ∀ l, fds_after l tr = Some l)) ∧
    own r.2 = own c ∧ (r.1 = 0 → 0 ≤ sk_fd (base r.2))).
Proof.
  intros H4 H6 Hb Hown. unfold hev_socks5_client_connect, upd_base, get_base. rewrite pmod_bind, pgets_bind.
  set (c1 := set_base _ c). assert (sk_fd (base c1) = sk_fd (base c)) as Hfd by apply kept_timeout.
  assert (own c1 = own c) as Ho by apply Hown.
  eapply (wp_seq _ _ _ _ (λ v c' tr, let '(res, sa, fam) := v in c' = c1 ∧ silent tr ∧
    sin6_port sa = htons port ∧ (res = 0 → (fam = AF_INET ∨ fam = AF_INET6) ∧
      denotes p4 p6 name tr (sin6_addr sa)) ∧ (res = 0 ∨ res = -1))).
  { eapply wp_mono; [by apply name_into_sockaddr6_spec |].
    intros [[[res sa] fam] c'] tr (? & ? & ? & ? & ? & ? & Hok & _). cbn. by split_and!. }
  intros [[res sa] fam] ? t1 (-> & [Hn1 Hl1] & Hport & Hok & Hres).
  case_decide; [cbn; rewrite app_nil_r; split; [split_and!; [by right | done | done] | done] |].
  destruct Hok as [Hfam Hip]; [lia |].
  eapply wp_then; [apply socket_spec |]. cbn [fst snd]. intros fd ? t2 (-> & Hfd1 & Hn2 & Hl2).
  assert (∀ l, fds_after l (t1 ++ t2) = Some (if decide (0 ≤ fd) then fd :: l else l)) as Hl12.
  { intros l. by rewrite (fds_after_app _ _ _ _ (Hl1 l)). }
  destruct (decide (fd < 0)) as [Hneg | Hneg].
  { cbn. rewrite app_nil_r. split; [|done]. split_and!; [by right | done |]. intros _. split; [done |].
    intros l. rewrite Hl12. by rewrite decide_False by lia. }
  eapply wp_then; [by apply bind_connect_spec |].
  intros r c2 t3 (E & Hr & Hn3 & Hok3 & Hbad3). cbn [fst snd] in *. subst c2.
  destruct (decide (r < 0)) as [Hr0 | Hr0]; rewrite ?pmod_bind; unfold mret, P_ret; cbn [wp fst snd];
    rewrite ?base_set_base, app_nil_r; cbn.
  - split; [|done]. split_and!; [by right | done |]. intros _. split; [done |]. intros l.
    rewrite app_assoc, (fds_after_app _ _ _ _ (Hl12 l)). rewrite decide_True by lia. apply Hbad3. lia.
  - split; [|rewrite ?Hown, Ho; split; [done | cbn; lia]].
    split; [by left |]. split; [|done]. intros _. destruct Hok3 as [(x & Hx & Hx0) Hl3]; [lia |].
    exists sa, x. split_and!; try done; [set_solver | eapply denotes_mono, Hip; set_solver |]. intros l.
    rewrite app_assoc, (fds_after_app _ _ _ _ (Hl12 l)). by rewrite decide_True by lia.
Qed.

(** C17. [hev_socks5_client_connect], for every outcome of the resolver and of
    the socket calls: it returns 0 or -1; on 0 the object's descriptor is the
    one new open descriptor, which was connected to the port and to the
    address of the name: the literal IPv4 or IPv6 address when the name is
    one, and else an address the resolver answered with; on -1 every
    descriptor it opened has been closed again, none twice, and the object
    still has its old descriptor. *)
Theorem client_connect_sockets p4 p6 g {C} `{!Socks5Client C} (c : C) name port :
  pton_ok 4 p4 → pton_ok 16 p6 → binder_ok C →
  wp False (hev_socks5_client_connect p4 p6 g name port c) (λ r tr,
    (r.1 = 0 ∨ r.1 = -1) ∧
    (r.1 = 0 → ∃ sa x, (Connect (sk_fd (base r.2)) sa, x) ∈ tr ∧ 0 ≤ ret x ∧
       sin6_port sa = htons port ∧ denotes p4 p6 name tr (sin6_addr sa) ∧
       (sk_addr_family (base r.2) = AF_INET ∨ sk_addr_family (base r.2) = AF_INET6) ∧
       ∀ l, fds_after l tr = Some (sk_fd (base r.2) :: l)) ∧
    (r.1 = -1 → sk_fd (base r.2) = sk_fd (base c) ∧ ∀ l, fds_after l tr = Some l)).
Proof.
  intros H4 H6 Hb. eapply wp_mono; [by apply (client_connect_spec False p4 p6 g (λ _, tt)) |]. by intros r tr [H _].
Qed.

Lemma client_connect_sockets_witness :
  wp False (hev_socks5_client_connect (λ _, Some [127; 0; 0; 1]) (λ _, None) misc_init [108] 1080 demo_client) (λ r tr,
    (r.1 = 0 ∨ r.1 = -1) ∧
    (r.1 = 0 → ∃ sa x, (Connect (sk_fd (base r.2)) sa, x) ∈ tr ∧ 0 ≤ ret x ∧
       sin6_port sa = htons 1080 ∧
       sin6_addr sa = v4_prefix ++ [127; 0; 0; 1] ∧
       (sk_addr_family (base r.2) = AF_INET ∨ sk_addr_family (base r.2) = AF_INET6) ∧
       ∀ l, fds_after l tr = Some (sk_fd (base r.2) :: l)) ∧
    (r.1 = -1 → sk_fd (base r.2) = sk_fd (base demo_client) ∧ ∀ l, fds_after l tr = Some l)).
Proof.
  apply (client_connect_sockets (C := HevSocks5ClientTCP) (Socks5Client0 := tcp_is_client) (λ _, Some [127; 0; 0; 1]) (λ _, None) misc_init
    demo_client [108] 1080).
  - by intros ? ? [= <-].
  - done.
  - intros ub fd sa c. apply bind_ok.
Defined.
