(* ===== verification/Udp.v ===== *)
(** * UDP relay over SOCKS5

    Model of [src/core/src/hev-socks5-udp.c]: datagrams carried in the TCP
    connection behind a 3 byte header (type [UDP_IN_TCP]) or in datagrams of
    their own ([UDP_IN_UDP]), and the relay between the peer and a socket.
    The pointers of a [HevSocks5UDPMsg] are the bytes of memory they point
    to; [fwd_f] and [fwd_b] give every message its own buffer. *)

From S2P Require Import Prelude Buffer IO Addr Socks5 Client.

Definition UDP_BUF_SIZE : Z := 1500.

(** The pointer [addr] of a message: not initialised, null, or the bytes it
    points to. *)
Inductive addrptr := AUninit | ANull | APtr (bytes : list Z).

Record HevSocks5UDPMsg := mkMsg {
  m_addr : addrptr;
  m_buf : list Z;
  m_len : Z;
}.

(** [HevSocks5UDPIface]: the virtual [get_fd]. *)
Class Socks5UDP (C : Type) := {
  udp_sk :: Socks5Object C;
  get_fd : P C Z;
}.

Definition errno {S} : P S Z := r ← call Errno; mret (ret r).

Section Program.
Context (inet_pton4 inet_pton6 : list Z → option (list Z)).
Context (g : misc).
(** The indeterminate contents of an address buffer of a stack frame. *)
Context (frame : list Z).
Context {C : Type} `{!Socks5UDP C}.

(** [task_io_yielder]: a UDP association ends with its TCP connection. *)
Definition udp_task_io_yielder (ty : yield_type) : P C Z :=
  sty ← get_base sk_type;
  stop ←
    (if decide (sty = HEV_SOCKS5_TYPE_UDP_IN_UDP) then
       fd ← get_base sk_fd;
       r ← call (Recv fd 1);
       if decide (ret r = 0) then mret true
       else if decide (ret r < 0) then e ← errno; mret (bool_decide (e ≠ EAGAIN))
       else mret false
     else mret false);
  if stop : bool then upd_base (hev_socks5_set_timeout 0);; mret (-1)
  else hev_socks5_task_io_yielder ty.

Definition hev_socks5_udp_get_fd : P C Z := get_fd.

(** ** Sending *)

(** The three buffers of one message behind the first two header bytes and
    the header length; [None] when the address has no length. *)
Definition udp_frame (datlen hdrlen : Z → Z) (m : HevSocks5UDPMsg) : P C (option (list Z)) :=
  addr ← (if m_addr m is APtr addr then mret addr else ub);
  addrlen ← plift (hev_socks5_addr_len addr);
  if decide (addrlen ≤ 0) then mret None
  else
    a ← plift (mem_read addr 0 addrlen);
    b ← plift (mem_read (m_buf m) 0 (m_len m));
    mret (Some (le16 (datlen (m_len m)) ++ u8 (hdrlen addrlen) :: a ++ b)).

Fixpoint udp_frames (datlen hdrlen : Z → Z) (msgv : list HevSocks5UDPMsg) : P C (option (list (list Z))) :=
  match msgv with
  | [] => mret (Some [])
  | m :: msgv =>
      f ← udp_frame datlen hdrlen m;
      match f with
      | None => mret None
      | Some f =>
          fs ← udp_frames datlen hdrlen msgv;
          mret (cons f <$> fs)
      end
  end.

Definition hev_socks5_udp_sendmmsg_tcp (msgv : list HevSocks5UDPMsg) : P C Z :=
  fs ← udp_frames htons (λ addrlen, 3 + addrlen) msgv;
  match fs with
  | None => mret (-1)
  | Some fs =>
      fd ← hev_socks5_udp_get_fd;
      res ← call (Send fd (concat fs));
      if decide (ret res ≤ 0) then mret (-1) else mret (Z.of_nat (length msgv))
  end.

Definition hev_socks5_udp_sendmmsg_udp (msgv : list HevSocks5UDPMsg) : P C Z :=
  fs ← udp_frames (λ _, 0) (λ _, 0) msgv;
  match fs with
  | None => mret (-1)
  | Some fs =>
      fd ← hev_socks5_udp_get_fd;
      res ← call (SendMMsg fd ((λ f, (None, f)) <$> fs));
      mret (ret res)
  end.

Definition hev_socks5_udp_sendmmsg (msgv : list HevSocks5UDPMsg) : P C Z :=
  ty ← get_base sk_type;
  if decide (ty = HEV_SOCKS5_TYPE_UDP_IN_TCP) then hev_socks5_udp_sendmmsg_tcp msgv
  else if decide (ty = HEV_SOCKS5_TYPE_UDP_IN_UDP) then hev_socks5_udp_sendmmsg_udp msgv
  else mret (-1).

(** ** Receiving *)

(** The five bytes of the header: one receive, and a second one for the rest
    of a short read. *)
Definition recv_head (fd : Z) : P C (Z * list Z) :=
  r ← call (Recv fd 5);
  if decide (0 < ret r < 5) then
    r2 ← call (Recv fd (5 - ret r));
    mret (ret r + ret r2, data r ++ data r2)
  else mret (ret r, data r).

(** The body of one message, from its header: the message, or the value the
    function returns. *)
Definition recv_body (fd : Z) (hdr : list Z) (m : HevSocks5UDPMsg) :
    P C (HevSocks5UDPMsg + Z * HevSocks5UDPMsg) :=
  hdrlen ← plift (mem_get hdr 2);
  if decide (hdrlen < 5) then mret (inr (-1, m))
  else
    let addrlen := hdrlen - 3 in
    datlen ← plift (get_port hdr 0);
    let datlen := ntohs datlen in
    if decide (u64 (m_len m - addrlen) < datlen) then mret (inr (-1, m))
    else
      res ← call (Recv fd (addrlen - 2 + datlen));
      buf ← plift (mem_write (m_buf m) 2 (data res));
      if decide (ret res ≠ addrlen - 2 + datlen) then
        mret (inr (ret res, mkMsg (m_addr m) buf (m_len m)))
      else
        atype ← plift (mem_get hdr 3);
        dlen ← plift (mem_get hdr 4);
        buf ← plift (mem_set buf 0 atype);
        buf ← plift (mem_set buf 1 dlen);
        mret (inl (mkMsg (APtr buf) (drop (Z.to_nat addrlen) buf) datlen)).

Fixpoint recvmmsg_tcp_loop (fd rlen : Z) (msgv : list HevSocks5UDPMsg) : P C (Z * list HevSocks5UDPMsg) :=
  match msgv with
  | [] => mret (rlen, [])
  | m :: msgv' =>
      '(res, hdr) ← recv_head fd;
      if decide (res ≠ 5) then mret (if decide (0 < rlen) then rlen else res, msgv)
      else
        b ← recv_body fd hdr m;
        match b with
        | inr (res, m) => mret (res, m :: msgv')
        | inl m =>
            '(res, msgv') ← recvmmsg_tcp_loop fd (rlen + 1) msgv';
            mret (res, m :: msgv')
        end
  end.

Definition hev_socks5_udp_recvmmsg_tcp (msgv : list HevSocks5UDPMsg) : P C (Z * list HevSocks5UDPMsg) :=
  fd ← hev_socks5_udp_get_fd;
  recvmmsg_tcp_loop fd 0 msgv.

(** One received datagram; [None] is the error return. *)
Definition parse_dgram (m : HevSocks5UDPMsg) (dgram : list Z) : option (option HevSocks5UDPMsg) :=
  buf ← mem_write (m_buf m) 0 dgram;
  addrlen ← hev_socks5_addr_len (drop 3 buf);
  let len := Z.of_nat (length dgram) in
  if decide (len < 4) then Some (Some (mkMsg ANull buf 0))
  else if decide (addrlen ≤ 0) then Some None
  else
    let doff := 3 + addrlen in
    if decide (doff > len) then Some None
    else Some (Some (mkMsg (APtr (drop 3 buf)) (drop (Z.to_nat doff) buf) (len - doff))).

Fixpoint parse_dgrams (msgv : list HevSocks5UDPMsg) (dgrams : list (list Z)) :
    option (option (list HevSocks5UDPMsg)) :=
  match msgv, dgrams with
  | m :: msgv', d :: dgrams =>
      r ← parse_dgram m d;
      match r with
      | None => Some None
      | Some m =>
          rest ← parse_dgrams msgv' dgrams;
          Some (option_map (cons m) rest)
      end
  | _, _ => Some (Some msgv)
  end.

Definition hev_socks5_udp_recvmmsg_udp (msgv : list HevSocks5UDPMsg) : P C (Z * list HevSocks5UDPMsg) :=
  fd ← hev_socks5_udp_get_fd;
  r ← call (RecvMMsg fd (m_len <$> msgv));
  if decide (ret r ≤ 0) then mret (ret r, msgv)
  else
    assoc ← get_base sk_udp_associated;
    ok ←
      (if decide (assoc = 0) then
         '(_, saddr) ← plift (msgs r !! 0%nat);
         c ← call (Connect fd saddr);
         if decide (ret c < 0) then mret false
         else upd_base (set_sk_udp_associated 1);; mret true
       else mret true);
    if negb ok then mret (-1, msgv)
    else
      ms ← plift (parse_dgrams msgv (fst <$> msgs r));
      match ms with
      | None => mret (-1, msgv)
      | Some ms => mret (ret r, ms)
      end.

Definition hev_socks5_udp_recvmmsg (msgv : list HevSocks5UDPMsg) : P C (Z * list HevSocks5UDPMsg) :=
  ty ← get_base sk_type;
  if decide (ty = HEV_SOCKS5_TYPE_UDP_IN_TCP) then hev_socks5_udp_recvmmsg_tcp msgv
  else if decide (ty = HEV_SOCKS5_TYPE_UDP_IN_UDP) then hev_socks5_udp_recvmmsg_udp msgv
  else mret (-1, msgv).

(** ** The relay *)

(** The [num] messages of the forward direction, on [num] buffers. *)
Definition init_msgs (bufs : list (list Z)) : list HevSocks5UDPMsg :=
  (λ b, mkMsg AUninit b UDP_BUF_SIZE) <$> bufs.

(** The destinations of the first [n] messages; [None] is the error return.
    A missing message is a read outside [svec]. *)
Fixpoint fwd_targets (n : nat) (svec : list HevSocks5UDPMsg) :
    P C (option (list (option sockaddr_in6 * list Z))) :=
  match n with
  | O => mret (Some [])
  | S n =>
      match svec with
      | [] => ub
      | m :: svec =>
          if decide (m_len m = 0) then mret None
          else match m_addr m with
          | AUninit => ub
          | ANull => mret None
          | APtr addr =>
              family ← get_base hev_socks5_get_addr_family;
              '(rc, sa, _) ← hev_socks5_addr_into_sockaddr6 inet_pton4 inet_pton6 addr
                                (mkSockaddr 0 0 (replicate 16 0)) family;
              if decide (rc < 0) then mret None
              else
                b ← plift (mem_read (m_buf m) 0 (m_len m));
                rest ← fwd_targets n svec;
                mret (cons (Some sa, b) <$> rest)
          end
      end
  end.

(** The tail shared by both directions. *)
Definition fwd_result (res : Z) : P C Z :=
  if decide (res ≤ 0) then
    if decide (res = -1) then e ← errno; mret (if decide (e = EAGAIN) then 0 else -1)
    else mret (-1)
  else mret 1.

Definition hev_socks5_udp_fwd_f (fd : Z) (bufs : list (list Z)) (bind : bool) : P C (Z * bool) :=
  '(res, svec) ← hev_socks5_udp_recvmmsg (init_msgs bufs);
  if decide (0 < res) then
    ds ← fwd_targets (Z.to_nat res) svec;
    match ds with
    | None => mret (-1, bind)
    | Some ds =>
        rc ←
          (if bind then mret 0
           else
             '(sa, _) ← plift (ds !! 0%nat);
             sa ← plift sa;
             binder fd sa);
        if decide (rc < 0) then mret (-1, bind)
        else
          r ← call (SendMMsg fd ds);
          res ← fwd_result (ret r);
          mret (res, true)
    end
  else
    res ← fwd_result res;
    mret (res, bind).

Definition hev_socks5_udp_fwd_b (fd : Z) (nbufs : nat) : P C Z :=
  r ← call (RecvMMsg fd (replicate nbufs UDP_BUF_SIZE));
  if decide (0 < ret r) then
    ds ← plift (mapM (λ '(b, sa), '(_, a) ← hev_socks5_addr_from_sockaddr6 frame sa;
                      Some (mkMsg (APtr a) b (Z.of_nat (length b)))) (msgs r));
    res ← hev_socks5_udp_sendmmsg ds;
    fwd_result res
  else fwd_result (ret r).

(** The loop of [hev_socks5_udp_splicer]; [None] when the fuel is spent and
    the relay is still running. *)
Fixpoint splice_loop (fuel : nat) (fd_b : Z) (bufs : list (list Z)) (res_f res_b : Z) (bind : bool) :
    P C (option unit) :=
  match fuel with
  | O => mret None
  | S fuel =>
      '(res_f, bind) ← (if decide (0 ≤ res_f) then hev_socks5_udp_fwd_f fd_b bufs bind
                        else mret (res_f, bind));
      res_b ← (if decide (0 ≤ res_b) then hev_socks5_udp_fwd_b fd_b (length bufs) else mret res_b);
      let next ty :=
        stop ← udp_task_io_yielder ty;
        if decide (stop ≠ 0) then mret (Some tt)
        else splice_loop fuel fd_b bufs res_f res_b bind in
      if decide (0 < res_f ∨ 0 < res_b) then next HEV_TASK_YIELD
      else if decide (Z.land res_f res_b = 0) then next HEV_TASK_WAITIO
      else mret (Some tt)
  end.

Definition hev_socks5_udp_splicer (fuel : nat) (bufs : list (list Z)) (fd_b : Z) : P C (option Z) :=
  let num := hev_socks5_get_udp_copy_buffer_nums g in
  r ← call (Malloc (UDP_BUF_SIZE * num * 2));
  if decide (ret r = NULL) then mret (Some (-1))
  else
    fd_a ← hev_socks5_udp_get_fd;
    r ← call (ModFd fd_a);
    (if decide (ret r < 0) then call (AddFd fd_a);; mret tt else mret tt);;
    r ← call (AddFd fd_b);
    (if decide (ret r < 0) then call (ModFd fd_b);; mret tt else mret tt);;
    o ← splice_loop fuel fd_b bufs 1 1 false;
    match o with
    | None => mret None
    | Some _ => call Free;; mret (Some 0)
    end.
End Program.

(** [hev_socks5_client_udp_class]: the client's side of the relay. *)
#[export] Instance client_udp_relay : Socks5UDP HevSocks5ClientUDP := {|
  get_fd := hev_socks5_client_udp_get_fd
|}.
