(* ===== verification/UdpProps.v ===== *)
(** * Properties of the UDP relay

    The framing of datagrams in a TCP stream is read back exactly, however
    the stream is cut; receiving is memory safe against any peer; and what
    the callers do with the count of a truncated message is not. *)

From S2P Require Import Prelude Buffer IO Addr Socks5 Client ClientProps Udp.

(** ** Frames *)

(** A message: its address and its payload. *)
Abbreviation dgram := (address * list Z)%type.

Definition dgram_ok (d : dgram) : Prop :=
  address_ok d.1 ∧ (length (wire d.1) ≤ 252)%nat ∧
  Z.of_nat (length (wire d.1)) + Z.of_nat (length d.2) ≤ UDP_BUF_SIZE.

Definition frame_of (d : dgram) : list Z :=
  let n := Z.of_nat (length d.2) in
  [n / 256; n mod 256; 3 + Z.of_nat (length (wire d.1))] ++ wire d.1 ++ d.2.

(** A message to send, and a message received, that carry a datagram. *)
Definition carries (d : dgram) (m : HevSocks5UDPMsg) : Prop :=
  ∃ r1 r2, m_addr m = APtr (wire d.1 ++ r1) ∧ m_buf m = d.2 ++ r2 ∧ m_len m = Z.of_nat (length d.2).

(** A message that offers a buffer to receive into. *)
Definition receptive (m : HevSocks5UDPMsg) : Prop :=
  Z.of_nat (length (m_buf m)) = UDP_BUF_SIZE ∧ bytes_ok (m_buf m) ∧ m_len m = UDP_BUF_SIZE.

Lemma htons_be n : 0 ≤ n < 65536 → le16 (htons n) = [n / 256; n mod 256].
Proof.
  intros Hn. destruct (word_split n Hn) as (Hv & Hh & Hl). unfold le16.
  rewrite Hv at 1 2. rewrite htons_sum by done.
  by rewrite u8_lo, u8_hi by done.
Qed.

Lemma ntohs_be n : 0 ≤ n < 65536 → ntohs (un_le16 (n / 256) (n mod 256)) = n.
Proof.
  intros Hn. destruct (word_split n Hn) as (Hv & Hh & Hl). rewrite un_le16_sum by done.
  unfold ntohs. rewrite Z.add_comm, htons_sum by done. lia.
Qed.

Lemma wire_length_bounds a : address_ok a → 4 ≤ Z.of_nat (length (wire a)) ≤ 259.
Proof. intros Ha. rewrite wire_length by done. destruct a; [lia | lia |]. destruct Ha as [Hl _]. lia. Qed.

Section Frames.
Context (ub : Prop) {C : Type} `{!Socks5UDP C}.

Lemma udp_frame_tcp d m (c : C) : dgram_ok d → carries d m →
  udp_frame htons (λ addrlen, 3 + addrlen) m c = Ret (Some (frame_of d), c).
Proof.
  intros (Ha & Hw & Hd) (r1 & r2 & E1 & E2 & E3). unfold UDP_BUF_SIZE in Hd.
  pose proof (wire_length_bounds _ Ha) as Hb. unfold udp_frame. rewrite E1, pret_bind.
  erewrite plift_bind by (by apply addr_len_wire). rewrite decide_False by lia.
  erewrite plift_bind by (apply (mem_read_at [] (wire d.1) r1); reflexivity).
  erewrite plift_bind by (rewrite E2; apply (mem_read_at [] d.2 r2); [reflexivity | exact E3]).
  rewrite E3. unfold frame_of. rewrite htons_be by lia. rewrite u8_small by lia. done.
Qed.

Lemma udp_frames_tcp ds ms (c : C) : Forall dgram_ok ds → Forall2 carries ds ms →
  udp_frames htons (λ addrlen, 3 + addrlen) ms c = Ret (Some (frame_of <$> ds), c).
Proof.
  intros Hds H. revert Hds. induction H as [|d m ds ms Hdm _ IH]; [done |].
  intros [Hd Hds]%Forall_cons. cbn [udp_frames].
  rewrite (pbind_ret _ _ _ _ _ (udp_frame_tcp _ _ _ Hd Hdm)).
  by rewrite (pbind_ret _ _ _ _ _ (IH Hds)).
Qed.

(** Sending puts the frames of the messages on the stream. *)
Lemma sendmmsg_tcp_frames ds ms (c : C) fd :
  Forall dgram_ok ds → Forall2 carries ds ms → get_fd c = Ret (fd, c) →
  wp ub (hev_socks5_udp_sendmmsg_tcp ms c) (λ r tr, r.2 = c ∧
    sent fd tr = concat (frame_of <$> ds) ∧ (r.1 = -1 ∨ r.1 = Z.of_nat (length ds))).
Proof.
  intros Hds H Hfd. unfold hev_socks5_udp_sendmmsg_tcp.
  rewrite (pbind_ret _ _ _ _ _ (udp_frames_tcp _ _ _ Hds H)).
  unfold hev_socks5_udp_get_fd. rewrite (pbind_ret _ _ _ _ _ Hfd).
  apply wp_call. intros x _.
  assert (sent fd [(Send fd (concat (frame_of <$> ds)), x)] = concat (frame_of <$> ds)) as Hs
    by (by rewrite sent_send, app_nil_r).
  case_decide; unfold mret, P_ret; cbn [wp fst snd]; (split; [done |]); (split; [exact Hs |]); [by left |].
  right. f_equal. symmetry. by eapply Forall2_length.
Qed.

(** ** Receiving *)

(** A receive that ended between its first and its last byte, and a datagram
    that is shorter than its header. *)
Definition partial (c : ev * resp) : Prop :=
  match c.1 with
  | Recv _ len => 0 < ret c.2 < len
  | RecvMMsg _ _ => Exists (λ m, (length m.1 < 4)%nat) (msgs c.2)
  | _ => False
  end.

(** The server cut a message short. *)
Definition cut (tr : list (ev * resp)) : Prop := Exists partial tr.

Lemma cut_app t1 t2 : cut (t1 ++ t2) ↔ cut t1 ∨ cut t2.
Proof. apply Exists_app. Qed.

(** Bytes of a receive: at most as many as asked for. *)
Lemma recv_le fd n x : valid (Recv fd n) x → 0 ≤ n →
  Z.of_nat (length (data x)) ≤ n ∧ bytes_ok (data x) ∧ (0 < ret x → Z.of_nat (length (data x)) = ret x) ∧
  (ret x ≤ 0 → data x = []).
Proof.
  intros (Hb & [[H1 H2] | [H1 H2]]) Hn.
  - split_and!; [lia | done | lia | lia].
  - rewrite H2. split_and!; [cbn; lia | constructor | lia | done].
Qed.

Lemma recv_head_spec fd (c : C) :
  wp ub (recv_head fd c) (λ r tr, let '(res, hdr, c') := r in
    c' = c ∧ rcvd fd tr = hdr ∧ bytes_ok hdr ∧ (length hdr ≤ 5)%nat ∧ (res = 5 ↔ length hdr = 5%nat) ∧
    (0 < res → hdr ≠ []) ∧ sent fd tr = [] ∧ (0 < res → res ≠ 5 → cut tr)).
Proof.
  unfold recv_head. apply wp_call. intros x Hx.
  destruct (recv_le _ _ _ Hx) as (Hl & Hb & Hpos & Hneg); [lia |]. case_decide as Hs.
  - apply wp_call. intros y Hy. destruct (recv_le _ _ _ Hy) as (Hl2 & Hb2 & Hpos2 & Hneg2); [lia |].
    cbn. unfold rcvd, sent. cbn. rewrite !decide_True by done. rewrite app_nil_r, length_app.
    split_and!; [done.. | by apply Forall_app | lia | | | done | intros _ _; left; exact Hs].
    + destruct (decide (0 < ret y)); [lia |]. rewrite Hneg2 by lia. cbn. lia.
    + destruct (data x); [cbn in Hpos; lia | done].
  - cbn. unfold rcvd, sent. cbn. rewrite decide_True by done. rewrite app_nil_r.
    split_and!; [done.. | lia | | | done |].
    + destruct (decide (0 < ret x)); [lia |]. rewrite Hneg by lia. cbn. lia.
    + destruct (data x); [cbn in Hpos; lia | done].
    + lia.
Qed.

(** A message decoded into its buffer: the block starts with the address, the
    payload follows it inside the block. *)
Definition decoded (m : HevSocks5UDPMsg) (addrlen datlen : Z) (block : list Z) : Prop :=
  m = mkMsg (APtr block) (drop (Z.to_nat addrlen) block) datlen ∧
  Z.of_nat (length block) = UDP_BUF_SIZE ∧ bytes_ok block ∧ 2 ≤ addrlen ∧ 0 ≤ datlen ∧
  addrlen + datlen ≤ UDP_BUF_SIZE.

Lemma recv_body_spec fd b0 b1 h a0 a1 m (c : C) :
  bytes_ok [b0; b1; h; a0; a1] → receptive m →
  let datlen := 256 * b0 + b1 in
  wp ub (recv_body fd [b0; b1; h; a0; a1] m c) (λ r tr, let '(o, c') := r in
    c' = c ∧ sent fd tr = [] ∧
    match o with
    | inl m' => ∃ rest, 5 ≤ h ∧ Z.of_nat (length (rcvd fd tr)) = h - 5 + datlen ∧
        decoded m' (h - 3) datlen (a0 :: a1 :: rcvd fd tr ++ rest)
    | inr (res, m') =>
        m_addr m' = m_addr m ∧ m_len m' = m_len m ∧ Z.of_nat (length (m_buf m')) = UDP_BUF_SIZE ∧
        (res ≤ 0 ∧ (h < 5 ∨ UDP_BUF_SIZE < h - 3 + datlen ∨ h - 5 + datlen = 0 ∨
            Z.of_nat (length (rcvd fd tr)) < h - 5 + datlen) ∨
         0 < res < h - 5 + datlen ∧ Z.of_nat (length (rcvd fd tr)) = res ∧ cut tr)
    end).
Proof.
  intros Hb (Hl & Hbm & Hlen) datlen. rewrite !Forall_cons in Hb. destruct Hb as (H0 & H1 & Hh & Ha0 & Ha1 & _).
  unfold UDP_BUF_SIZE in *. unfold recv_body. eapply wp_lift; [reflexivity |].
  case_decide as Hh5; [cbn; split_and!; try done; left; lia |]. cbv zeta.
  eapply wp_lift; [reflexivity |]. cbn [Pos.of_succ_nat].
  assert (ntohs (un_le16 b0 b1) = datlen) as ->.
  { rewrite un_le16_sum by done. unfold ntohs. rewrite Z.add_comm, htons_sum by done. unfold datlen. lia. }
  unfold byte_ok in *. rewrite Hlen, u64_small by lia.
  case_decide as Hd; [cbn; split_and!; try done; left; lia |].
  apply wp_call. intros x Hx. replace (h - 3 - 2 + datlen) with (h - 5 + datlen) in * by lia.
  destruct (recv_le _ _ _ Hx) as (Hlx & Hbx & Hpos & Hneg); [lia |].
  destruct (mem_write (m_buf m) 2 (data x)) as [buf|] eqn:Ew;
    [|unfold mem_write in Ew; rewrite decide_True in Ew by lia; done].
  pose proof (mem_write_length _ _ _ _ Ew) as Hlb.
  assert (bytes_ok buf) as Hbb by exact (mem_write_bytes _ _ _ _ Hbm Hbx Ew).
  eapply wp_lift; [done |]. case_decide as Hr.
  { unfold mret, P_ret; cbn [wp]. rewrite rcvd_recv. cbn [rcvd]. split_and!; try done; cbn; [lia |].
    unfold rcvd. cbn. rewrite app_nil_r.
    destruct (decide (0 < ret x)) as [Hp | Hp]; [specialize (Hpos Hp); right; split_and!; [lia.. | left; cbn; lia] |].
    rewrite Hneg by lia. cbn. left. lia. }
  do 2 (eapply wp_lift; [reflexivity |]).
  destruct buf as [|z0 [|z1 buf]]; [cbn in Hlb; lia.. |].
  eapply wp_lift; [apply mem_set_0 |]. eapply wp_lift; [apply mem_set_1 |].
  assert (∃ rest, buf = data x ++ rest) as [rest ->].
  { unfold mem_write in Ew. rewrite decide_True in Ew by lia. change (Z.to_nat 2) with 2%nat in Ew.
    destruct (m_buf m) as [|? [|? mb]]; [cbn in Hl; lia.. |]. cbn [take app] in Ew.
    injection Ew as _ _ <-. eauto. }
  unfold mret, P_ret; cbn [wp]. rewrite rcvd_recv. change (rcvd fd []) with (@nil Z). rewrite app_nil_r.
  split; [done |]. split; [done |]. exists rest.
  split; [lia |]. split; [destruct (decide (0 < ret x)); [lia | rewrite Hneg by lia; cbn; lia] |].
  split; [done |]. rewrite !Forall_cons in Hbb. cbn in Hlb |- *.
  unfold UDP_BUF_SIZE. split_and!; try lia. rewrite !Forall_cons. split_and!; [done.. | apply Hbb].
Qed.

(** A message decoded from the bytes of one frame. *)
Definition decoded_from (bs : list Z) (m : HevSocks5UDPMsg) : Prop :=
  ∃ b0 b1 h a0 a1 body rest, bs = b0 :: b1 :: h :: a0 :: a1 :: body ∧
    Z.of_nat (length body) = h - 5 + (256 * b0 + b1) ∧
    decoded m (h - 3) (256 * b0 + b1) (a0 :: a1 :: body ++ rest).

(** What a receive leaves: the messages [dn] decoded from the complete frames
    of the stream, and the bytes [tail] of a frame it did not finish. *)
Definition recv_post (fd rlen : Z) (n : nat) (r : Z * list HevSocks5UDPMsg) (tr : list (ev * resp)) : Prop :=
  ∃ fs dn rest tail, r.2 = dn ++ rest ∧ length r.2 = n ∧ Forall2 decoded_from fs dn ∧
    rcvd fd tr = concat fs ++ tail ∧ (r.1 ≤ 0 ∨ r.1 = rlen + Z.of_nat (length dn) ∨ tail ≠ [] ∧ cut tr).

Lemma recv_loop_spec fd ms : Forall receptive ms → ∀ rlen (c : C),
  wp ub (recvmmsg_tcp_loop fd rlen ms c) (λ r tr,
    r.2 = c ∧ sent fd tr = [] ∧ recv_post fd rlen (length ms) r.1 tr).
Proof.
  induction 1 as [|m ms Hm _ IH]; intros rlen c.
  { unfold recvmmsg_tcp_loop, mret, P_ret; cbn [wp]. split_and!; [done.. |].
    exists [], [], [], []. split_and!; try done. right; left. cbn. lia. }
  cbn [recvmmsg_tcp_loop].
  eapply wp_then; [apply recv_head_spec |]. intros [res hdr] ? t1 (-> & Hr1 & Hbh & Hlh & H5 & H0 & Hs1 & Hcut).
  destruct (decide (res ≠ 5)) as [Hres | Hres].
  { unfold mret, P_ret; cbn [wp]. rewrite app_nil_r. split_and!; [done.. |].
    exists [], [], (m :: ms), hdr. split_and!; [done | done | constructor | done |]. cbn.
    case_decide; [right; left; lia |]. destruct (decide (res ≤ 0)); [by left | right; right]. split; [apply H0 | apply Hcut]; lia. }
  assert (length hdr = 5%nat) as Hl5 by (apply H5; lia).
  destruct hdr as [|b0 [|b1 [|h [|a0 [|a1 [|? ?]]]]]]; try done.
  eapply wp_then; [by apply recv_body_spec |]. intros o ? t2 (-> & Hs2 & Ho).
  destruct o as [m'|[res2 m']].
  - destruct Ho as (rest & Hh5 & Hl2 & Hdec).
    eapply wp_then; [apply IH |]. intros [res3 ms3] c3 t3 (Ec & Hs3 & fs & dn & rest3 & tail & E & Hl & Hfs & Ht & Hc).
    cbn [fst snd] in *. unfold mret, P_ret; cbn [wp fst snd]. rewrite app_nil_r, !sent_app, Hs1, Hs2, Hs3.
    split_and!; [done.. |]. exists ((b0 :: b1 :: h :: a0 :: a1 :: rcvd fd t2) :: fs), (m' :: dn), rest3, tail.
    cbn [fst snd app length concat]. split_and!; [by f_equal | by f_equal | | | ].
    + constructor; [|done]. exists b0, b1, h, a0, a1, (rcvd fd t2), rest. by split_and!.
    + rewrite !rcvd_app, Hr1, Ht. cbn [app]. by rewrite <-app_assoc.
    + destruct Hc as [? | [? | [? ?]]]; [by left | right; left; lia | right; right; split; [done |]].
      rewrite !cut_app. tauto.
  - unfold mret, P_ret; cbn [wp]. rewrite app_nil_r, sent_app, Hs1, Hs2. split_and!; [done.. |].
    exists [], [], (m' :: ms), (rcvd fd (t1 ++ t2)). split_and!; [done | done | constructor | done |].
    destruct Ho as (_ & _ & _ & [[? _] | (_ & _ & ?)]); [by left | right; right].
    rewrite rcvd_app, Hr1, cut_app. split; [done | by right].
Qed.

(** A complete frame that fits a buffer: five bytes of header, and a body of
    the announced length, at least one byte. *)
Definition frame_ok (f : list Z) : Prop :=
  ∃ b0 b1 h a0 a1 body, f = b0 :: b1 :: h :: a0 :: a1 :: body ∧ body ≠ [] ∧ 5 ≤ h ∧
    Z.of_nat (length body) = h - 5 + (256 * b0 + b1) ∧ h - 3 + (256 * b0 + b1) ≤ UDP_BUF_SIZE.

(** However the stream was cut: complete frames at the start of the bytes that
    were received are decoded, one for each buffer, and their number is
    returned when nothing else was received. *)
Lemma recv_loop_complete fd fs tail : Forall frame_ok fs → ∀ ms rlen (c : C),
  (length fs ≤ length ms)%nat → 0 ≤ rlen → Forall receptive ms →
  wp ub (recvmmsg_tcp_loop fd rlen ms c) (λ r tr, let '(res, ms', c') := r in
    rcvd fd tr = concat fs ++ tail →
    Forall2 decoded_from fs (take (length fs) ms') ∧
    (tail = [] → 0 < rlen + Z.of_nat (length fs) ∨ length ms = length fs → res = rlen + Z.of_nat (length fs))).
Proof.
  induction 1 as [|f fs Hf _ IH]; intros ms rlen c Hms Hrl Hrec.
  { destruct ms as [|m ms]; [cbn; intros _; split; [constructor | lia] |]. cbn [recvmmsg_tcp_loop].
    eapply wp_then; [apply recv_head_spec |]. intros [res hdr] ? t1 (-> & Hr1 & Hbh & Hlh & H5 & H0 & _).
    case_decide as Hres.
    - unfold mret, P_ret; cbn [wp]. rewrite app_nil_r, Hr1. cbn. intros E. split; [constructor |]. intros ->.
      intros [? | ?]; [|done]. rewrite decide_True by lia. lia.
    - assert (length hdr = 5%nat) as Hl5 by (apply H5; lia).
      destruct hdr as [|b0 [|b1 [|h [|a0 [|a1 [|? ?]]]]]]; try done. apply Forall_cons in Hrec as [Hm Hrec].
      eapply wp_then; [by apply recv_body_spec |]. intros o ? t2 (-> & _).
      eapply wp_mono with (Q := λ _ _, True).
      2:{ intros [[res' ms'] c'] tr _. rewrite rcvd_app, Hr1. intros E. split; [constructor |]. by intros ->. }
      destruct o as [m' | [res' m']]; [|done]. eapply wp_then; [by apply recv_loop_spec |]. by intros [? ?] ? ? _. }
  destruct ms as [|m ms]; [cbn in Hms; lia |]. apply Forall_cons in Hrec as [Hm Hrec].
  cbn [recvmmsg_tcp_loop concat]. destruct Hf as (d0 & d1 & h' & e0 & e1 & body & -> & Hne & Hh & Hlb & Hfit).
  eapply wp_then; [apply recv_head_spec |]. intros [res hdr] ? t1 (-> & Hr1 & Hbh & Hlh & H5 & _ & _ & _).
  case_decide as Hres.
  { unfold mret, P_ret; cbn [wp]. rewrite app_nil_r, Hr1. intros E. exfalso. apply (f_equal length) in E.
    cbn in E. destruct (decide (length hdr = 5%nat)); [|lia]. apply Hres, H5. done. }
  assert (length hdr = 5%nat) as Hl5 by (apply H5; lia).
  destruct hdr as [|b0 [|b1 [|h [|a0 [|a1 [|? ?]]]]]]; try done.
  eapply wp_then; [by apply recv_body_spec |]. intros o ? t2 (-> & _ & Ho).
  assert (∀ t, rcvd fd (t1 ++ t2 ++ t) = ((d0 :: d1 :: h' :: e0 :: e1 :: body) ++ concat fs) ++ tail →
    [b0; b1; h; a0; a1] = [d0; d1; h'; e0; e1] ∧ rcvd fd t2 ++ rcvd fd t = body ++ concat fs ++ tail) as Hsplit.
  { intros t E. rewrite !rcvd_app, Hr1, <-app_assoc in E. cbn [app] in E. injection E as -> -> -> -> -> E. done. }
  destruct o as [m'|[res2 m']].
  - destruct Ho as (rest & Hh5 & Hl2 & Hdec).
    eapply wp_then; [apply (IH ms (rlen + 1) c); [cbn in Hms; lia | lia | done] |]. intros [res3 ms3] ? t3 HQ.
    unfold mret, P_ret; cbn [wp]. rewrite app_nil_r. intros E.
    destruct (Hsplit t3 E) as [[= -> -> -> -> ->] E2].
    apply app_inj_1 in E2 as [E2 E3]; [|lia]. destruct (HQ E3) as [Hc Hr3].
    split; [|intros Ht _; rewrite Hr3 by (done || (left; lia)); cbn; lia].
    cbn [length take]. constructor; [|done]. exists d0, d1, h', e0, e1, body, rest. rewrite <-E2. by split_and!.
  - unfold mret, P_ret; cbn [wp]. intros E. exfalso.
    destruct (Hsplit [] E) as [[= -> -> -> -> ->] E2]. destruct Ho as (_ & _ & _ & Ho).
    apply (f_equal length) in E2. change (rcvd fd []) with (@nil Z) in E2.
    rewrite app_nil_r, !length_app in E2. destruct body; [done |]. cbn [length] in *. lia.
Qed.

(** A message decoded from the frame of a datagram carries it. *)
Lemma decoded_carries d m : dgram_ok d → decoded_from (frame_of d) m → carries d m.
Proof.
  intros (Ha & Hw & Hdl) (b0 & b1 & h & a0 & a1 & body & rest & E & Hlb & -> & _).
  pose proof (wire_length_bounds _ Ha) as Hwb. unfold UDP_BUF_SIZE in *. unfold frame_of in E.
  destruct (wire d.1) as [|w0 [|w1 w]] eqn:Ew; [cbn in Hwb; lia.. |].
  cbn [app] in E. injection E as <- <- <- <- <- <-. rewrite <-(Z.div_mod (Z.of_nat (length d.2)) 256) by lia.
  exists (d.2 ++ rest), rest. rewrite Ew. cbn [m_addr m_buf m_len]. split_and!; [by rewrite <-!app_assoc | | done].
  replace (Z.to_nat _) with (length (w0 :: w1 :: w)) by (cbn [length]; lia).
  replace (w0 :: w1 :: (w ++ d.2) ++ rest) with ((w0 :: w1 :: w) ++ d.2 ++ rest) by (cbn; by rewrite <-app_assoc).
  apply drop_app_length.
Qed.

Lemma decoded_carry ds ms : Forall dgram_ok ds → Forall2 decoded_from (frame_of <$> ds) ms → Forall2 carries ds ms.
Proof.
  intros Hds. revert ms. induction Hds as [|d ds Hd _ IH]; intros ms H; inversion H; subst; constructor;
    [by apply decoded_carries | by apply IH].
Qed.

Lemma frame_of_ok d : dgram_ok d → frame_ok (frame_of d).
Proof.
  intros (Ha & Hw & Hdl). pose proof (wire_length_bounds _ Ha) as Hwb. unfold frame_of, UDP_BUF_SIZE in *.
  destruct (wire d.1) as [|w0 [|w1 w]] eqn:Ew; [cbn in Hwb; lia.. |]. cbn [app].
  eexists _, _, _, w0, w1, (w ++ d.2). split; [reflexivity |]. cbn [length] in *.
  rewrite <-(Z.div_mod (Z.of_nat (length d.2)) 256) by lia. rewrite length_app. unfold UDP_BUF_SIZE. split_and!; try lia.
  destruct w; [cbn in Hwb; lia | done].
Qed.

End Frames.

(** If the bytes received are the frames of at most as many datagrams as there
    are buffers, those datagrams are decoded. *)
Lemma recv_loop_decodes {C} `{!Socks5UDP C} ub fd ds ms rlen (c : C) : Forall dgram_ok ds →
  (length ds ≤ length ms)%nat → 0 ≤ rlen → Forall receptive ms →
  wp ub (recvmmsg_tcp_loop fd rlen ms c) (λ r tr, let '(res, ms', c') := r in
    rcvd fd tr = concat (frame_of <$> ds) →
    (0 < rlen + Z.of_nat (length ds) ∨ length ms = length ds → res = rlen + Z.of_nat (length ds)) ∧
    length ms' = length ms ∧ Forall2 carries ds (take (length ds) ms')).
Proof.
  intros Hds Hl Hr Hms. eapply wp_mono.
  - apply wp_and; [by apply (recv_loop_spec ub fd ms Hms rlen c) |].
    apply (recv_loop_complete True fd (frame_of <$> ds) []); [| by rewrite length_fmap | done | done].
    apply Forall_fmap. eapply Forall_impl; [exact Hds | apply frame_of_ok].
  - intros [[res ms'] c'] tr [(_ & _ & (? & ? & ? & ? & _ & Hl' & _)) H] E. rewrite app_nil_r, !length_fmap in H.
    destruct (H E) as [Hd Hres]. split; [by apply Hres |]. split; [exact Hl' |].
    by apply decoded_carry.
Qed.

(** ** The claims *)

(** UDP over TCP. The messages one side sends, for every way the network
    cuts the stream, are the messages the other side decodes into its
    buffers: as many, in order, with the same address and payload. The length
    of the header must fit its byte, which every address but a name of more
    than 248 bytes does. *)
Theorem udp_tcp_round_trip {C C'} `{!Socks5UDP C, !Socks5UDP C'} (c : C) (c' : C') fd fd' ds ms ms' :
  get_fd c = Ret (fd, c) → get_fd c' = Ret (fd', c') →
  Forall dgram_ok ds → Forall2 carries ds ms → length ms' = length ds → Forall receptive ms' →
  wp False (hev_socks5_udp_sendmmsg_tcp ms c) (λ r tr,
    (r.1 = -1 ∨ r.1 = Z.of_nat (length ds)) ∧
    wp False (hev_socks5_udp_recvmmsg_tcp ms' c') (λ r' tr',
      rcvd fd' tr' = sent fd tr → r'.1.1 = Z.of_nat (length ds) ∧ Forall2 carries ds r'.1.2)).
Proof.
  intros Hfd Hfd' Hds Hms Hl Hrec. eapply wp_mono; [by apply sendmmsg_tcp_frames |].
  intros r tr (_ & Hs & Hr). split; [done |]. rewrite Hs.
  unfold hev_socks5_udp_recvmmsg_tcp, hev_socks5_udp_get_fd. rewrite (pbind_ret _ _ _ _ _ Hfd').
  eapply wp_mono; [apply (recv_loop_decodes False fd' ds ms' 0 c' Hds); [lia | lia | done] |].
  intros [[res ms1] c1] tr' H E. destruct (H E) as (Hr' & Hl' & Hc). split; [apply Hr'; by right |].
  by rewrite take_ge in Hc by lia.
Qed.

(** A UDP client whose datagrams travel in its TCP connection. *)
Definition demo_relay : HevSocks5ClientUDP :=
  mkClientUDP (mkClient (mkSocks5 3 (-1) HEV_SOCKS5_TYPE_UDP_IN_TCP 0 AF_INET) None None) (-1).

Definition demo_dgrams : list dgram :=
  [(A4 [8; 8; 8; 8] 53, [1; 2; 3]); (AName [101; 46; 99; 111] 443, [])].

Definition demo_msgs : list HevSocks5UDPMsg :=
  (λ d : dgram, mkMsg (APtr (wire d.1)) d.2 (Z.of_nat (length d.2))) <$> demo_dgrams.

Definition demo_bufs : list HevSocks5UDPMsg := init_msgs (replicate 2 (replicate 1500 0)).

Lemma receptive_zero b : length b = 1500%nat → bytes_ok b → receptive (mkMsg AUninit b UDP_BUF_SIZE).
Proof. intros Hl Hb. unfold receptive, UDP_BUF_SIZE. cbn [m_buf m_len]. split_and!; [lia | done | done]. Qed.

Lemma demo_bufs_ok : Forall receptive demo_bufs.
Proof.
  unfold demo_bufs, init_msgs. rewrite fmap_replicate. apply Forall_replicate.
  apply receptive_zero; [by rewrite length_replicate | apply Forall_replicate; unfold byte_ok; lia].
Qed.

Lemma udp_tcp_round_trip_witness :
  wp False (hev_socks5_udp_sendmmsg_tcp demo_msgs demo_relay) (λ r tr,
    (r.1 = -1 ∨ r.1 = 2) ∧
    wp False (hev_socks5_udp_recvmmsg_tcp demo_bufs demo_relay) (λ r' tr',
      rcvd 3 tr' = sent 3 tr → r'.1.1 = 2 ∧ Forall2 carries demo_dgrams r'.1.2)).
Proof.
  apply (udp_tcp_round_trip (C := HevSocks5ClientUDP) (C' := HevSocks5ClientUDP)
    demo_relay demo_relay 3 3 demo_dgrams demo_msgs demo_bufs); [done | done | | | done | apply demo_bufs_ok].
  - repeat constructor; cbn; unfold byte_ok, UDP_BUF_SIZE; try lia.
  - unfold demo_msgs. apply Forall2_fmap_r, Forall_Forall2_diag, Forall_forall. intros d _.
    exists [], []. by rewrite !app_nil_r.
Defined.

(** C21. Receiving from the stream is memory safe for every peer, and however
    the stream is cut, it decodes its complete frames in order. Sound: the
    messages it has decoded are those of complete frames at the start of the
    stream, every one inside its own buffer, and a positive count is the
    number of those messages, unless the stream stopped inside a frame, in
    the middle of a receive. Complete: of frames at the start of the stream
    that have a body and fit a buffer, and are no more than the buffers,
    every one is decoded, and their number is returned when they are all that
    was received, and they are at least one or fill the buffers. *)
Theorem recvmmsg_tcp_sound {C} `{!Socks5UDP C} (c : C) fd ms :
  get_fd c = Ret (fd, c) → Forall receptive ms →
  wp False (hev_socks5_udp_recvmmsg_tcp ms c) (λ r tr,
    (r.2 = c ∧ sent fd tr = [] ∧ recv_post fd 0 (length ms) r.1 tr) ∧
    ∀ fs tail, Forall frame_ok fs → (length fs ≤ length ms)%nat → rcvd fd tr = concat fs ++ tail →
      Forall2 decoded_from fs (take (length fs) r.1.2) ∧
      (tail = [] → fs ≠ [] ∨ length ms = length fs → r.1.1 = Z.of_nat (length fs))).
Proof.
  intros Hfd Hms. unfold hev_socks5_udp_recvmmsg_tcp, hev_socks5_udp_get_fd.
  rewrite (pbind_ret _ _ _ _ _ Hfd). apply wp_and; [by apply recv_loop_spec |].
  do 4 (apply wp_forall; intros ?). rename x into fs, x0 into tail.
  eapply wp_mono; [by apply (recv_loop_complete True fd fs tail) |].
  intros [[res ms'] c'] tr H E. destruct (H E) as [Hd Hr]. split; [exact Hd |].
  intros Ht Hn. apply Hr; [done |]. destruct Hn; [left; destruct fs; [done | cbn; lia] | by right].
Qed.

Lemma recvmmsg_tcp_sound_witness :
  wp False (hev_socks5_udp_recvmmsg_tcp demo_bufs demo_relay) (λ r tr,
    (r.2 = demo_relay ∧ sent 3 tr = [] ∧ recv_post 3 0 2 r.1 tr) ∧
    ∀ fs tail, Forall frame_ok fs → (length fs ≤ 2)%nat → rcvd 3 tr = concat fs ++ tail →
      Forall2 decoded_from fs (take (length fs) r.1.2) ∧
      (tail = [] → fs ≠ [] ∨ 2%nat = length fs → r.1.1 = Z.of_nat (length fs))).
Proof. apply (recvmmsg_tcp_sound (C := HevSocks5ClientUDP) demo_relay 3 demo_bufs); [done | apply demo_bufs_ok]. Defined.

(** The count of a stream that stops inside a frame is trusted: a peer
    that sends one byte of a header and closes makes [hev_socks5_udp_fwd_f]
    take the one byte for one message and read the address pointer of a
    message that was never decoded. *)
Theorem udp_truncated_frame p4 p6 {C} `{!Socks5UDP C} (c : C) fd fd_b bufs bind :
  get_fd c = Ret (fd, c) → sk_type (base c) = HEV_SOCKS5_TYPE_UDP_IN_TCP → bufs ≠ [] →
  ¬ safe (hev_socks5_udp_fwd_f p4 p6 fd_b bufs bind c).
Proof.
  intros Hfd Hty Hb Hs. destruct bufs as [|b bufs]; [done |].
  unfold hev_socks5_udp_fwd_f, hev_socks5_udp_recvmmsg, get_base in Hs.
  unfold mbind at 1, P_bind at 1 in Hs. rewrite pgets_bind, decide_True in Hs by done.
  unfold hev_socks5_udp_recvmmsg_tcp, hev_socks5_udp_get_fd in Hs.
  rewrite (pbind_ret _ _ _ _ _ Hfd) in Hs. cbn in Hs.
  inversion Hs as [|? ? H1]; subst.
  specialize (H1 (mkResp 1 [0] 0 [])). cbn in H1.
  assert (valid (Recv fd 5) (mkResp 1 [0] 0 [])) as Hv1.
  { split; [repeat constructor; lia | left; cbn; lia]. }
  specialize (H1 Hv1). inversion H1 as [|? ? H2]; subst.
  specialize (H2 (mkResp 0 [] 0 [])). cbn in H2.
  assert (valid (Recv fd 4) (mkResp 0 [] 0 [])) as Hv2 by (split; [constructor | right; done]).
  specialize (H2 Hv2). inversion H2.
Qed.

Lemma udp_truncated_frame_witness :
  ¬ safe (hev_socks5_udp_fwd_f (λ _, None) (λ _, None) 5 [replicate 1500 0] false demo_relay).
Proof. by apply (udp_truncated_frame (λ _, None) (λ _, None) (C := HevSocks5ClientUDP) demo_relay 3). Defined.
