(* ===== verification/Server.v ===== *)
(** * The SOCKS5 server

    Model of [src/core/src/hev-socks5-server.c]: authentication, the request,
    the reply, and what is served after it.  The union of the server's
    object pointers is [sobj]; the authenticator it may hold, with its users,
    is the store of [Auth.v], and [sv_auth_ref] its reference count. *)

From S2P Require Import Prelude Buffer IO Addr Interfaces Auth Socks5 Client Udp.

Inductive sobj := SNone | SUser (p : ptr) | SAuth.

Record HevSocks5Server (T : Type) := mkServer {
  sv_base : HevSocks5;
  sv_fds : Z * Z;
  sv_obj : sobj;
  sv_store : HevSocks5Authenticator T;
  sv_auth_ref : Z;
}.
Arguments mkServer {T}.
Arguments sv_base {T}.
Arguments sv_fds {T}.
Arguments sv_obj {T}.
Arguments sv_store {T}.
Arguments sv_auth_ref {T}.

Section Program.
Context (inet_pton4 inet_pton6 : list Z → option (list Z)).
Context (g : misc).
(** The indeterminate contents of the [HevSocks5Addr] of a stack frame. *)
Context (frame : list Z).
Context {T : Type} `{!SearchTree T}.
Abbreviation Server := (HevSocks5Server T).

Definition set_sv_base (b : HevSocks5) (s : Server) : Server :=
  mkServer b (sv_fds s) (sv_obj s) (sv_store s) (sv_auth_ref s).
Definition set_sv_fds (fds : Z * Z) (s : Server) : Server :=
  mkServer (sv_base s) fds (sv_obj s) (sv_store s) (sv_auth_ref s).
Definition set_sv_obj (o : sobj) (s : Server) : Server :=
  mkServer (sv_base s) (sv_fds s) o (sv_store s) (sv_auth_ref s).
Definition set_sv_store (st : HevSocks5Authenticator T) (s : Server) : Server :=
  mkServer (sv_base s) (sv_fds s) (sv_obj s) st (sv_auth_ref s).
Definition set_sv_auth_ref (n : Z) (s : Server) : Server :=
  mkServer (sv_base s) (sv_fds s) (sv_obj s) (sv_store s) n.

#[export] Instance server_object : Socks5Object Server := {|
  base := sv_base;
  set_base := set_sv_base;
  binder := hev_socks5_bind;
  base_set_base b c := eq_refl;
|}.

Definition hev_socks5_server_get_fd : P Server Z :=
  ty ← get_base sk_type;
  if decide (ty = HEV_SOCKS5_TYPE_UDP_IN_TCP) then get_base sk_fd
  else if decide (ty = HEV_SOCKS5_TYPE_UDP_IN_UDP) then pgets (λ s, (sv_fds s).2)
  else mret (-1).

#[export] Instance server_udp : Socks5UDP Server := {| get_fd := hev_socks5_server_get_fd |}.

(** A step of the authenticator. *)
Definition on_auth {A} (m : M (HevSocks5Authenticator T) A) : P Server A := λ s,
  match m (sv_store s) with
  | Some (a, st) => Ret (a, set_sv_store st s)
  | None => Ub
  end.

(** [hev_object_ref] and [hev_object_unref] on the objects the server holds;
    the destructor of the authenticator clears it. *)
Definition ref_user (p : ptr) : P Server unit :=
  u ← on_auth (user_get p);
  on_auth (λ st, Some (tt, mkAuth (a_tree st)
    (<[p := mkUser (u_name u) (u_pass u) (name_len u) (pass_len u) (ref_count u + 1)]> (users st)))).

Definition unref_obj (o : sobj) : P Server unit :=
  match o with
  | SNone => ub
  | SUser p => on_auth (hev_object_unref p)
  | SAuth =>
      n ← pgets sv_auth_ref;
      pmod (set_sv_auth_ref (n - 1));;
      if decide (n - 1 = 0) then on_auth hev_socks5_authenticator_clear else mret tt
  end.

Definition hev_socks5_server_construct (fd : Z) (st : HevSocks5Authenticator T) (auth_ref : Z) : Server :=
  mkServer (set_sk_fd fd (hev_socks5_construct HEV_SOCKS5_TYPE_NONE)) (-1, -1) SNone st auth_ref.

Definition hev_socks5_server_new {S} (fd : Z) (st : HevSocks5Authenticator T) (auth_ref : Z) :
    P S (option Server) :=
  r ← call (Malloc 0);
  mret (if decide (ret r = NULL) then None else Some (hev_socks5_server_construct fd st auth_ref)).

Definition hev_socks5_server_set_auth : P Server unit :=
  o ← pgets sv_obj;
  (if o is SNone then mret tt else unref_obj o);;
  pmod (λ s, set_sv_auth_ref (sv_auth_ref s + 1) s);;
  pmod (set_sv_obj SAuth).

(** ** Authentication *)

Definition hev_socks5_server_read_auth_method : P Server Z :=
  fd ← get_base sk_fd;
  res ← call (Recv fd 2);
  if decide (ret res ≠ 2) then mret (-1)
  else
    ver ← plift (mem_get (data res) 0);
    if decide (ver ≠ HEV_SOCKS5_VERSION_5) then mret (-1)
    else
      method_len ← plift (mem_get (data res) 1);
      res ← call (Recv fd method_len);
      if decide (ret res ≠ method_len) then mret (-1)
      else
        o ← pgets sv_obj;
        let method := match o with
                      | SNone => HEV_SOCKS5_AUTH_METHOD_NONE
                      | _ => HEV_SOCKS5_AUTH_METHOD_USER
                      end in
        mret (if decide (method ∈ data res) then method else -1).

Definition hev_socks5_server_write_auth_method (auth_method : Z) : P Server Z :=
  fd ← get_base sk_fd;
  res ← call (Send fd [HEV_SOCKS5_VERSION_5; u8 auth_method]);
  if decide (ret res ≤ 0) then mret (-1) else mret 0.

(** [hev_socks5_authenticator_get (self->auth, ...)]: the union must hold the
    authenticator. *)
Definition server_auth_get (name : list Z) (nlen : Z) : P Server ptr :=
  o ← pgets sv_obj;
  if o is SAuth then on_auth (hev_socks5_authenticator_get name nlen) else ub.

Definition hev_socks5_server_read_auth_user : P Server Z :=
  fd ← get_base sk_fd;
  res ← call (Recv fd 2);
  if decide (ret res ≠ 2) then mret (-1)
  else
    ver ← plift (mem_get (data res) 0);
    if decide (ver ≠ 1) then mret (-1)
    else
      nlen ← plift (mem_get (data res) 1);
      if decide (nlen = 0) then mret (-1)
      else
        name ← call (Recv fd (nlen + 1));
        if decide (ret name ≠ nlen + 1) then mret (-1)
        else
          plen ← plift (mem_get (data name) nlen);
          if decide (plen = 0) then mret (-1)
          else
            pass ← call (Recv fd plen);
            if decide (ret pass ≠ plen) then mret (-1)
            else
              user ← server_auth_get (data name) nlen;
              if decide (user = NULL) then mret (-1)
              else
                res ← on_auth (hev_socks5_user_check user (data pass) plen);
                if decide (res < 0) then mret (-1)
                else
                  ref_user user;;
                  o ← pgets sv_obj;
                  unref_obj o;;
                  pmod (set_sv_obj (SUser user));;
                  mret 0.

Definition hev_socks5_server_write_auth_user (auth_res : Z) : P Server Z :=
  fd ← get_base sk_fd;
  res ← call (Send fd [1; u8 auth_res]);
  if decide (ret res ≤ 0) then mret (-1) else mret 0.

Definition hev_socks5_server_auth : P Server Z :=
  method ← hev_socks5_server_read_auth_method;
  res ← hev_socks5_server_write_auth_method method;
  if decide (res < 0) then mret (-1)
  else if decide (method = HEV_SOCKS5_AUTH_METHOD_NONE) then mret 0
  else if decide (method = HEV_SOCKS5_AUTH_METHOD_USER) then
    res ← hev_socks5_server_read_auth_user;
    r2 ← hev_socks5_server_write_auth_user res;
    if decide (Z.lor res r2 < 0) then mret (-1) else mret 0
  else mret (-1).

(** ** The request and the reply *)

(** The result, and the command, reply and address stored through the
    pointers; a command not stored is indeterminate. *)
Definition hev_socks5_server_read_request (rep : Z) (addr : sockaddr_in6) :
    P Server (Z * option Z * Z * sockaddr_in6) :=
  fd ← get_base sk_fd;
  res ← call (Recv fd 5);
  if decide (ret res ≠ 5) then mret (-1, None, rep, addr)
  else
    ver ← plift (mem_get (data res) 0);
    if decide (ver ≠ HEV_SOCKS5_VERSION_5) then mret (0, None, HEV_SOCKS5_RES_REP_FAIL, addr)
    else
      cmd ← plift (mem_get (data res) 1);
      atype ← plift (mem_get (data res) 3);
      len ← plift (mem_get (data res) 4);
      let addrlen := if decide (atype = HEV_SOCKS5_ADDR_TYPE_IPV4) then 5
                     else if decide (atype = HEV_SOCKS5_ADDR_TYPE_IPV6) then 17
                     else if decide (atype = HEV_SOCKS5_ADDR_TYPE_NAME) then 2 + len else -1 in
      if decide (addrlen < 0) then mret (0, None, HEV_SOCKS5_RES_REP_ADDR, addr)
      else
        rest ← call (Recv fd addrlen);
        if decide (ret rest ≠ addrlen) then mret (0, None, HEV_SOCKS5_RES_REP_ADDR, addr)
        else
          addr_family ← get_base hev_socks5_get_addr_family;
          block ← plift (mem_write frame 0 (atype :: len :: data rest));
          '(res, addr, addr_family) ←
            hev_socks5_addr_into_sockaddr6 inet_pton4 inet_pton6 block addr addr_family;
          if decide (res < 0) then mret (0, None, HEV_SOCKS5_RES_REP_ADDR, addr)
          else
            upd_base (hev_socks5_set_addr_family addr_family);;
            mret (0, Some cmd, rep, addr).

Definition hev_socks5_server_write_response (rep : Z) (addr : sockaddr_in6) : P Server Z :=
  '(len, block) ← plift (hev_socks5_addr_from_sockaddr6 frame addr);
  bs ← plift (mem_read block 0 len);
  fd ← get_base sk_fd;
  res ← call (Send fd (HEV_SOCKS5_VERSION_5 :: u8 rep :: 0 :: bs));
  if decide (ret res ≤ 0) then mret (-1) else mret 0.

Definition hev_socks5_server_connect (addr : sockaddr_in6) : P Server Z :=
  fd ← hev_socks5_socket g SOCK_STREAM;
  if decide (fd < 0) then mret (-1)
  else
    res ← binder fd addr;
    if decide (res < 0) then del_close fd;; mret (-1)
    else
      upd_base (hev_socks5_set_timeout (hev_socks5_get_connect_timeout g));;
      res ← call (Connect fd addr);
      if decide (ret res < 0) then del_close fd;; mret (-1)
      else
        upd_base (hev_socks5_set_timeout (hev_socks5_get_tcp_timeout g));;
        pmod (λ s, set_sv_fds (fd, (sv_fds s).2) s);;
        mret 0.

(** The [binder] of [HevSocks5ServerClass]: its result and [src]. *)
Definition hev_socks5_server_udp_bind (sock : Z) (src : sockaddr_in6) : P Server (Z * sockaddr_in6) :=
  fd ← get_base sk_fd;
  r ← call (GetSockName fd);
  if decide (ret r < 0) then mret (-1, src)
  else
    let src := mkSockaddr AF_INET6 0 (data r) in
    b ← call (Bind sock src);
    if decide (ret b < 0) then mret (-1, src)
    else
      r ← call (GetSockName sock);
      if decide (ret r < 0) then mret (-1, src)
      else mret (0, mkSockaddr AF_INET6 (aux r) (data r)).

Definition hev_socks5_server_bind (addr : option sockaddr_in6) : P Server (Z * option sockaddr_in6) :=
  fd ← hev_socks5_socket g SOCK_DGRAM;
  if decide (fd < 0) then mret (-1, addr)
  else
    pmod (λ s, set_sv_fds (fd, (sv_fds s).2) s);;
    match addr with
    | None => mret (0, None)
    | Some sa =>
        fd ← hev_socks5_socket g SOCK_DGRAM;
        if decide (fd < 0) then mret (-1, addr)
        else
          res ← call (SetSockOpt fd SOL_SOCKET SO_REUSEADDR 1);
          if decide (ret res < 0) then del_close fd;; mret (-1, addr)
          else
            '(res, sa) ← hev_socks5_server_udp_bind fd sa;
            if decide (res < 0) then del_close fd;; mret (-1, Some sa)
            else
              pmod (λ s, set_sv_fds ((sv_fds s).1, fd) s);;
              mret (0, Some sa)
    end.

(** The [switch (cmd)] of the handshake: the reply and the address. *)
Definition server_command (cmd : Z) (rep : Z) (addr : sockaddr_in6) : P Server (Z * sockaddr_in6) :=
  if decide (cmd = HEV_SOCKS5_REQ_CMD_CONNECT) then
    res ← hev_socks5_server_connect addr;
    upd_base (set_sk_type HEV_SOCKS5_TYPE_TCP);;
    mret (if decide (res < 0) then HEV_SOCKS5_RES_REP_HOST else rep, addr)
  else if decide (cmd = HEV_SOCKS5_REQ_CMD_UDP_ASC) then
    '(res, sa) ← hev_socks5_server_bind (Some addr);
    upd_base (set_sk_type HEV_SOCKS5_TYPE_UDP_IN_UDP);;
    mret (if decide (res < 0) then HEV_SOCKS5_RES_REP_FAIL else rep, default addr sa)
  else if decide (cmd = HEV_SOCKS5_REQ_CMD_FWD_UDP) then
    '(res, _) ← hev_socks5_server_bind None;
    upd_base (set_sk_type HEV_SOCKS5_TYPE_UDP_IN_TCP);;
    mret (if decide (res < 0) then HEV_SOCKS5_RES_REP_FAIL else rep, addr)
  else mret (HEV_SOCKS5_RES_REP_IMPL, addr).

Definition hev_socks5_server_handshake : P Server Z :=
  upd_base (hev_socks5_set_timeout (hev_socks5_get_tcp_timeout g));;
  res ← hev_socks5_server_auth;
  if decide (res < 0) then mret (-1)
  else
    '(res, cmd, rep, addr) ← hev_socks5_server_read_request HEV_SOCKS5_RES_REP_SUCC zero_sockaddr;
    if decide (res < 0) then mret (-1)
    else
      '(rep, addr) ←
        (if decide (rep = HEV_SOCKS5_RES_REP_SUCC) then
           cmd ← plift cmd; server_command cmd rep addr
         else mret (rep, addr));
      res ← hev_socks5_server_write_response rep addr;
      if decide (res < 0 ∨ rep ≠ HEV_SOCKS5_RES_REP_SUCC) then mret (-1) else mret 0.

(** ** Service *)

Definition hev_socks5_server_service (fuel : nat) (bufs : list (list Z)) : P Server (option Z) :=
  ty ← get_base sk_type;
  if decide (ty = HEV_SOCKS5_TYPE_TCP) then
    fds ← pgets sv_fds;
    hev_socks5_tcp_splicer fds.1;;
    mret (Some 0)
  else if decide (ty = HEV_SOCKS5_TYPE_UDP_IN_UDP ∨ ty = HEV_SOCKS5_TYPE_UDP_IN_TCP) then
    upd_base (hev_socks5_set_timeout (hev_socks5_get_udp_timeout g));;
    fds ← pgets sv_fds;
    o ← hev_socks5_udp_splicer inet_pton4 inet_pton6 g (take 19 frame) fuel bufs fds.1;
    mret (match o with None => None | Some _ => Some 0 end)
  else mret (Some (-1)).

Definition hev_socks5_server_run (fuel : nat) (bufs : list (list Z)) : P Server (option Z) :=
  fd ← get_base sk_fd;
  r ← call (AddFd fd);
  (if decide (ret r < 0) then call (ModFd fd);; mret tt else mret tt);;
  res ← hev_socks5_server_handshake;
  if decide (res < 0) then mret (Some (-1))
  else
    o ← hev_socks5_server_service fuel bufs;
    mret (match o with
          | None => None
          | Some res => Some (if decide (res < 0) then -1 else 0)
          end).

Definition hev_socks5_server_destruct : P Server unit :=
  fds ← pgets sv_fds;
  (if decide (0 ≤ fds.1) then del_close fds.1 else mret tt);;
  (if decide (0 ≤ fds.2) then del_close fds.2 else mret tt);;
  o ← pgets sv_obj;
  (if o is SNone then mret tt else unref_obj o);;
  hev_socks5_destruct.
End Program.
