(* ===== verification/ServerProps.v ===== *)
(** * Properties of the server

    Against any client, the server's handshake has no undefined behaviour,
    succeeds only for a client with a user's name and password (when an
    authenticator is set), and every descriptor it opens is closed by the
    destructor exactly once. *)

From S2P Require Import Prelude Buffer IO Addr Interfaces RBTree RBMap Auth Socks5 Client Udp Server ClientProps.

Section Props.
Context (ub : Prop).
Context {T : Type} `{!SearchTree T}.
Abbreviation Server := (HevSocks5Server T).
Implicit Types s : Server.

(** The store represents the map [m] of users, all of them well formed, and
    the object the server holds is alive. *)
Definition server_ok s (m : gmap (list Z) ptr) : Prop :=
  (∃ l, auth_rep (sv_store s) l m ∧
     ∀ p u, p ∈ l → users (sv_store s) !! p = Some u → pass_wf u) ∧
  match sv_obj s with SUser p => is_Some (users (sv_store s) !! p) | _ => True end.

Definition server_alive s : Prop := ∃ m, server_ok s m.

(** The descriptors of a server stay. *)
Definition same_fds s s' : Prop := sk_fd (sv_base s') = sk_fd (sv_base s) ∧ sv_fds s' = sv_fds s.

(** ** Steps of the authenticator *)

Lemma wp_on_auth {A B} (m : M (HevSocks5Authenticator T) A) (f : A → P Server B) s a st Q :
  m (sv_store s) = Some (a, st) → wp ub (f a (set_sv_store st s)) Q → wp ub ((on_auth m ≫= f) s) Q.
Proof. intros E H. apply wp_bind. unfold on_auth. rewrite E. exact H. Qed.

Lemma set_store_id s : set_sv_store (sv_store s) s = s.
Proof. by destruct s. Qed.

(** Releasing the authenticator keeps the users that have other owners. *)
Lemma unref_auth_spec s l m : auth_rep (sv_store s) l m →
  wp ub (unref_obj SAuth s) (λ r tr, tr = [] ∧ sv_base r.2 = sv_base s ∧ sv_fds r.2 = sv_fds s ∧
    sv_obj r.2 = sv_obj s ∧ (∃ l' m', auth_rep (sv_store r.2) l' m' ∧ (∀ p, p ∈ l' → p ∈ l) ∧
      (∀ p, p ∈ l' → users (sv_store r.2) !! p = users (sv_store s) !! p)) ∧
    ∀ p u, users (sv_store s) !! p = Some u → ref_count u ≠ 1 → is_Some (users (sv_store r.2) !! p)).
Proof.
  intros Hr. unfold unref_obj. rewrite pgets_bind, pmod_bind. case_decide as Hz.
  - destruct (auth_clear_spec _ _ _ Hr) as (st' & m' & E & Hr' & Hq).
    unfold on_auth. cbn [sv_store set_sv_auth_ref]. rewrite E. cbn. split_and!; try done.
    + exists [], m'. split_and!; [done | set_solver | set_solver].
    + intros p u Hu H1. apply Hq; [by eauto |]. intros u' _ Hu'. by simplify_eq.
  - cbn. split_and!; try done. by exists l, m.
Qed.

(** ** Authentication *)

Definition quiet_fds (tr : list (ev * resp)) : Prop := ∀ l, fds_after l tr = Some l.

Lemma quiet_app t1 t2 : quiet_fds t1 → quiet_fds t2 → quiet_fds (t1 ++ t2).
Proof. intros H1 H2 l. by rewrite (fds_after_app _ _ _ _ (H1 l)). Qed.

Lemma server_read_method_spec s :
  wp ub (hev_socks5_server_read_auth_method s) (λ r tr, r.2 = s ∧ quiet_fds tr ∧ -1 ≤ r.1 ∧
    (0 ≤ r.1 → ∃ n ms, rcvd (sk_fd (sv_base s)) tr = [5; n] ++ ms ∧ n = Z.of_nat (length ms) ∧
      r.1 ∈ ms ∧ r.1 = match sv_obj s with SNone => 0 | _ => 2 end)).
Proof.
  unfold hev_socks5_server_read_auth_method, get_base. rewrite pgets_bind. cbn [base server_object].
  apply wp_call. intros x Hx. case_decide as Hr; [cbn; split_and!; try done; lia |].
  destruct (recv2 _ _ Hx) as (b0 & b1 & E & H0 & H1); [lia |]. rewrite E.
  eapply wp_lift; [reflexivity |]. case_decide as Hv; [cbn; split_and!; try done; lia |].
  eapply wp_lift; [reflexivity |]. apply wp_call. intros y Hy.
  case_decide as Hr2; [cbn; split_and!; try done; lia |]. rewrite pgets_bind. cbv zeta.
  set (meth := match sv_obj s with SNone => _ | _ => _ end).
  assert (meth = match sv_obj s with SNone => 0 | _ => 2 end ∧ 0 ≤ meth) as [Hm Hm0]
    by (unfold meth; by destruct (sv_obj s)).
  unfold mret, P_ret; cbn [wp fst snd]. split_and!; [done | done | case_decide; lia |].
  case_decide as Hin; [intros _ | lia]. exists b1, (data y).
  rewrite !rcvd_recv, E. unfold HEV_SOCKS5_VERSION_5 in Hv. assert (b0 = 5) as -> by lia.
  cbn. rewrite app_nil_r. split_and!; [done | | done | done].
  destruct Hy as (_ & [[? ?] | [? Hd]]); [lia |]. rewrite Hd in Hin. by apply elem_of_nil in Hin.
Qed.

(** A step that only sends. *)
Definition send_only (tr : list (ev * resp)) : Prop := quiet_fds tr ∧ ∀ fd, rcvd fd tr = [].

Lemma send_spec s fd bs :
  wp ub ((call (Send fd bs) ≫= λ res, if decide (ret res ≤ 0) then mret (-1) else mret 0) s) (λ r tr,
    r.2 = s ∧ send_only tr ∧ (r.1 = 0 ∨ r.1 = -1)).
Proof. apply wp_call. intros x _. case_decide; cbn; (split; [done |]); (split; [done |]); tauto. Qed.

Lemma write_auth_method_spec s v :
  wp ub (hev_socks5_server_write_auth_method v s) (λ r tr, r.2 = s ∧ send_only tr ∧ (r.1 = 0 ∨ r.1 = -1)).
Proof. unfold hev_socks5_server_write_auth_method, get_base. rewrite pgets_bind. apply send_spec. Qed.

Lemma write_auth_user_spec s v :
  wp ub (hev_socks5_server_write_auth_user v s) (λ r tr, r.2 = s ∧ send_only tr ∧ (r.1 = 0 ∨ r.1 = -1)).
Proof. unfold hev_socks5_server_write_auth_user, get_base. rewrite pgets_bind. apply send_spec. Qed.

(** The user of a name and the password presented for it. *)
Definition login s (m : gmap (list Z) ptr) (rest : list Z) (o : sobj) : Prop :=
  ∃ nl name pl pass p u,
    rest = [1; nl] ++ name ++ pl :: pass ∧ nl = Z.of_nat (length name) ∧ pl = Z.of_nat (length pass) ∧
    m !! name = Some p ∧ users (sv_store s) !! p = Some u ∧ upass u = pass ∧ o = SUser p.

Lemma auth_rep_ref (st : HevSocks5Authenticator T) l m p u n :
  auth_rep st l m → users st !! p = Some u → 0 < n →
  auth_rep (mkAuth (a_tree st) (<[p := mkUser (u_name u) (u_pass u) (name_len u) (pass_len u) n]> (users st))) l m.
Proof.
  intros [Ht Hs Hu Hm] Hp Hn.
  set (us := <[p := _]> (users st)). assert (∀ q, key_of us q = key_of (users st) q) as Hk.
  { intros q. unfold key_of, us. destruct (decide (q = p)) as [-> | Hq].
    - by rewrite lookup_insert_eq, Hp.
    - by rewrite lookup_insert_ne. }
  split; cbn; [done | by eapply (key_desc_agree (users st)); [intros; apply Hk |] | |].
  - intros q Hq. destruct (Hu q Hq) as (v & Hv & Hn1 & Hn2 & Hn3). unfold us.
    destruct (decide (q = p)) as [-> | Hqp].
    + simplify_eq. eexists. rewrite lookup_insert_eq. split; [done |]. done.
    + exists v. by rewrite lookup_insert_ne.
  - intros k q. by rewrite Hk.
Qed.

Definition add_ref (u : HevSocks5User) : HevSocks5User :=
  mkUser (u_name u) (u_pass u) (name_len u) (pass_len u) (ref_count u + 1).

Lemma ref_user_spec s p u : users (sv_store s) !! p = Some u →
  ref_user p s = Ret (tt, set_sv_store (mkAuth (a_tree (sv_store s)) (<[p := add_ref u]> (users (sv_store s)))) s).
Proof.
  intros Hu. unfold ref_user. erewrite pbind_ret; [reflexivity |].
  unfold on_auth, user_get. rewrite Hu. cbn. by rewrite set_store_id.
Qed.

(** Take the reference of the accepted user and release the authenticator. *)
Lemma switch_user_spec s l m p u :
  auth_rep (sv_store s) l m → (∀ q v, q ∈ l → users (sv_store s) !! q = Some v → pass_wf v) →
  users (sv_store s) !! p = Some u → 0 < ref_count u → sv_obj s = SAuth →
  wp ub ((ref_user p;; o ← pgets sv_obj; unref_obj o;; pmod (set_sv_obj (SUser p));; mret 0) s) (λ r tr,
    tr = [] ∧ r.1 = 0 ∧ same_fds s r.2 ∧ server_alive r.2 ∧ sv_obj r.2 = SUser p ∧ sv_base r.2 = sv_base s).
Proof.
  intros Hr Hpw Hu Hrc Ho. erewrite pbind_ret by (apply ref_user_spec; exact Hu).
  set (s1 := set_sv_store _ s). rewrite pgets_bind. change (sv_obj s1) with (sv_obj s). rewrite Ho.
  assert (auth_rep (sv_store s1) l m) as Hr1 by (eapply auth_rep_ref; [done | done | lia]).
  eapply wp_then; [by eapply unref_auth_spec |].
  cbn [fst snd]. intros [] s2 t1 (-> & Hb & Hfd & _ & (l' & m' & Hr2 & Hin & Hus) & Hal). cbn [fst snd] in *.
  rewrite pmod_bind. unfold mret, P_ret. cbn [wp fst snd app].
  split; [done |]. split; [done |]. split; [split; cbn; [by rewrite Hb | by rewrite Hfd] |]. split; [|by split].
  exists m'. split.
  - exists l'. split; [done |]. cbn. intros q v Hq Hv. rewrite Hus in Hv by done. cbn in Hv.
    destruct (decide (q = p)) as [-> | Hqp].
    + rewrite lookup_insert_eq in Hv. simplify_eq. apply (Hpw p u); auto.
    + rewrite lookup_insert_ne in Hv by done. apply (Hpw q v); auto.
  - cbn. apply (Hal p (add_ref u)); [cbn; apply lookup_insert_eq | cbn; lia].
Qed.

Context (inet_pton4 inet_pton6 : list Z → option (list Z)).
Context (Hp4 : pton_ok 4 inet_pton4) (Hp6 : pton_ok 16 inet_pton6).
Context (g : misc) (frame : list Z) (Hframe : length frame = SIZEOF_ADDR) (Hfb : bytes_ok frame).

Lemma valid_recv_len fd n x : valid (Recv fd n) x → ret x = n → 0 ≤ n → Z.of_nat (length (data x)) = n.
Proof. intros (_ & [[? ?] | [? ->]]) Hr Hn; cbn; lia. Qed.

Lemma read_auth_user_spec s m :
  server_ok s m → sv_obj s = SAuth →
  wp ub (hev_socks5_server_read_auth_user s) (λ r tr, quiet_fds tr ∧ same_fds s r.2 ∧ server_alive r.2 ∧
    (r.1 = 0 ∨ r.1 = -1) ∧ (r.1 = 0 → login s m (rcvd (sk_fd (sv_base s)) tr) (sv_obj r.2))).
Proof.
  intros Hok Ho. pose proof Hok as [(l & Hr & Hpw) _].
  assert (∀ tr, quiet_fds tr → quiet_fds tr ∧ same_fds s s ∧ server_alive s ∧ (-1 = 0 ∨ -1 = -1) ∧
    (-1 = 0 → login s m (rcvd (sk_fd (sv_base s)) tr) (sv_obj s))) as Hfail.
  { intros tr Ht. split_and!; [done | done | by exists m | by right | done]. }
  unfold hev_socks5_server_read_auth_user, get_base. rewrite pgets_bind. cbn [base server_object].
  apply wp_call. intros x Hx. case_decide as Hrx; [by apply Hfail |].
  destruct (recv2 _ _ Hx) as (b0 & nl & Ex & _ & Hnl); [lia |]. rewrite Ex.
  eapply wp_lift; [reflexivity |]. case_decide as Hv; [by apply Hfail |].
  eapply wp_lift; [reflexivity |]. case_decide as Hnz; [by apply Hfail |].
  apply wp_call. intros y Hy. case_decide as Hry; [by apply Hfail |].
  unfold byte_ok in Hnl.
  pose proof (valid_recv_len _ _ _ Hy ltac:(lia) ltac:(lia)) as Hly.
  destruct (block_split (data y) (Z.to_nat nl)) as (name & tl & Ey & Hname); [lia |].
  rewrite Ey, length_app in Hly. destruct tl as [|pl [|? ?]]; cbn in Hly; try lia.
  assert (byte_ok pl) as Hpl.
  { destruct Hy as [Hb _]. rewrite Ey in Hb. apply Forall_app in Hb as [_ Hb]. by apply Forall_cons in Hb as [? _]. }
  unfold byte_ok in Hpl. rewrite Ey.
  eapply wp_lift.
  { replace nl with (Z.of_nat (length name) + 0) by lia. rewrite mem_get_app by lia. reflexivity. }
  case_decide as Hpz; [by apply Hfail |].
  apply wp_call. intros z Hz. case_decide as Hrz; [by apply Hfail |].
  pose proof (valid_recv_len _ _ _ Hz ltac:(lia) ltac:(lia)) as Hlz.
  unfold server_auth_get. erewrite pbind_ret; last first.
  { rewrite pgets_bind, Ho. unfold on_auth.
    rewrite (auth_get_spec _ l m _ _ Hr) by (rewrite length_app; cbn; lia).
    rewrite <-Hname, take_app_length, set_store_id. reflexivity. }
  destruct (m !! name) as [p|] eqn:Hm; cbn [default id]; [|rewrite decide_True by done; by apply Hfail].
  destruct (proj1 (ar_map _ _ _ Hr name p) Hm) as [Hpin Hkey].
  destruct (ar_users _ _ _ Hr p Hpin) as (u & Hu & Hwf).
  destruct (tr_rep_ok _ _ (ar_tree _ _ _ Hr)) as (_ & Hokp & _).
  rewrite Forall_forall in Hokp. destruct (Hokp p Hpin) as [Hnn _].
  rewrite decide_False by done. eapply wp_on_auth.
  { unfold hev_socks5_user_check. erewrite mbind_some by (apply user_get_some; exact Hu).
    unfold mlift. rewrite user_checker_spec by (by eauto || lia). reflexivity. }
  rewrite set_store_id. replace (Z.to_nat pl) with (length (data z)) by lia. rewrite firstn_all.
  destruct (decide (data z = upass u)) as [Hpass | Hpass];
    [rewrite decide_False by lia | rewrite decide_True by lia; by apply Hfail].
  eapply wp_mono; [eapply switch_user_spec; eauto; apply Hwf |].
  intros [res s'] tr (-> & -> & Hfds & Hal & Hobj & _). cbn [fst snd] in *.
  split_and!; [done | done | done | by left |]. intros _.
  exists nl, name, pl, (data z), p, u. rewrite !rcvd_recv, Ex, Ey. cbn. rewrite app_nil_r.
  assert (b0 = 1) as -> by lia. split_and!; try done; try lia. by rewrite <-app_assoc.
Qed.

(** What the server accepted from the client: the offered methods [ms], and
    the login when the server holds an authenticator. *)
Definition accepted s (m : gmap (list Z) ptr) (r : list Z) (o : sobj) : Prop :=
  ∃ n ms rest, r = [5; n] ++ ms ++ rest ∧ n = Z.of_nat (length ms) ∧
    match sv_obj s with
    | SNone => 0 ∈ ms ∧ rest = [] ∧ o = SNone
    | SAuth => 2 ∈ ms ∧ login s m rest o
    | SUser _ => False
    end.

Definition may_login s : Prop := match sv_obj s with SUser _ => False | _ => True end.

Lemma same_fds_refl s : same_fds s s.
Proof. done. Qed.

Lemma server_auth_spec s m :
  server_ok s m → may_login s →
  wp ub (hev_socks5_server_auth s) (λ r tr, quiet_fds tr ∧ same_fds s r.2 ∧ server_alive r.2 ∧
    (r.1 = 0 ∨ r.1 = -1) ∧ (r.1 = 0 → accepted s m (rcvd (sk_fd (sv_base s)) tr) (sv_obj r.2))).
Proof.
  intros Hok Hlog.
  assert (∀ tr, quiet_fds tr → quiet_fds tr ∧ same_fds s s ∧ server_alive s ∧ (-1 = 0 ∨ -1 = -1) ∧
    (-1 = 0 → accepted s m (rcvd (sk_fd (sv_base s)) tr) (sv_obj s))) as Hfail.
  { intros tr Ht. split_and!; [done | done | by exists m | by right | done]. }
  unfold hev_socks5_server_auth. eapply wp_then; [apply server_read_method_spec |].
  cbn [fst snd]. intros method ? t1 (-> & Ht1 & Hm1 & Hm). cbn [fst snd] in *.
  eapply wp_then; [apply write_auth_method_spec |]. cbn [fst snd]. intros res ? t2 (-> & [Ht2 Hr2] & Hres). cbn [fst snd] in *.
  assert (quiet_fds (t1 ++ t2)) as Ht12 by (by apply quiet_app).
  case_decide; [cbn; rewrite app_nil_r; by apply Hfail |].
  unfold HEV_SOCKS5_AUTH_METHOD_NONE, HEV_SOCKS5_AUTH_METHOD_USER.
  destruct (decide (method = 0)) as [-> | Hm0].
  { destruct Hm as (n & ms & E & En & Hin & Hmeth); [lia |]. cbn. rewrite app_nil_r.
    split_and!; [done | done | by exists m | by left |]. intros _. exists n, ms, [].
    rewrite rcvd_app, E, Hr2, !app_nil_r. split_and!; [done.. |]. by destruct (sv_obj s). }
  destruct (decide (method = 2)) as [-> | Hm2]; [|cbn; rewrite app_nil_r; by apply Hfail].
  destruct Hm as (n & ms & E & En & Hin & Hmeth); [lia |].
  assert (sv_obj s = SAuth) as Ho by (unfold may_login in Hlog; by destruct (sv_obj s)).
  eapply wp_then; [by apply read_auth_user_spec |].
  cbn [fst snd]. intros res3 s3 t3 (Ht3 & Hfd3 & Hal3 & Hres3 & Hlogin). cbn [fst snd] in *.
  eapply wp_then; [apply write_auth_user_spec |]. cbn [fst snd]. intros res4 ? t4 (-> & [Ht4 Hr4] & Hres4). cbn [fst snd] in *.
  assert (quiet_fds (t1 ++ t2 ++ t3 ++ t4)) as Ht14 by (by repeat apply quiet_app).
  assert (Z.lor res3 res4 < 0 ↔ ¬ (res3 = 0 ∧ res4 = 0)) as Hlor.
  { destruct Hres3 as [-> | ->], Hres4 as [-> | ->];
      match goal with |- Z.lor ?a ?b < 0 ↔ _ => let v := eval vm_compute in (Z.lor a b) in change (Z.lor a b) with v end; lia. }
  case_decide as Hd; cbn; rewrite app_nil_r.
  - split_and!; [done.. | by right | done].
  - assert (res3 = 0 ∧ res4 = 0) as [-> ->] by lia.
    split_and!; [done.. | by left |]. intros _. exists n, ms, (rcvd (sk_fd (sv_base s)) t3).
    rewrite !rcvd_app, E, Hr2, Hr4, app_nil_r. rewrite Ho.
    split_and!; [by rewrite <-app_assoc | done | by rewrite Ho in Hmeth | by apply Hlogin].
Qed.

(** ** The request and the reply *)

(** Only the base object changed, and not its descriptor. *)
Definition same_server s s' : Prop :=
  sk_fd (sv_base s') = sk_fd (sv_base s) ∧ sv_fds s' = sv_fds s ∧ sv_obj s' = sv_obj s ∧
  sv_store s' = sv_store s.

Lemma same_server_refl s : same_server s s.
Proof. done. Qed.

Lemma same_server_trans s1 s2 s3 : same_server s1 s2 → same_server s2 s3 → same_server s1 s3.
Proof. intros (? & ? & ? & ?) (? & ? & ? & ?). split_and!; congruence. Qed.

Lemma same_server_base s f : sk_fd (f (sv_base s)) = sk_fd (sv_base s) → same_server s (set_base (f (base s)) s).
Proof. intros H. split_and!; [exact H | done..]. Qed.

Lemma set_timeout_fd t b : sk_fd (hev_socks5_set_timeout t b) = sk_fd b.
Proof. unfold hev_socks5_set_timeout. by case_decide. Qed.

Lemma zero_sa_ok : sa_ok zero_sockaddr.
Proof. done. Qed.

Lemma read_request_spec s rep sa : sa_ok sa →
  wp ub (hev_socks5_server_read_request inet_pton4 inet_pton6 frame rep sa s) (λ r tr,
    let '(res, cmd, rep', sa', s') := r in
    quiet_fds tr ∧ same_server s s' ∧ (res = 0 ∨ res = -1) ∧ sa_ok sa' ∧
    (rep' = HEV_SOCKS5_RES_REP_SUCC → res = 0 → is_Some cmd)).
Proof.
  intros Hsa. unfold hev_socks5_server_read_request, get_base. rewrite pgets_bind. cbn [base server_object].
  apply wp_call. intros x Hx. case_decide as Hr; [cbn; split_and!; try done; by right |].
  pose proof (valid_recv_len _ _ _ Hx ltac:(lia) ltac:(lia)) as Hl. destruct Hx as [Hbx _].
  destruct (data x) as [|v [|cmd [|rsv [|at_ [|len [|? ?]]]]]]; cbn in Hl; try lia.
  rewrite !Forall_cons in Hbx. destruct Hbx as (_ & _ & _ & Hat & Hlen & _).
  eapply wp_lift; [reflexivity |]. case_decide as Hv; [cbn; split_and!; try done; by left |].
  do 3 (eapply wp_lift; [reflexivity |]). cbv zeta.
  set (n := if decide (at_ = _) then _ else _).
  assert (n < 259) as Hn by (unfold n, byte_ok in *; repeat case_decide; lia). clearbody n.
  destruct (decide (n < 0)); [cbn; split_and!; try done; by left |].
  apply wp_call. intros y Hy. destruct (decide (ret y ≠ n)) as [|Hry]; [cbn; split_and!; try done; by left |].
  pose proof (valid_recv_len _ _ _ Hy ltac:(lia) ltac:(lia)) as Hly. destruct Hy as [Hby _].
  rewrite pgets_bind. unfold SIZEOF_ADDR in *.
  destruct (mem_write_in frame (at_ :: len :: data y)) as (block & Ew & Hlb); [cbn; lia |].
  eapply wp_lift; [exact Ew |].
  assert (bytes_ok block) as Hbb.
  { eapply mem_write_bytes; [exact Hfb | | exact Ew]. by rewrite !Forall_cons. }
  eapply wp_then; [apply into_sockaddr6_any; try done; unfold SIZEOF_ADDR; lia |].
  intros [[res sa'] fam'] s' t1 (-> & [_ Hq] & Hres & Hsa').
  assert (quiet_fds ((Recv (sk_fd (sv_base s)) 5, x) :: (Recv (sk_fd (sv_base s)) n, y) :: t1)) as Hq' by exact Hq.
  destruct (decide (res < 0)); unfold mret, P_ret, upd_base; cbn [wp].
  - rewrite app_nil_r. split_and!; try done. by left.
  - rewrite pmod_bind. cbn [wp]. rewrite app_nil_r. split_and!; try done. by left.
Qed.

Lemma from_sockaddr6_ok sa : sa_ok sa →
  ∃ n block, hev_socks5_addr_from_sockaddr6 frame sa = Some (n, block) ∧ 0 ≤ n ≤ Z.of_nat (length block).
Proof.
  intros [Hl Hp]. destruct (from_sockaddr6_spec frame (mkSockaddr AF_INET6 (sin6_port sa) (sin6_addr sa)))
    as (n & b & E & _ & Hb & Hn & _); [unfold SIZEOF_ADDR in *; lia | done.. |].
  exists n, b. split; [exact E |]. rewrite Hb, Hframe, Hn. unfold SIZEOF_ADDR. by case_match.
Qed.

Lemma write_response_spec s rep sa : sa_ok sa →
  wp ub (hev_socks5_server_write_response frame rep sa s) (λ r tr,
    r.2 = s ∧ send_only tr ∧ (r.1 = 0 ∨ r.1 = -1)).
Proof.
  intros Hsa. unfold hev_socks5_server_write_response, get_base.
  destruct (from_sockaddr6_ok sa Hsa) as (n & b & E & Hn). eapply wp_lift; [exact E |].
  destruct (mem_read_in b 0 n) as (bs & Er & _); [lia.. |]. eapply wp_lift; [exact Er |].
  rewrite pgets_bind. apply send_spec.
Qed.

(** ** The outgoing sockets *)

(** The descriptors in [sv_fds], most recent first. *)
Definition open_fds (fds : Z * Z) : list Z :=
  (if decide (0 ≤ fds.2) then [fds.2] else []) ++ (if decide (0 ≤ fds.1) then [fds.1] else []).

(** From a server without sockets, a command opens exactly those it stores. *)
Definition opens s s' (tr : list (ev * resp)) : Prop :=
  sk_fd (sv_base s') = sk_fd (sv_base s) ∧ sv_obj s' = sv_obj s ∧ sv_store s' = sv_store s ∧
  ∀ l, fds_after l tr = Some (open_fds (sv_fds s') ++ l).

Lemma connect_spec s sa : sv_fds s = (-1, -1) →
  wp ub (hev_socks5_server_connect g sa s) (λ r tr, (r.1 = 0 ∨ r.1 = -1) ∧ opens s r.2 tr).
Proof.
  intros Hfds. unfold hev_socks5_server_connect.
  assert (∀ tr s', same_server s s' → quiet_fds tr → (-1 = 0 ∨ -1 = -1) ∧ opens s s' tr) as Hfail.
  { intros tr s' (? & Hf & ? & ?) Ht. split; [by right |]. split_and!; [done.. |]. intros l.
    rewrite Hf, Hfds. apply Ht. }
  eapply wp_then; [apply socket_spec |]. cbn [fst snd]. intros fd ? t1 (-> & Hfd & _ & Hl1).
  destruct (decide (fd < 0)) as [Hneg | Hneg].
  { cbn. rewrite app_nil_r. apply Hfail; [done |]. intros l. rewrite Hl1. by rewrite decide_False by lia. }
  assert (∀ l, fds_after l t1 = Some (fd :: l)) as Hl1'.
  { intros l. rewrite Hl1. by rewrite decide_True by lia. }
  cbn [binder server_object]. unfold hev_socks5_bind. rewrite pret_bind. rewrite decide_False by lia.
  unfold upd_base. rewrite pmod_bind. apply wp_call. intros x _.
  set (s1 := set_base _ s).
  assert (same_server s s1) as Hs1 by (apply same_server_base, set_timeout_fd).
  destruct (decide (ret x < 0)) as [Hx | Hx].
  - eapply wp_then; [apply del_close_spec |]. cbn [fst snd]. intros _ ? t2 (-> & _ & Hl2).
    cbn. rewrite app_nil_r. apply Hfail; [done |]. intros l.
    rewrite (fds_after_app _ _ _ _ (Hl1' l)). cbn. change (fds_after (fd :: l) t2 = Some l).
    apply Hl2. cbn. by rewrite decide_True.
  - rewrite !pmod_bind. unfold mret, P_ret. cbn [wp fst snd].
    split; [by left |]. split_and!.
    + cbn. rewrite set_timeout_fd. apply Hs1.
    + done.
    + done.
    + intros l. rewrite (fds_after_app _ _ _ _ (Hl1' l)). cbn. rewrite Hfds. unfold open_fds. cbn [fst snd].
      by rewrite (decide_True (P := 0 ≤ fd)) by lia.
Qed.
(** The state between the two sockets of a UDP association. *)
Lemma udp_bind_spec s sock sa : sa_ok sa →
  wp ub (hev_socks5_server_udp_bind sock sa s) (λ r tr,
    let '(res, sa', s') := r in s' = s ∧ quiet_fds tr ∧ (res = 0 ∨ res = -1) ∧ sa_ok sa').
Proof.
  intros Hsa. unfold hev_socks5_server_udp_bind, get_base. rewrite pgets_bind.
  apply wp_call. intros x (_ & Hl & Hp). case_decide; [cbn; split_and!; try done; by right |]. cbv zeta.
  assert (sa_ok (mkSockaddr AF_INET6 0 (data x))) by (by split; cbn).
  apply wp_call. intros y _. case_decide; [cbn; split_and!; try done; by right |].
  apply wp_call. intros z (_ & Hlz & Hpz). case_decide; [cbn; split_and!; try done; by right |].
  cbn. split_and!; try done. by left.
Qed.

Lemma bind_spec s o : sv_fds s = (-1, -1) → (∀ sa, o = Some sa → sa_ok sa) →
  wp ub (hev_socks5_server_bind g o s) (λ r tr,
    let '(res, o', s') := r in (res = 0 ∨ res = -1) ∧ opens s s' tr ∧ (∀ sa, o' = Some sa → sa_ok sa)).
Proof.
  intros Hfds Ho. unfold hev_socks5_server_bind.
  eapply wp_then; [apply socket_spec |]. cbn [fst snd]. intros fd ? t1 (-> & Hfd & _ & Hl1).
  destruct (decide (fd < 0)) as [Hneg | Hneg].
  { cbn. rewrite app_nil_r. split; [by right |]. split; [|done]. split_and!; [done.. |].
    intros l. rewrite Hl1, Hfds. by rewrite decide_False by lia. }
  assert (∀ l, fds_after l t1 = Some (fd :: l)) as Hl1'.
  { intros l. rewrite Hl1. by rewrite decide_True by lia. }
  rewrite pmod_bind. set (s1 := set_sv_fds _ s).
  assert (∀ tr, (∀ l, fds_after (fd :: l) tr = Some (fd :: l)) → opens s s1 (t1 ++ tr)) as Hone.
  { intros tr Ht. split_and!; [done.. |]. intros l. rewrite (fds_after_app _ _ _ _ (Hl1' l)), Ht.
    unfold s1. rewrite Hfds. unfold open_fds. cbn [sv_fds set_sv_fds fst snd].
    by rewrite (decide_True (P := 0 ≤ fd)) by lia. }
  destruct o as [sa|]; [|cbn; split; [by left |]; split; [by apply Hone | done]].
  eapply wp_then; [apply socket_spec |]. cbn [fst snd]. intros fd2 ? t2 (-> & Hfd2 & _ & Hl2).
  destruct (decide (fd2 < 0)) as [Hneg2 | Hneg2].
  { cbn. rewrite app_nil_r. split; [by right |]. split; [|done]. apply Hone.
    intros l. rewrite Hl2. by rewrite decide_False by lia. }
  assert (∀ l, fds_after l t2 = Some (fd2 :: l)) as Hl2'.
  { intros l. rewrite Hl2. by rewrite decide_True by lia. }
  assert (∀ o' t3 t4, (∀ sa, o' = Some sa → sa_ok sa) → quiet_fds t3 →
    (∀ l l', remove_one fd2 l = Some l' → fds_after l t4 = Some l') →
    (-1 = 0 ∨ -1 = -1) ∧ opens s s1 (t1 ++ t2 ++ t3 ++ t4) ∧ (∀ sa, o' = Some sa → sa_ok sa)) as Hfail.
  { intros o' t3 t4 Ho' H3 H4. split; [by right |]. split; [|done]. apply Hone. intros l.
    rewrite (fds_after_app _ _ _ _ (Hl2' _)), (fds_after_app _ _ _ _ (H3 _)).
    apply H4. cbn. by rewrite decide_True. }
  apply wp_call. intros x _. destruct (decide (ret x < 0)) as [Hx | Hx].
  { eapply wp_then; [apply del_close_spec |]. cbn [fst snd]. intros _ ? t3 (-> & _ & Hl3).
    cbn. rewrite app_nil_r. by apply (Hfail _ [_] t3). }
  eapply wp_then; [by apply udp_bind_spec, Ho |]. intros [res sa'] ? t3 (-> & Hq3 & Hres & Hsa').
  destruct (decide (res < 0)) as [Hr | Hr].
  { eapply wp_then; [apply del_close_spec |]. cbn [fst snd]. intros _ ? t4 (-> & _ & Hl4).
    cbn. rewrite app_nil_r. apply (Hfail _ (_ :: t3) t4); [by intros ? [= <-] | exact Hq3 | done]. }
  rewrite pmod_bind. unfold mret, P_ret. cbn [wp]. rewrite app_nil_r.
  split; [by left |]. split; [|by intros ? [= <-]]. split_and!; [done.. |]. intros l.
  rewrite (fds_after_app _ _ _ _ (Hl1' l)), (fds_after_app _ _ _ _ (Hl2' _)).
  unfold s1, open_fds. cbn [sv_fds set_sv_fds fst snd].
  rewrite (decide_True (P := 0 ≤ fd)), (decide_True (P := 0 ≤ fd2)) by lia. apply Hq3.
Qed.

Lemma set_type_fd ty b : sk_fd (set_sk_type ty b) = sk_fd b.
Proof. done. Qed.

Lemma command_spec s cmd rep sa : sv_fds s = (-1, -1) → sa_ok sa →
  wp ub (server_command g cmd rep sa s) (λ r tr,
    let '(rep', sa', s') := r in opens s s' tr ∧ sa_ok sa').
Proof.
  intros Hfds Hsa. unfold server_command.
  assert (∀ ty s' tr, opens s s' tr → opens s (set_base (set_sk_type ty (base s')) s') tr) as Hty by done.
  case_decide; [| case_decide; [| case_decide]].
  - eapply wp_then; [by apply connect_spec |]. cbn [fst snd]. intros res s' t1 [_ Ho].
    unfold upd_base. rewrite pmod_bind. unfold mret, P_ret; cbn [wp]. rewrite app_nil_r. split; [by apply Hty | done].
  - eapply wp_then; [by apply bind_spec; [| intros ? [= <-]] |]. intros [res o] s' t1 (_ & Ho & Hsa').
    unfold upd_base. rewrite pmod_bind. unfold mret, P_ret; cbn [wp]. rewrite app_nil_r. split; [by apply Hty |].
    destruct o; [by apply Hsa' | done].
  - eapply wp_then; [by apply bind_spec |]. intros [res o] s' t1 (_ & Ho & Hsa').
    unfold upd_base. rewrite pmod_bind. unfold mret, P_ret; cbn [wp]. rewrite app_nil_r. split; [by apply Hty | done].
  - cbn. split; [|done]. split_and!; [done.. |]. by rewrite Hfds.
Qed.

(** The handshake: what it opened is in [sv_fds], and it succeeds only after
    an accepted authentication. *)
Definition handshake_post s (m : gmap (list Z) ptr) (r : Z * Server) (tr : list (ev * resp)) : Prop :=
  (r.1 = 0 ∨ r.1 = -1) ∧ server_alive r.2 ∧ sk_fd (sv_base r.2) = sk_fd (sv_base s) ∧
  (∀ l, fds_after l tr = Some (open_fds (sv_fds r.2) ++ l)) ∧
  (r.1 = 0 → ∃ r1 r2, rcvd (sk_fd (sv_base s)) tr = r1 ++ r2 ∧ accepted s m r1 (sv_obj r.2)).

Lemma alive_store s s' : sv_store s' = sv_store s → sv_obj s' = sv_obj s → server_alive s → server_alive s'.
Proof. intros Hs Ho [m H]. exists m. unfold server_ok. by rewrite Hs, Ho. Qed.

Lemma handshake_spec s m : server_ok s m → may_login s → sv_fds s = (-1, -1) →
  wp ub (hev_socks5_server_handshake inet_pton4 inet_pton6 g frame s) (handshake_post s m).
Proof.
  intros Hok Hlog Hfds. unfold hev_socks5_server_handshake, upd_base. rewrite pmod_bind.
  set (s1 := set_base _ s). assert (same_server s s1) as (Hs1 & Hf1 & Ho1 & Hst1) by apply same_server_base, set_timeout_fd.
  assert (server_ok s1 m) as Hok1 by (unfold server_ok; by rewrite Hst1, Ho1).
  assert (may_login s1) as Hlog1 by (unfold may_login; by rewrite Ho1).
  eapply wp_then; [by apply server_auth_spec |]. cbn [fst snd].
  intros res s2 t1 (Hq1 & [Hb2 Hf2] & Hal2 & Hres & Hacc).
  assert (∀ s3 tr, server_alive s3 → sk_fd (sv_base s3) = sk_fd (sv_base s) →
    (∀ l, fds_after l tr = Some (open_fds (sv_fds s3) ++ l)) → handshake_post s m (-1, s3) tr) as Hfail.
  { intros s3 tr H1 H2 H3. split_and!; [by right | done.. |]. cbn. lia. }
  assert (sk_fd (sv_base s2) = sk_fd (sv_base s)) as Hsk2 by congruence.
  assert (sv_fds s2 = (-1, -1)) as Hfds2 by congruence.
  destruct (decide (res < 0)) as [Hneg | Hneg].
  { cbn. rewrite app_nil_r. apply Hfail; [done.. |]. by rewrite Hfds2. }
  destruct Hres as [-> | ->]; [|lia]. specialize (Hacc eq_refl).
  eapply wp_then; [apply read_request_spec, zero_sa_ok |].
  intros [[[res2 cmd] rep] sa] s3 t2 (Hq2 & (Hb3 & Hf3 & Ho3 & Hst3) & Hres2 & Hsa & Hcmd).
  assert (server_alive s3) as Hal3 by by eapply alive_store.
  destruct (decide (res2 < 0)) as [Hneg2 | Hneg2].
  { cbn. rewrite app_nil_r. apply Hfail; [done | congruence |]. intros l. rewrite Hf3, Hfds2.
    by apply quiet_app. }
  destruct Hres2 as [-> | ->]; [|lia].
  eapply (wp_then _ _ _ _ (λ r t3, let '(rep', sa', s4) := r in opens s3 s4 t3 ∧ sa_ok sa')).
  { case_decide as Hrep.
    - destruct (Hcmd Hrep eq_refl) as [c ->]. eapply wp_lift; [done |]. apply command_spec; [congruence | done].
    - cbn. split; [|done]. split_and!; [done.. |]. rewrite Hf3, Hfds2. done. }
  intros [rep' sa'] s4 t3 [(Hb4 & Ho4 & Hst4 & Hl4) Hsa'].
  eapply wp_then; [by apply write_response_spec |]. cbn [fst snd]. intros res5 ? t4 (-> & [Hq5 Hr5] & Hres5).
  assert (server_alive s4) as Hal4 by (eapply alive_store; [| | exact Hal3]; congruence).
  assert (∀ l, fds_after l (t1 ++ t2 ++ t3 ++ t4) = Some (open_fds (sv_fds s4) ++ l)) as Hl.
  { intros l. rewrite (fds_after_app _ _ _ _ (Hq1 l)), (fds_after_app _ _ _ _ (Hq2 l)),
      (fds_after_app _ _ _ _ (Hl4 l)). apply Hq5. }
  destruct (decide (res5 < 0 ∨ _)); cbn; rewrite app_nil_r.
  { apply Hfail; [done | congruence | done]. }
  split_and!; [by left | done | cbn; congruence | done |]. intros _.
  exists (rcvd (sk_fd (sv_base s)) t1), (rcvd (sk_fd (sv_base s)) (t2 ++ t3 ++ t4)).
  split; [apply rcvd_app |]. cbn. rewrite Ho4, Ho3. rewrite Hs1 in Hacc.
  unfold accepted in *. rewrite Ho1 in Hacc. unfold login in *. by rewrite Hst1 in Hacc.
Qed.
(** ** The destructor *)

Lemma close_if_spec s fd :
  wp ub ((if decide (0 ≤ fd) then del_close fd else mret tt) s) (λ r tr, r.2 = s ∧
    ∀ l l', (if decide (0 ≤ fd) then remove_one fd l = Some l' else l' = l) → fds_after l tr = Some l').
Proof.
  case_decide.
  - eapply wp_mono; [apply del_close_spec |]. by intros [[] ?] tr (-> & _ & H').
  - cbn. split; [done |]. by intros l l' ->.
Qed.

Lemma remove_second (x y : Z) l : remove_one x (y :: x :: l) = Some (y :: l).
Proof. cbn. case_decide; [by subst |]. by rewrite decide_True. Qed.

Lemma unref_alive s : server_alive s →
  wp ub ((if sv_obj s is SNone then mret tt else unref_obj (sv_obj s)) s) (λ r tr, tr = [] ∧ sv_base r.2 = sv_base s).
Proof.
  intros (m & (l & Hr & _) & Ho). destruct (sv_obj s) as [|p|]; [done | |].
  - destruct Ho as [u Hu]. unfold unref_obj, on_auth, hev_object_unref.
    erewrite mbind_some by (apply user_get_some; exact Hu). cbv zeta. by case_decide.
  - eapply wp_mono; [by eapply unref_auth_spec |]. intros [[] s'] tr (-> & Hb & _). done.
Qed.

Lemma destruct_spec s : server_alive s → 0 ≤ sk_fd (sv_base s) →
  wp ub (hev_socks5_server_destruct s) (λ _ tr,
    fds_after (open_fds (sv_fds s) ++ [sk_fd (sv_base s)]) tr = Some []).
Proof.
  intros Hal Hfd. unfold hev_socks5_server_destruct. rewrite pgets_bind.
  destruct (sv_fds s) as [f0 f1] eqn:Hfds. cbn [fst snd].
  eapply wp_then; [apply close_if_spec |]. cbn [fst snd]. intros _ ? t1 (-> & H1).
  eapply wp_then; [apply close_if_spec |]. cbn [fst snd]. intros _ ? t2 (-> & H2).
  rewrite pgets_bind. eapply wp_then; [by apply unref_alive |]. cbn [fst snd]. intros _ s' ? (-> & Hb).
  unfold hev_socks5_destruct, get_base. rewrite pgets_bind. cbn [base server_object]. rewrite Hb.
  eapply wp_mono; [apply close_if_spec |]. cbn [fst snd]. intros [[] s3] t3 (_ & H3). cbn [app].
  set (fd := sk_fd _) in *.
  assert (fds_after (open_fds (f0, f1) ++ [fd]) t1 =
    Some ((if decide (0 ≤ f1) then [f1] else []) ++ [fd])) as E1.
  { apply H1. unfold open_fds. cbn [fst snd]. destruct (decide (0 ≤ f1)), (decide (0 ≤ f0)); cbn [app];
      [apply remove_second | done | cbn; by rewrite decide_True | done]. }
  rewrite (fds_after_app _ _ _ _ E1).
  assert (fds_after ((if decide (0 ≤ f1) then [f1] else []) ++ [fd]) t2 = Some [fd]) as E2.
  { apply H2. case_decide; [cbn; by rewrite decide_True | done]. }
  rewrite (fds_after_app _ _ _ _ E2). apply H3.
  rewrite decide_True by done. cbn. by rewrite decide_True.
Qed.
End Props.

(** ** Theorems *)


(** A server of a store with one user, [u] with password [p]. *)
Definition demo_server : HevSocks5Server rbstore :=
  match (hev_socks5_authenticator_add 16 demo_auth : option (Z * _)) with
  | Some (_, st) =>
      mkServer (set_sk_fd 5 (hev_socks5_construct HEV_SOCKS5_TYPE_NONE)) (-1, -1) SAuth st 2
  | None => hev_socks5_server_construct 5 demo_auth 1
  end.

Lemma demo_server_ok : ∃ m, server_ok demo_server m ∧ m !! [117] = Some 16.
Proof.
  assert (tr_ready (a_tree demo_auth) 16) as Hrdy by by vm_compute; eauto.
  assert (user_wf demo_user) as Hwf by by repeat split.
  assert (okptr 16) as Hok by by split.
  destruct (auth_add_spec demo_auth [] ∅ 16 demo_user demo_auth_rep eq_refl Hwf (not_elem_of_nil 16) Hok Hrdy)
    as (st & l & E & Hr & Hus).
  exists (<[ukey demo_user := 16]> ∅). unfold demo_server. rewrite E. split; [|done].
  split; [|done]. exists l. split; [done |]. cbn. rewrite Hus. intros p u _ Hu.
  change (({[16 := demo_user]} : gmap Z HevSocks5User) !! p = Some u) in Hu.
  apply lookup_singleton_Some in Hu as [_ <-]. by split.
Qed.


(** C19. No descriptor leaks and none is closed twice: for every client and
    every failure of a socket call, the handshake of a fresh server followed
    by its destructor closes the connection and every socket the handshake
    opened, each exactly once. *)
Theorem server_closes_descriptors p4 p6 g frame {T} `{!SearchTree T} (s : HevSocks5Server T) m :
  pton_ok 4 p4 → pton_ok 16 p6 → length frame = SIZEOF_ADDR → bytes_ok frame →
  server_ok s m → may_login s → sv_fds s = (-1, -1) → 0 ≤ sk_fd (sv_base s) →
  wp False ((hev_socks5_server_handshake p4 p6 g frame;; hev_socks5_server_destruct) s) (λ _ tr,
    fds_after [sk_fd (sv_base s)] tr = Some []).
Proof.
  intros H4 H6 Hf Hfb Hok Hlog Hfds Hfd.
  eapply wp_then; [by apply handshake_spec |]. intros res s' t1 (_ & Hal & Hsk & Hl & _). cbn [fst snd] in *.
  eapply wp_mono; [eapply (destruct_spec False s' Hal); lia |]. cbn beta. intros _ t2 E.
  rewrite (fds_after_app _ _ _ _ (Hl _)). by rewrite <-Hsk.
Qed.

Lemma server_closes_descriptors_witness :
  wp False ((hev_socks5_server_handshake (λ _, None) (λ _, None) misc_init (replicate SIZEOF_ADDR 0);;
    hev_socks5_server_destruct) demo_server) (λ _ tr, fds_after [5] tr = Some []).
Proof.
  destruct demo_server_ok as (m & Hok & Hm).
  apply (server_closes_descriptors (λ _, None) (λ _, None) misc_init (replicate SIZEOF_ADDR 0) demo_server m).
  - done.
  - done.
  - reflexivity.
  - apply Forall_replicate. unfold byte_ok. lia.
  - exact Hok.
  - vm_compute. exact I.
  - vm_compute. reflexivity.
  - vm_compute. discriminate.
Defined.
