(* ===== verification/Config.v ===== *)
(** * Configuration

    Model of [src/hev-config.c] and [src/hev-config-const.h].  The static
    variables are one record, in the groups of the file; a character array is
    the list of its bytes.  The YAML parser delivers a document: the array of
    nodes of [yaml_document_t], which refer to each other by index from 1. *)

From Stdlib Require Import String Ascii.
From S2P Require Import Prelude Buffer.

(** ** The C library on strings *)

(** The bytes of a string literal. *)
Fixpoint str (s : string) : list Z :=
  match s with
  | EmptyString => []
  | String a s => Z.of_N (N_of_ascii a) :: str s
  end.
#[global] Arguments str !s%_string.

Definition str_is (a : list Z) (s : string) : bool := bool_decide (strcmp a (str s) = 0).
#[global] Arguments str_is a s%_string.

(** [tolower] in the C locale. *)
Definition tolower (b : Z) : Z := if decide (65 ≤ b ≤ 90) then b + 32 else b.

Fixpoint strcasecmp (a b : list Z) : Z :=
  match a, b with
  | [], [] => 0
  | [], y :: _ => - tolower y
  | x :: _, [] => tolower x
  | x :: a, y :: b => if decide (tolower x = tolower y) then strcasecmp a b else tolower x - tolower y
  end.
#[global] Arguments strcasecmp a b : simpl nomatch.

(** [strncpy]: at most [n] bytes, the rest of the [n] filled with zeros; the
    bytes of the array behind them stay. *)
Definition strncpy (dst src : list Z) (n : nat) : list Z :=
  take n (src ++ replicate n 0) ++ drop n dst.

(** [strtoul] and [strtol], with a [long] of 64 bits. *)
Definition ULONG_MAX : Z := 2 ^ 64 - 1.
Definition LONG_MAX : Z := 2 ^ 63 - 1.

Definition isspace (b : Z) : bool := bool_decide (b = 32 ∨ 9 ≤ b ≤ 13).

Definition digit_val (b : Z) : option Z :=
  if decide (48 ≤ b ≤ 57) then Some (b - 48)
  else if decide (97 ≤ b ≤ 122) then Some (b - 87)
  else if decide (65 ≤ b ≤ 90) then Some (b - 55)
  else None.

(** The value of the digits at the start of a string. *)
Fixpoint digits (base acc : Z) (s : list Z) : Z :=
  match s with
  | [] => acc
  | b :: s =>
      match digit_val b with
      | Some d => if decide (d < base) then digits base (acc * base + d) s else acc
      | None => acc
      end
  end.

Fixpoint skip_spaces (s : list Z) : list Z :=
  match s with
  | b :: s' => if isspace b then skip_spaces s' else s
  | [] => []
  end.

Definition read_sign (s : list Z) : bool * list Z :=
  match s with
  | b :: s' => if decide (b = 45) then (true, s') else if decide (b = 43) then (false, s') else (false, s)
  | [] => (false, s)
  end.

Definition is_hex (b : Z) : bool :=
  match digit_val b with Some d => bool_decide (d < 16) | None => false end.

(** The base [0] stands for, and the digits behind its prefix. *)
Definition read_base (base : Z) (s : list Z) : Z * list Z :=
  if decide (base ≠ 0) then (base, s)
  else
    match s with
    | a :: b :: c :: s' =>
        if decide (a = 48 ∧ tolower b = 120 ∧ is_hex c)
        then (16, c :: s')
        else if decide (a = 48) then (8, s) else (10, s)
    | a :: _ => if decide (a = 48) then (8, s) else (10, s)
    | [] => (10, s)
    end.

Definition strtoul (s : list Z) (base : Z) : Z :=
  let '(neg, s) := read_sign (skip_spaces s) in
  let '(base, s) := read_base base s in
  let v := digits base 0 s in
  if decide (v > ULONG_MAX) then ULONG_MAX else if neg then u64 (- v) else v.

Definition strtol (s : list Z) (base : Z) : Z :=
  let '(neg, s) := read_sign (skip_spaces s) in
  let '(base, s) := read_base base s in
  let v := digits base 0 s in
  if neg then Z.max (- LONG_MAX - 1) (- v) else Z.min LONG_MAX v.

(** ** Documents *)

Inductive yaml_node :=
| YScalar (value : list Z)
| YSequence (items : list Z)
| YMapping (pairs : list (Z * Z)).

(** A document; the first node is the root. *)
Abbreviation document := (list yaml_node).

Definition yaml_document_get_node (doc : document) (index : Z) : option yaml_node :=
  if decide (0 < index) then doc !! Z.to_nat (index - 1) else None.
Definition yaml_document_get_root_node (doc : document) : option yaml_node := list.head doc.

(** ** The static variables *)

Definition CONF_UDP_BUF_SIZE : Z := 1500.
Definition UDP_POOL_SIZE : Z := 512.
Definition TASK_STACK_SIZE : Z := 20480.

(** [TCP_SND_BUF] of [lwipopts.h]. *)
Definition TCP_SND_BUF : Z := 8 * 8191.

(** [HevLoggerLevel] *)
Definition HEV_LOGGER_DEBUG : Z := 0.
Definition HEV_LOGGER_INFO : Z := 1.
Definition HEV_LOGGER_WARN : Z := 2.
Definition HEV_LOGGER_ERROR : Z := 3.
Definition HEV_LOGGER_UNSET : Z := 4.

(** The pointers [user] and [pass]: null, or to the static arrays of
    [hev_config_parse_socks5]. *)
Inductive credptr := CNull | CUser | CPass.

Record HevConfigServer := mkSrv {
  srv_user : credptr;
  srv_pass : credptr;
  srv_mark : Z;
  srv_udp_in_udp : Z;
  srv_port : Z;
  srv_pipeline : Z;
  srv_fastopen : Z;
  srv_udp_addr : list Z;
  srv_addr : list Z;
}.

Definition set_srv_user (v : credptr) (s : HevConfigServer) : HevConfigServer :=
  mkSrv v (srv_pass s) (srv_mark s) (srv_udp_in_udp s) (srv_port s) (srv_pipeline s) (srv_fastopen s)
    (srv_udp_addr s) (srv_addr s).
Definition set_srv_pass (v : credptr) (s : HevConfigServer) : HevConfigServer :=
  mkSrv (srv_user s) v (srv_mark s) (srv_udp_in_udp s) (srv_port s) (srv_pipeline s) (srv_fastopen s)
    (srv_udp_addr s) (srv_addr s).
Definition set_srv_mark (v : Z) (s : HevConfigServer) : HevConfigServer :=
  mkSrv (srv_user s) (srv_pass s) v (srv_udp_in_udp s) (srv_port s) (srv_pipeline s) (srv_fastopen s)
    (srv_udp_addr s) (srv_addr s).
Definition set_srv_udp_in_udp (v : Z) (s : HevConfigServer) : HevConfigServer :=
  mkSrv (srv_user s) (srv_pass s) (srv_mark s) v (srv_port s) (srv_pipeline s) (srv_fastopen s)
    (srv_udp_addr s) (srv_addr s).
Definition set_srv_port (v : Z) (s : HevConfigServer) : HevConfigServer :=
  mkSrv (srv_user s) (srv_pass s) (srv_mark s) (srv_udp_in_udp s) v (srv_pipeline s) (srv_fastopen s)
    (srv_udp_addr s) (srv_addr s).
Definition set_srv_pipeline (v : Z) (s : HevConfigServer) : HevConfigServer :=
  mkSrv (srv_user s) (srv_pass s) (srv_mark s) (srv_udp_in_udp s) (srv_port s) v (srv_fastopen s)
    (srv_udp_addr s) (srv_addr s).
Definition set_srv_fastopen (v : Z) (s : HevConfigServer) : HevConfigServer :=
  mkSrv (srv_user s) (srv_pass s) (srv_mark s) (srv_udp_in_udp s) (srv_port s) (srv_pipeline s) v
    (srv_udp_addr s) (srv_addr s).
Definition set_srv_udp_addr (v : list Z) (s : HevConfigServer) : HevConfigServer :=
  mkSrv (srv_user s) (srv_pass s) (srv_mark s) (srv_udp_in_udp s) (srv_port s) (srv_pipeline s)
    (srv_fastopen s) v (srv_addr s).
Definition set_srv_addr (v : list Z) (s : HevConfigServer) : HevConfigServer :=
  mkSrv (srv_user s) (srv_pass s) (srv_mark s) (srv_udp_in_udp s) (srv_port s) (srv_pipeline s)
    (srv_fastopen s) (srv_udp_addr s) v.

Record tunnel_vars := mkTun {
  tun_name : list Z;
  tun_mtu : Z;
  multi_queue : Z;
  icmp : Z;
  tun_ipv4_address : list Z;
  tun_ipv6_address : list Z;
  tun_post_up_script : list Z;
  tun_pre_down_script : list Z;
}.

Definition set_tun_name (v : list Z) (t : tunnel_vars) : tunnel_vars :=
  mkTun v (tun_mtu t) (multi_queue t) (icmp t) (tun_ipv4_address t) (tun_ipv6_address t)
    (tun_post_up_script t) (tun_pre_down_script t).
Definition set_tun_mtu (v : Z) (t : tunnel_vars) : tunnel_vars :=
  mkTun (tun_name t) v (multi_queue t) (icmp t) (tun_ipv4_address t) (tun_ipv6_address t)
    (tun_post_up_script t) (tun_pre_down_script t).
Definition set_multi_queue (v : Z) (t : tunnel_vars) : tunnel_vars :=
  mkTun (tun_name t) (tun_mtu t) v (icmp t) (tun_ipv4_address t) (tun_ipv6_address t) (tun_post_up_script t)
    (tun_pre_down_script t).
Definition set_icmp (v : Z) (t : tunnel_vars) : tunnel_vars :=
  mkTun (tun_name t) (tun_mtu t) (multi_queue t) v (tun_ipv4_address t) (tun_ipv6_address t)
    (tun_post_up_script t) (tun_pre_down_script t).
Definition set_tun_ipv4_address (v : list Z) (t : tunnel_vars) : tunnel_vars :=
  mkTun (tun_name t) (tun_mtu t) (multi_queue t) (icmp t) v (tun_ipv6_address t) (tun_post_up_script t)
    (tun_pre_down_script t).
Definition set_tun_ipv6_address (v : list Z) (t : tunnel_vars) : tunnel_vars :=
  mkTun (tun_name t) (tun_mtu t) (multi_queue t) (icmp t) (tun_ipv4_address t) v (tun_post_up_script t)
    (tun_pre_down_script t).
Definition set_tun_post_up_script (v : list Z) (t : tunnel_vars) : tunnel_vars :=
  mkTun (tun_name t) (tun_mtu t) (multi_queue t) (icmp t) (tun_ipv4_address t) (tun_ipv6_address t) v
    (tun_pre_down_script t).
Definition set_tun_pre_down_script (v : list Z) (t : tunnel_vars) : tunnel_vars :=
  mkTun (tun_name t) (tun_mtu t) (multi_queue t) (icmp t) (tun_ipv4_address t) (tun_ipv6_address t)
    (tun_post_up_script t) v.

Record mapdns_vars := mkDns {
  mapdns_address : Z;
  mapdns_port : Z;
  mapdns_network : Z;
  mapdns_netmask : Z;
  mapdns_cache_size : Z;
}.

Definition set_mapdns_address (v : Z) (d : mapdns_vars) : mapdns_vars :=
  mkDns v (mapdns_port d) (mapdns_network d) (mapdns_netmask d) (mapdns_cache_size d).
Definition set_mapdns_port (v : Z) (d : mapdns_vars) : mapdns_vars :=
  mkDns (mapdns_address d) v (mapdns_network d) (mapdns_netmask d) (mapdns_cache_size d).
Definition set_mapdns_network (v : Z) (d : mapdns_vars) : mapdns_vars :=
  mkDns (mapdns_address d) (mapdns_port d) v (mapdns_netmask d) (mapdns_cache_size d).
Definition set_mapdns_netmask (v : Z) (d : mapdns_vars) : mapdns_vars :=
  mkDns (mapdns_address d) (mapdns_port d) (mapdns_network d) v (mapdns_cache_size d).
Definition set_mapdns_cache_size (v : Z) (d : mapdns_vars) : mapdns_vars :=
  mkDns (mapdns_address d) (mapdns_port d) (mapdns_network d) (mapdns_netmask d) v.

Record misc_vars := mkMiscVars {
  log_file : list Z;
  pid_file : list Z;
  max_session_count : Z;
  st_task_stack_size : Z;
  tcp_buffer_size : Z;
  st_udp_recv_buffer_size : Z;
  st_udp_copy_buffer_nums : Z;
  st_connect_timeout : Z;
  tcp_read_write_timeout : Z;
  udp_read_write_timeout : Z;
  limit_nofile : Z;
  log_level : Z;
}.

Definition set_log_file (v : list Z) (m : misc_vars) : misc_vars :=
  mkMiscVars v (pid_file m) (max_session_count m) (st_task_stack_size m) (tcp_buffer_size m)
    (st_udp_recv_buffer_size m) (st_udp_copy_buffer_nums m) (st_connect_timeout m) (tcp_read_write_timeout m)
    (udp_read_write_timeout m) (limit_nofile m) (log_level m).
Definition set_pid_file (v : list Z) (m : misc_vars) : misc_vars :=
  mkMiscVars (log_file m) v (max_session_count m) (st_task_stack_size m) (tcp_buffer_size m)
    (st_udp_recv_buffer_size m) (st_udp_copy_buffer_nums m) (st_connect_timeout m) (tcp_read_write_timeout m)
    (udp_read_write_timeout m) (limit_nofile m) (log_level m).
Definition set_max_session_count (v : Z) (m : misc_vars) : misc_vars :=
  mkMiscVars (log_file m) (pid_file m) v (st_task_stack_size m) (tcp_buffer_size m)
    (st_udp_recv_buffer_size m) (st_udp_copy_buffer_nums m) (st_connect_timeout m) (tcp_read_write_timeout m)
    (udp_read_write_timeout m) (limit_nofile m) (log_level m).
Definition set_st_task_stack_size (v : Z) (m : misc_vars) : misc_vars :=
  mkMiscVars (log_file m) (pid_file m) (max_session_count m) v (tcp_buffer_size m) (st_udp_recv_buffer_size m)
    (st_udp_copy_buffer_nums m) (st_connect_timeout m) (tcp_read_write_timeout m) (udp_read_write_timeout m)
    (limit_nofile m) (log_level m).
Definition set_tcp_buffer_size (v : Z) (m : misc_vars) : misc_vars :=
  mkMiscVars (log_file m) (pid_file m) (max_session_count m) (st_task_stack_size m) v
    (st_udp_recv_buffer_size m) (st_udp_copy_buffer_nums m) (st_connect_timeout m) (tcp_read_write_timeout m)
    (udp_read_write_timeout m) (limit_nofile m) (log_level m).
Definition set_st_udp_recv_buffer_size (v : Z) (m : misc_vars) : misc_vars :=
  mkMiscVars (log_file m) (pid_file m) (max_session_count m) (st_task_stack_size m) (tcp_buffer_size m) v
    (st_udp_copy_buffer_nums m) (st_connect_timeout m) (tcp_read_write_timeout m) (udp_read_write_timeout m)
    (limit_nofile m) (log_level m).
Definition set_st_udp_copy_buffer_nums (v : Z) (m : misc_vars) : misc_vars :=
  mkMiscVars (log_file m) (pid_file m) (max_session_count m) (st_task_stack_size m) (tcp_buffer_size m)
    (st_udp_recv_buffer_size m) v (st_connect_timeout m) (tcp_read_write_timeout m) (udp_read_write_timeout m)
    (limit_nofile m) (log_level m).
Definition set_st_connect_timeout (v : Z) (m : misc_vars) : misc_vars :=
  mkMiscVars (log_file m) (pid_file m) (max_session_count m) (st_task_stack_size m) (tcp_buffer_size m)
    (st_udp_recv_buffer_size m) (st_udp_copy_buffer_nums m) v (tcp_read_write_timeout m)
    (udp_read_write_timeout m) (limit_nofile m) (log_level m).
Definition set_tcp_read_write_timeout (v : Z) (m : misc_vars) : misc_vars :=
  mkMiscVars (log_file m) (pid_file m) (max_session_count m) (st_task_stack_size m) (tcp_buffer_size m)
    (st_udp_recv_buffer_size m) (st_udp_copy_buffer_nums m) (st_connect_timeout m) v
    (udp_read_write_timeout m) (limit_nofile m) (log_level m).
Definition set_udp_read_write_timeout (v : Z) (m : misc_vars) : misc_vars :=
  mkMiscVars (log_file m) (pid_file m) (max_session_count m) (st_task_stack_size m) (tcp_buffer_size m)
    (st_udp_recv_buffer_size m) (st_udp_copy_buffer_nums m) (st_connect_timeout m) (tcp_read_write_timeout m)
    v (limit_nofile m) (log_level m).
Definition set_limit_nofile (v : Z) (m : misc_vars) : misc_vars :=
  mkMiscVars (log_file m) (pid_file m) (max_session_count m) (st_task_stack_size m) (tcp_buffer_size m)
    (st_udp_recv_buffer_size m) (st_udp_copy_buffer_nums m) (st_connect_timeout m) (tcp_read_write_timeout m)
    (udp_read_write_timeout m) v (log_level m).
Definition set_log_level (v : Z) (m : misc_vars) : misc_vars :=
  mkMiscVars (log_file m) (pid_file m) (max_session_count m) (st_task_stack_size m) (tcp_buffer_size m)
    (st_udp_recv_buffer_size m) (st_udp_copy_buffer_nums m) (st_connect_timeout m) (tcp_read_write_timeout m)
    (udp_read_write_timeout m) (limit_nofile m) v.

Record config := mkConfig {
  c_tun : tunnel_vars;
  srv : HevConfigServer;
  c_dns : mapdns_vars;
  c_misc : misc_vars;
  _user : list Z;
  _pass : list Z;
}.

Definition set_c_tun (v : tunnel_vars) (c : config) : config :=
  mkConfig v (srv c) (c_dns c) (c_misc c) (_user c) (_pass c).
Definition set_srv (v : HevConfigServer) (c : config) : config :=
  mkConfig (c_tun c) v (c_dns c) (c_misc c) (_user c) (_pass c).
Definition set_c_dns (v : mapdns_vars) (c : config) : config :=
  mkConfig (c_tun c) (srv c) v (c_misc c) (_user c) (_pass c).
Definition set_c_misc (v : misc_vars) (c : config) : config :=
  mkConfig (c_tun c) (srv c) (c_dns c) v (_user c) (_pass c).
Definition set__user (v : list Z) (c : config) : config :=
  mkConfig (c_tun c) (srv c) (c_dns c) (c_misc c) v (_pass c).
Definition set__pass (v : list Z) (c : config) : config :=
  mkConfig (c_tun c) (srv c) (c_dns c) (c_misc c) (_user c) v.

(** Statics start as zeros. *)
Definition config_zero : config :=
  mkConfig
    (mkTun (replicate 64 0) 0 0 0 (replicate 16 0) (replicate 64 0) (replicate 1024 0) (replicate 1024 0))
    (mkSrv CNull CNull 0 0 0 0 0 (replicate 256 0) (replicate 256 0))
    (mkDns 0 0 0 0 0)
    (mkMiscVars (replicate 1024 0) (replicate 1024 0) 0 0 0 0 0 0 0 0 0 0)
    (replicate 256 0) (replicate 256 0).

(** ** Parsing *)

Section Parse.
Context (inet_pton4 : list Z → option (list Z)).
Context (doc : document).

(** The loop of every section: entries whose key and value are scalars go to
    [f]; an index of 0 is skipped, any other node ends the loop. *)
Fixpoint scalar_pairs {St} (f : list Z → list Z → St → St) (pairs : list (Z * Z)) (s : St) : St :=
  match pairs with
  | [] => s
  | (k, v) :: pairs =>
      if decide (k = 0 ∨ v = 0) then scalar_pairs f pairs s
      else
        match yaml_document_get_node doc k with
        | Some (YScalar key) =>
            match yaml_document_get_node doc v with
            | Some (YScalar value) => scalar_pairs f pairs (f key value s)
            | _ => s
            end
        | _ => s
        end
  end.

Definition hev_config_parse_tunnel_ipv4 (base : option yaml_node) (t : tunnel_vars) : Z * tunnel_vars :=
  match base with
  | Some (YMapping pairs) =>
      (0, scalar_pairs (λ key value t,
            if str_is key "address"
            then set_tun_ipv4_address (strncpy (tun_ipv4_address t) value 15) t else t) pairs t)
  | _ => (-1, t)
  end.

Definition hev_config_parse_tunnel_ipv6 (base : option yaml_node) (t : tunnel_vars) : Z * tunnel_vars :=
  match base with
  | Some (YMapping pairs) =>
      (0, scalar_pairs (λ key value t,
            if str_is key "address"
            then set_tun_ipv6_address (strncpy (tun_ipv6_address t) value 63) t else t) pairs t)
  | _ => (-1, t)
  end.

(** A scalar entry of the [tunnel] section. *)
Definition tunnel_scalar (key value : list Z) (t : tunnel_vars) : tunnel_vars :=
  if str_is key "name" then set_tun_name (strncpy (tun_name t) value 63) t
  else if str_is key "mtu" then set_tun_mtu (u32 (strtoul value 10)) t
  else if str_is key "multi-queue" then set_multi_queue (strcasecmp value (str "false")) t
  else if str_is key "ipv4" then set_tun_ipv4_address (strncpy (tun_ipv4_address t) value 15) t
  else if str_is key "ipv6" then set_tun_ipv6_address (strncpy (tun_ipv6_address t) value 63) t
  else if str_is key "icmp"
    then set_icmp (if decide (strcasecmp value (str "reply") = 0) then 1 else 0) t
  else if str_is key "post-up-script"
    then set_tun_post_up_script (strncpy (tun_post_up_script t) value 1023) t
  else if str_is key "pre-down-script"
    then set_tun_pre_down_script (strncpy (tun_pre_down_script t) value 1023) t
  else t.

Fixpoint tunnel_pairs (pairs : list (Z * Z)) (t : tunnel_vars) : tunnel_vars :=
  match pairs with
  | [] => t
  | (k, v) :: pairs =>
      if decide (k = 0 ∨ v = 0) then tunnel_pairs pairs t
      else
        match yaml_document_get_node doc k with
        | Some (YScalar key) =>
            match yaml_document_get_node doc v with
            | Some (YScalar value) => tunnel_pairs pairs (tunnel_scalar key value t)
            | Some node =>
                tunnel_pairs pairs
                  (if str_is key "ipv4" then (hev_config_parse_tunnel_ipv4 (Some node) t).2
                   else if str_is key "ipv6" then (hev_config_parse_tunnel_ipv6 (Some node) t).2
                   else t)
            | None => t
            end
        | _ => t
        end
  end.

Definition hev_config_parse_tunnel (base : option yaml_node) (t : tunnel_vars) : Z * tunnel_vars :=
  match base with
  | Some (YMapping pairs) => (0, tunnel_pairs pairs t)
  | _ => (-1, t)
  end.

(** The local variables of [hev_config_parse_socks5]. *)
Record socks5_vars := mkLoc {
  l_addr : option (list Z);
  l_port : option (list Z);
  l_udpm : option (list Z);
  l_udpa : option (list Z);
  l_user : option (list Z);
  l_pass : option (list Z);
  l_mark : option (list Z);
  l_pipe : option (list Z);
  l_tfso : option (list Z);
}.

Definition set_l_addr (v : option (list Z)) (l : socks5_vars) : socks5_vars :=
  mkLoc v (l_port l) (l_udpm l) (l_udpa l) (l_user l) (l_pass l) (l_mark l) (l_pipe l) (l_tfso l).
Definition set_l_port (v : option (list Z)) (l : socks5_vars) : socks5_vars :=
  mkLoc (l_addr l) v (l_udpm l) (l_udpa l) (l_user l) (l_pass l) (l_mark l) (l_pipe l) (l_tfso l).
Definition set_l_udpm (v : option (list Z)) (l : socks5_vars) : socks5_vars :=
  mkLoc (l_addr l) (l_port l) v (l_udpa l) (l_user l) (l_pass l) (l_mark l) (l_pipe l) (l_tfso l).
Definition set_l_udpa (v : option (list Z)) (l : socks5_vars) : socks5_vars :=
  mkLoc (l_addr l) (l_port l) (l_udpm l) v (l_user l) (l_pass l) (l_mark l) (l_pipe l) (l_tfso l).
Definition set_l_user (v : option (list Z)) (l : socks5_vars) : socks5_vars :=
  mkLoc (l_addr l) (l_port l) (l_udpm l) (l_udpa l) v (l_pass l) (l_mark l) (l_pipe l) (l_tfso l).
Definition set_l_pass (v : option (list Z)) (l : socks5_vars) : socks5_vars :=
  mkLoc (l_addr l) (l_port l) (l_udpm l) (l_udpa l) (l_user l) v (l_mark l) (l_pipe l) (l_tfso l).
Definition set_l_mark (v : option (list Z)) (l : socks5_vars) : socks5_vars :=
  mkLoc (l_addr l) (l_port l) (l_udpm l) (l_udpa l) (l_user l) (l_pass l) v (l_pipe l) (l_tfso l).
Definition set_l_pipe (v : option (list Z)) (l : socks5_vars) : socks5_vars :=
  mkLoc (l_addr l) (l_port l) (l_udpm l) (l_udpa l) (l_user l) (l_pass l) (l_mark l) v (l_tfso l).
Definition set_l_tfso (v : option (list Z)) (l : socks5_vars) : socks5_vars :=
  mkLoc (l_addr l) (l_port l) (l_udpm l) (l_udpa l) (l_user l) (l_pass l) (l_mark l) (l_pipe l) v.

Definition socks5_scalar (key value : list Z) (l : socks5_vars) : socks5_vars :=
  if str_is key "port" then set_l_port (Some value) l
  else if str_is key "address" then set_l_addr (Some value) l
  else if str_is key "udp" then set_l_udpm (Some value) l
  else if str_is key "udp-address" then set_l_udpa (Some value) l
  else if str_is key "pipeline" then set_l_pipe (Some value) l
  else if str_is key "username" then set_l_user (Some value) l
  else if str_is key "password" then set_l_pass (Some value) l
  else if str_is key "mark" then set_l_mark (Some value) l
  else if str_is key "tcp-fastopen" then set_l_tfso (Some value) l
  else l.

(** A pointer that is not null, to a string equal to [s] in any case. *)
Definition case_is (p : option (list Z)) (s : list Z) : bool :=
  match p with Some v => bool_decide (strcasecmp v s = 0) | None => false end.

(** What the section does with the values it found. *)
Definition socks5_finish (l : socks5_vars) (c : config) : Z * config :=
  match l_port l, l_addr l with
  | None, _ => (-1, c)
  | Some _, None => (-1, c)
  | Some port, Some addr =>
      match l_user l, l_pass l with
      | Some _, None => (-1, c)
      | None, Some _ => (-1, c)
      | _, _ =>
          let s := srv c in
          let s := set_srv_addr (strncpy (srv_addr s) addr 255) s in
          let s := set_srv_port (u16 (strtoul port 10)) s in
          let s := if case_is (l_pipe l) (str "true") then set_srv_pipeline 1 s else s in
          let s := if case_is (l_udpm l) (str "udp") then set_srv_udp_in_udp 1 s else s in
          let s := match l_udpa l with
                   | Some udpa => set_srv_udp_addr (strncpy (srv_udp_addr s) udpa 255) s
                   | None => s end in
          let '(s, u, p) :=
            match l_user l, l_pass l with
            | Some user, Some pass =>
                (set_srv_pass CPass (set_srv_user CUser s),
                 strncpy (_user c) user 255, strncpy (_pass c) pass 255)
            | _, _ => (s, _user c, _pass c)
            end in
          let s := match l_mark l with
                   | Some mark => set_srv_mark (u32 (strtoul mark 0)) s
                   | None => s end in
          let s := match l_tfso l with
                   | Some tfso => set_srv_fastopen (if case_is (Some tfso) (str "true") then 1 else 0) s
                   | None => s end in
          (0, set__pass p (set__user u (set_srv s c)))
      end
  end.

Definition hev_config_parse_socks5 (base : option yaml_node) (c : config) : Z * config :=
  match base with
  | Some (YMapping pairs) =>
      socks5_finish (scalar_pairs socks5_scalar pairs (mkLoc None None None None None None None None None)) c
  | _ => (-1, c)
  end.

Definition mapdns_scalar (key value : list Z) (d : mapdns_vars) : mapdns_vars :=
  let pton old := match inet_pton4 value with Some b => i32 (le32 b) | None => old end in
  if str_is key "address" then set_mapdns_address (pton (mapdns_address d)) d
  else if str_is key "port" then set_mapdns_port (i32 (strtoul value 10)) d
  else if str_is key "network" then set_mapdns_network (pton (mapdns_network d)) d
  else if str_is key "netmask" then set_mapdns_netmask (pton (mapdns_netmask d)) d
  else if str_is key "cache-size" then set_mapdns_cache_size (i32 (strtoul value 10)) d
  else d.

Definition hev_config_parse_mapdns (base : option yaml_node) (d : mapdns_vars) : Z * mapdns_vars :=
  match base with
  | Some (YMapping pairs) =>
      let d := scalar_pairs mapdns_scalar pairs d in
      let d := set_mapdns_network (i32 (ntohl (mapdns_network d))) d in
      let d := set_mapdns_netmask (i32 (ntohl (mapdns_netmask d))) d in
      (0, d)
  | _ => (-1, d)
  end.

Definition hev_config_parse_log_level (value : list Z) : Z :=
  if str_is value "debug" then HEV_LOGGER_DEBUG
  else if str_is value "info" then HEV_LOGGER_INFO
  else if str_is value "error" then HEV_LOGGER_ERROR
  else HEV_LOGGER_WARN.

(** The local timeouts of [hev_config_parse_misc]: TCP, UDP and both. *)
Definition misc_scalar (key value : list Z) (s : misc_vars * (Z * Z * Z)) : misc_vars * (Z * Z * Z) :=
  let '(m, (tcp_rw, udp_rw, rw)) := s in
  let n := i32 (strtoul value 10) in
  let on_m m := (m, (tcp_rw, udp_rw, rw)) in
  if str_is key "task-stack-size" then on_m (set_st_task_stack_size n m)
  else if str_is key "tcp-buffer-size" then on_m (set_tcp_buffer_size n m)
  else if str_is key "udp-recv-buffer-size" then on_m (set_st_udp_recv_buffer_size n m)
  else if str_is key "udp-copy-buffer-nums" then on_m (set_st_udp_copy_buffer_nums n m)
  else if str_is key "max-session-count" then on_m (set_max_session_count n m)
  else if str_is key "connect-timeout" then on_m (set_st_connect_timeout n m)
  else if str_is key "read-write-timeout" then (m, (tcp_rw, udp_rw, n))
  else if str_is key "tcp-read-write-timeout" then (m, (n, udp_rw, rw))
  else if str_is key "udp-read-write-timeout" then (m, (tcp_rw, n, rw))
  else if str_is key "pid-file" then on_m (set_pid_file (strncpy (pid_file m) value 1023) m)
  else if str_is key "log-file" then on_m (set_log_file (strncpy (log_file m) value 1023) m)
  else if str_is key "log-level" then on_m (set_log_level (hev_config_parse_log_level value) m)
  else if str_is key "limit-nofile" then on_m (set_limit_nofile (i32 (strtol value 10)) m)
  else s.

Definition hev_config_parse_misc (base : option yaml_node) (m : misc_vars) : Z * misc_vars :=
  match base with
  | Some (YMapping pairs) =>
      let '(m, (tcp_rw, udp_rw, rw)) := scalar_pairs misc_scalar pairs (m, (-1, -1, -1)) in
      let tcp_rw := if decide (tcp_rw ≤ 0) then rw else tcp_rw in
      let udp_rw := if decide (udp_rw ≤ 0) then rw else udp_rw in
      let m := if decide (0 < tcp_rw) then set_tcp_read_write_timeout tcp_rw m else m in
      let m := if decide (0 < udp_rw) then set_udp_read_write_timeout udp_rw m else m in
      (0, m)
  | _ => (-1, m)
  end.

(** One section of the document. *)
Definition doc_section (key : list Z) (node : option yaml_node) (c : config) : Z * config :=
  if str_is key "tunnel" then
    let '(r, t) := hev_config_parse_tunnel node (c_tun c) in (r, set_c_tun t c)
  else if str_is key "socks5" then hev_config_parse_socks5 node c
  else if str_is key "mapdns" then
    let '(r, d) := hev_config_parse_mapdns node (c_dns c) in (r, set_c_dns d c)
  else if str_is key "misc" then
    let '(r, m) := hev_config_parse_misc node (c_misc c) in (r, set_c_misc m c)
  else (0, c).

(** The sections of the document; an entry whose key is not a scalar ends the
    loop, the error return of a section ends the function. *)
Fixpoint doc_pairs (pairs : list (Z * Z)) (c : config) : Z * config :=
  match pairs with
  | [] => (0, c)
  | (k, v) :: pairs =>
      if decide (k = 0 ∨ v = 0) then doc_pairs pairs c
      else
        match yaml_document_get_node doc k with
        | Some (YScalar key) =>
            let '(res, c) := doc_section key (yaml_document_get_node doc v) c in
            if decide (res < 0) then (-1, c) else doc_pairs pairs c
        | _ => (0, c)
        end
  end.

(** A result of [int] arithmetic; overflow is undefined. *)
Definition int_ok (v : Z) : option Z := if decide (- 2 ^ 31 ≤ v < 2 ^ 31) then Some v else None.

Definition hev_config_parse_doc (c : config) : option (Z * config) :=
  match yaml_document_get_root_node doc with
  | Some (YMapping pairs) =>
      let '(res, c) := doc_pairs pairs c in
      if decide (res < 0) then Some (-1, c)
      else
        let m := c_misc c in
        let m := if decide (tcp_buffer_size m > TCP_SND_BUF) then set_tcp_buffer_size TCP_SND_BUF m else m in
        udp_buffer_size ← int_ok (CONF_UDP_BUF_SIZE * st_udp_copy_buffer_nums m);
        min_task_stack_size ←
          int_ok (TASK_STACK_SIZE +
                  (if decide (tcp_buffer_size m > udp_buffer_size) then tcp_buffer_size m else udp_buffer_size));
        let m := if decide (st_task_stack_size m < min_task_stack_size)
                 then set_st_task_stack_size min_task_stack_size m else m in
        Some (0, set_c_misc m c)
  | _ => Some (-1, c)
  end.
End Parse.

Definition hev_config_reset (c : config) : config :=
  mkConfig
    (mkTun (replicate 64 0) 8500 0 0 (replicate 16 0) (replicate 64 0) (replicate 1024 0) (replicate 1024 0))
    (mkSrv CNull CNull 0 0 0 0 0 (replicate 256 0) (replicate 256 0))
    (mkDns 0 0 0 0 0)
    (mkMiscVars (replicate 1024 0) (replicate 1024 0) 0 86016 65536 524288 10 10000 300000 60000 65535
       HEV_LOGGER_WARN)
    (_user c) (_pass c).

(** The YAML parser and the file system are arguments: whether the parser
    could be initialised, the contents of a file, and the document of a text.
    Releasing the parser, the document and the file has no effect here. *)
Section Init.
Context (inet_pton4 : list Z → option (list Z)).
Context (yaml_parser_initialize : bool).
Context (fopen : list Z → option (list Z)).
Context (yaml_parser_load : list Z → option document).

Definition hev_config_init_from_file (config_path : list Z) (c : config) : option (Z * config) :=
  let c := hev_config_reset c in
  if negb yaml_parser_initialize then Some (-1, c)
  else
    match fopen config_path with
    | None => Some (-1, c)
    | Some text =>
        match yaml_parser_load text with
        | None => Some (-1, c)
        | Some doc => hev_config_parse_doc inet_pton4 doc c
        end
    end.

Definition hev_config_init_from_str (config_str : list Z) (config_len : Z) (c : config) :
    option (Z * config) :=
  let c := hev_config_reset c in
  if negb yaml_parser_initialize then Some (-1, c)
  else
    text ← mem_read config_str 0 config_len;
    match yaml_parser_load text with
    | None => Some (-1, c)
    | Some doc => hev_config_parse_doc inet_pton4 doc c
    end.
End Init.

(** ** Getters

    A string getter returns null for an empty array; otherwise the caller
    reads the string at its start. *)

Definition get_string (m : list Z) : option (option (list Z)) :=
  b ← mem_get m 0;
  if decide (b = 0) then Some None else Some <$> cstr m.

Definition hev_config_get_tunnel_name (c : config) : option (option (list Z)) :=
  get_string (tun_name (c_tun c)).
Definition hev_config_get_tunnel_mtu (c : config) : Z := tun_mtu (c_tun c).
Definition hev_config_get_tunnel_multi_queue (c : config) : Z := multi_queue (c_tun c).
Definition hev_config_get_tunnel_icmp (c : config) : Z := icmp (c_tun c).
Definition hev_config_get_tunnel_ipv4_address (c : config) : option (option (list Z)) :=
  get_string (tun_ipv4_address (c_tun c)).
Definition hev_config_get_tunnel_ipv6_address (c : config) : option (option (list Z)) :=
  get_string (tun_ipv6_address (c_tun c)).
Definition hev_config_get_tunnel_post_up_script (c : config) : option (option (list Z)) :=
  get_string (tun_post_up_script (c_tun c)).
Definition hev_config_get_tunnel_pre_down_script (c : config) : option (option (list Z)) :=
  get_string (tun_pre_down_script (c_tun c)).
Definition hev_config_get_socks5_server (c : config) : HevConfigServer := srv c.
Definition hev_config_get_mapdns_address (c : config) : Z := mapdns_address (c_dns c).
Definition hev_config_get_mapdns_port (c : config) : Z := mapdns_port (c_dns c).
Definition hev_config_get_mapdns_network (c : config) : Z := mapdns_network (c_dns c).
Definition hev_config_get_mapdns_netmask (c : config) : Z := mapdns_netmask (c_dns c).
Definition hev_config_get_mapdns_cache_size (c : config) : Z := mapdns_cache_size (c_dns c).
Definition hev_config_get_misc_task_stack_size (c : config) : Z := st_task_stack_size (c_misc c).
Definition hev_config_get_misc_tcp_buffer_size (c : config) : Z := tcp_buffer_size (c_misc c).
Definition hev_config_get_misc_udp_recv_buffer_size (c : config) : Z := st_udp_recv_buffer_size (c_misc c).
Definition hev_config_get_misc_udp_copy_buffer_nums (c : config) : Z := st_udp_copy_buffer_nums (c_misc c).
Definition hev_config_get_misc_max_session_count (c : config) : Z := max_session_count (c_misc c).
Definition hev_config_get_misc_connect_timeout (c : config) : Z := st_connect_timeout (c_misc c).
Definition hev_config_get_misc_tcp_read_write_timeout (c : config) : Z := tcp_read_write_timeout (c_misc c).
Definition hev_config_get_misc_udp_read_write_timeout (c : config) : Z := udp_read_write_timeout (c_misc c).
Definition hev_config_get_misc_limit_nofile (c : config) : Z := limit_nofile (c_misc c).
Definition hev_config_get_misc_pid_file (c : config) : option (option (list Z)) :=
  get_string (pid_file (c_misc c)).

(** [log_file] also is null when it is the string "null". *)
Definition hev_config_get_misc_log_file (c : config) : option (option (list Z)) :=
  s ← get_string (log_file (c_misc c));
  match s with
  | Some v => Some (if str_is v "null" then None else Some v)
  | None => Some None
  end.
Definition hev_config_get_misc_log_level (c : config) : Z := log_level (c_misc c).

(** The string a credential pointer refers to. *)
Definition deref (p : credptr) (c : config) : option (list Z) :=
  match p with CNull => None | CUser => cstr (_user c) | CPass => cstr (_pass c) end.
