(* ===== verification/ConfigProps.v ===== *)
(** * Properties of the configuration

    Whatever the document, the character arrays stay terminated; nothing of
    an earlier configuration survives; the sizes the session tasks rely on are
    in range; and the settings written into a document are read back. *)

From Stdlib Require Import String.
From S2P Require Import Prelude Buffer Config.

(** ** Terminated arrays *)

(** A character array of [n] bytes whose last byte is a terminator. *)
Definition array_ok (n : nat) (m : list Z) : Prop :=
  length m = n ∧ ∃ pre, m = pre ++ [0].

Lemma array_ok_zero n : array_ok (S n) (replicate (S n) 0).
Proof. split; [apply length_replicate |]. exists (replicate n 0). by rewrite <-replicate_cons_app. Qed.

Lemma array_ok_strncpy n m src : array_ok (S n) m → array_ok (S n) (strncpy m src n).
Proof.
  intros [Hl [pre ->]]. rewrite length_app in Hl. cbn in Hl. assert (length pre = n) as Hp by lia.
  assert (length (take n (src ++ replicate n 0)) = n) as Ht by (rewrite length_take, length_app, length_replicate; lia).
  unfold strncpy. rewrite (drop_app_length' pre) by done. split; [rewrite length_app, Ht; cbn; lia | eauto].
Qed.

Lemma array_ok_cstr n m : array_ok n m → ∃ s, cstr m = Some s ∧ (length s < n)%nat.
Proof.
  intros [<- [pre ->]]. induction pre as [|b pre IH]; cbn; [exists []; split; [done | cbn; lia] |].
  case_decide; [exists []; split; [done | cbn; lia] |].
  destruct IH as (s & -> & Hs). exists (b :: s). split; [done | cbn in *; lia].
Qed.

Lemma array_ok_get n m : array_ok n m →
  ∃ o, get_string m = Some o ∧ ∀ s, o = Some s → cstr m = Some s ∧ s ≠ [] ∧ (length s < n)%nat.
Proof.
  intros Hm. destruct (array_ok_cstr _ _ Hm) as (s & Hs & Hl). destruct Hm as [_ [pre Hm]].
  unfold get_string. destruct m as [|b m]; [by destruct pre |]. change (mem_get (b :: m) 0) with (Some b). cbn.
  destruct (decide (b = 0)) as [Hb | Hb]; [by exists None; split; [| intros ? [=]] |].
  cbn in Hs. rewrite decide_False in Hs by done. destruct (cstr m) as [s'|] eqn:E; [|done].
  cbn in *. simplify_eq.
  exists (Some (b :: s')). split; [done |]. intros ? [= <-]. by split_and!.
Qed.

Definition tunnel_ok (t : tunnel_vars) : Prop :=
  array_ok 64 (tun_name t) ∧ array_ok 16 (tun_ipv4_address t) ∧ array_ok 64 (tun_ipv6_address t) ∧
  array_ok 1024 (tun_post_up_script t) ∧ array_ok 1024 (tun_pre_down_script t).

Definition srv_ok (s : HevConfigServer) : Prop :=
  array_ok 256 (srv_addr s) ∧ array_ok 256 (srv_udp_addr s) ∧
  (srv_user s = CNull ∧ srv_pass s = CNull ∨ srv_user s = CUser ∧ srv_pass s = CPass).

Definition misc_ok (m : misc_vars) : Prop := array_ok 1024 (log_file m) ∧ array_ok 1024 (pid_file m).

(** Every array of the statics is terminated. *)
Definition config_ok (c : config) : Prop :=
  tunnel_ok (c_tun c) ∧ srv_ok (srv c) ∧ misc_ok (c_misc c) ∧ array_ok 256 (_user c) ∧ array_ok 256 (_pass c).

Lemma config_zero_ok : config_ok config_zero.
Proof. unfold config_ok, tunnel_ok, srv_ok, misc_ok, config_zero. cbn. split_and!; try apply array_ok_zero. by left. Qed.

Lemma reset_ok c : config_ok c → config_ok (hev_config_reset c).
Proof.
  intros (_ & _ & _ & Hu & Hp). unfold config_ok, tunnel_ok, srv_ok, misc_ok. cbn.
  split_and!; try apply array_ok_zero; try done. by left.
Qed.

Section Parse.
Context (p4 : list Z → option (list Z)) (doc : document).

(** What every entry of a section keeps, the section keeps. *)
Lemma scalar_pairs_inv {St} (I : St → Prop) f pairs s :
  (∀ k v s, I s → I (f k v s)) → I s → I (scalar_pairs doc f pairs s).
Proof.
  intros Hf. revert s; induction pairs as [|[k v] pairs IH]; cbn; intros s Hs; [done |].
  case_decide; [by apply IH |].
  destruct (yaml_document_get_node doc k) as [[] |]; try done.
  destruct (yaml_document_get_node doc v) as [[] |]; try done. apply IH, Hf, Hs.
Qed.

Ltac array_solve := cbn; split_and!; try apply array_ok_strncpy; try done.

Lemma tunnel_scalar_ok k v t : tunnel_ok t → tunnel_ok (tunnel_scalar k v t).
Proof. intros (H1 & H2 & H3 & H4 & H5). unfold tunnel_scalar. repeat case_match; array_solve. Qed.

Lemma parse_tunnel_ipv4_ok node t : tunnel_ok t → tunnel_ok (hev_config_parse_tunnel_ipv4 doc node t).2.
Proof.
  intros Ht. unfold hev_config_parse_tunnel_ipv4. destruct node as [[] |]; try done. cbn [snd].
  apply scalar_pairs_inv; [|done]. intros k v s (H1 & H2 & H3 & H4 & H5). case_match; array_solve.
Qed.

Lemma parse_tunnel_ipv6_ok node t : tunnel_ok t → tunnel_ok (hev_config_parse_tunnel_ipv6 doc node t).2.
Proof.
  intros Ht. unfold hev_config_parse_tunnel_ipv6. destruct node as [[] |]; try done. cbn [snd].
  apply scalar_pairs_inv; [|done]. intros k v s (H1 & H2 & H3 & H4 & H5). case_match; array_solve.
Qed.

Lemma parse_tunnel_ok node t : tunnel_ok t → tunnel_ok (hev_config_parse_tunnel doc node t).2.
Proof.
  intros Ht. unfold hev_config_parse_tunnel. destruct node as [[| | pairs] |]; try done. cbn [snd].
  revert t Ht; induction pairs as [|[k v] pairs IH]; cbn; intros t Ht; [done |].
  case_decide; [by apply IH |].
  destruct (yaml_document_get_node doc k) as [[key | |] |]; try done.
  assert (∀ node, tunnel_ok (if str_is key "ipv4" then (hev_config_parse_tunnel_ipv4 doc (Some node) t).2
    else if str_is key "ipv6" then (hev_config_parse_tunnel_ipv6 doc (Some node) t).2 else t)) as Hn.
  { intros node. destruct (str_is key "ipv4"); [by apply parse_tunnel_ipv4_ok |].
    destruct (str_is key "ipv6"); [by apply parse_tunnel_ipv6_ok | done]. }
  destruct (yaml_document_get_node doc v) as [[value | items | ps] |]; [| | | done]; apply IH.
  - by apply tunnel_scalar_ok.
  - exact (Hn (YSequence items)).
  - exact (Hn (YMapping ps)).
Qed.

Lemma parse_misc_ok node m : misc_ok m → misc_ok (hev_config_parse_misc doc node m).2.
Proof.
  intros Hm. unfold hev_config_parse_misc. destruct node as [[] |]; try done.
  assert (misc_ok (scalar_pairs doc misc_scalar pairs (m, (-1, -1, -1))).1) as H.
  { apply (scalar_pairs_inv (λ s, misc_ok s.1)); [|done]. intros k v [m' [[a b] d]] [H1 H2].
    unfold misc_scalar. repeat case_match; array_solve. }
  destruct (scalar_pairs _ _ _ _) as [m' [[a b] d]]. cbn in *. destruct H as [H1 H2].
  repeat case_decide; by split.
Qed.

Lemma parse_socks5_ok node c : config_ok c → config_ok (hev_config_parse_socks5 doc node c).2.
Proof.
  intros (Ht & (Ha & Hua & Hp) & Hm & Hu & Hpa). unfold hev_config_parse_socks5, socks5_finish.
  destruct node as [[] |]; try by split_and!.
  destruct (scalar_pairs _ _ _ _) as [addr port udpm udpa user pass mark pipe tfso].
  cbn [l_addr l_port l_udpm l_udpa l_user l_pass l_mark l_pipe l_tfso].
  destruct port as [port|], addr as [addr|]; try by split_and!.
  destruct (case_is pipe _), (case_is udpm _), udpa as [udpa|], user as [user|], pass as [pass|],
    mark as [mark|], tfso as [tfso|]; try (by split_and!); unfold config_ok, srv_ok; array_solve; by right.
Qed.

Lemma doc_section_ok key node c : config_ok c → config_ok (doc_section p4 doc key node c).2.
Proof.
  intros Hc. unfold doc_section. destruct Hc as (Ht & Hs & Hm & Hu & Hp). destruct (str_is key "tunnel").
  { pose proof (parse_tunnel_ok node _ Ht) as H1. destruct (hev_config_parse_tunnel _ _ _). by split_and!. }
  destruct (str_is key "socks5"); [by apply parse_socks5_ok |].
  destruct (str_is key "mapdns"); [destruct (hev_config_parse_mapdns _ _ _ _); by split_and! |].
  destruct (str_is key "misc"); [|by split_and!].
  pose proof (parse_misc_ok node _ Hm) as H1. destruct (hev_config_parse_misc _ _ _). by split_and!.
Qed.

Lemma doc_pairs_ok pairs c : config_ok c → config_ok (doc_pairs p4 doc pairs c).2.
Proof.
  revert c; induction pairs as [|[k v] pairs IH]; cbn [doc_pairs]; intros c Hc; [done |].
  case_decide; [by apply IH |]. destruct (yaml_document_get_node doc k) as [[key | |] |]; try done.
  pose proof (doc_section_ok key (yaml_document_get_node doc v) c Hc) as H1.
  destruct (doc_section _ _ _ _ _) as [res c1]. case_decide; [done | by apply IH].
Qed.

Lemma parse_doc_ok c r : config_ok c → hev_config_parse_doc p4 doc c = Some r → config_ok r.2.
Proof.
  intros Hc. unfold hev_config_parse_doc.
  destruct (yaml_document_get_root_node doc) as [[| | pairs] |]; try by intros [= <-].
  pose proof (doc_pairs_ok pairs _ Hc) as H1. destruct (doc_pairs _ _ _ _) as [res c1].
  case_decide; [by intros [= <-] |]. cbv zeta. destruct H1 as (Ht & Hs & [Hl Hp] & Hu & Hpa).
  destruct (int_ok _) as [z|]; cbn -[Z.mul]; [|done]. destruct (int_ok _) as [z1|]; cbn -[Z.mul]; [|done].
  intros [= <-]. cbn -[Z.mul]. unfold config_ok, misc_ok. repeat case_decide; by split_and!.
Qed.
End Parse.

(** ** What an earlier configuration leaves behind *)

Lemma strncpy_fresh n m m' src : array_ok (S n) m → array_ok (S n) m' → strncpy m src n = strncpy m' src n.
Proof.
  intros [Hl [pre ->]] [Hl' [pre' ->]]. rewrite length_app in Hl, Hl'. cbn in *.
  unfold strncpy. by rewrite !drop_app_length' by lia.
Qed.

(** The two configurations answer every getter alike: only a credential array
    no pointer refers to may differ. *)
Definition agree (c c' : config) : Prop :=
  c_tun c = c_tun c' ∧ srv c = srv c' ∧ c_dns c = c_dns c' ∧ c_misc c = c_misc c' ∧
  (srv_user (srv c) = CUser → _user c = _user c') ∧ (srv_pass (srv c) = CPass → _pass c = _pass c').

Lemma reset_agree c c' : agree (hev_config_reset c) (hev_config_reset c').
Proof. by split_and!. Qed.

Section Agree.
Context (p4 : list Z → option (list Z)) (doc : document).

Lemma parse_socks5_agree node c c' : config_ok c → config_ok c' → agree c c' →
  (hev_config_parse_socks5 doc node c).1 = (hev_config_parse_socks5 doc node c').1 ∧
  agree (hev_config_parse_socks5 doc node c).2 (hev_config_parse_socks5 doc node c').2.
Proof.
  intros (_ & _ & _ & Hu & Hp) (_ & _ & _ & Hu' & Hp') (E1 & E2 & E3 & E4 & E5 & E6).
  unfold hev_config_parse_socks5, socks5_finish. rewrite <-E2. destruct node as [[] |]; try by split_and!.
  destruct (scalar_pairs _ _ _ _) as [addr port udpm udpa user pass mark pipe tfso].
  cbn [l_addr l_port l_udpm l_udpa l_user l_pass l_mark l_pipe l_tfso].
  destruct port as [port|], addr as [addr|]; try by split_and!. cbv zeta.
  destruct user as [user|], pass as [pass|]; try by split_and!.
  - rewrite (strncpy_fresh 255 (_user c) (_user c')), (strncpy_fresh 255 (_pass c) (_pass c')) by done.
    split; [done |]. split_and!; done.
  - split; [done |].
    destruct (case_is pipe _), (case_is udpm _), udpa as [udpa|], mark as [mark|], tfso as [tfso|]; by split_and!.
Qed.

Lemma doc_section_agree key node c c' : config_ok c → config_ok c' → agree c c' →
  (doc_section p4 doc key node c).1 = (doc_section p4 doc key node c').1 ∧
  agree (doc_section p4 doc key node c).2 (doc_section p4 doc key node c').2.
Proof.
  intros Hc Hc' Ha. pose proof (parse_socks5_agree node _ _ Hc Hc' Ha) as H5. unfold doc_section.
  destruct Ha as (E1 & E2 & E3 & E4 & E5 & E6). rewrite E1, E3, E4.
  destruct (str_is key "tunnel"); [destruct (hev_config_parse_tunnel _ _ _); by split_and! |].
  destruct (str_is key "socks5"); [done |].
  destruct (str_is key "mapdns"); [destruct (hev_config_parse_mapdns _ _ _ _); by split_and! |].
  destruct (str_is key "misc"); [destruct (hev_config_parse_misc _ _ _); by split_and! | by split_and!].
Qed.

Lemma doc_pairs_agree pairs c c' : config_ok c → config_ok c' → agree c c' →
  (doc_pairs p4 doc pairs c).1 = (doc_pairs p4 doc pairs c').1 ∧
  agree (doc_pairs p4 doc pairs c).2 (doc_pairs p4 doc pairs c').2.
Proof.
  revert c c'; induction pairs as [|[k v] pairs IH]; cbn [doc_pairs]; intros c c' Hc Hc' Ha; [done |].
  case_decide; [by apply IH |]. destruct (yaml_document_get_node doc k) as [[key | |] |]; try done.
  set (node := yaml_document_get_node doc v).
  pose proof (doc_section_ok p4 doc key node c Hc) as H1.
  pose proof (doc_section_ok p4 doc key node c' Hc') as H2.
  destruct (doc_section_agree key node c c' Hc Hc' Ha) as [Hr Hs].
  destruct (doc_section _ _ _ _ c) as [r d], (doc_section _ _ _ _ c') as [r' d']. cbn in *. subst r'.
  case_decide; [done | by apply IH].
Qed.

Lemma parse_doc_agree c c' : config_ok c → config_ok c' → agree c c' →
  option_Forall2 (λ r r', r.1 = r'.1 ∧ agree r.2 r'.2) (hev_config_parse_doc p4 doc c) (hev_config_parse_doc p4 doc c').
Proof.
  intros Hc Hc' Ha. unfold hev_config_parse_doc.
  destruct (yaml_document_get_root_node doc) as [[| | pairs] |]; try by constructor.
  destruct (doc_pairs_agree pairs c c' Hc Hc' Ha) as [Hr Hs].
  destruct (doc_pairs _ _ _ c) as [r d], (doc_pairs _ _ _ c') as [r' d']. cbn in Hr, Hs. subst r'.
  case_decide; [by constructor |]. cbv zeta. destruct Hs as (E1 & E2 & E3 & E4 & E5 & E6). rewrite <-E4.
  destruct (int_ok _) as [z|]; cbn -[Z.mul]; [|constructor]. destruct (int_ok _) as [z1|]; cbn -[Z.mul]; constructor.
  by split_and!.
Qed.
End Agree.

Section Claims.
Context (p4 : list Z → option (list Z)) (ready : bool).
Context (fopen : list Z → option (list Z)) (load : list Z → option document).

Lemma init_file_ok path c r : config_ok c →
  hev_config_init_from_file p4 ready fopen load path c = Some r → config_ok r.2.
Proof.
  intros Hc%reset_ok. unfold hev_config_init_from_file. destruct ready; [|by intros [= <-]]. cbn [negb].
  destruct (fopen path) as [text|]; [|by intros [= <-]].
  destruct (load text) as [doc|]; [|by intros [= <-]]. by apply parse_doc_ok.
Qed.

(** The getters of strings, with the size of their arrays. *)
Definition string_getters : list (nat * (config → option (option (list Z)))) :=
  [(64%nat, hev_config_get_tunnel_name); (16%nat, hev_config_get_tunnel_ipv4_address);
   (64%nat, hev_config_get_tunnel_ipv6_address); (1024%nat, hev_config_get_tunnel_post_up_script);
   (1024%nat, hev_config_get_tunnel_pre_down_script); (1024%nat, hev_config_get_misc_pid_file);
   (1024%nat, hev_config_get_misc_log_file)].

Lemma log_file_get c o : get_string (log_file (c_misc c)) = Some o →
  ∃ o', hev_config_get_misc_log_file c = Some o' ∧ ∀ s, o' = Some s → o = Some s.
Proof.
  intros E. unfold hev_config_get_misc_log_file. rewrite E. cbn. destruct o as [s|]; [|by exists None].
  destruct (str_is s "null"); [by exists None | by exists (Some s)].
Qed.

Lemma string_getters_ok c : config_ok c →
  Forall (λ g, ∃ o, g.2 c = Some o ∧ ∀ s, o = Some s → s ≠ [] ∧ (length s < g.1)%nat) string_getters.
Proof.
  intros ((H1 & H2 & H3 & H4 & H5) & _ & [Hl Hp] & _).
  assert (∀ n m, array_ok n m → ∃ o, get_string m = Some o ∧ ∀ s, o = Some s → s ≠ [] ∧ (length s < n)%nat) as Hget.
  { intros n m (o & E & Ho)%array_ok_get. exists o. split; [done |]. intros s Hs. by apply Ho. }
  unfold string_getters. do 6 (apply Forall_cons; split; [by apply Hget |]). apply Forall_singleton.
  destruct (Hget _ _ Hl) as (o & E & Ho). destruct (log_file_get _ _ E) as (o' & E' & Ho').
  exists o'. split; [done |]. intros s Hs. apply Ho, Ho', Hs.
Qed.

(** C23. Whatever the file, the parser and the document deliver, every
    character array of the configuration stays terminated: each string getter
    returns null or a string that is not empty and fits its array, and the
    server's names and the credentials the session sends are such strings. *)
Theorem config_strings_terminated path c r :
  config_ok c → hev_config_init_from_file p4 ready fopen load path c = Some r →
  config_ok r.2 ∧
  Forall (λ g, ∃ o, g.2 r.2 = Some o ∧ ∀ s, o = Some s → s ≠ [] ∧ (length s < g.1)%nat) string_getters ∧
  (∃ a u, cstr (srv_addr (hev_config_get_socks5_server r.2)) = Some a ∧ (length a < 256)%nat ∧
          cstr (srv_udp_addr (hev_config_get_socks5_server r.2)) = Some u ∧ (length u < 256)%nat) ∧
  Forall (λ p, p = CNull ∨ ∃ s, deref p r.2 = Some s ∧ (length s < 256)%nat)
    [srv_user (hev_config_get_socks5_server r.2); srv_pass (hev_config_get_socks5_server r.2)].
Proof.
  intros Hc Hr. pose proof (init_file_ok _ _ _ Hc Hr) as Hok. split; [done |].
  pose proof Hok as (_ & (Ha & Hu & Hup) & _ & Hus & Hpa). split; [|split].
  - by apply string_getters_ok.
  - destruct (array_ok_cstr _ _ Ha) as (a & ? & ?), (array_ok_cstr _ _ Hu) as (u & ? & ?). by exists a, u.
  - destruct (array_ok_cstr _ _ Hus) as (a & ? & ?), (array_ok_cstr _ _ Hpa) as (u & ? & ?).
    unfold hev_config_get_socks5_server. rewrite !Forall_cons.
    destruct Hup as [[-> ->] | [-> ->]]; (split; [|split; [|constructor]]); (by left) || (right; eauto).
Qed.

(** C24. Loading a configuration forgets the one before: from any two states
    of the statics the load returns the same, and every getter, the server
    record and the credentials it points to answer the same afterwards. *)
Theorem config_load_fresh path c c' :
  config_ok c → config_ok c' →
  option_Forall2 (λ r r', r.1 = r'.1 ∧ agree r.2 r'.2)
    (hev_config_init_from_file p4 ready fopen load path c)
    (hev_config_init_from_file p4 ready fopen load path c').
Proof.
  intros Hc%reset_ok Hc'%reset_ok. unfold hev_config_init_from_file.
  assert (∀ z : Z, option_Forall2 (λ r r', r.1 = r'.1 ∧ agree r.2 r'.2)
    (Some (z, hev_config_reset c)) (Some (z, hev_config_reset c'))) as Hfail
    by (intros z; constructor; split; [done | apply reset_agree]).
  destruct ready; cbn [negb]; [|apply Hfail]. destruct (fopen path) as [text|]; [|apply Hfail].
  destruct (load text) as [doc|]; [|apply Hfail]. by apply parse_doc_agree.
Qed.
End Claims.

(** C25. The sizes the sessions use, for every document that loads: the TCP
    buffer is the configured size cut to the send buffer of lwIP, the number of
    copy buffers is the configured one, and the stack of a task is the
    configured size raised to what the TCP buffer or the UDP copy buffers need
    beside its own 20480 bytes.  Neither number has a lower bound, so sizes of
    0 and negative ones load; the [int] arithmetic overflows for exactly those
    documents whose number of copy buffers is out of a range the file never
    checks. *)
Theorem config_sizes p4 doc pairs c c1 :
  yaml_document_get_root_node doc = Some (YMapping pairs) → doc_pairs p4 doc pairs c = (0, c1) →
  (hev_config_parse_doc p4 doc c = None ↔
     ¬ (-1431655 ≤ hev_config_get_misc_udp_copy_buffer_nums c1 ≤ 1431642)) ∧
  ∀ c', hev_config_parse_doc p4 doc c = Some (0, c') →
    hev_config_get_misc_udp_copy_buffer_nums c' = hev_config_get_misc_udp_copy_buffer_nums c1 ∧
    hev_config_get_misc_tcp_buffer_size c' = Z.min (hev_config_get_misc_tcp_buffer_size c1) 65528 ∧
    hev_config_get_misc_task_stack_size c' = Z.max (hev_config_get_misc_task_stack_size c1)
      (20480 + Z.max (hev_config_get_misc_tcp_buffer_size c') (1500 * hev_config_get_misc_udp_copy_buffer_nums c')).
Proof.
  intros Er Ed. unfold hev_config_parse_doc, hev_config_get_misc_udp_copy_buffer_nums,
    hev_config_get_misc_tcp_buffer_size, hev_config_get_misc_task_stack_size. rewrite Er, Ed.
  cbn [fst]. rewrite decide_False by lia. cbv zeta. generalize (c_misc c1) as m. intros m.
  set (m1 := if decide (tcp_buffer_size m > TCP_SND_BUF) then set_tcp_buffer_size TCP_SND_BUF m else m).
  assert (st_udp_copy_buffer_nums m1 = st_udp_copy_buffer_nums m) as E1 by (unfold m1; by case_decide).
  assert (tcp_buffer_size m1 = Z.min (tcp_buffer_size m) 65528) as E2.
  { unfold m1, TCP_SND_BUF. case_decide; cbn -[Z.min]; lia. }
  assert (st_task_stack_size m1 = st_task_stack_size m) as E3 by (unfold m1; by case_decide).
  rewrite <-E1, <-E2, <-E3. assert (tcp_buffer_size m1 ≤ 65528) as Hb by lia. clear E1 E2 E3. clearbody m1.
  unfold int_ok, CONF_UDP_BUF_SIZE, TASK_STACK_SIZE.
  destruct (decide (- 2 ^ 31 ≤ 1500 * st_udp_copy_buffer_nums m1 < 2 ^ 31)) as [H1 | H1];
    cbn -[Z.mul Z.add Z.pow]; [|split; [split; [intros _ ? | done] | done]; lia].
  match goal with |- context [decide (- 2 ^ 31 ≤ ?e < 2 ^ 31)] => set (n := e) end.
  assert (n = 20480 + Z.max (tcp_buffer_size m1) (1500 * st_udp_copy_buffer_nums m1)) as Hn
    by (unfold n; case_decide; lia). clearbody n.
  destruct (decide (- 2 ^ 31 ≤ n < 2 ^ 31)) as [H2 | H2];
    cbn -[Z.mul Z.add Z.pow]; [|split; [split; [intros _ ? | done] | done]; lia].
  split; [split; [done | intros H; exfalso; apply H; lia] |].
  intros c' [= <-]. cbn -[Z.mul Z.add Z.max]. case_decide; cbn -[Z.mul Z.add Z.max]; lia.
Qed.

(** A document with the sections of a minimal configuration. *)
Definition demo_doc : document :=
  [YMapping [(2, 3)]; YScalar (str "socks5"); YMapping [(4, 5); (6, 7)];
   YScalar (str "port"); YScalar (str "1080"); YScalar (str "address"); YScalar (str "127.0.0.1")].

Definition demo_load : config → option (Z * config) :=
  hev_config_init_from_file (λ _, None) true (λ _, Some []) (λ _, Some demo_doc) [].

Lemma config_strings_terminated_witness :
  match demo_load config_zero with Some r => config_ok r.2 | None => False end.
Proof.
  assert (demo_load config_zero ≠ None) as Hn by (vm_compute; discriminate).
  destruct (demo_load config_zero) as [r|] eqn:E; [|done].
  apply (config_strings_terminated (λ _, None) true (λ _, Some []) (λ _, Some demo_doc) [] config_zero r
    config_zero_ok E).
Defined.

(** Statics another configuration left with credentials. *)
Definition demo_used : config :=
  set_srv (set_srv_user CUser (set_srv_pass CPass (srv config_zero))) config_zero.

Lemma demo_used_ok : config_ok demo_used.
Proof.
  unfold config_ok, tunnel_ok, srv_ok, misc_ok, demo_used, config_zero. cbn.
  split_and!; try apply array_ok_zero. by right.
Qed.

Lemma config_load_fresh_witness :
  option_Forall2 (λ r r', r.1 = r'.1 ∧ agree r.2 r'.2) (demo_load config_zero) (demo_load demo_used).
Proof.
  apply (config_load_fresh (λ _, None) true (λ _, Some []) (λ _, Some demo_doc) [] config_zero demo_used
    config_zero_ok demo_used_ok).
Defined.

Lemma config_sizes_witness :
  (hev_config_parse_doc (λ _, None) demo_doc (hev_config_reset config_zero) = None ↔ ¬ (-1431655 ≤ 10 ≤ 1431642)).
Proof.
  destruct (doc_pairs (λ _, None) demo_doc [(2, 3)] (hev_config_reset config_zero)) as [r c1] eqn:E.
  assert (r = 0 ∧ hev_config_get_misc_udp_copy_buffer_nums c1 = 10) as [-> <-].
  { apply (f_equal (λ x, (x.1, hev_config_get_misc_udp_copy_buffer_nums x.2))) in E. vm_compute in E.
    by simplify_eq. }
  exact (proj1 (config_sizes (λ _, None) demo_doc [(2, 3)] _ _ eq_refl E)).
Defined.

(** A document whose sizes no array can have is loaded. *)
Definition small_doc : document :=
  [YMapping [(2, 3); (8, 9)]; YScalar (str "socks5"); YMapping [(4, 5); (6, 7)];
   YScalar (str "port"); YScalar (str "1080"); YScalar (str "address"); YScalar (str "127.0.0.1");
   YScalar (str "misc"); YMapping [(10, 11); (12, 13)];
   YScalar (str "tcp-buffer-size"); YScalar (str "-1"); YScalar (str "udp-copy-buffer-nums"); YScalar (str "0")].

Theorem small_sizes_load : ∃ c, hev_config_parse_doc (λ _, None) small_doc (hev_config_reset config_zero) = Some (0, c) ∧
  hev_config_get_misc_tcp_buffer_size c = -1 ∧ hev_config_get_misc_udp_copy_buffer_nums c = 0.
Proof. eexists. split; [vm_compute; reflexivity |]. split; vm_compute; reflexivity. Qed.
