(* ===== verification/ConfigDoc.v ===== *)
(** * Documents written from settings

    A printer for configuration documents: settings become the node array the
    YAML parser would deliver for them.  Loading such a document and asking
    the getters gives the settings back. *)

From Stdlib Require Import String.
From S2P Require Import Prelude Buffer Config ConfigProps.

(** ** Printing *)

(** The decimal digits of a number, as many as [fuel]. *)
Fixpoint dec (fuel : nat) (n : Z) : list Z :=
  match fuel with
  | O => []
  | S fuel => if decide (n < 10) then [48 + n] else dec fuel (n / 10) ++ [48 + n mod 10]
  end.

Abbreviation num n := (dec 20 n).

Abbreviation entry := (list Z * list Z)%type.

Fixpoint entry_pairs (i : Z) (kvs : list entry) : list (Z * Z) :=
  match kvs with
  | [] => []
  | _ :: kvs => (i, i + 1) :: entry_pairs (i + 2) kvs
  end.

Fixpoint entry_nodes (kvs : list entry) : list yaml_node :=
  match kvs with
  | [] => []
  | (k, v) :: kvs => YScalar k :: YScalar v :: entry_nodes kvs
  end.

(** Sections follow each other from index [i]: the name, the mapping, and the
    scalars of its entries. *)
Fixpoint sec_pairs (i : Z) (secs : list (list Z * list entry)) : list (Z * Z) :=
  match secs with
  | [] => []
  | (_, kvs) :: secs => (i, i + 1) :: sec_pairs (i + 2 + 2 * Z.of_nat (length kvs)) secs
  end.

Fixpoint sec_nodes (i : Z) (secs : list (list Z * list entry)) : list yaml_node :=
  match secs with
  | [] => []
  | (name, kvs) :: secs =>
      YScalar name :: YMapping (entry_pairs (i + 2) kvs) :: entry_nodes kvs ++
      sec_nodes (i + 2 + 2 * Z.of_nat (length kvs)) secs
  end.

Definition doc_of (secs : list (list Z * list entry)) : document :=
  YMapping (sec_pairs 2 secs) :: sec_nodes 2 secs.

(** ** Reading back *)

Lemma get_node_at pre n post i :
  i = Z.of_nat (length pre) + 1 → yaml_document_get_node (pre ++ n :: post) i = Some n.
Proof.
  intros ->. unfold yaml_document_get_node. rewrite decide_True by lia.
  replace (Z.to_nat _) with (length pre) by lia. by apply list_lookup_middle.
Qed.

Lemma length_entry_nodes kvs : length (entry_nodes kvs) = (2 * length kvs)%nat.
Proof. induction kvs as [|[k v] kvs IH]; cbn; [done | lia]. Qed.

Lemma scalar_pairs_entries {St} (f : list Z → list Z → St → St) kvs pre post i s :
  i = Z.of_nat (length pre) + 1 →
  scalar_pairs (pre ++ entry_nodes kvs ++ post) f (entry_pairs i kvs) s =
  foldl (λ s kv, f kv.1 kv.2 s) s kvs.
Proof.
  revert pre i s; induction kvs as [|[k v] kvs IH]; intros pre i s Hi; [done |].
  cbn [entry_pairs scalar_pairs entry_nodes foldl app].
  rewrite decide_False by lia. rewrite get_node_at by done.
  change (YScalar k :: YScalar v :: entry_nodes kvs ++ post) with ([YScalar k] ++ YScalar v :: entry_nodes kvs ++ post).
  rewrite app_assoc, get_node_at by (rewrite length_app; cbn; lia).
  change (YScalar v :: entry_nodes kvs ++ post) with ([YScalar v] ++ entry_nodes kvs ++ post).
  rewrite app_assoc. apply IH. rewrite !length_app. cbn. lia.
Qed.

Lemma tunnel_pairs_entries kvs pre post i t :
  i = Z.of_nat (length pre) + 1 →
  tunnel_pairs (pre ++ entry_nodes kvs ++ post) (entry_pairs i kvs) t =
  foldl (λ t kv, tunnel_scalar kv.1 kv.2 t) t kvs.
Proof.
  revert pre i t; induction kvs as [|[k v] kvs IH]; intros pre i t Hi; [done |].
  cbn [entry_pairs tunnel_pairs entry_nodes foldl app].
  rewrite decide_False by lia. rewrite get_node_at by done.
  change (YScalar k :: YScalar v :: entry_nodes kvs ++ post) with ([YScalar k] ++ YScalar v :: entry_nodes kvs ++ post).
  rewrite app_assoc, get_node_at by (rewrite length_app; cbn; lia).
  change (YScalar v :: entry_nodes kvs ++ post) with ([YScalar v] ++ entry_nodes kvs ++ post).
  rewrite app_assoc. apply IH. rewrite !length_app. cbn. lia.
Qed.

(** Numbers. *)
Lemma digit_val_dec d : 0 ≤ d < 10 → digit_val (48 + d) = Some d.
Proof. intros H. unfold digit_val. rewrite decide_True by lia. f_equal. lia. Qed.

Lemma digits_snoc acc ds d : Forall (λ b, 48 ≤ b < 58) ds → 0 ≤ d < 10 →
  digits 10 acc (ds ++ [48 + d]) = digits 10 acc ds * 10 + d.
Proof.
  intros Hds Hd. revert acc; induction Hds as [|b ds Hb _ IH]; intros acc; cbn.
  - rewrite digit_val_dec by done. by rewrite decide_True by lia.
  - replace b with (48 + (b - 48)) by lia. rewrite !digit_val_dec by lia.
    rewrite !decide_True by lia. apply IH.
Qed.

Lemma dec_spec fuel n : 0 ≤ n < 10 ^ Z.of_nat fuel → 0 < Z.of_nat fuel →
  Forall (λ b, 48 ≤ b < 58) (dec fuel n) ∧ dec fuel n ≠ [] ∧ digits 10 0 (dec fuel n) = n.
Proof.
  revert n; induction fuel as [|fuel IH]; intros n Hn Hf; [lia |]. cbn [dec]. case_decide as H10.
  - split_and!; [repeat constructor; lia | done |]. cbn [digits]. rewrite digit_val_dec by lia.
    by rewrite decide_True by lia.
  - assert (0 < Z.of_nat fuel) as Hf'.
    { destruct fuel; [change (10 ^ Z.of_nat 1) with 10 in Hn; lia | lia]. }
    rewrite Nat2Z.inj_succ, Z.pow_succ_r in Hn by lia.
    pose proof (Z.div_mod n 10 ltac:(lia)). pose proof (Z.mod_pos_bound n 10 ltac:(lia)).
    destruct (IH (n / 10)) as (H1 & H2 & H3);
      [split; [apply Z.div_pos; lia | apply Z.div_lt_upper_bound; lia] | done |].
    split_and!; [apply Forall_app; split; [done | repeat constructor; lia] | by destruct (dec fuel (n / 10)) |].
    rewrite digits_snoc, H3 by (done || lia). lia.
Qed.

(** Reading a decimal number in base 10 gives it back. *)
Lemma strtoul_num n : 0 ≤ n < 2 ^ 64 → strtoul (num n) 10 = n.
Proof.
  intros Hn. destruct (dec_spec 20 n) as (Hd & Hne & Hv); [lia | lia |].
  destruct (num n) as [|b ds]; [done |]. apply Forall_cons in Hd as [Hb _].
  unfold strtoul. cbn [skip_spaces]. unfold isspace. rewrite bool_decide_eq_false_2 by lia.
  cbn [read_sign]. rewrite !decide_False by lia. unfold read_base. rewrite decide_True by lia.
  rewrite Hv. unfold ULONG_MAX. by rewrite decide_False by lia.
Qed.

Lemma strtol_num n : 0 ≤ n < 2 ^ 63 → strtol (num n) 10 = n.
Proof.
  intros Hn. destruct (dec_spec 20 n) as (Hd & Hne & Hv); [lia | lia |].
  destruct (num n) as [|b ds]; [done |]. apply Forall_cons in Hd as [Hb _].
  unfold strtol. cbn [skip_spaces]. unfold isspace. rewrite bool_decide_eq_false_2 by lia.
  cbn [read_sign]. rewrite !decide_False by lia. unfold read_base. rewrite decide_True by lia.
  rewrite Hv. unfold LONG_MAX. lia.
Qed.

(** Strings that fit an array of [S n] bytes. *)
Definition fits (n : nat) (s : list Z) : Prop := s ≠ [] ∧ (length s ≤ n)%nat ∧ Forall (λ b, 0 < b < 256) s.

Lemma strncpy_cstr n s : fits n s → cstr (strncpy (replicate (S n) 0) s n) = Some s.
Proof.
  intros (_ & Hl & Hs). unfold strncpy. rewrite take_app_ge, take_replicate by done.
  rewrite drop_replicate. replace (S n - n)%nat with 1%nat by lia.
  rewrite <-app_assoc. change (replicate 1 0) with [0]. rewrite <-replicate_cons_app. by apply cstr_app.
Qed.

Lemma strncpy_get n s : fits n s → get_string (strncpy (replicate (S n) 0) s n) = Some (Some s).
Proof.
  intros Hs. pose proof (strncpy_cstr _ _ Hs) as E. destruct Hs as (Hne & Hl & Hb).
  unfold get_string. destruct s as [|b s]; [done |]. apply Forall_cons in Hb as [Hb _].
  destruct n as [|n]; [cbn in Hl; lia |].
  assert (mem_get (strncpy (replicate (S (S n)) 0) (b :: s) (S n)) 0 = Some b) as -> by done.
  cbn [option_bind mbind]. rewrite decide_False by lia. by rewrite E.
Qed.

Lemma dec_head fuel n : 0 < n < 10 ^ Z.of_nat fuel → ∃ b ds, dec fuel n = b :: ds ∧ b ≠ 48.
Proof.
  revert n; induction fuel as [|fuel IH]; intros n Hn; [change (10 ^ Z.of_nat 0) with 1 in Hn; lia |].
  cbn [dec]. case_decide; [exists (48 + n), []; split; [done | lia] |].
  rewrite Nat2Z.inj_succ, Z.pow_succ_r in Hn by lia.
  destruct (IH (n / 10)) as (b & ds & -> & Hb); [|by exists b, (ds ++ [48 + n mod 10])].
  split; [apply Z.div_str_pos; lia | apply Z.div_lt_upper_bound; lia].
Qed.

(** So does reading it with the base its prefix chooses. *)
Lemma strtoul_num0 n : 0 ≤ n < 2 ^ 64 → strtoul (num n) 0 = n.
Proof.
  intros Hn. destruct (decide (n = 0)) as [-> |]; [done |].
  rewrite <-(strtoul_num n) at 2 by done.
  destruct (dec_spec 20 n) as (Hd & _ & _); [lia | lia |]. destruct (dec_head 20 n) as (b & ds & E & Hb); [lia |].
  rewrite E in *. apply Forall_cons in Hd as [Hb' _].
  unfold strtoul. cbn [skip_spaces]. unfold isspace. rewrite bool_decide_eq_false_2 by lia.
  cbn [read_sign]. rewrite !decide_False by lia. unfold read_base. rewrite decide_False, (decide_True (P := 10 ≠ 0)) by lia.
  destruct ds as [|? [|? ?]]; by repeat rewrite decide_False by lia.
Qed.

(** ** Settings *)

Record settings := mkSettings {
  se_name : list Z; se_mtu : Z; se_multi_queue : bool; se_ipv4 : list Z; se_ipv6 : list Z; se_icmp : bool;
  se_address : list Z; se_port : Z; se_udp_in_udp : bool; se_udp_address : list Z; se_pipeline : bool;
  se_user : list Z; se_pass : list Z; se_mark : Z; se_fastopen : bool;
  se_dns_port : Z; se_network : list Z; se_cache_size : Z;
  se_stack : Z; se_tcp_buffer : Z; se_nums : Z; se_sessions : Z; se_connect : Z; se_tcp : Z; se_udp : Z;
  se_log_file : list Z; se_level : Z; se_nofile : Z;
}.

Definition yes_no (b : bool) : list Z := if b then str "true" else str "false".

Definition level_name (l : Z) : list Z :=
  if decide (l = 0) then str "debug" else if decide (l = 1) then str "info"
  else if decide (l = 3) then str "error" else str "warn".

Definition render_tunnel (s : settings) : list entry :=
  [(str "name", se_name s); (str "mtu", num (se_mtu s)); (str "multi-queue", yes_no (se_multi_queue s));
   (str "ipv4", se_ipv4 s); (str "ipv6", se_ipv6 s);
   (str "icmp", if se_icmp s then str "reply" else str "off")].

Definition render_socks5 (s : settings) : list entry :=
  [(str "port", num (se_port s)); (str "address", se_address s);
   (str "udp", if se_udp_in_udp s then str "udp" else str "tcp"); (str "udp-address", se_udp_address s);
   (str "pipeline", yes_no (se_pipeline s)); (str "username", se_user s); (str "password", se_pass s);
   (str "mark", num (se_mark s)); (str "tcp-fastopen", yes_no (se_fastopen s))].

Definition render_mapdns (s : settings) : list entry :=
  [(str "port", num (se_dns_port s)); (str "network", se_network s); (str "cache-size", num (se_cache_size s))].

Definition render_misc (s : settings) : list entry :=
  [(str "task-stack-size", num (se_stack s)); (str "tcp-buffer-size", num (se_tcp_buffer s));
   (str "udp-copy-buffer-nums", num (se_nums s)); (str "max-session-count", num (se_sessions s));
   (str "connect-timeout", num (se_connect s)); (str "tcp-read-write-timeout", num (se_tcp s));
   (str "udp-read-write-timeout", num (se_udp s)); (str "log-file", se_log_file s);
   (str "log-level", level_name (se_level s)); (str "limit-nofile", num (se_nofile s))].

Definition sections (s : settings) : list (list Z * list entry) :=
  [(str "tunnel", render_tunnel s); (str "socks5", render_socks5 s);
   (str "mapdns", render_mapdns s); (str "misc", render_misc s)].

Definition render (s : settings) : document := doc_of (sections s).

(** The settings the file can hold. *)
Definition settings_ok (s : settings) : Prop :=
  (fits 63 (se_name s) ∧ fits 15 (se_ipv4 s) ∧ fits 63 (se_ipv6 s) ∧ fits 255 (se_address s) ∧
   fits 255 (se_udp_address s) ∧ fits 255 (se_user s) ∧ fits 255 (se_pass s) ∧ fits 1023 (se_log_file s) ∧
   se_log_file s ≠ str "null") ∧
  (0 ≤ se_mtu s < 2 ^ 32 ∧ 0 ≤ se_mark s < 2 ^ 32 ∧ 0 ≤ se_port s < 2 ^ 16) ∧
  Forall (λ n, 0 ≤ n < 2 ^ 31) [se_dns_port s; se_cache_size s; se_sessions s; se_connect s; se_nofile s] ∧
  (0 < se_tcp s < 2 ^ 31 ∧ 0 < se_udp s < 2 ^ 31) ∧
  (0 ≤ se_tcp_buffer s ≤ TCP_SND_BUF ∧ 0 ≤ se_nums s ≤ 1431642 ∧
   20480 + Z.max (se_tcp_buffer s) (1500 * se_nums s) ≤ se_stack s < 2 ^ 31) ∧
  0 ≤ se_level s < 4.

(** What the entries of the printed sections do. *)
Lemma tunnel_keys :
  (∀ v t, tunnel_scalar (str "name") v t = set_tun_name (strncpy (tun_name t) v 63) t) ∧
  (∀ v t, tunnel_scalar (str "mtu") v t = set_tun_mtu (u32 (strtoul v 10)) t) ∧
  (∀ v t, tunnel_scalar (str "multi-queue") v t = set_multi_queue (strcasecmp v (str "false")) t) ∧
  (∀ v t, tunnel_scalar (str "ipv4") v t = set_tun_ipv4_address (strncpy (tun_ipv4_address t) v 15) t) ∧
  (∀ v t, tunnel_scalar (str "ipv6") v t = set_tun_ipv6_address (strncpy (tun_ipv6_address t) v 63) t) ∧
  (∀ v t, tunnel_scalar (str "icmp") v t = set_icmp (if decide (strcasecmp v (str "reply") = 0) then 1 else 0) t).
Proof. by split_and!. Qed.

Lemma socks5_keys :
  (∀ v l, socks5_scalar (str "port") v l = set_l_port (Some v) l) ∧
  (∀ v l, socks5_scalar (str "address") v l = set_l_addr (Some v) l) ∧
  (∀ v l, socks5_scalar (str "udp") v l = set_l_udpm (Some v) l) ∧
  (∀ v l, socks5_scalar (str "udp-address") v l = set_l_udpa (Some v) l) ∧
  (∀ v l, socks5_scalar (str "pipeline") v l = set_l_pipe (Some v) l) ∧
  (∀ v l, socks5_scalar (str "username") v l = set_l_user (Some v) l) ∧
  (∀ v l, socks5_scalar (str "password") v l = set_l_pass (Some v) l) ∧
  (∀ v l, socks5_scalar (str "mark") v l = set_l_mark (Some v) l) ∧
  (∀ v l, socks5_scalar (str "tcp-fastopen") v l = set_l_tfso (Some v) l).
Proof. by split_and!. Qed.

Lemma misc_keys :
  (∀ v m a b d, misc_scalar (str "task-stack-size") v (m, (a, b, d)) = (set_st_task_stack_size (i32 (strtoul v 10)) m, (a, b, d))) ∧
  (∀ v m a b d, misc_scalar (str "tcp-buffer-size") v (m, (a, b, d)) = (set_tcp_buffer_size (i32 (strtoul v 10)) m, (a, b, d))) ∧
  (∀ v m a b d, misc_scalar (str "udp-copy-buffer-nums") v (m, (a, b, d)) = (set_st_udp_copy_buffer_nums (i32 (strtoul v 10)) m, (a, b, d))) ∧
  (∀ v m a b d, misc_scalar (str "max-session-count") v (m, (a, b, d)) = (set_max_session_count (i32 (strtoul v 10)) m, (a, b, d))) ∧
  (∀ v m a b d, misc_scalar (str "connect-timeout") v (m, (a, b, d)) = (set_st_connect_timeout (i32 (strtoul v 10)) m, (a, b, d))) ∧
  (∀ v m a b d, misc_scalar (str "tcp-read-write-timeout") v (m, (a, b, d)) = (m, (i32 (strtoul v 10), b, d))) ∧
  (∀ v m a b d, misc_scalar (str "udp-read-write-timeout") v (m, (a, b, d)) = (m, (a, i32 (strtoul v 10), d))) ∧
  (∀ v m a b d, misc_scalar (str "log-file") v (m, (a, b, d)) = (set_log_file (strncpy (log_file m) v 1023) m, (a, b, d))) ∧
  (∀ v m a b d, misc_scalar (str "log-level") v (m, (a, b, d)) = (set_log_level (hev_config_parse_log_level v) m, (a, b, d))) ∧
  (∀ v m a b d, misc_scalar (str "limit-nofile") v (m, (a, b, d)) = (set_limit_nofile (i32 (strtol v 10)) m, (a, b, d))).
Proof. by split_and!. Qed.

Lemma mapdns_keys p4 :
  (∀ v d, mapdns_scalar p4 (str "port") v d = set_mapdns_port (i32 (strtoul v 10)) d) ∧
  (∀ v d, mapdns_scalar p4 (str "network") v d = set_mapdns_network (match p4 v with Some b => i32 (le32 b) | None => mapdns_network d end) d) ∧
  (∀ v d, mapdns_scalar p4 (str "cache-size") v d = set_mapdns_cache_size (i32 (strtoul v 10)) d).
Proof. by split_and!. Qed.

Section Sections.
Context (st : settings) (Hok : settings_ok st).

Lemma tunnel_loaded t :
  foldl (λ t kv, tunnel_scalar kv.1 kv.2 t) t (render_tunnel st) =
  mkTun (strncpy (tun_name t) (se_name st) 63) (se_mtu st) (if se_multi_queue st then 14 else 0)
    (if se_icmp st then 1 else 0) (strncpy (tun_ipv4_address t) (se_ipv4 st) 15)
    (strncpy (tun_ipv6_address t) (se_ipv6 st) 63) (tun_post_up_script t) (tun_pre_down_script t).
Proof.
  destruct Hok as (_ & (Hm & _) & _). destruct tunnel_keys as (E1 & E2 & E3 & E4 & E5 & E6).
  unfold render_tunnel. cbn [foldl fst snd]. rewrite E1, E2, E3, E4, E5, E6.
  rewrite strtoul_num, u32_small by lia. destruct t, (se_multi_queue st), (se_icmp st); done.
Qed.

Lemma socks5_loaded :
  foldl (λ l kv, socks5_scalar kv.1 kv.2 l) (mkLoc None None None None None None None None None) (render_socks5 st) =
  mkLoc (Some (se_address st)) (Some (num (se_port st)))
    (Some (if se_udp_in_udp st then str "udp" else str "tcp")) (Some (se_udp_address st)) (Some (se_user st))
    (Some (se_pass st)) (Some (num (se_mark st))) (Some (yes_no (se_pipeline st))) (Some (yes_no (se_fastopen st))).
Proof.
  destruct socks5_keys as (E1 & E2 & E3 & E4 & E5 & E6 & E7 & E8 & E9).
  unfold render_socks5. cbn [foldl fst snd]. by rewrite E1, E2, E3, E4, E5, E6, E7, E8, E9.
Qed.

Lemma small_num n : 0 ≤ n < 2 ^ 31 → i32 (strtoul (num n) 10) = n.
Proof. intros H. rewrite strtoul_num by lia. apply i32_small. lia. Qed.

Lemma misc_loaded m :
  foldl (λ s kv, misc_scalar kv.1 kv.2 s) (m, (-1, -1, -1)) (render_misc st) =
  (mkMiscVars (strncpy (log_file m) (se_log_file st) 1023) (pid_file m) (se_sessions st) (se_stack st)
     (se_tcp_buffer st) (st_udp_recv_buffer_size m) (se_nums st) (se_connect st) (tcp_read_write_timeout m)
     (udp_read_write_timeout m) (se_nofile st) (se_level st), (se_tcp st, se_udp st, -1)).
Proof.
  destruct Hok as (_ & _ & Hn & (Ht & Hu) & (Hb & Hc & Hs) & Hl).
  rewrite !Forall_cons in Hn. destruct Hn as (_ & _ & Hse & Hco & Hno & _). unfold TCP_SND_BUF in Hb.
  destruct misc_keys as (E1 & E2 & E3 & E4 & E5 & E6 & E7 & E8 & E9 & E10).
  unfold render_misc. cbn [foldl fst snd]. rewrite E1, E2, E3, E4, E5, E6, E7, E8, E9, E10.
  rewrite !small_num by lia. rewrite strtol_num, i32_small by lia.
  assert (hev_config_parse_log_level (level_name (se_level st)) = se_level st) as ->; [|by destruct m].
  assert (se_level st = 0 ∨ se_level st = 1 ∨ se_level st = 2 ∨ se_level st = 3) as [-> | [-> | [-> | ->]]] by lia; done.
Qed.

Lemma mapdns_loaded p4 d a b e f :
  p4 (se_network st) = Some [a; b; e; f] →
  foldl (λ d kv, mapdns_scalar p4 kv.1 kv.2 d) d (render_mapdns st) =
  mkDns (mapdns_address d) (se_dns_port st) (i32 (le32 [a; b; e; f])) (mapdns_netmask d) (se_cache_size st).
Proof.
  intros Hp. destruct Hok as (_ & _ & Hn & _). rewrite !Forall_cons in Hn. destruct Hn as (Hpo & Hca & _).
  destruct (mapdns_keys p4) as (E1 & E2 & E3).
  unfold render_mapdns. cbn [foldl fst snd]. rewrite E1, E2, E3, Hp.
  rewrite !small_num by lia. by destruct d.
Qed.

(** The credentials and the server record after the section. *)
Lemma socks5_finished c :
  srv c = srv (hev_config_reset config_zero) →
  socks5_finish (mkLoc (Some (se_address st)) (Some (num (se_port st)))
    (Some (if se_udp_in_udp st then str "udp" else str "tcp")) (Some (se_udp_address st)) (Some (se_user st))
    (Some (se_pass st)) (Some (num (se_mark st))) (Some (yes_no (se_pipeline st)))
    (Some (yes_no (se_fastopen st)))) c =
  (0, mkConfig (c_tun c)
     (mkSrv CUser CPass (se_mark st) (if se_udp_in_udp st then 1 else 0) (se_port st)
        (if se_pipeline st then 1 else 0) (if se_fastopen st then 1 else 0)
        (strncpy (replicate 256 0) (se_udp_address st) 255) (strncpy (replicate 256 0) (se_address st) 255))
     (c_dns c) (c_misc c) (strncpy (_user c) (se_user st) 255) (strncpy (_pass c) (se_pass st) 255)).
Proof.
  intros Hs. destruct Hok as (_ & (_ & Hm & Hp) & _). unfold socks5_finish.
  cbn [l_addr l_port l_udpm l_udpa l_user l_pass l_mark l_pipe l_tfso]. rewrite Hs.
  rewrite strtoul_num, strtoul_num0, u16_small, u32_small by lia.
  destruct (se_udp_in_udp st), (se_pipeline st), (se_fastopen st); reflexivity.
Qed.
End Sections.

(** ** Loading a printed document *)

(** The configuration a printed document loads into. *)
Definition loaded (st : settings) (net : list Z) (c : config) : config :=
  mkConfig
    (mkTun (strncpy (replicate 64 0) (se_name st) 63) (se_mtu st) (if se_multi_queue st then 14 else 0)
       (if se_icmp st then 1 else 0) (strncpy (replicate 16 0) (se_ipv4 st) 15)
       (strncpy (replicate 64 0) (se_ipv6 st) 63) (replicate 1024 0) (replicate 1024 0))
    (mkSrv CUser CPass (se_mark st) (if se_udp_in_udp st then 1 else 0) (se_port st)
       (if se_pipeline st then 1 else 0) (if se_fastopen st then 1 else 0)
       (strncpy (replicate 256 0) (se_udp_address st) 255) (strncpy (replicate 256 0) (se_address st) 255))
    (mkDns 0 (se_dns_port st) (i32 (ntohl (i32 (le32 net)))) (i32 (ntohl 0)) (se_cache_size st))
    (mkMiscVars (strncpy (replicate 1024 0) (se_log_file st) 1023) (replicate 1024 0) (se_sessions st)
       (se_stack st) (se_tcp_buffer st) 524288 (se_nums st) (se_connect st) (se_tcp st) (se_udp st)
       (se_nofile st) (se_level st))
    (strncpy (_user c) (se_user st) 255) (strncpy (_pass c) (se_pass st) 255).

(** A section that turns [c] into [c'], wherever its entries are. *)
Definition sec_step (p4 : list Z → option (list Z)) (name : list Z) (kvs : list entry) (c c' : config) : Prop :=
  ∀ pre post i, i = Z.of_nat (length pre) + 1 →
    doc_section p4 (pre ++ entry_nodes kvs ++ post) name (Some (YMapping (entry_pairs i kvs))) c = (0, c').

Inductive loads (p4 : list Z → option (list Z)) : list (list Z * list entry) → config → config → Prop :=
| loads_nil c : loads p4 [] c c
| loads_cons name kvs secs c c1 c2 :
    sec_step p4 name kvs c c1 → loads p4 secs c1 c2 → loads p4 ((name, kvs) :: secs) c c2.

Lemma loads_doc p4 secs c c' : loads p4 secs c c' →
  ∀ pre i, i = Z.of_nat (length pre) + 1 → doc_pairs p4 (pre ++ sec_nodes i secs) (sec_pairs i secs) c = (0, c').
Proof.
  induction 1 as [c | name kvs secs c c1 c2 Hs _ IH]; intros pre i Hi; [done |].
  cbn [sec_pairs sec_nodes doc_pairs]. rewrite decide_False by lia. rewrite get_node_at by done.
  set (i' := i + 2 + 2 * Z.of_nat (length kvs)).
  assert (∀ n m l, pre ++ n :: m :: l = (pre ++ [n; m]) ++ l) as Hmid by (intros n m l; by rewrite <-app_assoc).
  assert (yaml_document_get_node (pre ++ YScalar name :: YMapping (entry_pairs (i + 2) kvs) ::
    entry_nodes kvs ++ sec_nodes i' secs) (i + 1) = Some (YMapping (entry_pairs (i + 2) kvs))) as ->.
  { rewrite (cons_middle _ pre), app_assoc. apply get_node_at. rewrite length_app. cbn. lia. }
  rewrite Hmid, Hs by (rewrite length_app; cbn; lia). rewrite decide_False by lia.
  rewrite app_assoc. apply IH. rewrite !length_app, length_entry_nodes. cbn. lia.
Qed.

Section Printed.
Context (p4 : list Z → option (list Z)) (st : settings) (c : config) (a b d e : Z).
Context (Hok : settings_ok st) (Hp : p4 (se_network st) = Some [a; b; d; e]).

Abbreviation final := (loaded st [a; b; d; e] c).
Abbreviation start := (hev_config_reset c).

Lemma tunnel_step : sec_step p4 (str "tunnel") (render_tunnel st) start (set_c_tun (c_tun final) start).
Proof.
  intros pre post i Hi. unfold doc_section. change (str_is (str "tunnel") "tunnel") with true. cbv iota.
  unfold hev_config_parse_tunnel. by rewrite tunnel_pairs_entries, tunnel_loaded.
Qed.

Lemma socks5_step :
  sec_step p4 (str "socks5") (render_socks5 st) (set_c_tun (c_tun final) start)
    (mkConfig (c_tun final) (srv final) (c_dns start) (c_misc start) (_user final) (_pass final)).
Proof.
  intros pre post i Hi. unfold doc_section. change (str_is (str "socks5") "tunnel") with false.
  change (str_is (str "socks5") "socks5") with true. cbv iota.
  unfold hev_config_parse_socks5. rewrite scalar_pairs_entries, socks5_loaded by done.
  by rewrite socks5_finished.
Qed.

Lemma mapdns_step :
  sec_step p4 (str "mapdns") (render_mapdns st)
    (mkConfig (c_tun final) (srv final) (c_dns start) (c_misc start) (_user final) (_pass final))
    (mkConfig (c_tun final) (srv final) (c_dns final) (c_misc start) (_user final) (_pass final)).
Proof.
  intros pre post i Hi. unfold doc_section. change (str_is (str "mapdns") "tunnel") with false.
  change (str_is (str "mapdns") "socks5") with false. change (str_is (str "mapdns") "mapdns") with true. cbv iota.
  unfold hev_config_parse_mapdns. by rewrite scalar_pairs_entries, (mapdns_loaded st Hok _ _ _ _ _ _ Hp).
Qed.

Lemma misc_step :
  sec_step p4 (str "misc") (render_misc st)
    (mkConfig (c_tun final) (srv final) (c_dns final) (c_misc start) (_user final) (_pass final)) final.
Proof.
  intros pre post i Hi. unfold doc_section. change (str_is (str "misc") "tunnel") with false.
  change (str_is (str "misc") "socks5") with false. change (str_is (str "misc") "mapdns") with false.
  change (str_is (str "misc") "misc") with true. cbv iota.
  unfold hev_config_parse_misc. rewrite scalar_pairs_entries, misc_loaded by done.
  destruct Hok as (_ & _ & _ & (Ht & Hu) & _).
  rewrite !(decide_False (P := _ ≤ 0)) by lia. by rewrite !decide_True by lia.
Qed.

Lemma render_loaded : hev_config_parse_doc p4 (render st) start = Some (0, final).
Proof.
  assert (loads p4 (sections st) start final) as Hl.
  { econstructor; [apply tunnel_step |]. econstructor; [apply socks5_step |].
    econstructor; [apply mapdns_step |]. econstructor; [apply misc_step | constructor]. }
  unfold hev_config_parse_doc, render, doc_of. cbn [yaml_document_get_root_node list.head].
  pose proof (loads_doc _ _ _ _ Hl [YMapping (sec_pairs 2 (sections st))] 2 eq_refl) as E.
  cbn [app] in E. rewrite E. clear E Hl.
  rewrite decide_False by lia. destruct Hok as (_ & _ & _ & _ & (Hb & Hn & Hs) & _). unfold TCP_SND_BUF in Hb.
  cbv zeta. set (m := c_misc final).
  assert (tcp_buffer_size m = se_tcp_buffer st ∧ st_udp_copy_buffer_nums m = se_nums st ∧
    st_task_stack_size m = se_stack st) as (E1 & E2 & E3) by done.
  rewrite (decide_False (P := tcp_buffer_size m > TCP_SND_BUF)) by (rewrite E1; unfold TCP_SND_BUF; lia).
  rewrite E1, E2. unfold int_ok, CONF_UDP_BUF_SIZE, TASK_STACK_SIZE.
  rewrite decide_True by lia. cbn [mbind option_bind].
  rewrite decide_True by (case_decide; lia). cbn [mbind option_bind].
  rewrite decide_False by (rewrite E3; case_decide; lia). done.
Qed.
End Printed.

Lemma flag_iff (b : bool) v : v ≠ 0 → ((if b then v else 0) ≠ 0 ↔ b = true).
Proof. by destruct b. Qed.

(** C26. A configuration document written from settings is read back: after
    loading it over any earlier state, each getter returns the setting, the
    server record holds it, and the credential pointers lead to the name and
    the password. The mapped network is in host order. *)
Theorem config_round_trip p4 st c a b d e :
  config_ok c → settings_ok st → p4 (se_network st) = Some [a; b; d; e] → bytes_ok [a; b; d; e] →
  ∃ c', hev_config_parse_doc p4 (render st) (hev_config_reset c) = Some (0, c') ∧
    (hev_config_get_tunnel_name c' = Some (Some (se_name st)) ∧
     hev_config_get_tunnel_mtu c' = se_mtu st ∧
     (hev_config_get_tunnel_multi_queue c' ≠ 0 ↔ se_multi_queue st = true) ∧
     hev_config_get_tunnel_ipv4_address c' = Some (Some (se_ipv4 st)) ∧
     hev_config_get_tunnel_ipv6_address c' = Some (Some (se_ipv6 st)) ∧
     (hev_config_get_tunnel_icmp c' ≠ 0 ↔ se_icmp st = true)) ∧
    (let s := hev_config_get_socks5_server c' in
     cstr (srv_addr s) = Some (se_address st) ∧ srv_port s = se_port st ∧
     (srv_udp_in_udp s ≠ 0 ↔ se_udp_in_udp st = true) ∧ cstr (srv_udp_addr s) = Some (se_udp_address st) ∧
     (srv_pipeline s ≠ 0 ↔ se_pipeline st = true) ∧ srv_mark s = se_mark st ∧
     (srv_fastopen s ≠ 0 ↔ se_fastopen st = true) ∧
     deref (srv_user s) c' = Some (se_user st) ∧ deref (srv_pass s) c' = Some (se_pass st)) ∧
    (hev_config_get_mapdns_port c' = se_dns_port st ∧ hev_config_get_mapdns_cache_size c' = se_cache_size st ∧
     u32 (hev_config_get_mapdns_network c') = ((a * 256 + b) * 256 + d) * 256 + e) ∧
    (hev_config_get_misc_task_stack_size c' = se_stack st ∧
     hev_config_get_misc_tcp_buffer_size c' = se_tcp_buffer st ∧
     hev_config_get_misc_udp_copy_buffer_nums c' = se_nums st ∧
     hev_config_get_misc_max_session_count c' = se_sessions st ∧
     hev_config_get_misc_connect_timeout c' = se_connect st ∧
     hev_config_get_misc_tcp_read_write_timeout c' = se_tcp st ∧
     hev_config_get_misc_udp_read_write_timeout c' = se_udp st ∧
     hev_config_get_misc_log_file c' = Some (Some (se_log_file st)) ∧
     hev_config_get_misc_log_level c' = se_level st ∧
     hev_config_get_misc_limit_nofile c' = se_nofile st).
Proof.
  intros (_ & _ & _ & Hu & Hpa) Hok Hp Hb. exists (loaded st [a; b; d; e] c). split; [by apply render_loaded |].
  destruct Hok as ((H1 & H2 & H3 & H4 & H5 & H6 & H7 & H8 & Hnull) & _).
  cbv zeta. split_and!; try done; try (by apply flag_iff); try (by apply strncpy_get); try (by apply strncpy_cstr).
  - change (cstr (strncpy (_user c) (se_user st) 255) = Some (se_user st)).
    rewrite (strncpy_fresh 255 _ (replicate 256 0)) by (done || apply array_ok_zero). by apply strncpy_cstr.
  - change (cstr (strncpy (_pass c) (se_pass st) 255) = Some (se_pass st)).
    rewrite (strncpy_fresh 255 _ (replicate 256 0)) by (done || apply array_ok_zero). by apply strncpy_cstr.
  - unfold hev_config_get_mapdns_network. cbn [loaded c_dns mapdns_network].
    rewrite ntohl_le32 by done. rewrite !Forall_cons in Hb. unfold byte_ok in Hb. apply u32_i32. lia.
  - unfold hev_config_get_misc_log_file. cbn [loaded c_misc log_file].
    rewrite strncpy_get by done. cbn. unfold str_is. rewrite bool_decide_eq_false_2; [done |].
    intros E%strcmp_eq. done.
Qed.

Definition demo_settings : settings :=
  mkSettings (str "tun0") 8500 false (str "198.18.0.1") (str "fc00::1") true (str "127.0.0.1") 1080 true
    (str "10.0.0.2") true (str "user") (str "secret") 438 false 53 (str "100.64.0.0") 10000
    86016 65528 10 64 5000 300000 60000 (str "stderr") 1 65535.

Lemma config_round_trip_witness : ∃ c',
  hev_config_parse_doc (λ _, Some [100; 64; 0; 0]) (render demo_settings) (hev_config_reset config_zero) = Some (0, c') ∧
  hev_config_get_misc_max_session_count c' = 64 ∧ u32 (hev_config_get_mapdns_network c') = 1681915904.
Proof.
  destruct (config_round_trip (λ _, Some [100; 64; 0; 0]) demo_settings config_zero 100 64 0 0)
    as (c' & E & _ & _ & (_ & _ & Hn) & _ & _ & _ & Hs & _).
  - apply config_zero_ok.
  - unfold settings_ok, fits, TCP_SND_BUF. cbn. split_and!; try done; try lia; repeat constructor; lia.
  - done.
  - repeat constructor; unfold byte_ok; lia.
  - exists c'. by split_and!.
Defined.
