(* ===== verification/SessionTcp.v ===== *)
(** * The TCP session

    Model of [src/hev-socks5-session-tcp.c]: the relay between a TCP
    connection of lwIP and the SOCKS5 socket.  The session runs in its own
    task; the callbacks of lwIP run in another one whenever the session
    yields or waits for the mutex.  Each function below is a part of the code
    between two such points; [tcp_step] composes them the way the loop of
    [hev_socks5_session_tcp_splice] does and interleaves the callbacks.

    The bytes that went each way, and what was shut down, are recorded in the
    other fields of [sys]; the session does not read them. *)

From S2P Require Import Prelude RingBuffer.

(** ** The object *)

(** [struct _HevSocks5SessionTCP].  The queue is the chain of pbufs with
    their payloads, [] when the pointer is null; [pcb] says whether that
    pointer is not null; [terminated] that the timeout was set to 0. *)
Record HevSocks5SessionTCP := mkSession {
  queue : list (list Z);
  pcb : bool;
  buffer : HevRingBuffer;
  pcb_eof : bool;
  terminated : bool;
}.

Definition set_queue (q : list (list Z)) (self : HevSocks5SessionTCP) : HevSocks5SessionTCP :=
  mkSession q (pcb self) (buffer self) (pcb_eof self) (terminated self).
Definition set_buffer (b : HevRingBuffer) (self : HevSocks5SessionTCP) : HevSocks5SessionTCP :=
  mkSession (queue self) (pcb self) b (pcb_eof self) (terminated self).

(** [pbuf_free_header] of lwIP. *)
Fixpoint pbuf_free_header (q : list (list Z)) (free_left : nat) : list (list Z) :=
  match q with
  | [] => []
  | p :: q' =>
      if decide (free_left = 0%nat) then q
      else if decide (length p ≤ free_left)%nat then pbuf_free_header q' (free_left - length p)
      else drop free_left p :: q'
  end.

(** ** Forward: from lwIP to the socket *)

(** What [tcp_splice_f] does before it takes the mutex: the bytes for
    [writev], the first 64 pbufs, or else its result and whether the socket
    is shut down. *)
Definition tcp_splice_f_iov (self : HevSocks5SessionTCP) : list Z + (Z * bool) :=
  match queue self with
  | _ :: _ => inl (concat (take 64 (queue self)))
  | [] => inr (if pcb_eof self then (-1, true) else (0, false))
  end.

(** What it does with the [s] bytes written, under the mutex: the result and
    the length given to [tcp_recved]. *)
Definition tcp_splice_f_written (s : Z) (self : HevSocks5SessionTCP) : HevSocks5SessionTCP * option Z :=
  (set_queue (pbuf_free_header (queue self) (Z.to_nat (u16 s))) self,
   if pcb self then Some (u16 s) else None).

(** ** Backward: from the socket to lwIP *)

(** [tcp_splice_b] under the mutex.  [oks] is the outcome of each
    [tcp_write], whose length is 16 bits wide, and [out_ok] of [tcp_output].  The result, the bytes lwIP
    took, and whether the connection is shut down. *)
Fixpoint tcp_writes (iov : list iovec) (oks : list bool) (mem : list Z) : list Z * bool :=
  match iov with
  | [] => ([], true)
  | v :: iov =>
      let ok := default true (list.head oks) in
      let '(out, all) := tcp_writes iov (list.tail oks) mem in
      ((if ok then slice (iov_base v) (u16 (iov_len v)) mem else []) ++ out, ok && all)
  end.

Definition tcp_splice_b_mutex (res : Z) (oks : list bool) (out_ok : bool) (self : HevSocks5SessionTCP) :
    HevSocks5SessionTCP * Z * list Z * bool :=
  if pcb self then
    let iov := hev_ring_buffer_reading (buffer self) in
    match iov with
    | _ :: _ =>
        let '(out, ok) := tcp_writes iov oks (data (buffer self)) in
        (set_buffer (hev_ring_buffer_read_finish (buffer self) (iov_total iov)) self,
         (if ok && out_ok then 1 else -1), out, false)
    | [] => (self, res, [], bool_decide (res < 0))
    end
  else (self, -1, [], false).

(** ** The callbacks *)

Definition tcp_recv_handler (p : option (list Z)) (self : HevSocks5SessionTCP) : HevSocks5SessionTCP :=
  match p with
  | Some p => set_queue (queue self ++ [p]) self
  | None => mkSession (queue self) (pcb self) (buffer self) true (terminated self)
  end.

Definition tcp_sent_handler (len : Z) (self : HevSocks5SessionTCP) : HevSocks5SessionTCP :=
  set_buffer (hev_ring_buffer_read_release (buffer self) len) self.

Definition tcp_err_handler (self : HevSocks5SessionTCP) : HevSocks5SessionTCP :=
  mkSession (queue self) false (buffer self) (pcb_eof self) true.

(** ** The relay as a step relation *)

(** Where the session is. *)
Inductive pc :=
| AtF
| InF (s : Z)
| AtB
| InB (res : Z)
| AtYield
| AtDrain
| Done.

Record sys := mkSys {
  at_pc : pc;
  self : HevSocks5SessionTCP;
  res_f : Z;
  res_b : Z;
  (** received from lwIP; written to the socket; acknowledged to lwIP; socket
      shut down *)
  inp : list Z; up : list Z; recved : Z; fin_up : bool;
  (** read from the socket; given to lwIP; of these acknowledged; whether a
      [tcp_write] failed; connection shut down *)
  down : list Z; pushed : list Z; out : list Z; acked : nat; lost : bool; fin_down : bool;
}.

(** [TCP_WND] of [lwipopts.h]: lwIP does not deliver more than a window
    beyond what [tcp_recved] gave back. *)
Definition TCP_WND : Z := 8 * 8191.

(** The next point after both directions. *)
Definition after_splice (res_f res_b : Z) : bool :=
  bool_decide (0 < res_f ∨ 0 < res_b) || bool_decide (Z.land res_f res_b = 0).

Inductive tcp_step : sys → sys → Prop :=
(** [tcp_splice_f] *)
| f_skip s rf rb i u r fu d p o a l fd :
    rf < 0 →
    tcp_step (mkSys AtF s rf rb i u r fu d p o a l fd) (mkSys AtB s rf rb i u r fu d p o a l fd)
| f_none s rf rb i u r fu d p o a l fd res shut :
    0 ≤ rf → tcp_splice_f_iov s = inr (res, shut) →
    tcp_step (mkSys AtF s rf rb i u r fu d p o a l fd) (mkSys AtB s res rb i u r (fu || shut) d p o a l fd)
| f_write s rf rb i u r fu d p o a l fd bs n :
    0 ≤ rf → tcp_splice_f_iov s = inl bs → (0 < n ≤ length bs)%nat →
    tcp_step (mkSys AtF s rf rb i u r fu d p o a l fd)
      (mkSys (InF (Z.of_nat n)) s rf rb i (u ++ take n bs) r fu d p o a l fd)
| f_fail s rf rb i u r fu d p o a l fd bs again :
    0 ≤ rf → tcp_splice_f_iov s = inl bs →
    tcp_step (mkSys AtF s rf rb i u r fu d p o a l fd)
      (mkSys AtB s (if again : bool then 0 else -1) rb i u r fu d p o a l fd)
| f_written s rf rb i u r fu d p o a l fd n s' len :
    tcp_splice_f_written n s = (s', len) →
    tcp_step (mkSys (InF n) s rf rb i u r fu d p o a l fd)
      (mkSys AtB s' 1 rb i u (r + default 0 len) fu d p o a l fd)
(** [tcp_splice_b] *)
| b_skip s rf rb i u r fu d p o a l fd :
    rb < 0 →
    tcp_step (mkSys AtB s rf rb i u r fu d p o a l fd) (mkSys AtYield s rf rb i u r fu d p o a l fd)
| b_full s rf rb i u r fu d p o a l fd :
    0 ≤ rb → hev_ring_buffer_writing (buffer s) = [] →
    tcp_step (mkSys AtB s rf rb i u r fu d p o a l fd) (mkSys (InB 0) s rf rb i u r fu d p o a l fd)
| b_read s rf rb i u r fu d p o a l fd bs :
    0 ≤ rb → (0 < length bs)%nat → Z.of_nat (length bs) ≤ iov_total (hev_ring_buffer_writing (buffer s)) →
    tcp_step (mkSys AtB s rf rb i u r fu d p o a l fd)
      (mkSys (InB 1) (set_buffer (ring_write (buffer s) bs) s) rf rb i u r fu (d ++ bs) p o a l fd)
| b_fail s rf rb i u r fu d p o a l fd again :
    0 ≤ rb → hev_ring_buffer_writing (buffer s) ≠ [] →
    tcp_step (mkSys AtB s rf rb i u r fu d p o a l fd)
      (mkSys (InB (if again : bool then 0 else -1)) s rf rb i u r fu d p o a l fd)
| b_mutex s rf rb i u r fu d p o a l fd res oks out_ok s' rb' bs shut :
    tcp_splice_b_mutex res oks out_ok s = (s', rb', bs, shut) →
    tcp_step (mkSys (InB res) s rf rb i u r fu d p o a l fd)
      (mkSys AtYield s' rf rb' i u r fu d
         (if pcb s then p ++ gather (hev_ring_buffer_reading (buffer s)) (data (buffer s)) else p)
         (o ++ bs) a
         (l || (pcb s && bool_decide (bs ≠ gather (hev_ring_buffer_reading (buffer s)) (data (buffer s)))))
         (fd || shut))
(** the loop, and the wait for the acknowledgements behind it; [go] is the
    answer of the yielder *)
| yield_loop s rf rb i u r fu d p o a l fd go :
    after_splice rf rb = true →
    tcp_step (mkSys AtYield s rf rb i u r fu d p o a l fd)
      (mkSys (if go : bool then AtF else AtDrain) s rf rb i u r fu d p o a l fd)
| yield_break s rf rb i u r fu d p o a l fd :
    after_splice rf rb = false →
    tcp_step (mkSys AtYield s rf rb i u r fu d p o a l fd) (mkSys AtDrain s rf rb i u r fu d p o a l fd)
| drain_wait s rf rb i u r fu d p o a l fd go :
    pcb s = true → hev_ring_buffer_get_use_size (buffer s) ≠ 0 →
    tcp_step (mkSys AtDrain s rf rb i u r fu d p o a l fd)
      (mkSys (if go : bool then AtDrain else Done) s rf rb i u r fu d p o a l fd)
| drain_done s rf rb i u r fu d p o a l fd :
    pcb s = false ∨ hev_ring_buffer_get_use_size (buffer s) = 0 →
    tcp_step (mkSys AtDrain s rf rb i u r fu d p o a l fd) (mkSys Done s rf rb i u r fu d p o a l fd)
(** the callbacks, while lwIP has the connection and the session is not over *)
| cb_recv c s rf rb i u r fu d p o a l fd bs :
    c ≠ Done → pcb s = true → pcb_eof s = false → bs ≠ [] →
    Z.of_nat (length (i ++ bs)) - r ≤ TCP_WND →
    tcp_step (mkSys c s rf rb i u r fu d p o a l fd)
      (mkSys c (tcp_recv_handler (Some bs) s) rf rb (i ++ bs) u r fu d p o a l fd)
| cb_eof c s rf rb i u r fu d p o a l fd :
    c ≠ Done → pcb s = true →
    tcp_step (mkSys c s rf rb i u r fu d p o a l fd)
      (mkSys c (tcp_recv_handler None s) rf rb i u r fu d p o a l fd)
| cb_sent c s rf rb i u r fu d p o a l fd n :
    c ≠ Done → pcb s = true → (a + n ≤ length o)%nat →
    tcp_step (mkSys c s rf rb i u r fu d p o a l fd)
      (mkSys c (tcp_sent_handler (Z.of_nat n) s) rf rb i u r fu d p o (a + n) l fd)
| cb_err c s rf rb i u r fu d p o a l fd :
    c ≠ Done → pcb s = true →
    tcp_step (mkSys c s rf rb i u r fu d p o a l fd)
      (mkSys c (tcp_err_handler s) rf rb i u r fu d p o a l fd).

(** A session as [hev_socks5_session_tcp_splice] enters the loop. *)
Definition tcp_init (mem : list Z) (size : Z) : sys :=
  mkSys AtF (mkSession [] true (hev_ring_buffer_alloca mem size) false false) 1 1 [] [] 0 false [] [] [] 0 false false.
