(* ===== verification/SessionTcpProps.v ===== *)
(** * Properties of the TCP session

    For every interleaving of the session with the callbacks of lwIP: both
    directions are first in, first out, the end of each stream is signalled
    only behind its last byte, and the receive window is accounted for. *)

From S2P Require Import Prelude RingBuffer SessionTcp.

(** ** The queue of pbufs *)

Lemma pbuf_free_header_concat q n :
  (n ≤ length (concat q))%nat → concat (pbuf_free_header q n) = drop n (concat q).
Proof.
  revert n; induction q as [|p q IH]; intros n Hn; cbn; [by rewrite drop_nil |].
  cbn in Hn. rewrite length_app in Hn. case_decide; [by subst |]. case_decide as Hp.
  - rewrite IH by lia. by rewrite drop_app_ge by lia.
  - cbn. by rewrite drop_app_le by lia.
Qed.

Lemma pbuf_free_header_nonempty q n : Forall (.≠ []) q → Forall (.≠ []) (pbuf_free_header q n).
Proof.
  intros H. revert n; induction H as [|p q Hp H IH]; intros n; cbn; [constructor |].
  case_decide; [by constructor |]. case_decide as Hl; [apply IH |]. constructor; [|done].
  intros E%(f_equal length). rewrite length_drop in E. cbn in E. lia.
Qed.

Lemma take64_length (q : list (list Z)) : (length (concat (take 64 q)) ≤ length (concat q))%nat.
Proof. rewrite <-(take_drop 64 q) at 2. rewrite concat_app, length_app. lia. Qed.

Lemma take64_prefix (q : list (list Z)) n : (n ≤ length (concat (take 64 q)))%nat → take n (concat (take 64 q)) = take n (concat q).
Proof. intros H. rewrite <-(take_drop 64 q) at 2. rewrite concat_app. by rewrite take_app_le. Qed.

(** ** The vectors of [tcp_write] *)

Lemma tcp_writes_spec iov oks mem out ok :
  Forall (λ v, 0 ≤ iov_len v) iov → tcp_writes iov oks mem = (out, ok) →
  (length out ≤ length (gather iov mem))%nat ∧
  (Forall (λ v, iov_len v < 65536) iov → ok = true → out = gather iov mem).
Proof.
  intros Hpos. revert oks out ok; induction Hpos as [|v iov Hv Hpos IH]; cbn; intros oks out ok; [by intros [= <- <-] |].
  destruct (tcp_writes iov (list.tail oks) mem) as [out' ok'] eqn:E. intros [= <- <-].
  destruct (IH _ _ _ E) as [Hl Hok]. unfold gather in *. cbn. rewrite !length_app.
  assert (u16 (iov_len v) ≤ iov_len v) by (unfold u16; apply Z.mod_le; lia).
  split.
  - destruct (default true (list.head oks)); cbn; [|lia]. apply Nat.add_le_mono; [|exact Hl].
    unfold slice. rewrite !length_take. apply Nat.min_le_compat_r. lia.
  - intros [Hs Hsm]%Forall_cons [-> ->]%andb_prop. rewrite u16_small by lia. by rewrite Hok.
Qed.

Lemma reading_lengths r q : refines r q → Forall (λ v, 0 ≤ iov_len v) (hev_ring_buffer_reading r).
Proof.
  intros Hr. eapply Forall_impl; [apply (reading_in_bounds r), (ref_wf _ _ Hr) |]. cbn. lia.
Qed.

(** ** Invariants *)

(** The bytes of the queue already written to the socket. *)
Definition written (c : pc) : nat := match c with InF n => Z.to_nat n | _ => 0%nat end.

(** The forward direction: [u0] is written and taken off the queue. *)
Definition forward_ok (st : sys) : Prop :=
  ∃ u0, let q := concat (queue (self st)) in
    let n := written (at_pc st) in
    inp st = u0 ++ q ∧ up st = u0 ++ take n q ∧ (n ≤ length q)%nat ∧ Z.of_nat (length q) ≤ TCP_WND ∧
    (pcb (self st) = true → recved st = Z.of_nat (length u0)) ∧ 0 ≤ recved st ≤ Z.of_nat (length u0) ∧
    Forall (.≠ []) (queue (self st)) ∧ (∀ s, at_pc st = InF s → 0 < s) ∧
    (fin_up st = true → pcb_eof (self st) = true ∧ q = []).

(** The backward direction. *)
Definition backward_ok (st : sys) : Prop :=
  pipe_ok (mkPipe (buffer (self st)) (down st) (pushed st) (acked st)) ∧
  (acked st ≤ length (out st) ≤ length (pushed st))%nat ∧
  (lost st = false → out st = pushed st) ∧
  (fin_down st = true → res_b st < 0 ∧ pushed st = down st ∧ ∀ res, at_pc st ≠ InB res).

Lemma forward_keep st st' :
  inp st' = inp st → up st' = up st → recved st' = recved st → fin_up st' = fin_up st →
  queue (self st') = queue (self st) → (pcb (self st') = true → pcb (self st) = true) →
  (pcb_eof (self st) = true → pcb_eof (self st') = true) →
  written (at_pc st') = written (at_pc st) → (∀ n, at_pc st' = InF n → at_pc st = InF n) →
  forward_ok st → forward_ok st'.
Proof.
  intros Ei Eu Er Ef Eq Hp He Hn Hc (u0 & Hi & Hu & Hl & Hw & Hr & Hr0 & Hne & Hs & Hf).
  exists u0. rewrite Ei, Eu, Er, Ef, Eq, Hn. split_and!; try done; try lia.
  - intros H. by apply Hr, Hp.
  - intros n H. by eapply Hs, Hc.
  - intros [H1 H2]%Hf. split; [by apply He | done].
Qed.

(** The mutex part of the backward direction leaves the forward fields. *)
Lemma splice_b_mutex_fields res oks ok s s' rb out shut :
  tcp_splice_b_mutex res oks ok s = (s', rb, out, shut) →
  queue s' = queue s ∧ pcb s' = pcb s ∧ pcb_eof s' = pcb_eof s.
Proof.
  unfold tcp_splice_b_mutex. destruct (pcb s) eqn:Ep; [|intros; simplify_eq; by split_and!].
  destruct (hev_ring_buffer_reading _); [intros; simplify_eq; by split_and! |].
  destruct (tcp_writes _ _ _). intros; simplify_eq. by cbn.
Qed.

Lemma forward_step st st' : forward_ok st → tcp_step st st' → forward_ok st'.
Proof.
  intros Hst Hstep. destruct Hstep;
    try (revert Hst; apply forward_keep; cbn; by (done || destruct go || destruct again)).
  - (* f_none *) destruct Hst as (u0 & Hi & Hu & Hl & Hw & Hr & Hr0 & Hne & Hs & Hf). exists u0.
    cbn -[Z.of_nat TCP_WND] in *. split_and!; try done; try lia. unfold tcp_splice_f_iov in H0.
    destruct (queue s) eqn:Eq; [|done]. destruct (pcb_eof s) eqn:Ee; injection H0 as <- <-; [intros _; by split |].
    rewrite orb_false_r. exact Hf.
  - (* f_write *) destruct Hst as (u0 & Hi & Hu & Hl & Hw & Hr & Hr0 & Hne & Hs & Hf). exists u0.
    cbn -[Z.of_nat TCP_WND] in *. unfold tcp_splice_f_iov in H0.
    assert (bs = concat (take 64 (queue s))) as ->.
    { destruct (queue s); [destruct (pcb_eof s); done | by injection H0]. } clear H0.
    pose proof (take64_length (queue s)). rewrite Nat2Z.id. split_and!; try done; try lia.
    + rewrite Hu, take_0, app_nil_r. by rewrite take64_prefix by lia.
    + intros ? [= <-]. lia.
  - (* f_written *) destruct Hst as (u0 & Hi & Hu & Hl & Hw & Hr & Hr0 & Hne & Hs & Hf).
    cbn -[Z.of_nat TCP_WND] in *. unfold tcp_splice_f_written in H. injection H as <- <-.
    specialize (Hs n eq_refl). unfold TCP_WND in *. set (q := concat (queue s)) in *.
    rewrite u16_small by lia. exists (u0 ++ take (Z.to_nat n) q). cbn -[Z.of_nat].
    rewrite pbuf_free_header_concat by done. fold q. rewrite take_0, app_nil_r, length_app, length_take_le by done.
    rewrite length_drop. unfold TCP_WND. split_and!; try done; try lia.
    + by rewrite <-app_assoc, take_drop.
    + intros Hp. rewrite Hp. specialize (Hr Hp). cbn. lia.
    + destruct (pcb s); cbn; lia.
    + destruct (pcb s); cbn; lia.
    + by apply pbuf_free_header_nonempty.
    + intros E. destruct (Hf E) as [? E']. fold q in E'. rewrite E' in Hl. cbn in Hl. lia.
  - (* b_mutex *) destruct (splice_b_mutex_fields _ _ _ _ _ _ _ _ H) as (E1 & E2 & E3).
    revert Hst. apply forward_keep; cbn; try done; congruence.
  - (* cb_recv *) destruct Hst as (u0 & Hi & Hu & Hl & Hw & Hr & Hr0 & Hne & Hs & Hf).
    cbn -[Z.of_nat TCP_WND] in *. exists u0. cbn -[Z.of_nat TCP_WND concat]. rewrite concat_app. cbn [concat]. rewrite app_nil_r.
    rewrite Hi, !length_app in *. specialize (Hr H0). split_and!; try done; try lia.
    + by rewrite app_assoc.
    + by rewrite take_app_le.
    + apply Forall_app. split; [done | by constructor].
    + intros E. destruct (Hf E) as [E' _]. congruence.
Qed.

Lemma backward_keep st st' :
  buffer (self st') = buffer (self st) → res_b st' = res_b st → down st' = down st → pushed st' = pushed st →
  out st' = out st → acked st' = acked st → lost st' = lost st → fin_down st' = fin_down st →
  (∀ n, at_pc st' = InB n → at_pc st = InB n ∨ 0 ≤ res_b st) →
  backward_ok st → backward_ok st'.
Proof.
  intros Eb Er Ed Ep Eo Ea El Ef Hc (Hp & Ha & Hl & Hf). unfold backward_ok.
  rewrite Eb, Er, Ed, Ep, Eo, Ea, El, Ef. split_and!; try done; try lia.
  intros E. destruct (Hf E) as (H1 & H2 & H3). split_and!; [done.. |].
  intros n Hn. destruct (Hc n Hn) as [H | H]; [by eapply H3 | lia].
Qed.

Lemma gather_readable r q : refines r q → hev_ring_buffer_reading r = [] → ready q = [].
Proof. intros Hr E. rewrite <-(refines_reading _ _ Hr), E. done. Qed.

Lemma backward_step st st' : backward_ok st → tcp_step st st' → backward_ok st'.
Proof.
  intros Hst Hstep. destruct Hstep;
    try (revert Hst; apply backward_keep; cbn; first [done | by intros; left | by intros; right | by destruct go | by destruct again]).
  - (* f_written *) injection H as <- _. revert Hst. by apply backward_keep.
  - (* b_read *) destruct Hst as (Hp & Ha & Hl & Hf). cbn in *. unfold backward_ok; cbn.
    split; [exact (pipe_step_ok _ _ Hp (pipe_readv _ _ _ _ _ H0 H1)) |]. split_and!; try done; try lia.
    intros E. destruct (Hf E) as [? _]. lia.
  - (* b_mutex *) destruct Hst as (Hp & Ha & Hl & Hf). cbn in *. unfold tcp_splice_b_mutex in H.
    assert (fd = false) as -> by (destruct fd; [|done]; destruct (Hf eq_refl) as (_ & _ & H1); by destruct (H1 res)).
    destruct (pcb s) eqn:Epcb; unfold backward_ok; cbn;
      [|simplify_eq; cbn; rewrite app_nil_r, orb_false_r; split_and!; try done; lia].
    destruct (hev_ring_buffer_reading (buffer s)) as [|v iov] eqn:Er.
    + simplify_eq. cbn. rewrite !app_nil_r, orb_false_r. split_and!; try done; try lia.
      intros E%bool_decide_eq_true. split_and!; [done | | done].
      destruct Hp as (rest & Hin & _ & Href). cbn in *.
      pose proof (gather_readable _ _ Href Er) as Hre. cbn in Hre. subst rest. by rewrite app_nil_r in Hin.
    + rewrite <-Er in *. destruct (tcp_writes _ _ _) as [o' ok] eqn:Ew.
      assert (length o' ≤ length (gather (hev_ring_buffer_reading (buffer s)) (data (buffer s))))%nat as Hlw.
      { destruct Hp as (rest & _ & _ & Href). eapply (tcp_writes_spec _ _ _ _ _ (reading_lengths _ _ Href) Ew). }
      simplify_eq. cbn. split; [exact (pipe_step_ok _ _ Hp (pipe_tcp_write _ _ _ _ ltac:(by rewrite Er))) |].
      rewrite !length_app. split_and!; try lia; try done.
      intros [E1 E2%bool_decide_eq_false]%orb_false_iff. rewrite (Hl E1). f_equal. by apply dec_stable.
  - (* cb_sent *) destruct Hst as (Hp & Ha & Hl & Hf). cbn in *. unfold backward_ok; cbn.
    split; [eapply (pipe_step_ok _ _ Hp); apply pipe_tcp_sent; lia |]. split_and!; try done; lia.
Qed.

Lemma session_inv mem size st : 0 < size ≤ 2 ^ 31 - 1 → Z.of_nat (length mem) = size →
  star tcp_step (tcp_init mem size) st → forward_ok st ∧ backward_ok st.
Proof.
  intros Hs Hm Hrun. split.
  - apply (star_invariant _ forward_ok _ _ forward_step Hrun).
    exists []. unfold TCP_WND. cbn. by split_and!; try lia.
  - apply (star_invariant _ backward_ok _ _ backward_step Hrun).
    split; [|by split_and!]. exists []. split_and!; [done | done |]. by apply refines_alloca.
Qed.

(** ** The claims *)

(** C27. The TCP relay, for every interleaving of the session's task with the
    callbacks of lwIP. Forward, the socket receives the bytes lwIP delivered,
    in order, without gaps or repetition, each byte leaves the queue once
    and is credited to the receive window once; its write side is shut down
    only when the connection has ended and every byte is written. Backward,
    as long as no [tcp_write] fails lwIP is given the bytes of the socket in
    order, the bytes it may still retransmit are intact in the ring buffer,
    and the connection is shut down only behind the last byte; when the final
    wait ends on an empty buffer, every byte of the socket is acknowledged. *)
Theorem tcp_session_relay mem size st :
  0 < size ≤ 2 ^ 31 - 1 → Z.of_nat (length mem) = size → star tcp_step (tcp_init mem size) st →
  (∃ rest, inp st = up st ++ rest) ∧
  (pcb (self st) = true → recved st + Z.of_nat (length (concat (queue (self st)))) = Z.of_nat (length (inp st))) ∧
  Z.of_nat (length (concat (queue (self st)))) ≤ TCP_WND ∧
  (fin_up st = true → pcb_eof (self st) = true ∧ up st = inp st) ∧
  (∃ rest, down st = pushed st ++ rest ∧
     refines (buffer (self st)) (mkQueue (drop (acked st) (pushed st)) rest)) ∧
  (lost st = false → out st = pushed st) ∧
  (fin_down st = true → pushed st = down st) ∧
  (hev_ring_buffer_get_use_size (buffer (self st)) = 0 → pushed st = down st ∧ acked st = length (down st)).
Proof.
  intros Hs Hm Hrun. destruct (session_inv _ _ _ Hs Hm Hrun) as [Hf Hb].
  destruct Hf as (u0 & Hi & Hu & Hl & Hw & Hr & Hr0 & Hne & Hs0 & Hf).
  destruct Hb as ((rest & Hin & Ha & Href) & _ & Hlo & Hfd). split_and!.
  - exists (drop (written (at_pc st)) (concat (queue (self st)))). by rewrite Hi, Hu, <-app_assoc, take_drop.
  - intros Hp. rewrite (Hr Hp), Hi, length_app. lia.
  - done.
  - intros E. destruct (Hf E) as [E1 E2]. split; [done |]. by rewrite Hi, Hu, E2, take_nil.
  - by exists rest.
  - done.
  - intros E. by destruct (Hfd E) as (_ & ? & _).
  - unfold hev_ring_buffer_get_use_size. cbn in *. rewrite (ref_use _ _ Href). unfold q_all. cbn.
    rewrite length_app, length_drop. intros E. assert (rest = []) as -> by (apply length_zero_iff_nil; lia).
    rewrite app_nil_r in Hin. rewrite Hin. split; [done | lia].
Qed.

Lemma tcp_session_relay_witness :
  let st := mkSys AtF (mkSession [] true (mkRing 2 2 0 2 4 [7; 8; 0; 0]) true false) (-1) 0
    [1; 2; 3] [1; 2; 3] 3 true [7; 8] [7; 8] [7; 8] 0 false false in
  star tcp_step (tcp_init [0; 0; 0; 0] 4) st ∧ fin_up st = true ∧ up st = inp st.
Proof.
  intros st. assert (star tcp_step (tcp_init [0; 0; 0; 0] 4) st) as Hrun.
  { vm_compute.
    eapply star_step; [eapply (cb_recv AtF _ _ _ _ _ _ _ _ _ _ _ _ _ [1; 2; 3]); (done || (vm_compute; discriminate)) | vm_compute].
    eapply star_step; [eapply (f_write _ _ _ _ _ _ _ _ _ _ _ _ _ _ 2); [lia | reflexivity | cbn; lia] | vm_compute].
    eapply star_step; [eapply (cb_eof (InF 2)); done | vm_compute].
    eapply star_step; [eapply f_written; reflexivity | vm_compute].
    eapply star_step; [eapply (b_read _ _ _ _ _ _ _ _ _ _ _ _ _ [7; 8]); [lia | cbn; lia | vm_compute; discriminate] | vm_compute].
    eapply star_step; [eapply (b_mutex _ _ _ _ _ _ _ _ _ _ _ _ _ _ [] true); reflexivity | vm_compute].
    eapply star_step; [eapply (yield_loop _ _ _ _ _ _ _ _ _ _ _ _ _ true); reflexivity | vm_compute].
    eapply star_step; [eapply (f_write _ _ _ _ _ _ _ _ _ _ _ _ _ _ 1); [lia | reflexivity | cbn; lia] | vm_compute].
    eapply star_step; [eapply f_written; reflexivity | vm_compute].
    eapply star_step; [eapply b_fail with (again := true); [lia | done] | vm_compute].
    eapply star_step; [eapply (b_mutex _ _ _ _ _ _ _ _ _ _ _ _ _ _ [] true); reflexivity | vm_compute].
    eapply star_step; [eapply (yield_loop _ _ _ _ _ _ _ _ _ _ _ _ _ true); reflexivity | vm_compute].
    eapply star_step; [eapply f_none; [lia | reflexivity] | vm_compute].
    eapply star_step; [eapply b_fail with (again := true); [lia | done] | vm_compute].
    eapply star_step; [eapply (b_mutex _ _ _ _ _ _ _ _ _ _ _ _ _ _ [] true); reflexivity | vm_compute].
    eapply star_step; [eapply (yield_loop _ _ _ _ _ _ _ _ _ _ _ _ _ true); reflexivity | vm_compute].
    apply star_refl. }
  split; [exact Hrun |]. split; [reflexivity |].
  apply (tcp_session_relay [0; 0; 0; 0] 4 st); [lia | reflexivity | exact Hrun | reflexivity].
Defined.

(** When lwIP refuses the first of two vectors and takes the second,
    [tcp_splice_b] goes on: a session is reachable whose client was given
    bytes of the server with a gap, and the connection is still open. *)
Theorem tcp_write_gap : ∃ st,
  star tcp_step (tcp_init [0; 0; 0; 0] 4) st ∧ pcb (self st) = true ∧
  down st = [1; 2; 3; 4; 5; 6] ∧ out st = [1; 2; 3; 5; 6].
Proof.
  eexists. split; [|split; [|split]].
  { vm_compute.
    eapply star_step; [eapply f_none; [lia | reflexivity] | vm_compute].
    eapply star_step; [eapply (b_read _ _ _ _ _ _ _ _ _ _ _ _ _ [1; 2; 3]); [lia | cbn; lia | vm_compute; discriminate] | vm_compute].
    eapply star_step; [eapply (b_mutex _ _ _ _ _ _ _ _ _ _ _ _ _ _ [] true); reflexivity | vm_compute].
    eapply star_step; [eapply (cb_sent AtYield _ _ _ _ _ _ _ _ _ _ _ _ _ 2); (done || cbn; lia) | vm_compute].
    eapply star_step; [eapply (yield_loop _ _ _ _ _ _ _ _ _ _ _ _ _ true); reflexivity | vm_compute].
    eapply star_step; [eapply f_none; [lia | reflexivity] | vm_compute].
    eapply star_step; [eapply (b_read _ _ _ _ _ _ _ _ _ _ _ _ _ [4; 5; 6]); [lia | cbn; lia | vm_compute; discriminate] | vm_compute].
    eapply star_step; [eapply (b_mutex _ _ _ _ _ _ _ _ _ _ _ _ _ _ [false; true] true); reflexivity | vm_compute].
    apply star_refl. }
  all: reflexivity.
Qed.
