(* ===== verification/Utils.v ===== *)
(** * Helpers of the tunnel

    Model of the address conversions and the socket options of
    [src/misc/hev-utils.c].  The mapped-DNS singleton is the state of the
    conversion; an [ip_addr_t] of lwIP is its type and the bytes of its
    union. *)

From S2P Require Import Prelude Buffer IO Addr Interfaces Socks5 MappedDNS.

(** [IPADDR_TYPE_V4], [IPADDR_TYPE_V6] of lwIP. *)
Definition IPADDR_TYPE_V4 : Z := 0.
Definition IPADDR_TYPE_V6 : Z := 6.

Record ip_addr_t := mkIp { ip_type : Z; ip_bytes : list Z }.

(** [SO_MARK], [IPPROTO_TCP] and [TCP_FASTOPEN_CONNECT] of the target. *)
Definition SO_MARK : Z := 36.
Definition IPPROTO_TCP : Z := 6.
Definition TCP_FASTOPEN_CONNECT : Z := 30.

Definition set_sock_mark {S} (fd mark : Z) : P S Z :=
  r ← call (SetSockOpt fd SOL_SOCKET SO_MARK mark); mret (ret r).

Definition set_sock_tcp_fastopen {S} (fd enable : Z) : P S unit :=
  if decide (enable = 0) then mret tt
  else call (SetSockOpt fd IPPROTO_TCP TCP_FASTOPEN_CONNECT 1);; mret tt.

Section Program.
Context {T L : Type} `{!SearchTree T} `{!LinkedList L}.

(** [hev_mapped_dns_get]: the table, when there is one. *)
Abbreviation singleton := (option (HevMappedDNS T L)).

Definition on_dns {A} (dflt : A) (m : M (HevMappedDNS T L) A) : M singleton A := λ s,
  match s with
  | None => Some (dflt, None)
  | Some d => '(a, d) ← m d; Some (a, Some d)
  end.

Definition hev_socks5_addr_from_lwip (addr : list Z) (ip : ip_addr_t) (port : Z) :
    M singleton (Z * list Z) :=
  if decide (ip_type ip = IPADDR_TYPE_V4) then
    b ← mlift (mem_read (ip_bytes ip) 0 4);
    name ← on_dns None (hev_mapped_dns_lookup (i32 (ntohl (le32 b))));
    '(_, addr) ← mlift
      (match name with
       | Some name => hev_socks5_addr_from_name addr name (htons port)
       | None => hev_socks5_addr_from_ipv4 addr (ip_bytes ip) (htons port)
       end);
    mret (0, addr)
  else if decide (ip_type ip = IPADDR_TYPE_V6) then
    '(_, addr) ← mlift (hev_socks5_addr_from_ipv6 addr (ip_bytes ip) (htons port));
    mret (0, addr)
  else mret (-1, addr).

(** The result, the address over the old contents of [ip], and the port. *)
Definition hev_socks5_addr_into_lwip (addr : list Z) (ip : ip_addr_t) (port : Z) :
    option (Z * ip_addr_t * Z) :=
  atype ← mem_get addr 0;
  if decide (atype = HEV_SOCKS5_ADDR_TYPE_IPV4) then
    b ← mem_read addr 1 4;
    m ← mem_write (ip_bytes ip) 0 b;
    p ← get_port addr 5;
    Some (0, mkIp IPADDR_TYPE_V4 m, ntohs p)
  else if decide (atype = HEV_SOCKS5_ADDR_TYPE_IPV6) then
    b ← mem_read addr 1 16;
    m ← mem_write (ip_bytes ip) 0 b;
    p ← get_port addr 17;
    Some (0, mkIp IPADDR_TYPE_V6 m, ntohs p)
  else Some (-1, ip, port).
End Program.
