(* ===== verification/UtilsProps.v ===== *)
(** * Properties of the address conversions

    The destination of a connection becomes the address of the SOCKS5
    request, a mapped one becomes its name again when that has at most 255
    bytes; and the bits of the network are never looked at. *)

From S2P Require Import Prelude Buffer IO Addr Interfaces DList RBTree RBMap MappedDNS DNSHandle DNSProps Utils.

(** ** The codec of the addresses *)

Lemma from_ipv4_spec block a b c d tl port :
  length block = SIZEOF_ADDR → 0 ≤ port < 65536 →
  ∃ rest, hev_socks5_addr_from_ipv4 block ([a; b; c; d] ++ tl) port = Some (7, wire (A4 [a; b; c; d] port) ++ rest) ∧
    length (wire (A4 [a; b; c; d] port) ++ rest) = SIZEOF_ADDR.
Proof.
  intros Hb Hp. unfold SIZEOF_ADDR in *. unfold hev_socks5_addr_from_ipv4. rewrite (u16_small port) by lia.
  do 7 (destruct block as [|? block]; [done |]). rewrite mem_set_0. cbn [mbind option_bind].
  pose proof (mem_read_at [] [a; b; c; d] tl 0 4 eq_refl eq_refl) as E0. cbn [app] in E0. cbn [app]. rewrite E0. cbn [mbind option_bind].
  pose proof (mem_write_at [HEV_SOCKS5_ADDR_TYPE_IPV4] [z0; z1; z2; z3] [a; b; c; d] (z4 :: z5 :: block) 1) as E1.
  cbn [app] in E1. rewrite E1 by done. cbn [mbind option_bind].
  pose proof (mem_write_at [HEV_SOCKS5_ADDR_TYPE_IPV4; a; b; c; d] [z4; z5] (le16 port) block 5) as E2.
  cbn [app] in E2. rewrite E2 by done. cbn [mbind option_bind].
  exists block. split; [done |]. cbn in *. lia.
Qed.

Lemma from_ipv6_spec block ip tl port :
  length block = SIZEOF_ADDR → length ip = 16%nat → 0 ≤ port < 65536 →
  ∃ rest, hev_socks5_addr_from_ipv6 block (ip ++ tl) port = Some (19, wire (A6 ip port) ++ rest) ∧
    length (wire (A6 ip port) ++ rest) = SIZEOF_ADDR.
Proof.
  intros Hb Hl Hp. unfold SIZEOF_ADDR in *. unfold hev_socks5_addr_from_ipv6. rewrite (u16_small port) by lia.
  destruct block as [|x block]; [done |]. rewrite mem_set_0. cbn [mbind option_bind].
  pose proof (mem_read_at [] ip tl 0 16) as E0. cbn [app] in E0. rewrite E0 by (done || (rewrite Hl; done)).
  cbn [mbind option_bind].
  destruct (block_split block 16) as (o & block1 & -> & Ho); [cbn in Hb; lia |].
  pose proof (mem_write_at [HEV_SOCKS5_ADDR_TYPE_IPV6] o ip block1 1) as E1. cbn [app] in E1.
  rewrite E1 by (done || congruence). cbn [mbind option_bind].
  destruct (block_split block1 2) as (o2 & block2 & -> & Ho2); [cbn in Hb; rewrite length_app in Hb; lia |].
  pose proof (mem_write_at (HEV_SOCKS5_ADDR_TYPE_IPV6 :: ip) o2 (le16 port) block2 17) as E2. cbn [app] in E2.
  rewrite E2 by (done || (cbn; lia)).
  cbn [mbind option_bind]. exists block2. cbn in *. rewrite !length_app in *. cbn. split; [|lia].
  do 2 f_equal. by rewrite <-app_assoc.
Qed.

Lemma mlift_bind {S A B} (a : A) (f : A → M S B) s : (mlift (Some a) ≫= f) s = f a s.
Proof. done. Qed.

(** The address written for a destination. *)
Definition dest_address (name : option (list Z)) (ip : ip_addr_t) (port : Z) : address :=
  match name with
  | Some nm => AName nm (htons port)
  | None => if decide (ip_type ip = IPADDR_TYPE_V4) then A4 (take 4 (ip_bytes ip)) (htons port)
            else A6 (take 16 (ip_bytes ip)) (htons port)
  end.

(** The address that reaches the block: the name as far as it is stored. *)
Definition stored_dest (block : list Z) (name : option (list Z)) (ip : ip_addr_t) (port : Z) : option address :=
  match name with
  | Some nm => (λ n, AName n (htons port)) <$> stored_name block nm
  | None => Some (dest_address None ip port)
  end.

(** The host part [hev_mapped_dns_lookup] uses. *)
Definition host_part {T L} (d : HevMappedDNS T L) (ip : ip_addr_t) : Z :=
  Z.land (i32 (ntohl (le32 (take 4 (ip_bytes ip))))) (Z.lnot (mask d)).

Section Lwip.
Context {T L : Type} `{!SearchTree T} `{!LinkedList L}.

(** The name a destination is mapped to, and the entries afterwards. *)
Definition mapped_name (o : option (HevMappedDNS T L * entries)) (ip : ip_addr_t) : option (list Z) :=
  match o with
  | Some (d, es) =>
      if decide (ip_type ip = IPADDR_TYPE_V4) then
        if decide (host_part d ip < max_ d) then (lru_lookup (host_part d ip) es).1 else None
      else None
  | None => None
  end.

Definition ip_ok (ip : ip_addr_t) : Prop :=
  length (ip_bytes ip) = 16%nat ∧ bytes_ok (ip_bytes ip) ∧
  (ip_type ip = IPADDR_TYPE_V4 ∨ ip_type ip = IPADDR_TYPE_V6).

(** The table, when there is one, with what it holds. *)
Definition dns_state (s : option (HevMappedDNS T L)) (o : option (HevMappedDNS T L * entries)) : Prop :=
  match s, o with
  | None, None => True
  | Some d, Some (d', es) => d = d' ∧ refines d es ∧ params d
  | _, _ => False
  end.

(** The names of the table are C strings, which [hev_mapped_dns_find] and
    [hev_mapped_dns_handle] keep. *)
Definition names_ok (o : option (HevMappedDNS T L * entries)) (ip : ip_addr_t) : Prop :=
  ∀ nm, mapped_name o ip = Some nm → Forall (λ b, 0 < b < 256) nm.

Lemma table_names_ok d es ip : c_names es → names_ok (Some (d, es)) ip.
Proof.
  intros H nm. cbn [mapped_name]. repeat case_decide; try done. apply (lru_lookup_names _ es H).
Qed.

Lemma from_lwip_spec block ip port s o :
  dns_state s o → ip_ok ip → length block = SIZEOF_ADDR → names_ok o ip →
  match stored_dest block (mapped_name o ip) ip port with
  | Some a => ∃ rest s', hev_socks5_addr_from_lwip block ip port s = Some ((0, wire a ++ rest), s') ∧
      length (wire a ++ rest) = SIZEOF_ADDR
  | None => hev_socks5_addr_from_lwip block ip port s = None
  end.
Proof.
  intros Hs (Hl & Hb & Ht) Hbl Hnm. pose proof (htons_range port) as Hp. unfold hev_socks5_addr_from_lwip.
  destruct ip as [ty bytes]. cbn [ip_type ip_bytes] in *.
  do 4 (destruct bytes as [|? bytes]; [done |]).
  destruct (decide (ty = IPADDR_TYPE_V4)) as [-> | Hv6].
  - cbn [take]. pose proof (mem_read_at [] [z; z0; z1; z2] bytes 0 4 eq_refl eq_refl) as E0.
    cbn [app] in E0. rewrite E0, mlift_bind, ?take_0.
    set (nm := mapped_name o _) in *.
    assert (∃ s', on_dns None (hev_mapped_dns_lookup (i32 (ntohl (le32 [z; z0; z1; z2])))) s = Some (nm, s')) as [s' E].
    { unfold on_dns, nm, mapped_name. destruct s as [d|], o as [[d' es]|]; try done; [|by eexists].
      destruct Hs as (<- & Hr & Hpa).
      destruct (lookup_refines d es (i32 (ntohl (le32 [z; z0; z1; z2]))) Hr Hpa) as (d1 & E & _).
      rewrite E. cbn [mbind option_bind ip_type].
      rewrite (decide_True (P := IPADDR_TYPE_V4 = IPADDR_TYPE_V4)) by done. eexists.
      unfold host_part. cbn [ip_bytes take]. rewrite take_0. by case_decide. }
    rewrite (mbind_some _ _ _ _ _ E). unfold stored_dest. unfold names_ok in Hnm. fold nm in Hnm.
    destruct nm as [nm|].
    + pose proof (from_name_spec block nm (htons port) Hbl (Hnm nm eq_refl)) as Hf.
      destruct (stored_name block nm) as [nm'|]; cbn [fmap option_fmap option_map].
      * destruct Hf as (rest & Ef & Hlen). rewrite Ef, mlift_bind. rewrite u16_small in * by lia. by exists rest, s'.
      * by rewrite Hf.
    + unfold dest_address. rewrite decide_True by done. cbn [take ip_bytes].
      destruct (from_ipv4_spec block z z0 z1 z2 bytes (htons port)) as (rest & Ef & Hlen); [done | lia |].
      cbn [app] in Ef. rewrite take_0, Ef, mlift_bind. by exists rest, s'.
  - destruct Ht as [? | ->]; [done |]. rewrite decide_True by done.
    assert (mapped_name o (mkIp IPADDR_TYPE_V6 (z :: z0 :: z1 :: z2 :: bytes)) = None) as ->
      by (unfold mapped_name; by destruct o as [[]|]).
    unfold stored_dest. destruct (from_ipv6_spec block (z :: z0 :: z1 :: z2 :: bytes) [] (htons port)) as (rest & Ef & Hlen); [done.. | lia |].
    rewrite app_nil_r in Ef. rewrite Ef, mlift_bind. exists rest, s. unfold dest_address. cbn [ip_type ip_bytes].
    rewrite decide_False by done. rewrite take_ge by (rewrite Hl; done). done.
Qed.

Lemma dest_address_ok name ip port : ip_ok ip →
  (∀ nm, name = Some nm → Forall (λ b, 0 < b < 256) nm ∧ (length nm ≤ 255)%nat) →
  address_ok (dest_address name ip port).
Proof.
  intros (Hl & Hb & _) Hnm. pose proof (htons_range port) as Hp. unfold dest_address. destruct name as [nm|].
  - destruct (Hnm nm eq_refl) as [? ?]. cbn [address_ok]. split_and!; done || lia.
  - case_decide; cbn [address_ok]; rewrite length_take, Hl; (split; [done | split; [by apply Forall_take | done]]).
Qed.

Lemma stored_dest_ok block name ip port a : ip_ok ip →
  (∀ nm, name = Some nm → Forall (λ b, 0 < b < 256) nm) →
  stored_dest block name ip port = Some a → address_ok a.
Proof.
  intros Hip Hnm. unfold stored_dest. destruct name as [nm|].
  - intros (n & E & ->)%fmap_Some. apply (dest_address_ok (Some n) ip port Hip). intros ? [= <-].
    by eapply stored_name_ok; [apply Hnm |].
  - intros [= <-]. by apply (dest_address_ok None).
Qed.

(** A name that fits is stored whole. *)
Lemma stored_dest_short block name ip port :
  (∀ nm, name = Some nm → (length nm ≤ 255)%nat) →
  stored_dest block name ip port = Some (dest_address name ip port).
Proof. intros H. destruct name as [nm|]; [|done]. cbn. by rewrite stored_name_short by auto. Qed.

Lemma from_lwip_short block ip port s o :
  dns_state s o → ip_ok ip → length block = SIZEOF_ADDR →
  (∀ nm, mapped_name o ip = Some nm → Forall (λ b, 0 < b < 256) nm ∧ (length nm ≤ 255)%nat) →
  ∃ rest s', hev_socks5_addr_from_lwip block ip port s =
      Some ((0, wire (dest_address (mapped_name o ip) ip port) ++ rest), s') ∧
    length (wire (dest_address (mapped_name o ip) ip port) ++ rest) = SIZEOF_ADDR.
Proof.
  intros Hs Hip Hb Hnm. pose proof (from_lwip_spec block ip port s o Hs Hip Hb) as H.
  rewrite stored_dest_short in H by naive_solver. apply H. intros nm ?. by apply Hnm.
Qed.
End Lwip.

(** An address without a name, back from its block. *)
Lemma into_lwip_spec ip port ip0 p0 rest : ip_ok ip → length (ip_bytes ip0) = 16%nat → 0 ≤ port < 65536 →
  ∃ m n, hev_socks5_addr_into_lwip (wire (dest_address None ip port) ++ rest) ip0 p0 =
      Some (0, mkIp (ip_type ip) m, port) ∧
    n = (if decide (ip_type ip = IPADDR_TYPE_V4) then 4%nat else 16%nat) ∧ take n m = take n (ip_bytes ip).
Proof.
  intros Hip Hl0 Hport. pose proof (htons_range port) as Hp.
  destruct Hip as (Hl & Hby & Hty). destruct ip as [ty bytes], ip0 as [ty0 bytes0]. cbn [ip_type ip_bytes] in *.
  unfold dest_address. cbn [ip_type ip_bytes].
  destruct Hty as [-> | ->].
  - rewrite decide_True by done. do 4 (destruct bytes as [|? bytes]; [done |]). do 4 (destruct bytes0 as [|? bytes0]; [done |]).
    cbn [take]. rewrite take_0.
    unfold hev_socks5_addr_into_lwip. exists ([z; z0; z1; z2] ++ bytes0), 4%nat.
    assert (mem_read (wire (A4 [z; z0; z1; z2] (htons port)) ++ rest) 1 4 = Some [z; z0; z1; z2]) as E1
      by exact (mem_read_at [HEV_SOCKS5_ADDR_TYPE_IPV4] [z; z0; z1; z2] (le16 (htons port) ++ rest) 1 4 eq_refl eq_refl).
    assert (get_port (wire (A4 [z; z0; z1; z2] (htons port)) ++ rest) 5 = Some (htons port)) as E2
      by exact (get_port_at [HEV_SOCKS5_ADDR_TYPE_IPV4; z; z0; z1; z2] (htons port) rest 5 Hp eq_refl).
    change (mem_get (wire (A4 [z; z0; z1; z2] (htons port)) ++ rest) 0) with (Some HEV_SOCKS5_ADDR_TYPE_IPV4).
    cbn [mbind option_bind]. rewrite decide_True by done. rewrite E1. cbn [mbind option_bind].
    pose proof (mem_write_at [] [z3; z4; z5; z6] [z; z0; z1; z2] bytes0 0 eq_refl eq_refl) as E3. cbn [app] in E3.
    cbn [ip_bytes]. rewrite E3, E2. cbn [mbind option_bind app]. by rewrite htons_involutive by done.
  - rewrite !(decide_False (P := IPADDR_TYPE_V6 = IPADDR_TYPE_V4)) by done. rewrite take_ge by lia.
    unfold hev_socks5_addr_into_lwip. exists bytes, 16%nat.
    assert (mem_read (wire (A6 bytes (htons port)) ++ rest) 1 16 = Some bytes) as E1.
    { cbn [wire]. rewrite <-app_comm_cons, <-app_assoc.
      apply (mem_read_at [HEV_SOCKS5_ADDR_TYPE_IPV6] bytes (le16 (htons port) ++ rest) 1 16); [done | by rewrite Hl]. }
    assert (get_port (wire (A6 bytes (htons port)) ++ rest) 17 = Some (htons port)) as E2.
    { cbn [wire]. rewrite <-app_comm_cons, <-app_assoc.
      apply (get_port_at (HEV_SOCKS5_ADDR_TYPE_IPV6 :: bytes) (htons port) rest 17 Hp). cbn. by rewrite Hl. }
    change (mem_get (wire (A6 bytes (htons port)) ++ rest) 0) with (Some HEV_SOCKS5_ADDR_TYPE_IPV6).
    cbn [mbind option_bind]. rewrite decide_False, decide_True by done. rewrite E1. cbn [mbind option_bind].
    pose proof (mem_write_at [] bytes0 bytes [] 0 eq_refl ltac:(congruence)) as E3. cbn [app] in E3.
    rewrite !app_nil_r in E3. cbn [ip_bytes]. rewrite E3, E2. cbn [mbind option_bind]. by rewrite htons_involutive by done.
Qed.

(** ** The claims *)

(** C29. The destination of a connection survives the conversion to a SOCKS5
    address. One that the table does not map becomes the address and port from
    which [hev_socks5_addr_into_lwip] restores those of lwIP. A mapped one
    becomes the name it stands for, which has no address of lwIP and is
    refused; a name of 256 bytes or more is cut to the empty name or to its
    first byte, and when the memory behind the field of the name holds no
    zero, the conversion reads past the structure. *)
Theorem lwip_address_round_trip {T L} `{!SearchTree T} `{!LinkedList L}
    (s : option (HevMappedDNS T L)) o block ip port ip0 p0 :
  dns_state s o → ip_ok ip → length block = SIZEOF_ADDR → 0 ≤ port < 65536 → length (ip_bytes ip0) = 16%nat →
  names_ok o ip →
  match mapped_name o ip with
  | None => ∃ addr s' m n, hev_socks5_addr_from_lwip block ip port s = Some ((0, addr), s') ∧
      hev_socks5_addr_len addr = Some (Z.of_nat (length (wire (dest_address None ip port)))) ∧
      (∃ rest, addr = wire (dest_address None ip port) ++ rest) ∧
      hev_socks5_addr_into_lwip addr ip0 p0 = Some (0, mkIp (ip_type ip) m, port) ∧
      n = (if decide (ip_type ip = IPADDR_TYPE_V4) then 4%nat else 16%nat) ∧ take n m = take n (ip_bytes ip)
  | Some name =>
      match stored_name block name with
      | Some nm => ((length name ≤ 255)%nat → nm = name) ∧
          ∃ addr s', hev_socks5_addr_from_lwip block ip port s = Some ((0, addr), s') ∧
          hev_socks5_addr_len addr = Some (Z.of_nat (length (wire (AName nm (htons port))))) ∧
          (∃ rest, addr = wire (AName nm (htons port)) ++ rest) ∧
          hev_socks5_addr_into_lwip addr ip0 p0 = Some (-1, ip0, p0)
      | None => (256 ≤ length name)%nat ∧ hev_socks5_addr_from_lwip block ip port s = None
      end
  end.
Proof.
  intros Hs Hip Hb Hport Hl0 Hnm. pose proof (from_lwip_spec block ip port s o Hs Hip Hb Hnm) as H.
  pose proof (λ a, stored_dest_ok block (mapped_name o ip) ip port a Hip Hnm) as Hok.
  destruct (mapped_name o ip) as [name|]; cbn [stored_dest] in *.
  - destruct (stored_name block name) as [nm|] eqn:En; cbn [fmap option_fmap option_map] in *.
    + split; [intros Hlen; rewrite stored_name_short in En by done; congruence |].
      destruct H as (rest & s' & E & _). eexists _, s'. split; [exact E |].
      split; [by apply addr_len_wire, Hok |]. by split; [exists rest |].
    + split; [|done]. unfold stored_name in En. case_decide; [done | lia].
  - destruct H as (rest & s' & E & _). destruct (into_lwip_spec ip port ip0 p0 rest Hip Hl0 Hport) as (m & n & Ei & Hn & Ht).
    eexists _, s', m, n. split; [exact E |]. split; [by apply addr_len_wire, Hok |]. by split; [exists rest |].
Qed.

(** 8.8.8.0, an address of no mapped network. *)
Definition demo_ip : ip_addr_t := mkIp IPADDR_TYPE_V4 ([8; 8; 8; 0] ++ replicate 12 0).

Lemma demo_ip_ok : ip_ok demo_ip.
Proof. split_and!; [done | repeat constructor; unfold byte_ok; lia | by left]. Qed.

Lemma lwip_address_round_trip_witness :
  ∃ addr s', hev_socks5_addr_from_lwip (T := rbstore) (L := lstore) (replicate SIZEOF_ADDR 0) demo_ip 443 (Some demo_dns)
      = Some ((0, addr), s') ∧
    (∃ m n, hev_socks5_addr_into_lwip addr (mkIp 0 (replicate 16 0)) 0 = Some (0, mkIp IPADDR_TYPE_V4 m, 443) ∧
       n = 4%nat ∧ take n m = [8; 8; 8; 0]).
Proof.
  assert (names_ok (Some (demo_dns, [])) demo_ip) as Hnm by (intros nm; vm_compute; done).
  pose proof (lwip_address_round_trip (Some demo_dns) (Some (demo_dns, [])) (replicate SIZEOF_ADDR 0) demo_ip 443
    (mkIp 0 (replicate 16 0)) 0 (conj eq_refl (conj demo_dns_refines demo_dns_params)) demo_ip_ok eq_refl
    ltac:(lia) eq_refl Hnm) as H.
  assert (mapped_name (Some (demo_dns, [])) demo_ip = None) as En by (vm_compute; done). rewrite En in H.
  destruct H as (addr & s' & m & n & E & _ & _ & E1 & -> & E2). exists addr, s'. split; [exact E |].
  exists m, 4%nat. split; [exact E1 | split; [reflexivity | exact E2]].
Defined.

(** A query for a name of two labels of 200 bytes is answered with an address;
    a connection to it, with no zero in the memory behind the field of the
    name, makes [hev_socks5_addr_from_name] read past its structure. *)
Theorem long_name_overread : ∃ st s' nm,
  hev_mapped_dns_handle first_free 419 1500
    (mkH demo_dns (query 1 2 1 0 [0; 0; 0; 0; 0; 0] [replicate 200 97; replicate 200 98] []) (replicate 1500 0))
    = Some (435, st) ∧
  hev_mapped_dns_lookup 0x0a000000 (h_self st) = Some (Some nm, s') ∧ length nm = 401%nat ∧
  hev_socks5_addr_from_lwip (replicate SIZEOF_ADDR 1) (mkIp IPADDR_TYPE_V4 (10 :: replicate 15 0)) 443
    (Some (h_self st)) = None.
Proof.
  eexists _, _, _. split; [vm_compute; reflexivity |]. split; [vm_compute; reflexivity |].
  split; vm_compute; reflexivity.
Qed.

(** [hev_mapped_dns_lookup] never compares the network of the address:
    with a table for 10.0.0.0/30 that maps one name, a connection to 8.8.8.0
    is sent to that name. *)
Theorem mapped_dns_foreign_address : ∃ (d : DNS0) addr s',
  params d ∧ refines d [([97], 0)] ∧
  Z.land (i32 (ntohl (le32 (take 4 (ip_bytes demo_ip))))) (mask d) ≠ Z.land (net d) (mask d) ∧
  hev_socks5_addr_from_lwip (replicate SIZEOF_ADDR 0) demo_ip 443 (Some d) = Some ((0, addr), s') ∧
  ∃ rest, addr = wire (AName [97] (htons 443)) ++ rest.
Proof.
  destruct (find_refines demo_dns [] 16 true [97] demo_dns_refines) as (d & _ & Hr & Hs);
    [vm_compute; reflexivity | exact demo_malloc |].
  cbn in Hr. destruct Hs as (Hn & Hma & Hmx).
  assert (params d) as Hp by (destruct demo_dns_params as [H1 H2 H3]; split; by rewrite ?Hn, ?Hma, ?Hmx).
  assert (mapped_name (Some (d, [([97], 0)])) demo_ip = Some [97]) as Hname.
  { unfold mapped_name, host_part. rewrite Hma, Hmx. done. }
  destruct (from_lwip_short (replicate SIZEOF_ADDR 0) demo_ip 443 (Some d) (Some (d, [([97], 0)])))
    as (rest & s' & E & _); [by split | exact demo_ip_ok | done | |].
  { rewrite Hname. intros nm [= <-]. split; [repeat constructor; lia | cbn; lia]. }
  rewrite Hname in E. exists d, (wire (AName [97] (htons 443)) ++ rest), s'.
  split_and!; [done | done | rewrite Hma, Hn; vm_compute; discriminate | exact E | by exists rest].
Qed.
