(* ===== verification/SessionUdp.v ===== *)
(** * The UDP session

    Model of [src/hev-socks5-session-udp.c], up to the program of its task,
    which is in [SessionUdpRun].  Datagrams of lwIP wait in a list
    of frames, of which the session sends the first pbuf over the SOCKS5
    association in batches; answers go back to lwIP.  The list is used through the interface
    [LinkedList], on nodes keyed by the address of their frame; the allocator
    is outside the program and its answers are arguments. *)

From S2P Require Import Prelude Buffer IO Addr Interfaces Socks5 Client Udp Config MappedDNS Utils.

(** ** The object *)

(** [data] is the chain that lwIP delivered. *)
Record HevSocks5UDPFrame := mkFrame { f_addr : list Z; f_data : pbuf }.

(** [struct _HevSocks5SessionUDP]: [frame_at] is the memory of the frames; the
    control block, the mutex and the task have no contents here. *)
Record HevSocks5SessionUDP (L : Type) := mkUSession {
  ubase : HevSocks5ClientUDP;
  frame_list : L;
  frame_at : gmap Z HevSocks5UDPFrame;
  frames : Z;
  s_addr : Z;
  s_port : Z;
}.
Arguments mkUSession {L}.
Arguments ubase {L}.
Arguments frame_list {L}.
Arguments frame_at {L}.
Arguments frames {L}.
Arguments s_addr {L}.
Arguments s_port {L}.

Section Program.
Context (inet_pton4 inet_pton6 : list Z → option (list Z)).
Context {T L : Type} `{!SearchTree T} `{!LinkedList L}.
Abbreviation Session := (HevSocks5SessionUDP L).

Definition set_ubase (b : HevSocks5ClientUDP) (s : Session) : Session :=
  mkUSession b (frame_list s) (frame_at s) (frames s) (s_addr s) (s_port s).
Definition set_frames (l : L) (m : gmap Z HevSocks5UDPFrame) (n : Z) (s : Session) : Session :=
  mkUSession (ubase s) l m n (s_addr s) (s_port s).

Definition on_frames {A} (m : M L A) : M Session A := λ s,
  '(a, l) ← m (frame_list s); Some (a, set_frames l (frame_at s) (frames s) s).

Definition frame_get (p : ptr) : M Session HevSocks5UDPFrame := λ s, f ← frame_at s !! p; Some (f, s).

(** ** Forward: to the SOCKS5 server *)

(** The first [n] frames from [node] on, as messages: of a chain, its first
    pbuf. *)
Fixpoint fwd_collect (n : nat) (node : ptr) : M Session (list HevSocks5UDPMsg) :=
  match n with
  | O => mret []
  | S n =>
      frame ← frame_get node;
      next ← on_frames (ll_next node);
      msgs ← fwd_collect n next;
      let buf := f_data frame in
      mret (mkMsg (APtr (f_addr frame)) (payload buf) (p_len buf) :: msgs)
  end.

(** [hev_socks5_session_udp_fwd_f] before the messages are sent; [None] when
    there are none. *)
Definition fwd_f_msgs (num : Z) : M Session (option (list HevSocks5UDPMsg)) :=
  res ← mgets frames;
  if decide (res ≤ 0) then mret None
  else
    let res := if decide (res > num) then num else res in
    node ← on_frames ll_first;
    msgs ← fwd_collect (Z.to_nat res) node;
    mret (Some msgs).

(** The frames that were sent leave the list and are freed. *)
Fixpoint fwd_f_free (n : nat) : M Session unit :=
  match n with
  | O => mret tt
  | S n =>
      node ← on_frames ll_first;
      _ ← frame_get node;
      on_frames (ll_del node);;
      (λ s, Some (tt, set_frames (ll_free node (frame_list s)) (delete node (frame_at s)) (frames s - 1) s));;
      fwd_f_free n
  end.

(** The rest of the function, on the result of [hev_socks5_udp_sendmmsg]. *)
Definition fwd_f_sent (res : Z) : M Session Z :=
  if decide (res ≤ 0) then mret (-1)
  else fwd_f_free (Z.to_nat res);; mret 1.

(** ** The callback of lwIP *)

Definition on_session {A} (m : M Session A) : M (Session * option (HevMappedDNS T L)) A := λ '(s, d),
  '(a, s) ← m s; Some (a, (s, d)).

(** [udp_recv_handler]: [malloc] is the address of the new frame, or null, and
    [mem] the contents of its memory; the result says whether the datagram
    was taken. *)
Definition udp_recv_handler (malloc : ptr) (mem : list Z) (p : option pbuf) (ip : ip_addr_t) (port : Z) :
    M (Session * option (HevMappedDNS T L)) bool :=
  match p with
  | None =>
      on_session (λ s, Some (tt, set_ubase (set_base (hev_socks5_set_timeout 0 (base (ubase s))) (ubase s)) s));;
      mret false
  | Some p =>
      n ← mgets (λ s, frames s.1);
      if decide (n > UDP_POOL_SIZE) then mret false
      else if decide (malloc = NULL) then mret false
      else
        '(_, addr) ← (λ '(s, d), '(a, d) ← hev_socks5_addr_from_lwip mem ip port d; Some (a, (s, d)));
        atype ← mlift (mem_get addr 0);
        b ← mlift (mem_read (ip_bytes ip) 0 4);
        on_session (λ s, Some (tt,
          let s := if decide (atype = HEV_SOCKS5_ADDR_TYPE_NAME)
                   then mkUSession (ubase s) (frame_list s) (frame_at s) (frames s) (i32 (le32 b)) port else s in
          set_frames (ll_alloc malloc (frame_list s)) (<[malloc := mkFrame addr p]> (frame_at s)) (frames s + 1) s));;
        on_session (on_frames (ll_add_tail malloc));;
        mret true
  end.

(** ** The client *)

Definition on_base {A} (m : P HevSocks5ClientUDP A) : P Session A := λ s,
  io_bind (m (ubase s)) (λ '(a, b), Ret (a, set_ubase b s)).

(** ** The binder of the sessions *)

(** [hev_socks5_session_bind] of [src/hev-socks5-session.c]. *)
Definition hev_socks5_session_bind {S} (srv : HevConfigServer) (fd : Z) (dest : sockaddr_in6) : P S Z :=
  res ← (if decide (srv_mark srv ≠ 0) then set_sock_mark fd (srv_mark srv) else mret 0);
  if decide (res < 0) then mret (-1)
  else set_sock_tcp_fastopen fd (srv_fastopen srv);; mret 0.

(** ** The upstream address *)

Definition hev_socks5_addr_get_port (addr : list Z) : option Z :=
  atype ← mem_get addr 0;
  if decide (atype = HEV_SOCKS5_ADDR_TYPE_IPV4) then get_port addr 5
  else if decide (atype = HEV_SOCKS5_ADDR_TYPE_IPV6) then get_port addr 17
  else if decide (atype = HEV_SOCKS5_ADDR_TYPE_NAME) then
    len ← mem_get addr 1; get_port addr (2 + len)
  else Some 0.

(** [hev_socks5_session_udp_set_upstream_addr]: the address of the server's
    reply is replaced by the configured one. *)
Definition hev_socks5_session_udp_set_upstream_addr (g : misc) (srv : HevConfigServer) (addr : list Z) :
    P Session Z :=
  first ← plift (mem_get (srv_udp_addr srv) 0);
  addr ←
    (if decide (srv_udp_in_udp srv ≠ 0 ∧ first ≠ 0) then
       port ← plift (hev_socks5_addr_get_port addr);
       name ← plift (cstr (srv_udp_addr srv));
       '(_, addr) ← plift (hev_socks5_addr_from_name addr name port);
       mret addr
     else mret addr);
  on_base (hev_socks5_client_udp_set_upstream_addr inet_pton4 inet_pton6 g (hev_socks5_session_bind srv) addr).

(** ** Construction and destruction *)

Definition hev_socks5_session_udp_construct (srv : HevConfigServer) : Session :=
  let ty := if decide (srv_udp_in_udp srv ≠ 0) then HEV_SOCKS5_TYPE_UDP_IN_UDP else HEV_SOCKS5_TYPE_UDP_IN_TCP in
  mkUSession (hev_socks5_client_udp_construct ty) ll_empty ∅ 0 0 0.

(** The frames still in the list: the loop of the destructor frees each one
    after it has read its successor.  The head of the list keeps pointing to
    them. *)
Fixpoint destruct_frames (fuel : nat) (node : ptr) : M Session (option unit) :=
  match fuel with
  | O => mret None
  | S fuel =>
      if decide (node = NULL) then mret (Some tt)
      else
        _ ← frame_get node;
        next ← on_frames (ll_next node);
        (λ s, Some (tt, set_frames (ll_free node (frame_list s)) (delete node (frame_at s)) (frames s) s));;
        destruct_frames fuel next
  end.

Definition destruct_list (fuel : nat) : M Session (option unit) :=
  node ← on_frames ll_first;
  destruct_frames fuel node.
End Program.
