(* ===== verification/SessionUdpProps.v ===== *)
(** * Properties of the UDP session

    The frames form a bounded queue: what was accepted is sent in order, once,
    with its own address, however the callback and the sender interleave;
    every frame is freed. *)

From S2P Require Import Prelude Buffer IO Addr Interfaces DList Socks5 Client Udp Config RBTree RBMap MappedDNS DNSHandle DNSProps Utils UtilsProps SessionUdp.

(** ** The queue *)

Section Queue.
Context {T L : Type} `{!SearchTree T} `{!LinkedList L}.
Abbreviation Session := (HevSocks5SessionUDP L).

(** The frames [fs] wait at the addresses [xs], in this order. *)
Record queued (s : Session) (xs : list ptr) (fs : list HevSocks5UDPFrame) : Prop := {
  qu_list : ll_rep (frame_list s) xs;
  qu_at : Forall2 (λ p f, frame_at s !! p = Some f) xs fs;
  qu_dom : ∀ p, is_Some (frame_at s !! p) → p ∈ xs;
  qu_count : frames s = Z.of_nat (length xs);
}.

Lemma set_frames_id (s : Session) : set_frames (frame_list s) (frame_at s) (frames s) s = s.
Proof. by destruct s. Qed.

Lemma on_frames_pure {A} (m : M L A) (s : Session) a :
  m (frame_list s) = Some (a, frame_list s) → on_frames m s = Some (a, s).
Proof. intros E. unfold on_frames. rewrite E. cbn. by rewrite set_frames_id. Qed.

Lemma frame_get_some (s : Session) p f : frame_at s !! p = Some f → frame_get p s = Some (f, s).
Proof. intros E. unfold frame_get. by rewrite E. Qed.

Lemma at_ext (m m' : gmap Z HevSocks5UDPFrame) xs fs :
  Forall2 (λ p f, m !! p = Some f) xs fs → (∀ p, p ∈ xs → m' !! p = m !! p) →
  Forall2 (λ p f, m' !! p = Some f) xs fs.
Proof.
  induction 1 as [|p f xs fs Hp _ IH]; intros Hm; constructor; [|apply IH; set_solver].
  rewrite <-Hp. apply Hm. set_solver.
Qed.

Definition msg_of (f : HevSocks5UDPFrame) : HevSocks5UDPMsg :=
  mkMsg (APtr (f_addr f)) (payload (f_data f)) (p_len (f_data f)).

Lemma collect_spec (s : Session) ps xs fs n :
  ll_rep (frame_list s) (ps ++ xs) → Forall2 (λ p f, frame_at s !! p = Some f) xs fs → (n ≤ length xs)%nat →
  fwd_collect n (first_of NULL xs) s = Some (msg_of <$> take n fs, s).
Proof.
  intros Hl Hf. revert ps xs fs Hl Hf; induction n as [|n IH]; intros ps xs fs Hl Hf Hn; [done |].
  destruct Hf as [|p f xs fs Hp Hf]; cbn in Hn; [lia |]. cbn [fwd_collect first_of list.head default from_option].
  rewrite (mbind_some _ _ _ _ _ (frame_get_some _ _ _ Hp)).
  rewrite (mbind_some _ _ _ _ _ (on_frames_pure _ _ _ (ll_next_spec _ _ _ _ Hl))).
  rewrite (mbind_some _ _ _ _ _ (IH (ps ++ [p]) xs fs ltac:(by rewrite <-app_assoc) Hf ltac:(lia))). done.
Qed.

Lemma fwd_f_msgs_spec (s : Session) xs fs num : queued s xs fs → 0 ≤ num →
  fwd_f_msgs num s = Some (match fs with [] => None | _ => Some (msg_of <$> take (Z.to_nat num) fs) end, s).
Proof.
  intros [Hl Hf Hd Hc] Hnum. pose proof (Forall2_length _ _ _ Hf) as Hlen.
  unfold fwd_f_msgs, mgets. unfold mbind at 1, M_bind at 1. rewrite Hc.
  destruct xs as [|p xs], fs as [|f fs]; try done. rewrite decide_False by (cbn; lia).
  rewrite (mbind_some _ _ _ _ _ (on_frames_pure _ _ _ (ll_first_spec _ _ Hl))).
  assert (Z.to_nat (if decide (Z.of_nat (length (p :: xs)) > num) then num else Z.of_nat (length (p :: xs)))
    = min (Z.to_nat num) (length (p :: xs))) as -> by (case_decide; lia).
  rewrite (mbind_some _ _ _ _ _ (collect_spec s [] (p :: xs) (f :: fs) _ Hl Hf (Nat.le_min_r _ _))).
  rewrite Hlen, <-firstn_firstn. by rewrite (take_ge (f :: fs) (length (f :: fs))) by lia.
Qed.

Lemma free_spec (s : Session) xs fs n : queued s xs fs → (n ≤ length xs)%nat →
  ∃ s', fwd_f_free n s = Some (tt, s') ∧ queued s' (drop n xs) (drop n fs) ∧ ubase s' = ubase s.
Proof.
  intros Hq. revert s xs fs Hq; induction n as [|n IH]; intros s xs fs Hq Hn.
  { exists s. by rewrite !drop_0. }
  destruct Hq as [Hl Hf Hd Hc]. destruct Hf as [|p f xs fs Hp Hf]; cbn in Hn; [lia |].
  destruct (ll_rep_nodup _ _ Hl) as [[Hpx Hnd]%NoDup_cons _].
  cbn [fwd_f_free]. rewrite (mbind_some _ _ _ _ _ (on_frames_pure _ _ _ (ll_first_spec _ _ Hl))).
  cbn [first_of list.head default from_option]. rewrite (mbind_some _ _ _ _ _ (frame_get_some _ _ _ Hp)).
  destruct (ll_del_spec (frame_list s) [] p xs Hl) as (l & El & Hl' & _). cbn [app] in Hl'.
  assert (on_frames (ll_del p) s = Some (tt, set_frames l (frame_at s) (frames s) s)) as Ed
    by (unfold on_frames; by rewrite El).
  rewrite (mbind_some _ _ _ _ _ Ed).
  set (s1 := set_frames (ll_free p l) (delete p (frame_at s)) (frames s - 1) s).
  assert (queued s1 xs fs) as Hq1.
  { split; cbn.
    - by apply ll_free_spec.
    - apply (at_ext _ _ _ _ Hf). intros q Hq. rewrite lookup_delete_ne; congruence.
    - intros q. rewrite lookup_delete_is_Some. intros [Hne [Hq | Hq]%Hd%elem_of_cons]; congruence.
    - rewrite Hc. cbn. lia. }
  destruct (IH s1 xs fs Hq1 ltac:(lia)) as (s' & E & Hq' & Hb). exists s'. by split_and!.
Qed.

(** The callback takes the datagram when there is room and memory. *)
Definition takes (s : Session) (malloc : ptr) : bool :=
  bool_decide (frames s ≤ UDP_POOL_SIZE) && bool_decide (malloc ≠ NULL).

Lemma recv_spec (s : Session) (d : option (HevMappedDNS T L)) o xs fs malloc mem p ip port :
  queued s xs fs → dns_state d o → ip_ok ip → length mem = SIZEOF_ADDR → malloc ∉ xs → names_ok o ip →
  (takes s malloc = true ∧ stored_dest mem (mapped_name o ip) ip port = None ∧
     udp_recv_handler malloc mem (Some p) ip port (s, d) = None) ∨
  ∃ s' d' addr, udp_recv_handler malloc mem (Some p) ip port (s, d) = Some (takes s malloc, (s', d')) ∧
    (if takes s malloc then queued s' (xs ++ [malloc]) (fs ++ [mkFrame addr p]) else s' = s ∧ d' = d) ∧
    (takes s malloc = true → ∃ a rest, stored_dest mem (mapped_name o ip) ip port = Some a ∧ addr = wire a ++ rest) ∧
    ubase s' = ubase s.
Proof.
  intros [Hl Hf Hd Hc] Hdns Hip Hmem Hx Hnm.
  remember (udp_recv_handler malloc mem (Some p) ip port (s, d)) as res eqn:Er.
  unfold udp_recv_handler in Er. unfold mbind at 1, M_bind at 1, mgets at 1 in Er. cbn [fst] in Er. unfold takes.
  destruct (decide (frames s > UDP_POOL_SIZE)) as [Hfull | Hroom].
  { right. rewrite bool_decide_eq_false_2 by lia. exists s, d, []. by split_and!. }
  rewrite bool_decide_eq_true_2 by lia. destruct (decide (malloc = NULL)) as [Hm | Hm].
  { right. rewrite bool_decide_eq_false_2 by naive_solver. exists s, d, []. by split_and!. }
  rewrite bool_decide_eq_true_2 by done. cbn [andb].
  pose proof (from_lwip_spec mem ip port d o Hdns Hip Hmem Hnm) as Hfrom.
  unfold mbind at 1, M_bind at 1 in Er. destruct (stored_dest mem _ ip port) as [a|].
  2: { left. split_and!; [done.. |]. by rewrite Er, Hfrom. }
  right. destruct Hfrom as (rest & d' & E & Hlen). set (addr := wire a ++ rest) in *.
  rewrite E in Er. cbn [mbind option_bind] in Er.
  destruct (mem_get_in addr 0) as (atype & Ea & _); [unfold SIZEOF_ADDR in Hlen; lia |]. rewrite Ea, mlift_bind in Er.
  destruct Hip as (Hil & _ & _).
  destruct (mem_read_in (ip_bytes ip) 0 4) as (b & Eb & _); [lia | lia | lia |]. rewrite Eb, mlift_bind in Er.
  unfold mbind at 1, M_bind at 1, on_session at 1 in Er. cbn [mbind option_bind] in Er.
  match type of Er with context [if decide ?P then mkUSession ?x1 ?x2 ?x3 ?x4 ?x5 ?x6 else s] =>
    set (s1 := if decide P then mkUSession x1 x2 x3 x4 x5 x6 else s) in Er end.
  assert (frame_list s1 = frame_list s ∧ frame_at s1 = frame_at s ∧ frames s1 = frames s ∧ ubase s1 = ubase s)
    as (E1 & E2 & E3 & E4) by (unfold s1; by case_decide).
  rewrite E1, E2, E3 in Er.
  destruct (ll_alloc_spec (frame_list s) xs malloc Hl Hx) as [Hla Hr].
  destruct (ll_add_tail_spec _ xs malloc Hla Hx Hm Hr) as (l & Et & Hl').
  exists (set_frames l (<[malloc := mkFrame addr p]> (frame_at s)) (frames s + 1) s1), d', addr.
  split; [|split; [|split; [by exists a, rest | by cbn]]].
  - rewrite Er. unfold mbind, M_bind, on_session, on_frames. cbn [frame_list set_frames]. rewrite Et. done.
  - split; cbn.
    + done.
    + apply Forall2_app; [|constructor; [by rewrite lookup_insert_eq | constructor]].
      apply (at_ext _ _ _ _ Hf). intros q Hq. rewrite lookup_insert_ne; [done | set_solver].
    + intros q. rewrite lookup_insert_is_Some. intros [-> | [_ Hq%Hd]]; set_solver.
    + rewrite length_app, Hc. cbn. lia.
Qed.

Lemma destruct_frames_spec (s : Session) xs fs fuel :
  ll_chain (frame_list s) xs → NoDup xs → NULL ∉ xs → Forall2 (λ p f, frame_at s !! p = Some f) xs fs →
  (length xs < fuel)%nat →
  ∃ s', destruct_frames fuel (first_of NULL xs) s = Some (Some tt, s') ∧ ubase s' = ubase s ∧
    ∀ p, is_Some (frame_at s' !! p) ↔ (p ∉ xs) ∧ is_Some (frame_at s !! p).
Proof.
  revert s xs fs; induction fuel as [|fuel IH]; intros s xs fs Hl Hnd Hnull Hf Hfu; [lia |].
  destruct Hf as [|p f xs fs Hp Hf]; cbn [destruct_frames first_of list.head default from_option].
  { rewrite decide_True by done. exists s. split; [done |]. set_solver. }
  apply NoDup_cons in Hnd as [Hpx Hnd]. rewrite decide_False by set_solver.
  rewrite (mbind_some _ _ _ _ _ (frame_get_some _ _ _ Hp)).
  rewrite (mbind_some _ _ _ _ _ (on_frames_pure _ _ _ (ll_chain_next _ _ _ Hl))).
  destruct (IH (set_frames (ll_free p (frame_list s)) (delete p (frame_at s)) (frames s) s) xs fs) as (s' & E & Hb & Hs').
  - by apply ll_chain_free.
  - done.
  - set_solver.
  - apply (at_ext _ _ _ _ Hf). intros q Hq. cbn. rewrite lookup_delete_ne; congruence.
  - cbn in Hfu. lia.
  - exists s'. split; [exact E |]. split; [exact Hb |].
    intros q. rewrite Hs'. cbn. rewrite lookup_delete_is_Some. set_solver.
Qed.

Lemma destruct_list_spec (s : Session) xs fs fuel : queued s xs fs → (length xs < fuel)%nat →
  ∃ s', destruct_list fuel s = Some (Some tt, s') ∧ ubase s' = ubase s ∧ frame_at s' = ∅.
Proof.
  intros [Hl Hf Hd Hc] Hfu. destruct (ll_rep_nodup _ _ Hl) as [Hnd Hnull]. unfold destruct_list.
  rewrite (mbind_some _ _ _ _ _ (on_frames_pure _ _ _ (ll_first_spec _ _ Hl))).
  destruct (destruct_frames_spec s xs fs fuel (ll_rep_chain _ _ Hl) Hnd Hnull Hf Hfu) as (s' & E & Hb & Hs').
  exists s'. split_and!; [done | done |]. apply map_eq. intros p. rewrite lookup_empty.
  destruct (frame_at s' !! p) as [f|] eqn:Ep; [|done].
  destruct (proj1 (Hs' p) (mk_is_Some _ _ Ep)) as [Hn Hin]. destruct Hn. by apply Hd.
Qed.

(** ** Interleavings *)

(** A session with what has been given to it and what has been sent;
    [sending] holds the batch the socket is busy with. *)
Record usys := mkUsys {
  us : Session;
  sending : option (list HevSocks5UDPMsg);
  taken : list pbuf;
  done_ : list (list Z);
}.

Inductive ustep : usys → usys → Prop :=
| u_collect s s' tk dn num ms :
    0 ≤ num → fwd_f_msgs num s = Some (Some ms, s') →
    ustep (mkUsys s None tk dn) (mkUsys s' (Some ms) tk dn)
| u_sent s s' tk dn ms res r :
    res ≤ Z.of_nat (length ms) → fwd_f_sent res s = Some (r, s') →
    ustep (mkUsys s (Some ms) tk dn) (mkUsys s' None tk (dn ++ (m_buf <$> take (Z.to_nat res) ms)))
| u_recv s s' se tk dn d o malloc mem p ip port r d' :
    dns_state d o → ip_ok ip → length mem = SIZEOF_ADDR → frame_at s !! malloc = None →
    names_ok o ip →
    udp_recv_handler malloc mem (Some p) ip port (s, d) = Some (r, (s', d')) →
    ustep (mkUsys s se tk dn) (mkUsys s' se (tk ++ (if r then [p] else [])) dn).

Definition usys_ok (st : usys) : Prop :=
  ∃ xs fs, queued (us st) xs fs ∧ payload <$> taken st = done_ st ++ (payload ∘ f_data <$> fs) ∧ (length xs ≤ 513)%nat ∧
    ∀ ms, sending st = Some ms → ∃ n, (n ≤ length fs)%nat ∧ ms = msg_of <$> take n fs.

Lemma fwd_f_sent_spec (s : Session) xs fs res : queued s xs fs → res ≤ Z.of_nat (length xs) →
  ∃ r s', fwd_f_sent res s = Some (r, s') ∧ queued s' (drop (Z.to_nat res) xs) (drop (Z.to_nat res) fs) ∧ ubase s' = ubase s.
Proof.
  intros Hq Hr. unfold fwd_f_sent. case_decide.
  - exists (-1), s. replace (Z.to_nat res) with 0%nat by lia. by rewrite !drop_0.
  - destruct (free_spec s xs fs (Z.to_nat res) Hq ltac:(lia)) as (s' & E & Hq' & Hb).
    exists 1, s'. split; [|done]. by rewrite (mbind_some _ _ _ _ _ E).
Qed.

Lemma m_buf_msg_of (fs : list HevSocks5UDPFrame) : m_buf <$> (msg_of <$> fs) = payload ∘ f_data <$> fs.
Proof. by rewrite <-list_fmap_compose. Qed.

Lemma ustep_ok st st' : usys_ok st → ustep st st' → usys_ok st'.
Proof.
  intros (xs & fs & Hq & Ht & Hl & Hs) Hstep. pose proof (Forall2_length _ _ _ (qu_at _ _ _ Hq)) as Hlen.
  destruct Hstep as [s s' tk dn num ms Hnum E | s s' tk dn ms res r Hr E
    | s s' se tk dn d o malloc mem p ip port r d' Hd Hip Hmem Hfresh Hnm E]; cbn [us sending taken done_] in *.
  - rewrite (fwd_f_msgs_spec _ _ _ _ Hq Hnum) in E. destruct fs as [|f fs]; [done |]. injection E as <- <-.
    exists xs, (f :: fs). split_and!; try done. cbn [sending]. intros ms [= <-].
    exists (min (Z.to_nat num) (length (f :: fs))). split; [lia |]. f_equal.
    rewrite <-firstn_firstn. by rewrite (take_ge (f :: fs) (length (f :: fs))) by lia.
  - destruct (Hs ms eq_refl) as (n & Hn & ->). rewrite length_fmap, length_take in Hr.
    destruct (fwd_f_sent_spec s xs fs res Hq ltac:(lia)) as (r' & s1 & E1 & Hq1 & _). rewrite E in E1. injection E1 as <- <-.
    exists (drop (Z.to_nat res) xs), (drop (Z.to_nat res) fs). split_and!; [done | | rewrite length_drop; lia | done].
    cbn. rewrite <-fmap_take, take_take, m_buf_msg_of, Nat.min_l by lia.
    by rewrite <-app_assoc, <-fmap_app, take_drop, Ht.
  - assert (malloc ∉ xs) as Hx.
    { intros Hin. apply list_elem_of_lookup_1 in Hin as [i Hi].
      destruct (Forall2_lookup_l _ _ _ _ _ (qu_at _ _ _ Hq) Hi) as (f & _ & Hf). congruence. }
    destruct (recv_spec s d o xs fs malloc mem p ip port Hq Hd Hip Hmem Hx Hnm)
      as [(_ & _ & E1) | (s1 & d1 & addr & E1 & Hcase & _ & _)]; [congruence |].
    rewrite E in E1. injection E1 as -> <- <-. unfold takes in *. rewrite (qu_count _ _ _ Hq) in *.
    destruct (bool_decide_reflect (Z.of_nat (length xs) ≤ UDP_POOL_SIZE)) as [Hle | Hgt];
      [destruct (bool_decide_reflect (malloc ≠ NULL)) as [Hm | Hm]|]; cbn [andb] in *.
    + unfold UDP_POOL_SIZE in Hle. exists (xs ++ [malloc]), (fs ++ [mkFrame addr p]). split_and!.
      * done.
      * cbn. rewrite !fmap_app, Ht. cbn. by rewrite app_assoc.
      * rewrite length_app. cbn. lia.
      * cbn. intros ms Hms. destruct (Hs ms Hms) as (n & Hn & ->). exists n. rewrite length_app. split; [lia |].
        by rewrite take_app_le.
    + destruct Hcase as [-> ->]. exists xs, fs. rewrite app_nil_r. by split_and!.
    + destruct Hcase as [-> ->]. exists xs, fs. rewrite app_nil_r. by split_and!.
Qed.
End Queue.

(** ** The claims *)

(** The frames of a UDP session, for every interleaving of the callback
    of lwIP with the sender, where a send may end early: the payloads sent
    are a prefix of the first pbufs of those accepted, each sent once and in order, the rest
    waits in at most 513 frames; neither side ever touches a frame that is
    not there; and the destructor frees every frame that is left. *)
Theorem udp_session_queue {T L} `{!SearchTree T, !LinkedList L} srv (st : usys (L := L)) :
  star (ustep (T := T)) (mkUsys (hev_socks5_session_udp_construct srv) None [] []) st →
  (∃ waiting, payload <$> taken st = done_ st ++ waiting ∧ frames (us st) = Z.of_nat (length waiting) ∧
     (length waiting ≤ 513)%nat) ∧
  (∀ num, 0 ≤ num → is_Some (fwd_f_msgs num (us st))) ∧
  (∀ ms res, sending st = Some ms → res ≤ Z.of_nat (length ms) → is_Some (fwd_f_sent res (us st))) ∧
  ∃ s', destruct_list 514 (us st) = Some (Some tt, s') ∧ frame_at s' = ∅.
Proof.
  intros Hrun. assert (usys_ok st) as (xs & fs & Hq & Ht & Hl & Hs).
  { apply (star_invariant _ usys_ok _ _ ustep_ok Hrun). exists [], [].
    split_and!; [| done | cbn; lia | done]. split; cbn; [apply ll_rep_empty | constructor | by intros p [? ?] | done]. }
  pose proof (Forall2_length _ _ _ (qu_at _ _ _ Hq)) as Hlen. split_and!.
  - exists (payload ∘ f_data <$> fs). rewrite length_fmap, (qu_count _ _ _ Hq). split_and!; [done | lia | lia].
  - intros num Hnum. rewrite (fwd_f_msgs_spec _ _ _ _ Hq Hnum). eauto.
  - intros ms res Hms Hres. destruct (Hs ms Hms) as (n & Hn & ->). rewrite length_fmap, length_take in Hres.
    destruct (fwd_f_sent_spec _ _ _ res Hq) as (r & s' & E & _); [lia | eauto].
  - destruct (destruct_list_spec (us st) xs fs 514 Hq ltac:(lia)) as (s' & E & _ & Hs'). eauto.
Qed.

(** One datagram to 8.8.8.0, accepted and sent. *)
Lemma udp_session_queue_witness : ∃ st : usys (L := lstore),
  taken st = [mkPbuf [1; 2; 3] []] ∧ done_ st = [[1; 2; 3]] ∧
  ∃ waiting, payload <$> taken st = done_ st ++ waiting ∧ (length waiting ≤ 513)%nat.
Proof.
  set (s0 := hev_socks5_session_udp_construct (srv config_zero) : HevSocks5SessionUDP lstore).
  assert (queued s0 [] []) as Hq0.
  { split; [exact ll_rep_empty | constructor | by intros p [? ?] | done]. }
  assert (names_ok (T := rbstore) (L := lstore) None demo_ip) as Hnm by done.
  destruct (recv_spec (T := rbstore) s0 None None [] [] 16 (replicate SIZEOF_ADDR 0) (mkPbuf [1; 2; 3] []) demo_ip 443
    Hq0 I demo_ip_ok eq_refl ltac:(set_solver) Hnm) as [(_ & [=] & _) | (s1 & d1 & addr & E1 & Hq1 & _)].
  cbn in Hq1. pose proof (fwd_f_msgs_spec s1 _ _ 10 Hq1 ltac:(lia)) as E2. cbn in E2.
  destruct (fwd_f_sent_spec s1 _ _ 1 Hq1 ltac:(cbn; lia)) as (r & s2 & E3 & _).
  set (st := mkUsys s2 None [mkPbuf [1; 2; 3] []] [[1; 2; 3]]). exists st. split; [done |]. split; [done |].
  destruct (udp_session_queue (T := rbstore) (srv config_zero) st) as ((w & Hw & _ & Hl) & _).
  { eapply star_step; [eapply (u_recv s0 s1 None [] [] None None 16 (replicate SIZEOF_ADDR 0) (mkPbuf [1; 2; 3] []) demo_ip 443 true);
      [exact I | exact demo_ip_ok | done | done | done | exact E1] |].
    eapply star_step; [apply (u_collect s1 s1 _ [] 10 _ ltac:(lia) E2) |].
    eapply star_step; [|apply star_refl].
    refine (u_sent s1 s2 [mkPbuf [1; 2; 3] []] [] [msg_of (mkFrame addr (mkPbuf [1; 2; 3] []))] 1 r _ E3). cbn. lia. }
  by exists w.
Defined.
