(* ===== verification/Session.v ===== *)
(** * Sessions

    Model of [src/hev-socks5-session.c] and of the classes of
    [src/hev-socks5-session-tcp.c] and [src/hev-socks5-session-udp.c]: a
    session is a SOCKS5 client that connects to the configured server, does
    the handshake and relays.  [Socks5Session] is the interface
    [HevSocks5SessionIface]; the UDP session is an instance here, the TCP
    session in [SessionTcpRun]; the construction of both is here. *)

From S2P Require Import Prelude Buffer IO Addr Interfaces Socks5 Client Udp Config MappedDNS Utils SessionUdp.

(** [splicer] runs with fuel: [None] is a relay that is still running. *)
Class Socks5Session (C : Type) := {
  session_client :: Socks5Client C;
  splicer : nat → P C (option unit);
  session_destruct : P C unit;
}.

Section Program.
Context (inet_pton4 inet_pton6 : list Z → option (list Z)).
Context (g : misc) (frame : list Z).
(** The server of the configuration, and its strings. *)
Context (srv : HevConfigServer) (srv_name : list Z) (user pass : option (list Z)).

Definition hev_socks5_session_run {C} `{!Socks5Session C} (fuel : nat) : P C (option unit) :=
  res ← hev_socks5_client_connect inet_pton4 inet_pton6 g srv_name (srv_port srv);
  if decide (res < 0) then mret (Some tt)
  else
    (if decide (user ≠ None ∧ pass ≠ None) then hev_socks5_client_set_auth user pass else mret tt);;
    res ← hev_socks5_client_handshake g frame (bool_decide (srv_pipeline srv ≠ 0));
    if decide (res < 0) then mret (Some tt)
    else splicer fuel.

(** The task of a session: [hev_socks5_session_task_entry] without the session
    set; the last reference goes with it. *)
Definition session_task {C} `{!Socks5Session C} (fuel : nat) : P C (option unit) :=
  o ← hev_socks5_session_run fuel;
  match o with
  | None => mret None
  | Some _ => session_destruct;; mret (Some tt)
  end.

(** ** The TCP session *)

Definition of_M {S A} (m : M S A) : P S A := λ s,
  match m s with Some (a, s) => Ret (a, s) | None => Ub end.

(** [hev_socks5_session_tcp_construct] up to the callbacks of lwIP. *)
Definition hev_socks5_session_tcp_construct {T L} `{!SearchTree T} `{!LinkedList L} (ip : ip_addr_t) (port : Z) :
    P (option (HevMappedDNS T L)) (option HevSocks5ClientTCP) :=
  '(res, addr) ← of_M (hev_socks5_addr_from_lwip frame ip port);
  if decide (res < 0) then mret None
  else
    '(self, res) ← hev_socks5_client_tcp_construct addr;
    mret (if decide (res < 0) then None else Some self).
End Program.
