(* ===== verification/SessionTcpRun.v ===== *)
(** * The task of a TCP session

    [src/hev-socks5-session-tcp.c] as the program that its task runs:
    [tcp_splice_f], [tcp_splice_b], the loop of the splicer, the wait behind it
    and the destructor, with every call.  While the task waits for the mutex or
    yields, lwIP runs the callbacks of [SessionTcp] and the tunnel may end the
    session; [lwip] says which of them run at each of these points.  The
    session set is in [Tunnel]: [hev_socks5_tunnel_update_session] does not
    touch the session. *)

From S2P Require Import Prelude Buffer RingBuffer IO Addr Interfaces Socks5 Client Udp Config MappedDNS Utils SessionTcp SessionUdp Session.

(** ** The object and the connection *)

(** What lwIP knows of the connection: the bytes it delivered and how many of
    them were given back to the window, the bytes it took and how many of them
    are acknowledged. *)
Record tcp_conn := mkConn { c_inp : list Z; c_recved : Z; c_out : list Z; c_acked : nat }.

(** The session with its client, the connection, and the number of times the
    task has been suspended. *)
Record tcp_task := mkTask {
  tclient : HevSocks5ClientTCP;
  tsess : HevSocks5SessionTCP;
  conn : tcp_conn;
  tick : nat;
}.

Definition set_tclient (c : HevSocks5ClientTCP) (s : tcp_task) : tcp_task := mkTask c (tsess s) (conn s) (tick s).
Definition set_tsess (x : HevSocks5SessionTCP) (s : tcp_task) : tcp_task := mkTask (tclient s) x (conn s) (tick s).
Definition set_conn (c : tcp_conn) (s : tcp_task) : tcp_task := mkTask (tclient s) (tsess s) c (tick s).

(** [hev_malloc0] and [hev_socks5_session_tcp_construct]: the callbacks are
    set, the buffer is null. *)
Definition tcp_task_of (c : HevSocks5ClientTCP) : tcp_task :=
  mkTask c (mkSession [] true (mkRing 0 0 0 0 0 []) false false) (mkConn [] 0 [] 0) 0.

(** ** The callbacks *)

Inductive callback :=
| Cb_recv (p : list Z)
| Cb_eof
| Cb_sent (len : nat)
| Cb_err
| Cb_terminate.

(** lwIP calls back while it has the connection: it delivers payload until the
    end of the stream and at most a window beyond what was given back, and it
    reports as sent only bytes that it took. *)
Definition allowed (cb : callback) (s : tcp_task) : bool :=
  match cb with
  | Cb_recv p =>
      pcb (tsess s) && negb (pcb_eof (tsess s)) && bool_decide (p ≠ []) &&
      bool_decide (Z.of_nat (length (c_inp (conn s) ++ p)) - c_recved (conn s) ≤ TCP_WND)
  | Cb_sent len =>
      pcb (tsess s) && bool_decide (0 < len)%nat && bool_decide (c_acked (conn s) + len ≤ length (c_out (conn s)))%nat
  | Cb_eof | Cb_err => pcb (tsess s)
  | Cb_terminate => true
  end.

(** [hev_socks5_session_terminate]; the wakeup of the task has no contents
    here. *)
Definition session_terminate (s : tcp_task) : tcp_task :=
  set_tclient (set_base (hev_socks5_set_timeout 0 (base (tclient s))) (tclient s)) s.

Definition run_callback (s : tcp_task) (cb : callback) : tcp_task :=
  if allowed cb s then
    let 'mkConn inp recved out acked := conn s in
    match cb with
    | Cb_recv p => set_conn (mkConn (inp ++ p) recved out acked) (set_tsess (tcp_recv_handler (Some p) (tsess s)) s)
    | Cb_eof => set_tsess (tcp_recv_handler None (tsess s)) s
    | Cb_sent len =>
        set_conn (mkConn inp recved out (acked + len)) (set_tsess (tcp_sent_handler (Z.of_nat len) (tsess s)) s)
    | Cb_err => session_terminate (set_tsess (tcp_err_handler (tsess s)) s)
    | Cb_terminate => session_terminate s
    end
  else s.

Section Program.
Context (inet_pton4 inet_pton6 : list Z → option (list Z)).
Context (g : misc) (srv : HevConfigServer).
Context (lwip : nat → list callback).

#[local] Instance session_tcp_object : Socks5Object tcp_task := {|
  base s := base (tclient s);
  set_base b s := set_tclient (set_base b (tclient s)) s;
  binder := hev_socks5_session_bind srv;
  base_set_base b s := eq_refl;
|}.

Definition on_client {A} (m : P HevSocks5ClientTCP A) : P tcp_task A := λ s,
  io_bind (m (tclient s)) (λ '(a, c), Ret (a, set_tclient c s)).

#[local] Instance session_tcp_client : Socks5Client tcp_task := {|
  client s := tcp_client (tclient s);
  set_client cl s := set_tclient (set_tcp_client cl (tclient s)) s;
  get_upstream_addr := on_client hev_socks5_client_tcp_get_upstream_addr;
  set_upstream_addr a := on_client (hev_socks5_client_tcp_set_upstream_addr a);
  base_client c := eq_refl;
  set_base_client b c := eq_refl;
|}.

(** ** Suspension points *)

Definition suspended : P tcp_task unit :=
  pmod (λ s, let s' := foldl run_callback s (lwip (tick s)) in mkTask (tclient s') (tsess s') (conn s') (S (tick s))).

Definition mutex_lock : P tcp_task unit := call MutexLock;; suspended.
Definition mutex_unlock : P tcp_task unit := call MutexUnlock;; mret tt.

Definition task_io_yielder (ty : yield_type) : P tcp_task Z :=
  res ← hev_socks5_task_io_yielder ty;
  suspended;;
  mret res.

(** The result of a call that moved no byte. *)
Definition no_progress (s : Z) : P tcp_task Z :=
  if decide (s < 0) then e ← errno; mret (if decide (e = EAGAIN) then 0 else -1) else mret (-1).

(** ** Forward *)

Definition tcp_splice_f : P tcp_task Z :=
  self ← pgets tsess;
  fd ← get_base sk_fd;
  match queue self with
  | _ :: _ =>
      r ← call (WriteV fd (take 64 (queue self)));
      if decide (ret r ≤ 0) then no_progress (ret r)
      else
        mutex_lock;;
        self ← pgets tsess;
        let '(self, len) := tcp_splice_f_written (ret r) self in
        pmod (set_tsess self);;
        (match len with
         | Some len =>
             call (TcpRecved len);;
             pmod (λ s, let 'mkConn inp recved out acked := conn s in set_conn (mkConn inp (recved + len) out acked) s)
         | None => mret tt
         end);;
        mutex_unlock;;
        mret 1
  | [] =>
      if pcb_eof self then call (Shutdown fd);; mret (-1) else mret 0
  end.

(** ** Backward *)

(** The loop over the vectors: [err] collects the results of [tcp_write]. *)
Fixpoint tcp_write_iov (iov : list iovec) (mem : list Z) (err : Z) : P tcp_task Z :=
  match iov with
  | [] => mret err
  | v :: iov =>
      let bs := slice (iov_base v) (u16 (iov_len v)) mem in
      r ← call (TcpWrite bs);
      pmod (λ s, let 'mkConn inp recved out acked := conn s in
                 set_conn (mkConn inp recved (if decide (ret r = 0) then out ++ bs else out) acked) s);;
      tcp_write_iov iov mem (Z.lor err (ret r))
  end.

Definition tcp_splice_b : P tcp_task Z :=
  self ← pgets tsess;
  fd ← get_base sk_fd;
  res ←
    (match hev_ring_buffer_writing (buffer self) with
     | [] => mret 0
     | iov =>
         r ← call (Read fd (iov_total iov));
         if decide (ret r ≤ 0) then no_progress (ret r)
         else pmod (set_tsess (set_buffer (ring_write (buffer self) (IO.data r)) self));; mret 1
     end);
  mutex_lock;;
  self ← pgets tsess;
  '(res, err) ←
    (if pcb self then
       match hev_ring_buffer_reading (buffer self) with
       | [] => (if decide (res < 0) then call TcpShutdown;; mret tt else mret tt);; mret (res, 0)
       | iov =>
           err ← tcp_write_iov iov (RingBuffer.data (buffer self)) 0;
           pmod (λ s, set_tsess (set_buffer (hev_ring_buffer_read_finish (buffer (tsess s)) (iov_total iov)) (tsess s)) s);;
           r ← call TcpOutput;
           mret (1, Z.lor err (ret r))
       end
     else mret (res, 0));
  mutex_unlock;;
  self ← pgets tsess;
  mret (if pcb self then if decide (err ≠ 0) then -1 else res else -1).

(** ** The splicer *)

Fixpoint tcp_splice_loop (fuel : nat) (res_f res_b : Z) : P tcp_task (option unit) :=
  match fuel with
  | O => mret None
  | S fuel =>
      res_f ← (if decide (0 ≤ res_f) then tcp_splice_f else mret res_f);
      res_b ← (if decide (0 ≤ res_b) then tcp_splice_b else mret res_b);
      let next ty :=
        stop ← task_io_yielder ty;
        if decide (stop < 0) then mret (Some tt) else tcp_splice_loop fuel res_f res_b in
      if decide (0 < res_f ∨ 0 < res_b) then next HEV_TASK_YIELD
      else if decide (Z.land res_f res_b = 0) then next HEV_TASK_WAITIO
      else mret (Some tt)
  end.

(** The wait for the acknowledgements. *)
Fixpoint tcp_drain (fuel : nat) : P tcp_task (option unit) :=
  match fuel with
  | O => mret None
  | S fuel =>
      self ← pgets tsess;
      if pcb self then
        if decide (hev_ring_buffer_get_use_size (buffer self) = 0) then mret (Some tt)
        else
          stop ← task_io_yielder HEV_TASK_WAITIO;
          if decide (stop < 0) then mret (Some tt) else tcp_drain fuel
      else mret (Some tt)
  end.

(** [size] is the configured buffer size and [mem] what [alloca] leaves in the
    array.  The callbacks that run while the client connects and shakes hands
    come first: neither reads what they change. *)
Definition hev_socks5_session_tcp_splice (mem : list Z) (size : Z) (fuel : nat) : P tcp_task (option unit) :=
  suspended;;
  self ← pgets tsess;
  if pcb self then
    pmod (set_tsess (set_buffer (hev_ring_buffer_alloca mem size) self));;
    o ← tcp_splice_loop fuel 1 1;
    match o with
    | None => mret None
    | Some _ => tcp_drain fuel
    end
  else mret (Some tt).

(** ** The destructor *)

Definition hev_socks5_session_tcp_destruct : P tcp_task unit :=
  mutex_lock;;
  self ← pgets tsess;
  (if pcb self then call TcpAbort;; mret tt else mret tt);;
  (match queue self with _ :: _ => call PbufFree;; mret tt | [] => mret tt end);;
  mutex_unlock;;
  on_client hev_socks5_client_tcp_destruct.

Definition session_tcp_is_session (mem : list Z) (size : Z) : Socks5Session tcp_task := {|
  session_client := session_tcp_client;
  splicer := hev_socks5_session_tcp_splice mem size;
  session_destruct := hev_socks5_session_tcp_destruct;
|}.
End Program.

(** [hev_socks5_session_tcp_new]. *)
Definition hev_socks5_session_tcp_new {T L} `{!SearchTree T} `{!LinkedList L} (frame : list Z) (ip : ip_addr_t) (port : Z) :
    P (option (HevMappedDNS T L)) (option tcp_task) :=
  r ← call (Malloc 0);
  if decide (ret r = NULL) then mret None
  else
    o ← hev_socks5_session_tcp_construct frame ip port;
    match o with
    | None => call Free;; mret None
    | Some c => mret (Some (tcp_task_of c))
    end.
