(* ===== verification/SessionUdpRun.v ===== *)
(** * The task of a UDP session

    [src/hev-socks5-session-udp.c] as the program that its task runs: both
    directions, the loop of the splicer and the destructor, with every call.
    While the task is suspended lwIP runs the callback of [SessionUdp] and the
    tunnel may end the session; [lwip] says which callbacks run at each wait,
    and [locked] those that run while the task waits for the mutex.  The
    session set is in [Tunnel]: [hev_socks5_tunnel_update_session] does not
    touch the session. *)

From S2P Require Import Prelude Buffer IO Addr Interfaces Socks5 Client Udp Config MappedDNS Utils SessionUdp Session.

Section Program.
Context (inet_pton4 inet_pton6 : list Z → option (list Z)).
Context {T L : Type} `{!SearchTree T} `{!LinkedList L}.

(** ** The object and the callbacks *)

(** A datagram for [udp_recv_handler], with what [hev_malloc] returns, the
    memory of the new frame, the local end of the control block, which is the
    destination of the datagram, and the table of mapped names at that time;
    the end of the control block; and the end of the session. *)
Inductive udp_callback :=
| Ucb_recv (malloc : ptr) (mem : list Z) (p : pbuf) (ip : ip_addr_t) (port : Z) (dns : option (HevMappedDNS T L))
| Ucb_gone
| Ucb_terminate.

(** The session, the datagrams it has accepted, and the number of times the
    task has been suspended. *)
Record udp_task := mkUdpTask {
  usess : HevSocks5SessionUDP L;
  accepted : list udp_callback;
  utick : nat;
}.

Definition set_usess (x : HevSocks5SessionUDP L) (s : udp_task) : udp_task := mkUdpTask x (accepted s) (utick s).
Definition udp_task_of (x : HevSocks5SessionUDP L) : udp_task := mkUdpTask x [] 0.

Definition on_task {A} (m : P (HevSocks5SessionUDP L) A) : P udp_task A := λ s,
  io_bind (m (usess s)) (λ '(a, x), Ret (a, set_usess x s)).

(** [hev_socks5_session_terminate]; the wakeup of the task has no contents
    here. *)
Definition udp_session_terminate (s : udp_task) : udp_task :=
  let b := ubase (usess s) in
  set_usess (set_ubase (set_base (hev_socks5_set_timeout 0 (base b)) b) (usess s)) s.

(** [hev_malloc] returns no address that is in use. *)
Definition run_udp_callback (cb : udp_callback) : M udp_task unit := λ s,
  match cb with
  | Ucb_recv malloc mem p ip port dns =>
      if decide (frame_at (usess s) !! malloc = None) then
        '(taken, (x, _)) ← udp_recv_handler malloc mem (Some p) ip port (usess s, dns);
        Some (tt, mkUdpTask x (if taken : bool then accepted s ++ [cb] else accepted s) (utick s))
      else Some (tt, s)
  | Ucb_gone =>
      '(_, (x, _)) ← udp_recv_handler (T := T) NULL [] None (mkIp 0 []) 0 (usess s, None);
      Some (tt, set_usess x s)
  | Ucb_terminate => Some (tt, udp_session_terminate s)
  end.

Fixpoint run_udp_callbacks (cbs : list udp_callback) : M udp_task unit :=
  match cbs with
  | [] => mret tt
  | cb :: cbs => run_udp_callback cb;; run_udp_callbacks cbs
  end.

(** One suspension, at which [during] says what runs. *)
Definition udp_suspended (during : nat → list udp_callback) : P udp_task unit :=
  n ← pgets utick;
  of_M (run_udp_callbacks (during n));;
  pmod (λ s, mkUdpTask (usess s) (accepted s) (S (utick s))).

Section Task.
Context (g : misc) (srv : HevConfigServer).
Context (lwip locked : nat → list udp_callback).

#[local] Instance session_udp_object : Socks5Object udp_task := {|
  base s := base (ubase (usess s));
  set_base b s := set_usess (set_ubase (set_base b (ubase (usess s))) (usess s)) s;
  binder := hev_socks5_session_bind srv;
  base_set_base b s := eq_refl;
|}.

#[local] Instance session_udp_client : Socks5Client udp_task := {|
  client s := udp_client (ubase (usess s));
  set_client cl s := set_usess (set_ubase (set_udp_client cl (ubase (usess s))) (usess s)) s;
  get_upstream_addr := on_task (on_base hev_socks5_client_udp_get_upstream_addr);
  set_upstream_addr a := on_task (hev_socks5_session_udp_set_upstream_addr inet_pton4 inet_pton6 g srv a);
  base_client s := eq_refl;
  set_base_client b s := eq_refl;
|}.

Definition udp_mutex_lock : P udp_task unit := call MutexLock;; udp_suspended locked.
Definition udp_mutex_unlock : P udp_task unit := call MutexUnlock;; mret tt.

(** [task_io_yielder]. *)
Definition hev_socks5_session_udp_yielder (ty : yield_type) : P udp_task Z :=
  sty ← get_base sk_type;
  stop ←
    (if decide (sty = HEV_SOCKS5_TYPE_UDP_IN_UDP) then
       fd ← get_base sk_fd;
       r ← call (Recv fd 1);
       if decide (ret r = 0) then mret true
       else if decide (ret r < 0) then e ← errno; mret (bool_decide (e ≠ EAGAIN))
       else mret false
     else mret false);
  if stop : bool then upd_base (hev_socks5_set_timeout 0);; mret (-1)
  else
    res ← hev_socks5_task_io_yielder ty;
    udp_suspended lwip;;
    mret res.

(** ** Forward *)

(** The callbacks that run while the client sends come behind the call: it
    reads nothing of what they change. *)
Definition hev_socks5_session_udp_fwd_f (num : Z) : P udp_task Z :=
  o ← on_task (of_M (fwd_f_msgs num));
  match o with
  | None => mret 0
  | Some ms =>
      res ← on_task (on_base (hev_socks5_udp_sendmmsg ms));
      udp_suspended lwip;;
      on_task (of_M (fwd_f_sent res))
  end.

(** ** Backward *)

(** The [res] received messages; a missing one is a read outside [msgv].  The
    [ip_addr_t] of the frame is not initialised. *)
Fixpoint fwd_b_msgs (ip0 : ip_addr_t) (n : nat) (msgv : list HevSocks5UDPMsg) : P udp_task Z :=
  match n with
  | O => mret 1
  | S n =>
      match msgv with
      | [] => ub
      | m :: msgv =>
          a ← pgets (λ s, s_addr (usess s));
          p ← pgets (λ s, s_port (usess s));
          dst ←
            (if decide (a ≠ 0 ∧ p ≠ 0) then
               mret (Some (le16 (u32 a) ++ le16 (Z.shiftr (u32 a) 16), u16 p))
             else
               match m_addr m with
               | APtr addr =>
                   '(ret, ip, port) ← plift (hev_socks5_addr_into_lwip addr ip0 0);
                   mret (if decide (ret < 0) then None else Some (ip_bytes ip, port))
               | _ => ub
               end);
          match dst with
          | None => mret (-1)
          | Some (ip, port) =>
              b ← call (PbufRef (m_len m));
              if decide (ret b = NULL) then mret (-1)
              else
                bs ← plift (mem_read (m_buf m) 0 (m_len m));
                udp_mutex_lock;;
                err ← call (UdpSendFrom bs ip port);
                udp_mutex_unlock;;
                call PbufFree;;
                if decide (ret err ≠ 0) then mret (-1)
                else fwd_b_msgs ip0 n msgv
          end
      end
  end.

Definition hev_socks5_session_udp_fwd_b (ip0 : ip_addr_t) (bufs : list (list Z)) : P udp_task Z :=
  '(res, msgv) ← on_task (on_base (hev_socks5_udp_recvmmsg (init_msgs bufs)));
  udp_suspended lwip;;
  if decide (res ≤ 0) then
    if decide (res = -1) then e ← errno; mret (if decide (e = EAGAIN) then 0 else -1)
    else mret (-1)
  else fwd_b_msgs ip0 (Z.to_nat res) msgv.

(** ** The splicer *)

(** [bufs] are the buffers of [fwd_b], and [ip0] the indeterminate address of
    its frame. *)
Fixpoint session_udp_loop (fuel : nat) (ip0 : ip_addr_t) (bufs : list (list Z)) (res_f res_b : Z) :
    P udp_task (option unit) :=
  match fuel with
  | O => mret None
  | S fuel =>
      res_f ← (if decide (0 ≤ res_f) then hev_socks5_session_udp_fwd_f (Z.of_nat (length bufs)) else mret res_f);
      res_b ← (if decide (0 ≤ res_b) then hev_socks5_session_udp_fwd_b ip0 bufs else mret res_b);
      let next ty :=
        stop ← hev_socks5_session_udp_yielder ty;
        if decide (stop ≠ 0) then mret (Some tt) else session_udp_loop fuel ip0 bufs res_f res_b in
      if decide (0 < res_f ∨ 0 < res_b) then next HEV_TASK_YIELD
      else if decide (Z.land res_f res_b = 0) then next HEV_TASK_WAITIO
      else mret (Some tt)
  end.

(** The callbacks that run while the client connects and shakes hands come
    first. *)
Definition hev_socks5_session_udp_splice (ip0 : ip_addr_t) (bufs : list (list Z)) (fuel : nat) :
    P udp_task (option unit) :=
  udp_suspended lwip;;
  fd ← on_task (on_base hev_socks5_udp_get_fd);
  r ← call (ModFd fd);
  (if decide (ret r < 0) then call (AddFd fd);; mret tt else mret tt);;
  session_udp_loop fuel ip0 bufs 1 1.

(** ** The destructor *)

(** The frames that are left are freed, then the control block, which the
    session never gives up before, is removed under the mutex.  The queue has [frames] nodes
    ([SessionUdpProps.queued]), so the fuel is enough. *)
Definition hev_socks5_session_udp_destruct : P udp_task unit :=
  n ← pgets (λ s, frames (usess s));
  on_task (of_M (o ← destruct_list (Z.to_nat n + 2); mlift o));;
  udp_mutex_lock;;
  call UdpRemove;;
  udp_mutex_unlock;;
  on_task (on_base hev_socks5_client_udp_destruct).

Definition session_udp_is_session (ip0 : ip_addr_t) (bufs : list (list Z)) : Socks5Session udp_task := {|
  session_client := session_udp_client;
  splicer := hev_socks5_session_udp_splice ip0 bufs;
  session_destruct := hev_socks5_session_udp_destruct;
|}.

Definition hev_socks5_session_udp_new {St} : P St (option udp_task) :=
  r ← call (Malloc 0);
  mret (if decide (ret r = NULL) then None else Some (udp_task_of (hev_socks5_session_udp_construct srv))).
End Task.
End Program.

Arguments udp_callback : clear implicits.
Arguments udp_task : clear implicits.
