(* ===== verification/SessionProps.v ===== *)
(** * Properties of sessions

    A session gives back every descriptor: shown against an interface that
    says what a client class owns besides its control connection, and
    discharged for both sessions in [SessionTcpRunProps] and
    [SessionUdpRunProps]. *)

From S2P Require Import Prelude Buffer IO Addr Interfaces Socks5 Client ClientProps Udp Config Utils SessionUdp Session.

(** ** Programs that leave the descriptors alone *)

(** [quiet v m]: every run of [m] that returns keeps the view [v] of the state
    and the open descriptors. *)
Definition quiet {S A X} (v : S → X) (m : P S A) : Prop :=
  ∀ s l, wp True (m s) (λ r tr, v r.2 = v s ∧ fds_after l tr = Some l).

Definition fd_event (e : ev) : bool :=
  match e with Socket _ _ | Close _ => true | _ => false end.

Section Quiet.
Context {S X : Type} (v : S → X).

Lemma quiet_ret {A} (a : A) : quiet v (mret a).
Proof. intros s l. done. Qed.

Lemma quiet_bind {A B} (m : P S A) (f : A → P S B) : quiet v m → (∀ a, quiet v (f a)) → quiet v (m ≫= f).
Proof.
  intros Hm Hf s l. eapply wp_then; [apply (Hm s l) |]. intros a s' t1 [E1 F1]. cbn [snd] in E1.
  eapply wp_mono; [apply (Hf a s' l) |]. intros r t2 [E2 F2]. split; [congruence |].
  by rewrite (fds_after_app _ _ _ _ F1).
Qed.

Lemma fds_skip e x l tr : fd_event e = false → fds_after l ((e, x) :: tr) = fds_after l tr.
Proof. by destruct e. Qed.

Lemma quiet_call e : fd_event e = false → quiet v (call e).
Proof. intros He s l x _. cbn [wp]. split; [done |]. by rewrite fds_skip. Qed.

Lemma quiet_pgets {A} (f : S → A) : quiet v (pgets f).
Proof. done. Qed.

Lemma quiet_pmod f : (∀ s, v (f s) = v s) → quiet v (pmod f).
Proof. intros Hf s l. split; [apply Hf | done]. Qed.

Lemma quiet_lift {A} (o : option A) : quiet v (plift o).
Proof. intros s l. by destruct o. Qed.

Lemma quiet_ub {A} : quiet v (ub : P S A).
Proof. intros s l. exact I. Qed.

(** A step that only depends on the state read. *)
Lemma quiet_state {A} (m : P S A) : (∀ s, ∃ f : P S A, quiet v f ∧ m s = f s) → quiet v m.
Proof. intros H s l. destruct (H s) as (f & Hf & ->). apply Hf. Qed.
End Quiet.

Ltac quiet :=
  repeat first
    [ apply quiet_ret | apply quiet_lift | apply quiet_pgets | apply quiet_ub | solve [auto 3]
    | apply quiet_call; reflexivity
    | apply quiet_bind; [|intros ?]
    | match goal with |- quiet _ (if ?b then _ else _) => destruct b end
    | match goal with |- quiet _ (match ?x with _ => _ end) => destruct x end ].

(** ** The descriptors of a client *)

(** [own c]: the open descriptors of [c] besides the control connection; only
    [set_upstream_addr] may add one. *)
Class OwnsFds (C : Type) `{!Socks5Client C} := {
  own : C → list Z;
  own_base : ∀ b c, own (set_base b c) = own c;
  own_client : ∀ cl c, own (set_client cl c) = own c;
  own_set_client : ∀ cl c, client (set_client cl c) = cl;
  own_get : quiet (λ c, (sk_fd (base c), own c)) get_upstream_addr;
  own_set : ∀ a c l, own c = [] →
    wp True (set_upstream_addr a c) (λ r tr, sk_fd (base r.2) = sk_fd (base c) ∧ fds_after l tr = Some (own r.2 ++ l));
}.

Section Client.
Context {C : Type} `{!Socks5Client C} `{!OwnsFds C}.

Definition view (c : C) : Z * list Z := (sk_fd (base c), own c).

(** All descriptors of an object. *)
Definition held (c : C) : list Z := own c ++ (if decide (0 ≤ sk_fd (base c)) then [sk_fd (base c)] else []).

(** What a program adds to a client that owns nothing yet. *)
Definition grows {A} (m : P C A) : Prop := ∀ c l, own c = [] →
  wp True (m c) (λ r tr, sk_fd (base r.2) = sk_fd (base c) ∧ fds_after l tr = Some (own r.2 ++ l)).

Lemma quiet_grows {A} (m : P C A) : quiet view m → grows m.
Proof.
  intros Hm c l Hc. eapply wp_mono; [apply (Hm c l) |]. intros r tr [E F]. unfold view in E. injection E as E1 E2.
  split; [done |]. by rewrite E2, Hc.
Qed.

Lemma grows_after {A B} (m : P C A) (f : A → P C B) : quiet view m → (∀ a, grows (f a)) → grows (m ≫= f).
Proof.
  intros Hm Hf c l Hc. eapply wp_then; [apply (Hm c l) |]. intros a c' t1 [E F]. cbn [snd] in E. unfold view in E.
  injection E as E1 E2. eapply wp_mono; [apply (Hf a c' l); congruence |]. intros r t2 [E3 F3]. split; [congruence |].
  by rewrite (fds_after_app _ _ _ _ F).
Qed.

Lemma grows_before {A B} (m : P C A) (f : A → P C B) : grows m → (∀ a, quiet view (f a)) → grows (m ≫= f).
Proof.
  intros Hm Hf c l Hc. eapply wp_then; [apply (Hm c l Hc) |]. intros a c' t1 [E F]. cbn [snd] in *.
  eapply wp_mono; [apply (Hf a c' (own c' ++ l)) |]. intros r t2 [E3 F3]. unfold view in E3. injection E3 as E4 E5.
  split; [congruence |]. by rewrite (fds_after_app _ _ _ _ F), E5.
Qed.

(** A program that closes what the object holds at its end. *)
Definition closing {A} (m : P C A) : Prop := ∀ c l,
  wp True (m c) (λ _ tr, fds_after (held c ++ l) tr = Some l).

Lemma closing_after {A B} (m : P C A) (f : A → P C B) : quiet view m → (∀ a, closing (f a)) → closing (m ≫= f).
Proof.
  intros Hm Hf c l. eapply wp_then; [apply (Hm c (held c ++ l)) |]. intros a c' t1 [E F]. cbn [snd] in E.
  eapply wp_mono; [apply (Hf a c' l) |]. intros r t2 F2. rewrite (fds_after_app _ _ _ _ F).
  unfold view in E. injection E as E1 E2. unfold held in *. by rewrite <-E1, <-E2.
Qed.

Lemma quiet_upd_base f : (∀ b, sk_fd (f b) = sk_fd b) → quiet view (upd_base f).
Proof. intros Hf. apply quiet_pmod. intros c. unfold view. by rewrite base_set_base, Hf, own_base. Qed.

Lemma set_timeout_keeps t b : sk_fd (hev_socks5_set_timeout t b) = sk_fd b.
Proof. unfold hev_socks5_set_timeout. by case_decide. Qed.

Context (g : misc) (frame : list Z).

Lemma write_methods_quiet : quiet view hev_socks5_client_write_auth_methods.
Proof. unfold hev_socks5_client_write_auth_methods, client_creds, get_base. quiet. Qed.

Lemma write_creds_quiet : quiet view hev_socks5_client_write_auth_creds.
Proof. unfold hev_socks5_client_write_auth_creds, client_creds, get_base. quiet. Qed.

Lemma write_request_quiet : quiet view hev_socks5_client_write_request.
Proof. pose proof own_get. unfold hev_socks5_client_write_request, get_base. quiet. Qed.

Lemma read_method_quiet : quiet view hev_socks5_client_read_auth_method.
Proof. unfold hev_socks5_client_read_auth_method, get_base. quiet. Qed.

Lemma read_creds_quiet : quiet view hev_socks5_client_read_auth_creds.
Proof. unfold hev_socks5_client_read_auth_creds, get_base. quiet. Qed.

Lemma read_response_grows : grows (hev_socks5_client_read_response frame).
Proof.
  unfold hev_socks5_client_read_response, get_base.
  repeat first
    [ apply grows_before; [intros ? ? ?; by apply own_set | intros ?; quiet; fail]
    | apply grows_after; [quiet; fail | intros ?]
    | match goal with |- grows (if ?b then _ else _) => destruct b end
    | apply quiet_grows; quiet; fail ].
Qed.

Lemma after_method_quiet m res : quiet view m → quiet view (after_method m res).
Proof. intros Hm. unfold after_method. quiet. Qed.

Lemma ok_then_quiet m k : quiet view m → quiet view k → quiet view (ok_then m k).
Proof. intros Hm Hk. unfold ok_then. quiet. Qed.

Lemma ok_then_grows m k : quiet view m → grows k → grows (ok_then m k).
Proof.
  intros Hm Hk. unfold ok_then. apply grows_after; [done |]. intros r. case_decide; [apply quiet_grows; quiet | done].
Qed.

Lemma finish_grows : grows (ok_then (hev_socks5_client_read_response frame) (mret 0)).
Proof. unfold ok_then. apply grows_before; [apply read_response_grows |]. intros r. quiet. Qed.

Lemma handshake_grows pipeline : grows (hev_socks5_client_handshake g frame pipeline).
Proof.
  unfold hev_socks5_client_handshake, get_base.
  apply grows_after; [apply quiet_upd_base; intros; apply set_timeout_keeps |]. intros _.
  apply grows_before.
  - destruct pipeline; unfold hev_socks5_client_handshake_pipeline, hev_socks5_client_handshake_standard.
    + apply ok_then_grows; [apply write_methods_quiet |]. apply ok_then_grows; [apply write_creds_quiet |].
      apply ok_then_grows; [apply write_request_quiet |]. apply ok_then_grows; [|apply finish_grows].
      apply quiet_bind; [apply read_method_quiet | intros; apply after_method_quiet, read_creds_quiet].
    + apply ok_then_grows; [apply write_methods_quiet |]. apply ok_then_grows.
      * apply quiet_bind; [apply read_method_quiet |]. intros.
        apply after_method_quiet, ok_then_quiet; [apply write_creds_quiet | apply read_creds_quiet].
      * apply ok_then_grows; [apply write_request_quiet | apply finish_grows].
  - intros res. apply quiet_bind; [apply quiet_pgets |]. intros ty. apply quiet_bind; [|intros; apply quiet_ret].
    case_decide; [apply quiet_upd_base; intros; apply set_timeout_keeps | apply quiet_ret].
Qed.

End Client.

(** ** Sessions *)

Section Session.
Context {C : Type} `{!Socks5Session C} `{!OwnsFds C}.
Context (p4 p6 : list Z → option (list Z)) (g : misc) (frame : list Z).
Context (srv : HevConfigServer) (name : list Z) (user pass : option (list Z)).

(** What a class promises: its relay opens and closes nothing, its destructor
    closes what the object holds. *)
Definition session_ok : Prop :=
  binder_ok C ∧ (∀ fuel, quiet (S := C) view (splicer fuel)) ∧ closing session_destruct.

(** At the end of the run of a session that had no descriptor it holds
    everything that is open. *)
Lemma session_run_spec fuel (c : C) l :
  pton_ok 4 p4 → pton_ok 16 p6 → session_ok → own c = [] → sk_fd (base c) < 0 →
  wp True (hev_socks5_session_run p4 p6 g frame srv name user pass fuel c)
    (λ r tr, fds_after l tr = Some (held r.2 ++ l)).
Proof.
  intros H4 H6 (Hb & Hrun & _) Hown Hfd. unfold hev_socks5_session_run.
  eapply wp_then; [apply (client_connect_spec True p4 p6 g own c name _ H4 H6 Hb own_base) |].
  intros r c1 t1 ((Hr & Hok & Hbad) & Ho & Hge). cbn [fst snd] in *. destruct (decide (r < 0)) as [Hneg | Hneg].
  - destruct Hbad as [E F]; [lia |]. unfold mret, P_ret. cbn [wp snd]. unfold held. rewrite app_nil_r, F, Ho, Hown, E.
    by rewrite decide_False by lia.
  - destruct Hok as (_ & _ & _ & _ & _ & _ & _ & F); [lia |]. specialize (Hge ltac:(lia)).
    assert (grows ((if decide (user ≠ None ∧ pass ≠ None) then hev_socks5_client_set_auth user pass else mret tt);;
      res ← hev_socks5_client_handshake g frame (bool_decide (srv_pipeline srv ≠ 0));
      if decide (res < 0) then mret (Some tt) else splicer fuel)) as Hg.
    { apply grows_after.
      - case_decide; [|apply quiet_ret]. apply quiet_pmod. intros s. unfold view. rewrite own_client.
        by rewrite !base_client, own_set_client.
      - intros _. apply grows_before; [apply handshake_grows |]. intros res. case_decide; [apply quiet_ret | apply Hrun]. }
    eapply wp_mono; [apply (Hg c1 (sk_fd (base c1) :: l)); congruence |]. intros x t2 [E F2].
    rewrite (fds_after_app _ _ _ _ (F l)), F2. unfold held. rewrite E, decide_True by done. by rewrite <-app_assoc.
Qed.

Lemma session_task_spec fuel (c : C) l :
  pton_ok 4 p4 → pton_ok 16 p6 → session_ok → own c = [] → sk_fd (base c) < 0 →
  wp True (session_task p4 p6 g frame srv name user pass fuel c)
    (λ r tr, fds_after l tr = Some (if r.1 is Some _ then l else held r.2 ++ l)).
Proof.
  intros H4 H6 Hok Hown Hfd. unfold session_task.
  eapply wp_then; [by apply session_run_spec |]. intros o c1 t1 F. cbn [snd] in F. destruct o as [[]|].
  - eapply wp_then; [apply (proj2 (proj2 Hok) c1 l) |]. intros [] c2 t2 F2. unfold mret, P_ret. cbn [wp fst].
    by rewrite app_nil_r, (fds_after_app _ _ _ _ F).
  - unfold mret, P_ret. cbn [wp fst snd]. by rewrite app_nil_r.
Qed.
End Session.

(** The binder of the sessions, and the addresses. *)
Lemma session_bind_silent srv ub {A} fd sa (s : A) : wp ub (hev_socks5_session_bind srv fd sa s) (λ r tr, r.2 = s ∧ silent tr).
Proof.
  unfold hev_socks5_session_bind, set_sock_mark, set_sock_tcp_fastopen.
  repeat (case_decide || apply wp_call || intros ? || rewrite ?pret_bind); cbn; split; try done.
Qed.

Lemma into_sockaddr6_quiet p4 p6 {X A} (v : A → X) a sa fam : quiet v (hev_socks5_addr_into_sockaddr6 p4 p6 a sa fam).
Proof.
  unfold hev_socks5_addr_into_sockaddr6, hev_socks5_ipv4_into_sockaddr6, hev_socks5_ipv6_into_sockaddr6,
    hev_socks5_name_into_sockaddr6, hev_socks5_name_resolve_ipv4, hev_socks5_name_resolve_ipv6,
    hev_socks5_name_resolve_name. quiet.
Qed.

(** ** Responses for the witnesses *)

Definition demo_p4 (name : list Z) : option (list Z) := Some [127; 0; 0; 1].
Definition got (bs : list Z) : resp := mkResp (Z.of_nat (length bs)) bs 0 [].
