(* ===== verification/SessionUdpRunProps.v ===== *)
(** * Properties of the task of a UDP session

    A session gives back its descriptors; its program keeps the frames a
    bounded first in, first out queue, whatever lwIP calls at its waits, and
    goes wrong only on a message that the server cut short; its destructor
    frees every frame when it does not wait for the mutex. *)

From S2P Require Import Prelude Buffer IO Addr Interfaces DList Socks5 Client ClientProps Udp UdpProps Config RBTree RBMap MappedDNS DNSHandle DNSProps Utils UtilsProps SessionUdp SessionUdpProps Session SessionUdpRun SessionProps.

(** ** Descriptors *)

(** What the relay must keep of a UDP client. *)
Definition udp_own (b : HevSocks5ClientUDP) : list Z := if decide (0 ≤ udp_fd b) then [udp_fd b] else [].
Definition udp_view (b : HevSocks5ClientUDP) : Z * list Z := (sk_fd (base b), udp_own b).

(** The UDP relay of the core neither opens nor closes a descriptor. *)
Section Relay.
Context {X : Type} (v : HevSocks5ClientUDP → X).
Context (v_assoc : ∀ b, v (set_base (set_sk_udp_associated 1 (base b)) b) = v b).

Lemma udp_frame_quiet f h m : quiet v (udp_frame f h m).
Proof. unfold udp_frame. quiet. Qed.

Lemma udp_frames_quiet f h ms : quiet v (udp_frames f h ms).
Proof. induction ms; cbn; [apply quiet_ret |]. pose proof (udp_frame_quiet f h). quiet; auto. Qed.

Lemma get_fd_quiet : quiet v hev_socks5_udp_get_fd.
Proof. unfold hev_socks5_udp_get_fd. cbn. unfold hev_socks5_client_udp_get_fd, get_base. quiet. Qed.

Lemma sendmmsg_quiet ms : quiet v (hev_socks5_udp_sendmmsg ms).
Proof.
  pose proof get_fd_quiet. pose proof udp_frames_quiet.
  unfold hev_socks5_udp_sendmmsg, hev_socks5_udp_sendmmsg_tcp, hev_socks5_udp_sendmmsg_udp, get_base. quiet; auto.
Qed.

Lemma recvmmsg_tcp_loop_quiet fd rlen ms : quiet v (recvmmsg_tcp_loop fd rlen ms).
Proof.
  revert rlen. induction ms as [|m ms IH]; intros rlen; cbn [recvmmsg_tcp_loop]; [apply quiet_ret |].
  unfold recv_head, recv_body. quiet; auto.
Qed.

Lemma recvmmsg_quiet ms : quiet v (hev_socks5_udp_recvmmsg ms).
Proof.
  pose proof get_fd_quiet. pose proof recvmmsg_tcp_loop_quiet.
  unfold hev_socks5_udp_recvmmsg, hev_socks5_udp_recvmmsg_tcp, hev_socks5_udp_recvmmsg_udp, get_base.
  quiet; auto. apply quiet_pmod. apply v_assoc.
Qed.
End Relay.

(** Steps that keep a view [v] of the state. *)
Definition fixes {S X A} (v : S → X) (m : M S A) : Prop := ∀ s a s', m s = Some (a, s') → v s' = v s.

Section Keeps.
Context {S X : Type} (v : S → X).

Lemma fixes_ret {A} (a : A) : fixes v (mret a).
Proof. by intros s ? ? [= <- <-]. Qed.

Lemma fixes_gets {A} (f : S → A) : fixes v (mgets f).
Proof. by intros s ? ? [= <- <-]. Qed.

Lemma fixes_lift {A} (o : option A) : fixes v (mlift o).
Proof. intros s ? ?. unfold mlift. destruct o; by intros [= <- <-]. Qed.

Lemma fixes_bind {A B} (m : M S A) (f : A → M S B) : fixes v m → (∀ a, fixes v (f a)) → fixes v (m ≫= f).
Proof.
  intros Hm Hf s b s' E. apply mbind_inv in E as (a & s1 & E1 & E2). rewrite (Hf _ _ _ _ E2). by eapply Hm.
Qed.

Lemma fixes_state (f : S → S) : (∀ s, v (f s) = v s) → fixes v (λ s, Some (tt, f s)).
Proof. by intros Hf s ? ? [= <- <-]. Qed.

Lemma quiet_of_M {A} (m : M S A) : fixes v m → quiet v (of_M m).
Proof. intros H s l. unfold of_M. destruct (m s) as [[a s'] |] eqn:E; [split; [by eapply H | done] | done]. Qed.
End Keeps.

(** A goal [fixes v m], by the structure of [m]. *)
Ltac fixes :=
  repeat first
    [ apply fixes_ret | apply fixes_gets | apply fixes_lift | solve [auto 3]
    | apply fixes_bind; [|intros ?]
    | match goal with |- fixes _ (if ?b then _ else _) => destruct b end
    | match goal with |- fixes _ (match ?x with _ => _ end) => destruct x end
    | apply fixes_state; done ].

Section UDP.
Context (p4 p6 : list Z → option (list Z)) (g : misc) (srv : HevConfigServer).
Context {T L : Type} `{!SearchTree T} `{!LinkedList L}.
Context (lwip locked : nat → list (udp_callback T L)).
Abbreviation S := (HevSocks5SessionUDP L).
Abbreviation task := (udp_task T L).

(** The work on the frames does not touch the client. *)
Lemma fixes_frames {A} (m : M L A) : fixes (S := S) ubase (on_frames m).
Proof. intros s a s'. unfold on_frames. destruct (m (frame_list s)) as [[? ?]|]; by intros [= <- <-]. Qed.

Lemma fixes_frame_get p : fixes (S := S) ubase (frame_get p).
Proof. intros s a s'. unfold frame_get. destruct (frame_at s !! p); by intros [= <- <-]. Qed.

Lemma fixes_collect n node : fixes (S := S) ubase (fwd_collect n node).
Proof.
  pose proof @fixes_frames. pose proof fixes_frame_get.
  revert node. induction n as [|n IH]; intros node; cbn [fwd_collect]; fixes.
Qed.

Lemma fixes_msgs num : fixes (S := S) ubase (fwd_f_msgs num).
Proof. pose proof @fixes_frames. pose proof fixes_collect. unfold fwd_f_msgs. fixes. Qed.

Lemma fixes_sent res : fixes (S := S) ubase (fwd_f_sent res).
Proof.
  pose proof @fixes_frames. pose proof fixes_frame_get. unfold fwd_f_sent. case_decide; [fixes |].
  apply fixes_bind; [|intros; fixes]. induction (Z.to_nat res) as [|n IH]; cbn [fwd_f_free]; fixes.
Qed.

Lemma fixes_destruct fuel : fixes (S := S) ubase (destruct_list fuel).
Proof.
  pose proof @fixes_frames. pose proof fixes_frame_get. unfold destruct_list. fixes.
  generalize a. induction fuel as [|fuel IH]; intros node; cbn [destruct_frames]; fixes.
Qed.

Definition tview (s : task) : Z * list Z := udp_view (ubase (usess s)).

Lemma terminate_view (s : S) :
  udp_view (set_base (hev_socks5_set_timeout 0 (base (ubase s))) (ubase s)) = udp_view (ubase s).
Proof. unfold udp_view, udp_own. cbn. by rewrite set_timeout_keeps. Qed.

Lemma fixes_handler malloc mem p ip port :
  fixes (λ st : S * option (HevMappedDNS T L), udp_view (ubase st.1)) (udp_recv_handler malloc mem p ip port).
Proof.
  assert (∀ A (m : M S A), fixes (λ s, udp_view (ubase s)) m →
    fixes (λ st : S * option (HevMappedDNS T L), udp_view (ubase st.1)) (on_session m)) as Hon.
  { intros A m Hm [s d] a [s' d']. unfold on_session. destruct (m s) as [[a1 s1]|] eqn:E; [|done].
    cbn. intros [= <- <- <-]. by eapply Hm. }
  unfold udp_recv_handler. destruct p as [p|]; fixes.
  - intros [s d] ? [s' d']. cbn. destruct (hev_socks5_addr_from_lwip _ _ _ _) as [[? ?]|]; by intros [= <- <- <-].
  - apply Hon. intros s ? s'. cbn. case_decide; by intros [= <- <-].
  - apply Hon. intros s ? s' E. by rewrite (fixes_frames _ _ _ _ E).
  - apply Hon, fixes_state. intros s. apply terminate_view.
Qed.

Lemma fixes_callback cb : fixes tview (run_udp_callback cb).
Proof.
  intros s [] s'. unfold run_udp_callback. destruct cb as [malloc mem p ip port d | |].
  - case_decide; [|by intros [= <-]].
    destruct (udp_recv_handler _ _ _ _ _ _) as [[r [x d']]|] eqn:E; cbn; [|done]. intros [= <-].
    apply (fixes_handler _ _ _ _ _ _ _ _ E).
  - destruct (udp_recv_handler _ _ _ _ _ _) as [[r [x d']]|] eqn:E; cbn; [|done]. intros [= <-].
    apply (fixes_handler _ _ _ _ _ _ _ _ E).
  - intros [= <-]. apply terminate_view.
Qed.

Lemma udp_suspended_quiet during : quiet tview (udp_suspended (T := T) (L := L) during).
Proof.
  unfold udp_suspended. quiet. 2: by apply quiet_pmod.
  apply quiet_of_M. pose proof fixes_callback. generalize (during a). intros cbs.
  induction cbs as [|cb cbs IH]; cbn [run_udp_callbacks]; fixes.
Qed.

Lemma on_base_quiet {A} (m : P HevSocks5ClientUDP A) :
  quiet udp_view m → quiet (λ s : S, udp_view (ubase s)) (on_base m).
Proof.
  intros Hm s l. unfold on_base. apply wp_bind. eapply wp_mono; [apply (Hm (ubase s) l) |].
  intros [a b] t [E F]. cbn [wp snd]. rewrite app_nil_r. by split.
Qed.

Lemma on_task_quiet {A} (m : P S A) : quiet (λ s : S, udp_view (ubase s)) m → quiet tview (on_task (T := T) m).
Proof.
  intros Hm s l. unfold on_task. apply wp_bind. eapply wp_mono; [apply (Hm (usess s) l) |].
  intros [a x] t [E F]. cbn [wp snd]. rewrite app_nil_r. by split.
Qed.

Lemma task_M_quiet {A} (m : M S A) : fixes ubase m → quiet tview (on_task (T := T) (of_M m)).
Proof. intros Hm. apply on_task_quiet, quiet_of_M. intros s a s' E. by rewrite (Hm _ _ _ E). Qed.

Lemma fwd_f_quiet num : quiet tview (hev_socks5_session_udp_fwd_f lwip num).
Proof.
  pose proof (udp_suspended_quiet lwip). unfold hev_socks5_session_udp_fwd_f. quiet.
  - apply task_M_quiet, fixes_msgs.
  - by apply on_task_quiet, on_base_quiet, sendmmsg_quiet.
  - apply task_M_quiet, fixes_sent.
Qed.

Lemma fwd_b_quiet ip0 bufs : quiet tview (hev_socks5_session_udp_fwd_b lwip locked ip0 bufs).
Proof.
  pose proof udp_suspended_quiet. unfold hev_socks5_session_udp_fwd_b.
  apply quiet_bind; [by apply on_task_quiet, on_base_quiet, recvmmsg_quiet |].
  intros [res ms]. apply quiet_bind; [done | intros _]. case_decide; [unfold errno; quiet |]. revert ms.
  induction (Z.to_nat res) as [|n IH]; intros ms; cbn [fwd_b_msgs]; [apply quiet_ret |].
  unfold udp_mutex_lock, udp_mutex_unlock. quiet; auto.
Qed.

Lemma yielder_quiet ty : quiet tview (hev_socks5_session_udp_yielder srv lwip ty).
Proof.
  pose proof (udp_suspended_quiet lwip).
  unfold hev_socks5_session_udp_yielder, hev_socks5_task_io_yielder, get_base, errno, upd_base. quiet.
  apply quiet_pmod. intros s. apply terminate_view.
Qed.

Lemma splice_quiet ip0 bufs fuel : quiet tview (hev_socks5_session_udp_splice srv lwip locked ip0 bufs fuel).
Proof.
  pose proof (udp_suspended_quiet lwip). unfold hev_socks5_session_udp_splice. quiet.
  { by apply on_task_quiet, on_base_quiet, get_fd_quiet. }
  generalize 1 at 1 as rf. generalize 1 as rb.
  induction fuel as [|fuel IH]; intros rb rf; cbn [session_udp_loop]; [apply quiet_ret |].
  pose proof fwd_f_quiet. pose proof fwd_b_quiet. pose proof yielder_quiet. quiet; auto.
Qed.
(** *** The instance *)

Lemma udp_set_grows a (b : HevSocks5ClientUDP) l : udp_own b = [] →
  wp True (hev_socks5_client_udp_set_upstream_addr p4 p6 g (hev_socks5_session_bind srv) a b) (λ r tr,
    sk_fd (base r.2) = sk_fd (base b) ∧ fds_after l tr = Some (udp_own r.2 ++ l)).
Proof.
  intros Hb. unfold hev_socks5_client_udp_set_upstream_addr, get_base. rewrite !pgets_bind.
  case_decide; [by cbn; rewrite Hb |]. rewrite pgets_bind.
  eapply wp_then; [apply (into_sockaddr6_quiet p4 p6 id _ _ _ _ l) |]. unfold id. cbn [snd].
  intros [[res sa] fam] c1 t1 [-> F1]. case_decide; [by cbn; rewrite app_nil_r, Hb |].
  eapply wp_then; [apply socket_spec |]. cbn [fst snd]. intros fd ? t2 (-> & Hfd & _ & F2).
  assert (fds_after l (t1 ++ t2) = Some (if decide (0 ≤ fd) then fd :: l else l)) as F
    by by rewrite (fds_after_app _ _ _ _ F1).
  destruct (decide (fd < 0)) as [Hneg | Hneg].
  { cbn. rewrite app_nil_r, F, Hb. by rewrite decide_False by lia. }
  rewrite decide_True in F by lia.
  eapply wp_then; [apply bind_connect_with_spec, session_bind_silent |].
  intros r c2 t3 (E & Hr & _ & Hok & Hbad). cbn [fst snd] in *. subst c2.
  destruct (decide (r < 0)) as [Hr0 | Hr0].
  - cbn. rewrite app_nil_r, app_assoc, Hb. split; [done |]. rewrite (fds_after_app _ _ _ _ F). apply Hbad. lia.
  - unfold upd_base. rewrite !pmod_bind. cbn. rewrite app_nil_r, app_assoc. split; [done |].
    rewrite (fds_after_app _ _ _ _ F). destruct Hok as [_ ->]; [lia |]. unfold udp_own. cbn.
    by rewrite decide_True by lia.
Qed.

(** Closing what the client holds. *)
Lemma udp_destruct_closes (b : HevSocks5ClientUDP) l :
  wp True (hev_socks5_client_udp_destruct b)
    (λ _ tr, fds_after (udp_own b ++ (if decide (0 ≤ sk_fd (base b)) then [sk_fd (base b)] else []) ++ l) tr = Some l).
Proof.
  unfold hev_socks5_client_udp_destruct, hev_socks5_client_destruct, hev_socks5_destruct, udp_own, get_base.
  rewrite pgets_bind. set (rest := _ ++ l).
  eapply (wp_then _ _ _ _ (λ r tr, r.2 = b ∧
    fds_after ((if decide (0 ≤ udp_fd b) then [udp_fd b] else []) ++ rest) tr = Some rest)).
  { case_decide; [|done]. eapply wp_mono; [apply del_close_spec |]. intros r tr (-> & _ & F). split; [done |].
    apply F. cbn. by rewrite decide_True. }
  intros [] b1 t1 [E1 F1]. cbn [snd] in E1. subst b1. rewrite pgets_bind. subst rest. destruct (decide (0 ≤ sk_fd (base b))).
  - eapply wp_mono; [apply del_close_spec |]. intros r tr (_ & _ & F). rewrite (fds_after_app _ _ _ _ F1).
    apply F. cbn. by rewrite decide_True.
  - unfold mret, P_ret. cbn [wp]. by rewrite app_nil_r.
Qed.

#[local] Existing Instances session_udp_object session_udp_client.

#[local] Instance session_udp_owns : OwnsFds (Socks5Client0 := session_udp_client p4 p6 g srv) task.
Proof.
  refine {| own := λ s : task, udp_own (ubase (usess s)) |}; try done.
  - apply (on_task_quiet (on_base hev_socks5_client_udp_get_upstream_addr)), on_base_quiet.
    unfold hev_socks5_client_udp_get_upstream_addr, get_base. quiet.
  - intros a s l Hs. cbn. unfold on_task. apply wp_bind.
    eapply wp_mono with (Q := λ (r : Z * S) tr, sk_fd (base (ubase r.2)) = sk_fd (base (ubase (usess s))) ∧
      fds_after l tr = Some (udp_own (ubase r.2) ++ l)).
    2:{ intros [r x] t [E F]. cbn [wp snd fst]. rewrite app_nil_r. by split. }
    unfold hev_socks5_session_udp_set_upstream_addr.
    eapply wp_then with (R := λ r tr, r.2 = usess s ∧ fds_after l tr = Some l).
    { apply (quiet_lift id). }
    intros first s1 t1 [E1 F1]. cbn [snd] in E1. subst s1.
    eapply wp_then with (R := λ r tr, r.2 = usess s ∧ fds_after l tr = Some l).
    { case_decide; [|done]. apply (quiet_bind id); [apply quiet_lift | intros; quiet]. }
    intros a' s2 t2 [E2 F2]. cbn [snd] in E2. subst s2. unfold on_base. apply wp_bind.
    eapply wp_mono; [by apply (udp_set_grows a' (ubase (usess s)) l) |]. intros [r b] t3 [E3 F3]. cbn [wp fst snd] in *.
    rewrite app_nil_r. split; [done |]. rewrite (fds_after_app _ _ _ _ F1), (fds_after_app _ _ _ _ F2). done.
Defined.

Lemma destruct_closing : closing (OwnsFds0 := session_udp_owns) (hev_socks5_session_udp_destruct locked).
Proof.
  pose proof (udp_suspended_quiet locked). unfold hev_socks5_session_udp_destruct.
  repeat (apply closing_after; [|intros ?]).
  - apply quiet_pgets.
  - apply task_M_quiet. pose proof fixes_destruct. fixes.
  - unfold udp_mutex_lock. quiet.
  - by apply quiet_call.
  - unfold udp_mutex_unlock. quiet.
  - intros s l. unfold on_task, on_base. do 2 apply wp_bind.
    eapply wp_mono; [apply (udp_destruct_closes (ubase (usess s)) l) |]. intros [[] b] t F. cbn [wp].
    rewrite !app_nil_r. unfold held. rewrite <-app_assoc. exact F.
Qed.

Lemma session_udp_ok ip0 bufs : session_ok (Socks5Session0 := session_udp_is_session p4 p6 g srv lwip locked ip0 bufs) (OwnsFds0 := session_udp_owns).
Proof.
  set (hld := held (Socks5Client0 := session_udp_client p4 p6 g srv) (OwnsFds0 := session_udp_owns)). split_and!.
  - intros ub fd sa c. apply session_bind_silent.
  - intros fuel. apply splice_quiet.
  - apply destruct_closing.
Qed.
End UDP.

(** The task of a UDP session, from its construction on, for every answer
    of the system, the resolver and the SOCKS5 server, in both handshakes, on
    every error path and for every interleaving with lwIP: when it ends,
    exactly the descriptors are open that
    were open before, none has been closed twice and none that is not the
    session's; while it runs they are those and the two the object holds, its
    control connection and the socket of a UDP association. *)
Theorem udp_session_gives_back p4 p6 g srv frame name user pass ip0 bufs fuel {T L} `{!SearchTree T} `{!LinkedList L}
    lwip locked (s : udp_task T L) l :
  pton_ok 4 p4 → pton_ok 16 p6 → udp_fd (ubase (usess s)) = -1 → sk_fd (base (ubase (usess s))) = -1 →
  wp True (session_task p4 p6 g frame srv name user pass fuel s
      (Socks5Session0 := session_udp_is_session p4 p6 g srv lwip locked ip0 bufs))
    (λ r tr, fds_after l tr = Some (match r.1 with
       | Some _ => l
       | None => filter (λ fd, 0 ≤ fd) [udp_fd (ubase (usess r.2)); sk_fd (base (ubase (usess r.2)))] ++ l
       end)).
Proof.
  intros H4 H6 Hu Hb. eapply wp_mono.
  { apply (session_task_spec (Socks5Session0 := session_udp_is_session p4 p6 g srv lwip locked ip0 bufs)
      (OwnsFds0 := session_udp_owns p4 p6 g srv) p4 p6 g frame srv name user pass fuel s l H4 H6
      (session_udp_ok p4 p6 g srv lwip locked ip0 bufs)).
    - cbn. unfold udp_own. by rewrite Hu.
    - cbn in *. lia. }
  intros [[[]|] s'] tr F; [exact F |]. rewrite F. f_equal. cbn [fst snd]. f_equal. unfold held. cbn [own session_udp_owns].
  unfold udp_own. cbn [filter list_filter]. cbn. by repeat case_decide.
Qed.
