(* ===== verification/SessionUdpQueue.v ===== *)
(** * The queue of a UDP session

    Every run of the program of [SessionUdpRun], with any callbacks at its
    waits, sends the datagrams that lwIP delivered and the session accepted:
    once, in order, each framed with its own destination.  The program goes
    wrong only on a message that the server cut short, or when a mapped name
    is too long for its frame. *)

From S2P Require Import Prelude Buffer IO Addr Interfaces DList Socks5 Client ClientProps Udp UdpProps Config RBTree RBMap MappedDNS DNSHandle DNSProps Utils UtilsProps SessionUdp SessionUdpProps Session SessionUdpRun.

(** ** The calls of a program *)

(** Every call of [m] satisfies [ok]. *)
Definition only {S A} (ok : ev → bool) (m : P S A) : Prop :=
  ∀ s, wp True (m s) (λ _ tr, Forall (λ c, ok c.1) tr).

Section Only.
Context (ok : ev → bool) {S : Type}.

Lemma only_ret {A} (a : A) : only (S := S) ok (mret a).
Proof. intros s. constructor. Qed.

Lemma only_bind {A B} (m : P S A) (f : A → P S B) : only ok m → (∀ a, only ok (f a)) → only ok (m ≫= f).
Proof.
  intros Hm Hf s. eapply wp_then; [apply Hm |]. intros a s' t1 H1. eapply wp_mono; [apply Hf |].
  intros r t2 H2. by apply Forall_app.
Qed.

Lemma only_call e : ok e → only (S := S) ok (call e).
Proof. intros He s x _. by repeat constructor. Qed.

Lemma only_ub {A} : only (S := S) (A := A) ok ub.
Proof. by intros s. Qed.

Lemma only_pgets {A} (f : S → A) : only ok (pgets f).
Proof. intros s. constructor. Qed.

Lemma only_pmod (f : S → S) : only ok (pmod f).
Proof. intros s. constructor. Qed.

Lemma only_lift {A} (o : option A) : only (S := S) ok (plift o).
Proof. intros s. destruct o; [constructor | done]. Qed.
End Only.

(** A goal [only ok m], by the structure of [m]. *)
Ltac only_calls :=
  repeat first
    [ apply only_ret | apply only_ub | apply only_lift | apply only_pgets | apply only_pmod | solve [auto 3]
    | apply only_call; exact I
    | apply only_bind; [|intros ?]
    | match goal with |- only _ (if ?b then _ else _) => destruct b end
    | match goal with |- only _ (match ?x with _ => _ end) => destruct x end ].

Definition not_send (e : ev) : bool := match e with Send _ _ | SendMMsg _ _ => false | _ => true end.

(** ** What was relayed *)

(** The bytes sent on the stream [fd], and the datagrams sent on it, by the
    calls that succeeded. *)
Record relayed := mkRelayed { on_stream : list Z; in_dgrams : list (list Z) }.

Definition relay_step (fd : Z) (rl : relayed) (c : ev * resp) : relayed :=
  match c.1 with
  | Send fd' bs => if decide (fd' = fd ∧ 0 < ret c.2) then mkRelayed (on_stream rl ++ bs) (in_dgrams rl) else rl
  | SendMMsg fd' ms =>
      if decide (fd' = fd) then mkRelayed (on_stream rl) (in_dgrams rl ++ take (Z.to_nat (ret c.2)) (snd <$> ms)) else rl
  | _ => rl
  end.

Definition relay_after (fd : Z) (rl : relayed) (tr : list (ev * resp)) : relayed := foldl (relay_step fd) rl tr.

Lemma relay_after_app fd rl t1 t2 : relay_after fd rl (t1 ++ t2) = relay_after fd (relay_after fd rl t1) t2.
Proof. apply foldl_app. Qed.

Lemma relay_step_skip fd rl e x : not_send e → relay_step fd rl (e, x) = rl.
Proof. by destruct e. Qed.

Lemma relay_after_skip fd rl tr : Forall (λ c, not_send c.1) tr → relay_after fd rl tr = rl.
Proof.
  induction 1 as [|[e x] tr He _ IH]; [done |]. unfold relay_after. cbn [foldl].
  by rewrite relay_step_skip.
Qed.

(** A datagram as the session sends it: in the stream behind its lengths, in a
    datagram behind three zeros. *)
Definition packet (stream : bool) (d : dgram) : list Z :=
  le16 (if stream then htons (Z.of_nat (length d.2)) else 0) ++
  [u8 (if stream then 3 + Z.of_nat (length (wire d.1)) else 0)] ++ wire d.1 ++ d.2.

(** The relay of a session of the type [ty] with these datagrams sent. *)
Definition relayed_as (ty : Z) (ds : list dgram) : relayed :=
  if decide (ty = HEV_SOCKS5_TYPE_UDP_IN_TCP) then mkRelayed (concat (packet true <$> ds)) []
  else mkRelayed [] (packet false <$> ds).

(** The descriptor of the relay. *)
Definition relay_fd (b : HevSocks5ClientUDP) : Z :=
  if decide (sk_type (base b) = HEV_SOCKS5_TYPE_UDP_IN_TCP) then sk_fd (base b)
  else if decide (sk_type (base b) = HEV_SOCKS5_TYPE_UDP_IN_UDP) then udp_fd b else -1.

Lemma client_get_fd (b : HevSocks5ClientUDP) : hev_socks5_client_udp_get_fd b = Ret (relay_fd b, b).
Proof.
  unfold hev_socks5_client_udp_get_fd, relay_fd, get_base. rewrite pgets_bind. by repeat case_decide.
Qed.

(** ** Sending *)

Lemma udp_frame_packet stream datlen hdrlen d m (b : HevSocks5ClientUDP) :
  address_ok d.1 → carries d m →
  le16 (datlen (Z.of_nat (length d.2))) ++ [u8 (hdrlen (Z.of_nat (length (wire d.1))))] ++ wire d.1 ++ d.2 = packet stream d →
  udp_frame datlen hdrlen m b = Ret (Some (packet stream d), b).
Proof.
  intros Ha (r1 & r2 & E1 & E2 & E3) Hp. pose proof (wire_length_bounds _ Ha) as Hb. unfold udp_frame. rewrite E1, pret_bind.
  erewrite plift_bind by (by apply addr_len_wire). rewrite decide_False by lia.
  erewrite plift_bind by (apply (mem_read_at [] (wire d.1) r1); reflexivity).
  erewrite plift_bind by (rewrite E2; apply (mem_read_at [] d.2 r2); [reflexivity | exact E3]).
  rewrite E3, <-Hp. done.
Qed.

Lemma udp_frames_packets stream datlen hdrlen ds ms (b : HevSocks5ClientUDP) :
  Forall (λ d, address_ok d.1) ds → Forall2 carries ds ms →
  (∀ d, le16 (datlen (Z.of_nat (length d.2))) ++ [u8 (hdrlen (Z.of_nat (length (wire d.1))))] ++ wire d.1 ++ d.2 = packet stream d) →
  udp_frames datlen hdrlen ms b = Ret (Some (packet stream <$> ds), b).
Proof.
  intros Hds H Hp. revert Hds. induction H as [|d m ds ms Hdm _ IH]; [done |].
  intros [Hd Hds]%Forall_cons. cbn [udp_frames].
  rewrite (pbind_ret _ _ _ _ _ (udp_frame_packet stream _ _ _ _ _ Hd Hdm (Hp d))).
  by rewrite (pbind_ret _ _ _ _ _ (IH Hds)).
Qed.

(** Sending relays as many messages as it says. *)
Lemma sendmmsg_spec ds ms (b : HevSocks5ClientUDP) sent :
  Forall (λ d, address_ok d.1) ds → Forall2 carries ds ms →
  wp False (hev_socks5_udp_sendmmsg ms b) (λ r tr, r.2 = b ∧ r.1 ≤ Z.of_nat (length ms) ∧
    relay_after (relay_fd b) (relayed_as (sk_type (base b)) sent) tr =
      relayed_as (sk_type (base b)) (sent ++ take (Z.to_nat r.1) ds)).
Proof.
  intros Hds Hms. pose proof (Forall2_length _ _ _ Hms) as Hlen. unfold hev_socks5_udp_sendmmsg, get_base, relayed_as.
  rewrite pgets_bind. change (sk_type (base b)) with (sk_type (cl_base (udp_client b))).
  set (ty := sk_type _). destruct (decide (ty = HEV_SOCKS5_TYPE_UDP_IN_TCP)) as [Ht | Ht].
  - unfold hev_socks5_udp_sendmmsg_tcp. rewrite (pbind_ret _ _ _ _ _ (udp_frames_packets true htons (λ n, 3 + n) _ _ _ Hds Hms (λ _, eq_refl))).
    unfold hev_socks5_udp_get_fd. cbn [get_fd client_udp_relay]. rewrite (pbind_ret _ _ _ _ _ (client_get_fd b)).
    apply wp_call. intros x _. unfold relay_after. cbn [foldl relay_step fst snd on_stream in_dgrams].
    destruct (decide (ret x ≤ 0)) as [Hx | Hx]; unfold mret, P_ret; cbn [wp fst snd]; (split; [done |]).
    + rewrite decide_False by lia. split; [lia |]. by rewrite app_nil_r.
    + rewrite decide_True by (split; [done | lia]). split; [lia |]. rewrite Nat2Z.id, <-Hlen.
      by rewrite take_ge, fmap_app, concat_app by done.
  - destruct (decide (ty = HEV_SOCKS5_TYPE_UDP_IN_UDP)) as [Hu | Hu].
    2:{ unfold mret, P_ret. cbn [wp fst snd]. split; [done |]. split; [lia |]. by rewrite app_nil_r. }
    unfold hev_socks5_udp_sendmmsg_udp. rewrite (pbind_ret _ _ _ _ _ (udp_frames_packets false (λ _, 0) (λ _, 0) _ _ _ Hds Hms (λ _, eq_refl))).
    unfold hev_socks5_udp_get_fd. cbn [get_fd client_udp_relay]. rewrite (pbind_ret _ _ _ _ _ (client_get_fd b)).
    apply wp_call. intros x [_ Hx]. rewrite !length_fmap, Hlen in Hx. unfold relay_after.
    unfold mret, P_ret. cbn [wp fst snd foldl relay_step on_stream in_dgrams]. split; [done |]. split; [done |].
    rewrite decide_True by done. f_equal. rewrite fmap_app. f_equal. rewrite <-list_fmap_compose, !fmap_take.
    f_equal. apply list_fmap_id.
Qed.

(** ** Receiving *)

(** A message that [fwd_b] can handle. *)
Definition msg_good (m : HevSocks5UDPMsg) : Prop :=
  (∃ blk, m_addr m = APtr blk ∧ (19 ≤ length blk)%nat) ∧ 0 ≤ m_len m ≤ Z.of_nat (length (m_buf m)).

Lemma decoded_good bs m : decoded_from bs m → msg_good m.
Proof.
  intros (b0 & b1 & h & a0 & a1 & body & rest & _ & _ & -> & Hl & _ & Ha & Hd & Hsum). unfold UDP_BUF_SIZE in *. split.
  - eexists. split; [done | lia].
  - cbn [m_len m_buf]. rewrite length_drop. lia.
Qed.

Lemma parse_dgram_good m d : receptive m → (length d ≤ 1500)%nat →
  ∃ o, parse_dgram m d = Some o ∧ ∀ m', o = Some m' → (length d < 4)%nat ∨ msg_good m'.
Proof.
  intros (Hl & _ & _) Hd. unfold UDP_BUF_SIZE in Hl. unfold parse_dgram.
  destruct (mem_write_in (m_buf m) d ltac:(lia)) as (buf & Ew & Hlb). rewrite Ew. cbn [mbind option_bind].
  assert (is_Some (hev_socks5_addr_len (drop 3 buf))) as [n ->].
  { unfold hev_socks5_addr_len. destruct (mem_get_in (drop 3 buf) 0) as (a & -> & _); [rewrite length_drop; lia |].
    cbn [mbind option_bind]. destruct (mem_get_in (drop 3 buf) 1) as (c & -> & _); [rewrite length_drop; lia |].
    repeat case_decide; by eexists. }
  cbn [mbind option_bind]. repeat case_decide; eexists; (split; [done |]); intros m' [= <-]; [left; lia |]. right. split.
  - eexists. split; [done |]. rewrite length_drop. lia.
  - cbn [m_len m_buf]. rewrite length_drop. lia.
Qed.

Lemma parse_dgrams_good ms ds : Forall receptive ms → Forall (λ d, (length d ≤ 1500)%nat) ds → (length ds ≤ length ms)%nat →
  ∃ o, parse_dgrams ms ds = Some o ∧ ∀ ms', o = Some ms' → length ms' = length ms ∧
    (Exists (λ d, (length d < 4)%nat) ds ∨ Forall msg_good (take (length ds) ms')).
Proof.
  intros Hms. revert ds. induction Hms as [|m ms Hm _ IH]; intros ds Hds Hl.
  { destruct ds; [|cbn in Hl; lia]. eexists. split; [done |]. intros ms' [= <-]. split; [done | by right]. }
  destruct Hds as [|d ds Hd Hds].
  { eexists. split; [done |]. intros ms' [= <-]. split; [done | by right]. }
  cbn [parse_dgrams]. destruct (parse_dgram_good m d Hm Hd) as (o & -> & Ho). cbn [mbind option_bind].
  destruct o as [m'|]; [|by eexists]. destruct (IH ds Hds ltac:(cbn in Hl; lia)) as (o2 & -> & Ho2). cbn [mbind option_bind].
  eexists. split; [done |]. intros ms'. destruct o2 as [ms2|]; [|done]. cbn. intros [= <-].
  destruct (Ho2 ms2 eq_refl) as [El Hg]. split; [cbn; lia |].
  destruct (Ho m' eq_refl) as [Hs | Hgm]; [left; by left |]. destruct Hg as [Hs | Hg]; [left; by right | right]. by constructor.
Qed.

Lemma recvmmsg_calls ms : only not_send (hev_socks5_udp_recvmmsg (C := HevSocks5ClientUDP) ms).
Proof.
  assert (only not_send (hev_socks5_udp_get_fd (C := HevSocks5ClientUDP))) as Hfd.
  { unfold hev_socks5_udp_get_fd. cbn. unfold hev_socks5_client_udp_get_fd, get_base. only_calls. }
  assert (∀ fd rlen ms, only not_send (recvmmsg_tcp_loop (C := HevSocks5ClientUDP) fd rlen ms)) as Hloop.
  { intros fd rlen ms'. revert rlen. induction ms' as [|m ms' IH]; intros rlen; cbn [recvmmsg_tcp_loop]; [apply only_ret |].
    unfold recv_head, recv_body. only_calls; auto. }
  unfold hev_socks5_udp_recvmmsg, hev_socks5_udp_recvmmsg_tcp, hev_socks5_udp_recvmmsg_udp, get_base, upd_base.
  only_calls; auto.
Qed.

(** What a receive leaves of the client, and which messages the caller may
    trust. *)
Definition received (b : HevSocks5ClientUDP) (r : Z * list HevSocks5UDPMsg * HevSocks5ClientUDP) (tr : list (ev * resp)) : Prop :=
  sk_type (base r.2) = sk_type (base b) ∧ relay_fd r.2 = relay_fd b ∧
  (0 < r.1.1 → cut tr ∨ (Z.to_nat r.1.1 ≤ length r.1.2)%nat ∧ Forall msg_good (take (Z.to_nat r.1.1) r.1.2)).

Lemma recv_tcp_received ms (b : HevSocks5ClientUDP) : Forall receptive ms →
  wp False (hev_socks5_udp_recvmmsg_tcp ms b) (received b).
Proof.
  intros Hms. unfold hev_socks5_udp_recvmmsg_tcp, hev_socks5_udp_get_fd. cbn [get_fd client_udp_relay].
  rewrite (pbind_ret _ _ _ _ _ (client_get_fd b)).
  eapply wp_mono; [by apply recv_loop_spec |]. intros [[res ms'] b'] tr (Eb & _ & fs & dn & rest & tail & E & _ & Hfs & _ & Hc).
  cbn [fst snd] in *. subst b' ms'. split; [done |]. split; [done |]. cbn [fst snd]. intros Hres.
  destruct Hc as [? | [Hc | [_ Hc]]]; [lia | right | by left]. rewrite Hc, Z.add_0_l, Nat2Z.id, take_app_length, length_app.
  split; [lia |]. clear -Hfs. induction Hfs as [|bs m fs dn H _ IH]; constructor; [by eapply decoded_good | done].
Qed.

Lemma recv_udp_received ms (b : HevSocks5ClientUDP) : Forall receptive ms →
  wp False (hev_socks5_udp_recvmmsg_udp ms b) (received b).
Proof.
  intros Hms. unfold hev_socks5_udp_recvmmsg_udp, hev_socks5_udp_get_fd. cbn [get_fd client_udp_relay].
  rewrite (pbind_ret _ _ _ _ _ (client_get_fd b)). apply wp_call. intros x (_ & Hle & Hlen & Hfit & _).
  rewrite length_fmap in Hle. case_decide as Hx; [unfold mret, P_ret; cbn [wp]; split_and!; try done; cbn; lia |].
  unfold get_base. rewrite pgets_bind.
  assert (Forall (λ d, (length d ≤ 1500)%nat) (fst <$> msgs x)) as Hds.
  { rewrite Forall_fmap, Forall_forall. intros m [i Hi]%list_elem_of_lookup_1.
    destruct (Forall2_lookup_l _ _ _ _ _ Hfit Hi) as (n & Hn & Hm & _).
    apply list_elem_of_lookup_2, elem_of_take in Hn as (j & Hn & _). rewrite list_lookup_fmap in Hn.
    destruct (ms !! j) as [m'|] eqn:Em; [|done]. cbn in Hn. injection Hn as <-.
    destruct (Forall_lookup_1 _ _ _ _ Hms Em) as (_ & _ & Hl). unfold UDP_BUF_SIZE in Hl. cbn. lia. }
  destruct (parse_dgrams_good ms (fst <$> msgs x) Hms Hds ltac:(rewrite length_fmap; lia)) as (o & Eo & Ho).
  assert (∀ b' tr, sk_type (base b') = sk_type (base b) → relay_fd b' = relay_fd b →
    wp False ((if negb true then mret (-1, ms)
      else o ← plift (parse_dgrams ms (fst <$> msgs x)); match o with None => mret (-1, ms) | Some ms' => mret (ret x, ms') end) b')
      (λ r t, received b r ((RecvMMsg (relay_fd b) (m_len <$> ms), x) :: tr ++ t))) as Hend.
  { intros b' tr Ht Hf. rewrite Eo. cbn [negb]. change (plift (Some o)) with (mret (M := P HevSocks5ClientUDP) o). rewrite pret_bind.
    destruct o as [ms'|]; unfold mret, P_ret, received; cbn [wp fst snd]; (split; [done |]); (split; [done |]); [intros _ | lia].
    destruct (Ho ms' eq_refl) as [El [Hs | Hg]].
    - left. left. cbn. by rewrite Exists_fmap in Hs.
    - right. rewrite length_fmap, Hlen in Hg. split; [lia | done]. }
  destruct (decide (sk_udp_associated (base b) = 0)) as [Ha | Ha].
  - destruct (msgs x) as [|[d sa] rest] eqn:Em; [cbn in Hlen; lia |]. cbn [lookup list_lookup plift].
    intros c _. cbn [io_bind]. destruct (decide (ret c < 0)).
    + unfold mret, P_ret, received. cbn [io_bind negb wp fst snd]. do 2 (split; [done |]). lia.
    + apply (Hend (set_base (set_sk_udp_associated 1 (base b)) b) [(Connect (relay_fd b) sa, c)]); done.
  - rewrite pret_bind. by apply (Hend b []).
Qed.

Lemma recvmmsg_received ms (b : HevSocks5ClientUDP) rl : Forall receptive ms →
  wp False (hev_socks5_udp_recvmmsg ms b) (λ r tr, received b r tr ∧ relay_after (relay_fd b) rl tr = rl).
Proof.
  intros Hms. eapply wp_mono with (Q := λ r tr, received b r tr ∧ Forall (λ c, not_send c.1) tr).
  2:{ intros r tr [H1 H2]. split; [done |]. by apply relay_after_skip. }
  apply wp_and; [|apply recvmmsg_calls]. unfold hev_socks5_udp_recvmmsg, get_base. rewrite pgets_bind.
  case_decide; [by apply recv_tcp_received |]. case_decide; [by apply recv_udp_received |].
  unfold mret, P_ret. cbn [wp]. by split_and!.
Qed.

(** ** The queue under callbacks *)

Section Queue.
Context {T L : Type} `{!SearchTree T} `{!LinkedList L}.
Abbreviation Session := (HevSocks5SessionUDP L).
Abbreviation task := (udp_task T L).
Abbreviation callback := (udp_callback T L).

(** The datagram that a callback delivers: its destination, or what is stored
    of the name that stands for it, and the payload of its first pbuf. *)
Definition delivers (cb : callback) (d : dgram) : Prop :=
  match cb with
  | Ucb_recv _ mem p ip port dns => ∃ o a, dns_state dns o ∧ stored_dest mem (mapped_name o ip) ip port = Some a ∧
      d = (a, payload p)
  | _ => False
  end.

(** What lwIP, the allocator and the table promise of a callback. *)
Definition callback_ok (cb : callback) : Prop :=
  match cb with
  | Ucb_recv _ mem _ ip _ dns => ip_ok ip ∧ length mem = SIZEOF_ADDR ∧ ∃ o, dns_state dns o ∧ names_ok o ip
  | _ => True
  end.

(** The name that stands for its destination has 256 bytes or more, and the
    memory of its frame no zero behind the field: the conversion reads past
    the structure. *)
Definition overreads (cb : callback) : Prop :=
  match cb with
  | Ucb_recv _ mem _ ip port dns => ∃ o, dns_state dns o ∧ stored_dest mem (mapped_name o ip) ip port = None
  | _ => False
  end.

(** The frame of a datagram. *)
Definition frames_of (d : dgram) (f : HevSocks5UDPFrame) : Prop :=
  address_ok d.1 ∧ (∃ rest, f_addr f = wire d.1 ++ rest) ∧ payload (f_data f) = d.2.

Lemma frames_of_carries d f : frames_of d f → carries d (msg_of f).
Proof. intros (_ & (rest & E) & Ed). exists rest, []. unfold msg_of, p_len. cbn. by rewrite E, Ed, app_nil_r. Qed.

Section Relay.
Context (ty fd : Z).

(** The session after [rl] was relayed: of the datagrams accepted, [sent] are
    out, the last [k] of them still in the queue, and the others wait. *)
Definition in_queue (k : nat) (x : Session) (acc : list callback) (rl : relayed) : Prop :=
  ∃ xs fs old pend wait, queued x xs fs ∧ (length xs ≤ 513)%nat ∧ length pend = k ∧
    Forall2 delivers acc (old ++ pend ++ wait) ∧ Forall2 frames_of (pend ++ wait) fs ∧
    rl = relayed_as ty (old ++ pend).

Definition relays_on (b : HevSocks5ClientUDP) : Prop := sk_type (base b) = ty ∧ relay_fd b = fd.

Definition holds (k : nat) (s : task) (rl : relayed) : Prop :=
  relays_on (ubase (usess s)) ∧ in_queue k (usess s) (accepted s) rl.

Context (lwip locked : nat → list callback).
Context (Hlwip : ∀ n, Forall callback_ok (lwip n)) (Hlocked : ∀ n, Forall callback_ok (locked n)).

(** One of the callbacks reads past a structure. *)
Definition overrun : Prop := ∃ n cb, cb ∈ lwip n ++ locked n ∧ overreads cb.

(** Every run of [m] keeps the queue, from [k] datagrams that are out to
    [post]; it goes wrong only if [bad], which every overrun is, or behind a
    message cut short. *)
Definition serves {A} (bad : Prop) (k : nat) (m : P task A) (post : A → nat) : Prop :=
  (overrun → bad) → ∀ s rl, holds k s rl → wpu (λ tr, bad ∨ cut tr) (m s) (λ r tr, holds (post r.1) r.2 (relay_after fd rl tr)).

(** *** Composition *)

Lemma serves_then {A B} bad (m : P task A) (f : A → P task B) s rl (R : A → task → list (ev * resp) → Prop) post :
  wpu (λ tr, bad ∨ cut tr) (m s) (λ r tr, R r.1 r.2 tr) →
  (∀ a s' t1, R a s' t1 → wpu (λ t2, (bad ∨ cut t1) ∨ cut t2) (f a s')
     (λ r t2, holds (post r.1) r.2 (relay_after fd (relay_after fd rl t1) t2))) →
  wpu (λ tr, bad ∨ cut tr) ((m ≫= f) s) (λ r tr, holds (post r.1) r.2 (relay_after fd rl tr)).
Proof.
  intros Hm Hf. eapply wpu_then; [exact Hm |]. intros a s' t1 H1. eapply wpu_mono; [apply (Hf a s' t1 H1) | |].
  - intros tr. rewrite cut_app. tauto.
  - intros r tr. by rewrite relay_after_app.
Qed.

Lemma serves_weaken {A} (bad bad' : Prop) k (m : P task A) post : (overrun → bad) → (bad → bad') → serves bad k m post → serves bad' k m post.
Proof. intros Ho Hb Hm _ s rl H. eapply wpu_mono; [apply (Hm Ho s rl H) | intros tr [?|?]; [left; auto | by right] | done]. Qed.

Lemma serves_bind {A B} bad k (m : P task A) (f : A → P task B) mid post :
  serves bad k m mid → (∀ a, serves bad (mid a) (f a) post) → serves bad k (m ≫= f) post.
Proof.
  intros Hm Hf Ho s rl H. eapply serves_then with (R := λ a s' t1, holds (mid a) s' (relay_after fd rl t1)); [by apply Hm |].
  intros a s' t1 H1. eapply serves_weaken; [exact Ho | | apply Hf | | exact H1]; tauto.
Qed.

Lemma serves_ret {A} bad k (a : A) : serves bad k (mret a) (λ _, k).
Proof. by intros _ s rl H. Qed.

Lemma serves_call bad k e : not_send e → serves bad k (call e) (λ _, k).
Proof.
  intros He _ s rl H x _. cbn [wpu fst snd]. unfold relay_after. cbn [foldl]. by rewrite relay_step_skip.
Qed.

Lemma serves_pgets {A} bad k (f : task → A) : serves bad k (pgets f) (λ _, k).
Proof. by intros _ s rl H. Qed.

Lemma serves_lift {A} bad k (o : option A) : bad ∨ is_Some o → serves bad k (plift o) (λ _, k).
Proof. intros Ho _ s rl H. destruct o; [done | cbn]. destruct Ho as [? | [? ?]]; [by left | done]. Qed.

Lemma serves_ub {A} (bad : Prop) k (post : A → nat) : bad → serves bad k ub post.
Proof. intros Hb _ s rl H. cbn. by left. Qed.

(** *** The callbacks *)

Lemma queued_base b (x : Session) xs fs : queued x xs fs → queued (set_ubase b x) xs fs.
Proof. by intros [H1 H2 H3 H4]. Qed.

Lemma holds_base b k s rl : relays_on b → holds k s rl → holds k (set_usess (set_ubase b (usess s)) s) rl.
Proof.
  intros Hb (_ & xs & fs & old & pend & wait & Hq & H). split; [done |].
  exists xs, fs, old, pend, wait. split; [by apply queued_base | exact H].
Qed.

Lemma timeout_relays b : relays_on b → relays_on (set_base (hev_socks5_set_timeout 0 (base b)) b).
Proof.
  intros [H1 H2]. unfold hev_socks5_set_timeout. destruct (decide (sk_timeout (base b) ≠ 0)); [by split |].
  by destruct b as [[? ? ?] ?].
Qed.

Lemma callback_serves k cb s rl : callback_ok cb → holds k s rl →
  (run_udp_callback cb s = None ∧ overreads cb) ∨ ∃ s', run_udp_callback cb s = Some (tt, s') ∧ holds k s' rl.
Proof.
  intros Hcb H. pose proof H as (Hb & xs & fs & old & pend & wait & Hq & Hl & Hk & Hacc & Hfs & Hrl).
  destruct cb as [malloc mem p ip port dns | |]; cbn [run_udp_callback].
  - case_decide as Hm; [|right; by exists s]. destruct Hcb as (Hip & Hmem & o & Hdns & Hnm).
    assert (malloc ∉ xs) as Hx.
    { intros Hin. apply list_elem_of_lookup_1 in Hin as [i Hi].
      destruct (Forall2_lookup_l _ _ _ _ _ (qu_at _ _ _ Hq) Hi) as (f & _ & Hf). congruence. }
    destruct (recv_spec (usess s) dns o xs fs malloc mem p ip port Hq Hdns Hip Hmem Hx Hnm)
      as [(_ & Es & E) | (x & d' & addr & E & Hcase & Haddr & Hbase)]; [left; rewrite E; split; [done | by exists o] | right].
    rewrite E. cbn [mbind option_bind]. eexists. split; [done |]. unfold takes in *.
    destruct (bool_decide_reflect (frames (usess s) ≤ UDP_POOL_SIZE)) as [Hroom | Hfull]; cbn [andb] in *;
      [destruct (bool_decide_reflect (malloc ≠ NULL)) as [Hn | Hn]; cbn [andb] in *|].
    2,3: destruct Hcase as [-> ->]; by destruct s.
    split; [cbn; by rewrite Hbase |]. destruct (Haddr eq_refl) as (a & rest & Ea & Er).
    set (d := (a, payload p)).
    exists (xs ++ [malloc]), (fs ++ [mkFrame addr p]), old, pend, (wait ++ [d]).
    rewrite (qu_count _ _ _ Hq) in Hroom. unfold UDP_POOL_SIZE in Hroom. cbn [usess accepted]. split_and!; try done.
    + rewrite length_app. cbn. lia.
    + rewrite !app_assoc. apply Forall2_app; [by rewrite <-app_assoc | constructor; [|constructor]]. by exists o, a.
    + rewrite app_assoc. apply Forall2_app; [done | constructor; [|constructor]].
      split; [by eapply stored_dest_ok | split; [by exists rest | done]].
  - right. cbn. eexists. split; [done |]. apply holds_base; [by apply timeout_relays | exact H].
  - right. eexists. split; [done |]. apply holds_base; [by apply timeout_relays | exact H].
Qed.

Lemma callbacks_serve k cbs s rl : Forall callback_ok cbs → holds k s rl →
  (run_udp_callbacks cbs s = None ∧ Exists overreads cbs) ∨ ∃ s', run_udp_callbacks cbs s = Some (tt, s') ∧ holds k s' rl.
Proof.
  intros Hc. revert s. induction Hc as [|cb cbs Hc1 Hc IH]; intros s H; [right; by exists s |].
  destruct (callback_serves k cb s rl Hc1 H) as [[E ?] | (s2 & E & H2)]; cbn [run_udp_callbacks].
  { left. split; [|by left]. unfold mbind, M_bind. by rewrite E. }
  rewrite (mbind_some _ _ _ _ _ E). destruct (IH s2 H2) as [[? ?] | (s3 & E3 & H3)].
  - left. split; [done | by right].
  - right. by exists s3.
Qed.

Lemma suspended_serves bad k during : during = lwip ∨ during = locked →
  serves bad k (udp_suspended during) (λ _, k).
Proof.
  intros Hd Ho s rl H. unfold udp_suspended. rewrite pgets_bind.
  assert (Forall callback_ok (during (utick s))) as Hc by (destruct Hd as [-> | ->]; done).
  destruct (callbacks_serve k _ s rl Hc H) as [[E (cb & Hin & Hcb)%Exists_exists] | (s' & E & H')].
  - assert (bad) as Hbad.
    { apply Ho. exists (utick s), cb. split; [|done]. destruct Hd as [-> | ->]; set_solver. }
    assert (of_M (run_udp_callbacks (during (utick s))) s = Ub) as Em by (unfold of_M; by rewrite E).
    unfold mbind, P_bind. rewrite Em. cbn. by left.
  - assert (of_M (run_udp_callbacks (during (utick s))) s = Ret (tt, s')) as Em by (unfold of_M; by rewrite E).
    rewrite (pbind_ret _ _ _ _ _ Em). exact H'.
Qed.

(** *** Forward *)

Lemma on_task_M {A} (m : M Session A) (s : task) a x : m (usess s) = Some (a, x) → on_task (T := T) (of_M m) s = Ret (a, set_usess x s).
Proof. intros E. unfold on_task, of_M. by rewrite E. Qed.

Lemma on_client_wpu {A} U (m : P HevSocks5ClientUDP A) (s : task) Q :
  wp False (m (ubase (usess s))) (λ r tr, Q (r.1, set_usess (set_ubase r.2 (usess s)) s) tr) →
  wpu U (on_task (on_base m) s) Q.
Proof.
  intros H. unfold on_task, on_base. do 2 apply wpu_bind. eapply wpu_of_wp, wp_mono; [exact H |].
  intros [a b] tr HQ. cbn [wpu wp fst snd] in *. by rewrite !app_nil_r.
Qed.

Lemma task_id (s : task) : set_usess (set_ubase (ubase (usess s)) (usess s)) s = s.
Proof. by destruct s as [[] ? ?]. Qed.

Lemma sent_serves bad res : serves bad (Z.to_nat res) (on_task (of_M (fwd_f_sent res))) (λ _, 0%nat).
Proof.
  intros _ s rl (Hb & xs & fs & old & pend & wait & Hq & Hl & Hk & Hacc & Hfs & Hrl).
  pose proof (Forall2_length _ _ _ (qu_at _ _ _ Hq)) as Hlen. pose proof (Forall2_length _ _ _ Hfs) as Hlf.
  rewrite length_app in Hlf.
  destruct (fwd_f_sent_spec (usess s) xs fs res Hq ltac:(lia)) as (r & x & E & Hq' & Hbase).
  rewrite (on_task_M _ _ _ _ E). cbn [wpu fst snd]. split; [cbn; by rewrite Hbase |].
  exists (drop (Z.to_nat res) xs), (drop (Z.to_nat res) fs), (old ++ pend), [], wait. cbn [usess accepted set_usess].
  split_and!; try done.
  - rewrite length_drop. lia.
  - by rewrite <-app_assoc.
  - apply Forall2_app_inv_l in Hfs as (f1 & f2 & H1 & H2 & ->). apply Forall2_length in H1.
    by rewrite <-Hk, H1, drop_app_length.
  - by rewrite app_nil_r.
Qed.

Lemma fwd_f_serves bad num : 0 ≤ num → serves bad 0 (hev_socks5_session_udp_fwd_f lwip num) (λ _, 0%nat).
Proof.
  intros Hnum Ho s rl H. pose proof H as (Hb & xs & fs & old & pend & wait & Hq & Hl & Hk & Hacc & Hfs & Hrl).
  destruct pend; [|done]. cbn [app] in *. rewrite app_nil_r in Hrl. subst rl.
  unfold hev_socks5_session_udp_fwd_f. pose proof (on_task_M _ s _ _ (fwd_f_msgs_spec _ _ _ num Hq Hnum)) as E.
  rewrite (pbind_ret _ _ _ _ _ E).
  assert (set_usess (usess s) s = s) as -> by (by destruct s). clear E.
  destruct fs as [|f fs]; [exact H |]. set (n := Z.to_nat num).
  set (ms := msg_of <$> take n (f :: fs)). set (ds := take n wait).
  assert (Forall2 frames_of ds (take n (f :: fs))) as Hdf by by apply Forall2_take.
  assert (Forall2 carries ds ms) as Hms.
  { apply Forall2_fmap_r. eapply Forall2_impl; [exact Hdf |]. apply frames_of_carries. }
  assert (Forall (λ d, address_ok d.1) ds) as Hds.
  { clear -Hdf. induction Hdf as [|d f' ds fs' [? _] _ IH]; by constructor. }
  pose proof (Forall2_length _ _ _ Hms) as Hlm.
  eapply serves_then with (post := λ _, 0%nat) (R := λ res s' t1, holds (Z.to_nat res) s' (relay_after fd (relayed_as ty old) t1)).
  - apply on_client_wpu. destruct Hb as [Hty Hfd].
    eapply wp_mono; [apply (sendmmsg_spec ds ms (ubase (usess s)) old Hds Hms) |].
    intros [res b] tr (-> & Hres & Hrl). cbn [fst snd] in *. rewrite task_id. rewrite Hty, Hfd in Hrl. rewrite Hrl.
    split; [by split |]. exists xs, (f :: fs), old, (take (Z.to_nat res) ds), (drop (Z.to_nat res) wait).
    assert (take (Z.to_nat res) ds = take (Z.to_nat res) wait) as ->.
    { unfold ds. rewrite take_take. f_equal. rewrite <-Hlm in Hres. unfold ds in Hres. rewrite length_take in Hres. lia. }
    rewrite take_drop. split_and!; try done. rewrite length_take. rewrite <-Hlm in Hres. unfold ds in Hres.
    rewrite length_take in Hres. lia.
  - intros res s' t1 H1. cbn beta in H1. revert H1. generalize (relay_after fd (relayed_as ty old) t1) as rl. intros rl H1.
    enough (serves (bad ∨ cut t1) (Z.to_nat res) (udp_suspended lwip;; on_task (of_M (fwd_f_sent res))) (λ _, 0%nat)) as Hs
      by (apply Hs; [tauto | exact H1]).
    eapply serves_bind; [apply suspended_serves; by left | intros ?; apply sent_serves].
Qed.

(** *** Backward *)

Lemma into_lwip_some blk ip0 : (19 ≤ length blk)%nat → length (ip_bytes ip0) = 16%nat →
  is_Some (hev_socks5_addr_into_lwip blk ip0 0).
Proof.
  intros Hb Hi. assert (∀ o, 0 ≤ o → o + 2 ≤ 19 → is_Some (get_port blk o)) as Hp.
  { intros o Ho Ho2. unfold get_port. destruct (mem_get_in blk o) as (a & -> & _); [lia |]. cbn [mbind option_bind].
    destruct (mem_get_in blk (o + 1)) as (c & -> & _); [lia |]. by eexists. }
  unfold hev_socks5_addr_into_lwip. destruct (mem_get_in blk 0) as (a & -> & _); [lia |]. cbn [mbind option_bind].
  case_decide; [|case_decide; [|by eexists]].
  - destruct (mem_read_in blk 1 4) as (b & -> & Hl); [lia.. |]. cbn [mbind option_bind].
    destruct (mem_write_in (ip_bytes ip0) b) as (m & -> & _); [lia |]. cbn [mbind option_bind].
    destruct (Hp 5) as [p ->]; [lia.. |]. by eexists.
  - destruct (mem_read_in blk 1 16) as (b & -> & Hl); [lia.. |]. cbn [mbind option_bind].
    destruct (mem_write_in (ip_bytes ip0) b) as (m & -> & _); [lia |]. cbn [mbind option_bind].
    destruct (Hp 17) as [p ->]; [lia.. |]. by eexists.
Qed.

Lemma lock_serves bad k : serves bad k (udp_mutex_lock locked) (λ _, k).
Proof. unfold udp_mutex_lock. eapply serves_bind; [by apply serves_call | intros ?; apply suspended_serves; by right]. Qed.

Lemma unlock_serves bad k : serves bad k udp_mutex_unlock (λ _, k).
Proof. unfold udp_mutex_unlock. eapply serves_bind; [by apply serves_call | intros ?; apply serves_ret]. Qed.

Lemma fwd_b_msgs_serves bad ip0 n ms : length (ip_bytes ip0) = 16%nat →
  bad ∨ (n ≤ length ms)%nat ∧ Forall msg_good (take n ms) →
  serves bad 0 (fwd_b_msgs locked ip0 n ms) (λ _, 0%nat).
Proof.
  intros Hip. revert ms. induction n as [|n IH]; intros ms Hms; cbn [fwd_b_msgs]; [apply serves_ret |].
  destruct ms as [|m ms]; [apply serves_ub; destruct Hms as [? | [? _]]; [done | cbn in *; lia] |].
  assert (bad ∨ msg_good m) as Hm.
  { destruct Hms as [? | [_ Hms]]; [by left | right]. cbn in Hms. by apply Forall_cons in Hms as [? _]. }
  assert (bad ∨ (n ≤ length ms)%nat ∧ Forall msg_good (take n ms)) as Hrest.
  { destruct Hms as [? | [Hn Hms]]; [by left | right]. cbn in Hn, Hms. apply Forall_cons in Hms as [_ ?]. split; [lia | done]. }
  eapply serves_bind; [apply serves_pgets | intros a]. eapply serves_bind; [apply serves_pgets | intros p].
  eapply serves_bind with (mid := λ _, 0%nat).
  { case_decide; [apply serves_ret |]. destruct Hm as [Hbad | [(blk & -> & Hl) _]].
    - destruct (m_addr m); [by apply serves_ub.. |]. eapply serves_bind; [apply serves_lift; by left |].
      intros [[? ?] ?]. apply serves_ret.
    - eapply serves_bind; [apply serves_lift; right; by apply into_lwip_some |]. intros [[? ?] ?]. apply serves_ret. }
  intros [[ip port]|]; [|apply serves_ret]. eapply serves_bind; [by apply serves_call | intros b].
  case_decide; [apply serves_ret |]. eapply serves_bind; [apply serves_lift |].
  { destruct Hm as [? | [_ Hl]]; [by left | right]. rewrite mem_read_prefix by done. by eexists. }
  intros bs. eapply serves_bind; [apply lock_serves | intros ?]. eapply serves_bind; [by apply serves_call | intros err].
  eapply serves_bind; [apply unlock_serves | intros ?]. eapply serves_bind; [by apply serves_call | intros ?].
  case_decide; [apply serves_ret | by apply IH].
Qed.

Lemma errno_serves bad k : serves bad k errno (λ _, k).
Proof. unfold errno. eapply serves_bind; [by apply serves_call | intros; apply serves_ret]. Qed.

Lemma fwd_b_serves bad ip0 bufs : length (ip_bytes ip0) = 16%nat → Forall receptive (init_msgs bufs) →
  serves bad 0 (hev_socks5_session_udp_fwd_b lwip locked ip0 bufs) (λ _, 0%nat).
Proof.
  intros Hip Hbufs Ho s rl H. unfold hev_socks5_session_udp_fwd_b.
  eapply serves_then with (post := λ _, 0%nat) (R := λ a s' t1, holds 0 s' (relay_after fd rl t1) ∧
    (0 < a.1 → cut t1 ∨ (Z.to_nat a.1 ≤ length a.2)%nat ∧ Forall msg_good (take (Z.to_nat a.1) a.2))).
  - apply on_client_wpu. pose proof H as [[Hty Hfd] _].
    eapply wp_mono; [by apply (recvmmsg_received _ (ubase (usess s)) rl) |].
    intros [a b] tr ((Ht & Hf & Hgood) & Hrl). cbn [fst snd] in *. rewrite Hfd in Hrl. rewrite Hrl.
    split; [|exact Hgood]. apply holds_base; [split; congruence | exact H].
  - intros [res ms] s' t1 [H1 Hgood]. cbn [fst snd] in *. revert H1. generalize (relay_after fd rl t1) as rl'. intros rl' H1.
    enough (serves (bad ∨ cut t1) 0 (udp_suspended lwip;;
      if decide (res ≤ 0) then
        if decide (res = -1) then e ← errno; mret (if decide (e = EAGAIN) then 0 else -1) else mret (-1)
      else fwd_b_msgs locked ip0 (Z.to_nat res) ms) (λ _, 0%nat)) as Hs by (apply Hs; [tauto | exact H1]).
    eapply serves_bind; [apply suspended_serves; by left | intros ?]. destruct (decide (res ≤ 0)).
    + case_decide; [|apply serves_ret]. eapply serves_bind; [apply errno_serves | intros; apply serves_ret].
    + apply fwd_b_msgs_serves; [done |]. destruct Hgood as [? | ?]; [lia | left; by right | by right].
Qed.

(** *** The loop and the splicer *)

Context (srv : HevConfigServer).

Lemma base_serves {A} bad k (f : HevSocks5 → A) : serves bad k (get_base (H := session_udp_object srv) f) (λ _, k).
Proof. apply serves_pgets. Qed.

Lemma io_yielder_serves bad k yt : serves bad k (hev_socks5_task_io_yielder (H := session_udp_object srv) yt) (λ _, k).
Proof.
  unfold hev_socks5_task_io_yielder. destruct yt.
  - eapply serves_bind; [by apply serves_call | intros ?; apply serves_ret].
  - eapply serves_bind; [apply base_serves | intros t]. case_decide.
    + eapply serves_bind; [by apply serves_call | intros ?; apply serves_ret].
    + eapply serves_bind; [by apply serves_call | intros ?]. case_decide; apply serves_ret.
Qed.

Lemma yielder_serves bad k yt : serves bad k (hev_socks5_session_udp_yielder srv lwip yt) (λ _, k).
Proof.
  unfold hev_socks5_session_udp_yielder. eapply serves_bind; [apply base_serves | intros t].
  eapply serves_bind with (mid := λ _, k).
  { case_decide; [|apply serves_ret]. eapply serves_bind; [apply base_serves | intros f].
    eapply serves_bind; [by apply serves_call | intros x]. case_decide; [apply serves_ret |]. case_decide; [|apply serves_ret].
    eapply serves_bind; [apply errno_serves | intros ?; apply serves_ret]. }
  intros [].
  - eapply serves_bind with (mid := λ _, k); [|intros ?; apply serves_ret].
    intros _ s rl H. unfold upd_base, pmod. cbn [wpu fst snd]. apply holds_base; [apply timeout_relays, H | exact H].
  - eapply serves_bind; [apply io_yielder_serves | intros res]. eapply serves_bind; [apply suspended_serves; by left | intros ?; apply serves_ret].
Qed.

Lemma loop_serves bad fuel ip0 bufs rf rb : length (ip_bytes ip0) = 16%nat → Forall receptive (init_msgs bufs) →
  serves bad 0 (session_udp_loop srv lwip locked fuel ip0 bufs rf rb) (λ _, 0%nat).
Proof.
  intros Hip Hbufs. revert rf rb. induction fuel as [|fuel IH]; intros rf rb; cbn [session_udp_loop]; [apply serves_ret |].
  eapply serves_bind with (mid := λ _, 0%nat); [case_decide; [apply fwd_f_serves; lia | apply serves_ret] | intros rf'].
  eapply serves_bind with (mid := λ _, 0%nat); [case_decide; [by apply fwd_b_serves | apply serves_ret] | intros rb'].
  assert (∀ yt, serves bad 0 (stop ← hev_socks5_session_udp_yielder srv lwip yt;
    if decide (stop ≠ 0) then mret (Some tt) else session_udp_loop srv lwip locked fuel ip0 bufs rf' rb') (λ _, 0%nat)) as Hnext.
  { intros yt. eapply serves_bind; [apply yielder_serves | intros stop]. case_decide; [apply serves_ret | apply IH]. }
  case_decide; [apply Hnext |]. case_decide; [apply Hnext | apply serves_ret].
Qed.

Lemma splice_serves bad fuel ip0 bufs : length (ip_bytes ip0) = 16%nat → Forall receptive (init_msgs bufs) →
  serves bad 0 (hev_socks5_session_udp_splice srv lwip locked ip0 bufs fuel) (λ _, 0%nat).
Proof.
  intros Hip Hbufs. unfold hev_socks5_session_udp_splice. eapply serves_bind; [apply suspended_serves; by left | intros ?].
  eapply serves_bind with (mid := λ _, 0%nat).
  { intros _ s rl H. apply on_client_wpu. unfold hev_socks5_udp_get_fd. cbn [get_fd client_udp_relay].
    rewrite client_get_fd. cbn [wp fst snd]. by rewrite task_id. }
  intros f. eapply serves_bind; [by apply serves_call | intros r]. eapply serves_bind with (mid := λ _, 0%nat); [|intros ?; by apply loop_serves].
  case_decide; [|apply serves_ret]. eapply serves_bind; [by apply serves_call | intros ?; apply serves_ret].
Qed.

(** *** The destructor *)

Lemma client_destruct_safe (b : HevSocks5ClientUDP) : wp False (hev_socks5_client_udp_destruct b) (λ r _, r.2 = b).
Proof.
  unfold hev_socks5_client_udp_destruct, hev_socks5_client_destruct, hev_socks5_destruct, get_base.
  assert (∀ fd, wp False (del_close fd b) (λ r _, r.2 = b)) as Hclose by (intros fd' x1 _ x2 _; done).
  rewrite pgets_bind. eapply wp_then with (R := λ r _, r.2 = b); [by case_decide |]. cbn [snd]. intros [] ? t ->.
  rewrite pgets_bind. by case_decide.
Qed.

Lemma not_suspended during (s : task) : (∀ n, during n = []) →
  udp_suspended during s = Ret (tt, mkUdpTask (usess s) (accepted s) (S (utick s))).
Proof. intros Hno. unfold udp_suspended. rewrite pgets_bind, Hno. done. Qed.

(** When no task yields with the mutex held the destructor does not wait, and
    frees every frame. *)
Lemma destruct_frees s rl k : holds k s rl → (∀ n, locked n = []) →
  wp False (hev_socks5_session_udp_destruct locked s) (λ r _, frame_at (usess r.2) = ∅).
Proof.
  intros (_ & xs & fs & _ & _ & _ & Hq & _) Hno. unfold hev_socks5_session_udp_destruct. rewrite pgets_bind.
  destruct (destruct_list_spec (usess s) xs fs (Z.to_nat (frames (usess s)) + 2) Hq) as (x & E & _ & Hx).
  { rewrite (qu_count _ _ _ Hq). lia. }
  assert ((o ← destruct_list (Z.to_nat (frames (usess s)) + 2); mlift o) (usess s) = Some (tt, x)) as Em
    by by rewrite (mbind_some _ _ _ _ _ E).
  rewrite (pbind_ret _ _ _ _ _ (on_task_M _ s tt x Em)). unfold udp_mutex_lock, udp_mutex_unlock.
  intros x1 _. cbn [io_bind]. rewrite not_suspended by done. intros x2 _ x3 _. cbn [io_bind]. unfold on_task, on_base. do 3 apply wp_bind.
  eapply wp_mono; [apply client_destruct_safe |]. intros [[] b] tr _. exact Hx.
Qed.
End Relay.
End Queue.

(** The program from a new session: the queue holds at its end. *)
Lemma splice_queues {T L} `{!SearchTree T} `{!LinkedList L} srv (lwip locked : nat → list (udp_callback T L)) ip0 bufs fuel b :
  (∀ n, Forall callback_ok (lwip n)) → (∀ n, Forall callback_ok (locked n)) →
  length (ip_bytes ip0) = 16%nat → Forall (λ buf, length buf = 1500%nat ∧ bytes_ok buf) bufs →
  wpu (λ tr, overrun lwip locked ∨ cut tr) (hev_socks5_session_udp_splice srv lwip locked ip0 bufs fuel
      (udp_task_of (set_ubase b (hev_socks5_session_udp_construct srv))))
    (λ r tr, holds (sk_type (base b)) (relay_fd b) 0 r.2 (relay_after (relay_fd b) (mkRelayed [] []) tr)).
Proof.
  intros Hlwip Hlocked Hip Hbufs.
  assert (Forall receptive (init_msgs bufs)) as Hrec.
  { apply Forall_fmap. eapply Forall_impl; [exact Hbufs |]. intros buf [? ?]. by apply receptive_zero. }
  assert (holds (sk_type (base b)) (relay_fd b) 0 (udp_task_of (T := T) (set_ubase b (hev_socks5_session_udp_construct srv : HevSocks5SessionUDP L)))
    (mkRelayed [] [])) as H0.
  { split; [done |]. exists [], [], [], [], []. split_and!; try done; [|cbn; lia | unfold relayed_as; by case_decide].
    apply queued_base. split; [exact ll_rep_empty | constructor | by intros p [? ?] | done]. }
  by apply (splice_serves _ _ lwip locked Hlwip Hlocked srv (overrun lwip locked) fuel ip0 bufs Hip Hrec).
Qed.

(** ** The claims *)

(** C31. The program of a UDP session, for every server and any callbacks at
    each of its waits. It goes wrong only behind a receive that the server cut
    short, or when a mapped name of 256 bytes or more makes a callback read
    past its frame. The packets of its successful calls are those of the
    datagrams it accepted from lwIP, in order, each framed once with the
    payload of its first pbuf and its own destination, a long name as far as
    it is stored; the others wait, 513 at most. The destructor then frees
    every frame, when it does not have to wait for the mutex, which no task
    holds while it yields. *)
Theorem udp_task_queue {T L} `{!SearchTree T} `{!LinkedList L} srv (lwip locked : nat → list (udp_callback T L)) ip0 bufs fuel b :
  (∀ n, Forall callback_ok (lwip n)) → (∀ n, Forall callback_ok (locked n)) →
  length (ip_bytes ip0) = 16%nat → Forall (λ buf, length buf = 1500%nat ∧ bytes_ok buf) bufs →
  wpu (λ tr, overrun lwip locked ∨ cut tr) (hev_socks5_session_udp_splice srv lwip locked ip0 bufs fuel
      (udp_task_of (set_ubase b (hev_socks5_session_udp_construct srv)))) (λ r tr,
    ∃ sent waiting, Forall2 delivers (accepted r.2) (sent ++ waiting) ∧
      relay_after (relay_fd b) (mkRelayed [] []) tr = relayed_as (sk_type (base b)) sent ∧
      frames (usess r.2) = Z.of_nat (length waiting) ∧ (length waiting ≤ 513)%nat ∧
      ((∀ n, locked n = []) →
       wp False (hev_socks5_session_udp_destruct locked r.2) (λ r' _, frame_at (usess r'.2) = ∅))).
Proof.
  intros Hlwip Hlocked Hip Hbufs. eapply wpu_mono; [by apply splice_queues | done |].
  intros r tr H. pose proof H as (_ & xs & fs & old & pend & wait & Hq & Hl & Hk & Hacc & Hfs & Hrl).
  destruct pend; [|done]. cbn [app] in *. rewrite app_nil_r in Hrl. exists old, wait.
  pose proof (Forall2_length _ _ _ (qu_at _ _ _ Hq)). pose proof (Forall2_length _ _ _ Hfs).
  split_and!; try done; [rewrite (qu_count _ _ _ Hq); lia | lia |].
  by apply (destruct_frees (sk_type (base b)) (relay_fd b) locked r.2 _ 0 H).
Qed.

(** One datagram to 8.8.8.0, sent in the stream. *)
Definition demo_dgram : udp_callback rbstore lstore := Ucb_recv 16 (replicate SIZEOF_ADDR 0) (mkPbuf [1; 2; 3] []) demo_ip 443 None.
Definition demo_udp_lwip (n : nat) : list (udp_callback rbstore lstore) := match n with 0%nat => [demo_dgram] | _ => [] end.

Lemma demo_dgram_ok : callback_ok demo_dgram.
Proof. split; [exact demo_ip_ok |]. split; [done |]. by exists None. Qed.

Lemma udp_task_queue_witness :
  ∃ tr s', runs (hev_socks5_session_udp_splice (srv config_zero) demo_udp_lwip (λ _, []) (mkIp 0 (replicate 16 0)) [replicate 1500 0] 1
      (udp_task_of (set_ubase demo_relay (hev_socks5_session_udp_construct (srv config_zero))))) tr (None, s') ∧
    relay_after 3 (mkRelayed [] []) tr = mkRelayed (packet true (A4 [8; 8; 8; 0] (htons 443), [1; 2; 3])) [] ∧
    ∃ sent waiting, Forall2 delivers (accepted s') (sent ++ waiting) ∧
      relay_after 3 (mkRelayed [] []) tr = relayed_as HEV_SOCKS5_TYPE_UDP_IN_TCP sent ∧ (length waiting ≤ 513)%nat.
Proof.
  set (prog := hev_socks5_session_udp_splice _ _ _ _ _ _ _).
  destruct (play prog [val 0; val 13; val 0; val 0]) as [[[o s'] tr]|] eqn:E; [|by vm_compute in E].
  assert (o = None) as -> by (vm_compute in E; congruence).
  assert (runs prog tr (None, s')) as Hr.
  { eapply play_runs; [exact E |]. vm_compute in E. injection E as <- <-.
    repeat (constructor; [repeat constructor; cbn; lia |]). constructor. }
  exists tr, s'. split; [exact Hr |]. split; [vm_compute in E; injection E as <- <-; vm_compute; reflexivity |].
  pose proof (wp_runs True prog _ tr _ (wp_of_wpu _ _ _ (udp_task_queue (srv config_zero) demo_udp_lwip (λ _, []) (mkIp 0 (replicate 16 0))
    [replicate 1500 0] 1 demo_relay
    ltac:(intros [|n]; cbn; [constructor; [exact demo_dgram_ok | constructor] | constructor])
    ltac:(intros n; constructor) eq_refl
    ltac:(constructor; [split; [by rewrite length_replicate | apply Forall_replicate; unfold byte_ok; lia] | constructor]))) Hr) as H.
  destruct H as (sent & waiting & H1 & H2 & _ & H3 & _).
  exists sent, waiting. split; [exact H1 | split; [exact H2 | exact H3]].
Defined.

(** A datagram of five bytes that lwIP has put together from two fragments is
    accepted; what is sent of it are the three bytes of its first pbuf, and the
    frame is freed. *)
Theorem udp_fragments_lost :
  let cb := Ucb_recv 16 (replicate SIZEOF_ADDR 0) (mkPbuf [1; 2; 3] [[4; 5]]) demo_ip 443 None in
  ∃ tr s', runs (hev_socks5_session_udp_splice (srv config_zero) (λ n, if decide (n = 0%nat) then [cb] else []) (λ _, [])
      (mkIp 0 (replicate 16 0)) [replicate 1500 0] 1
      (udp_task_of (T := rbstore) (L := lstore) (set_ubase demo_relay (hev_socks5_session_udp_construct (srv config_zero))))) tr (None, s') ∧
    accepted s' = [cb] ∧ frames (usess s') = 0 ∧
    relay_after 3 (mkRelayed [] []) tr = mkRelayed (packet true (A4 [8; 8; 8; 0] (htons 443), [1; 2; 3])) [].
Proof.
  intros cb. set (prog := hev_socks5_session_udp_splice _ _ _ _ _ _ _).
  destruct (play prog [val 0; val 13; val 0; val 0]) as [[[o s'] tr]|] eqn:E; [|by vm_compute in E].
  assert (o = None) as -> by (vm_compute in E; congruence). exists tr, s'. split.
  - eapply play_runs; [exact E |]. vm_compute in E. injection E as <- <-.
    repeat (constructor; [repeat constructor; cbn; lia |]). constructor.
  - vm_compute in E. injection E as <- <-. split; [vm_compute; reflexivity |]. split; vm_compute; reflexivity.
Qed.

(** The destructor frees the frames before it removes the control block.  If
    it had to wait for the mutex, a datagram that arrives then would be linked
    behind a frame that is already freed; if no frame was left, its own frame
    would never be freed. *)
Theorem udp_destructor_race :
  (∃ s : udp_task rbstore lstore, run_udp_callback demo_dgram (udp_task_of (hev_socks5_session_udp_construct (srv config_zero))) = Some (tt, s) ∧
     ¬ safe (hev_socks5_session_udp_destruct (λ _, [Ucb_recv 32 (replicate SIZEOF_ADDR 0) (mkPbuf [4] []) demo_ip 443 None]) s)) ∧
  ∃ (s : udp_task rbstore lstore) tr,
    runs (hev_socks5_session_udp_destruct (λ _, [demo_dgram]) (udp_task_of (hev_socks5_session_udp_construct (srv config_zero)))) tr (tt, s) ∧
    frame_at (usess s) ≠ ∅.
Proof.
  split.
  - destruct (run_udp_callback demo_dgram _) as [[[] s]|] eqn:E; [|by vm_compute in E].
    exists s. split; [done |]. apply (play_wrong_unsafe _ [val 0] [(MutexLock, val 0)]); [|by repeat constructor].
    vm_compute in E. injection E as <-. vm_compute. reflexivity.
  - set (prog := hev_socks5_session_udp_destruct _ _).
    destruct (play prog [val 0; val 0; val 0]) as [[[[] s'] tr]|] eqn:E; [|by vm_compute in E]. exists s', tr. split.
    + eapply play_runs; [exact E |]. vm_compute in E. injection E as <- <-. by repeat constructor.
    + vm_compute in E. injection E as <- <-. done.
Qed.

(** A datagram of three bytes in a buffer of the relay. *)
Lemma short_dgram a buf ms : length buf = 1500%nat →
  ∃ buf', parse_dgrams (mkMsg a buf 1500 :: ms) [[0; 0; 0]] = Some (Some (mkMsg ANull buf' 0 :: ms)).
Proof.
  intros Hb. destruct buf as [|b0 [|b1 [|b2 [|b3 [|b4 buf]]]]]; try done. exists ([0; 0; 0; b3; b4] ++ buf).
  assert (is_Some (hev_socks5_addr_len (b3 :: b4 :: buf))) as [l Hl].
  { unfold hev_socks5_addr_len. change (mem_get (b3 :: b4 :: buf) 0) with (Some b3).
    change (mem_get (b3 :: b4 :: buf) 1) with (Some b4). cbn [mbind option_bind].
    repeat (destruct (decide _); [by eexists |]). by eexists. }
  cbn [parse_dgrams]. unfold parse_dgram. cbn [m_buf].
  pose proof (mem_write_at [] [b0; b1; b2] [0; 0; 0] (b3 :: b4 :: buf)) as E. cbn [app] in E.
  rewrite (E 0) by done. cbn [drop app mbind option_bind]. rewrite Hl. cbn. destruct ms; done.
Qed.

Lemma safe_after {A B} (m : io A) (f : A → io B) tr a : runs m tr a → safe (io_bind m f) → safe (f a).
Proof. induction 1 as [| e k x tr a Hx Hr IH]; [done |]. cbn. inversion 1; subst. auto. Qed.

(** The receive of a UDP association that gets one datagram of three bytes. *)
Lemma recv_short a buf ms (c : HevSocks5ClientUDP) :
  sk_type (base c) = HEV_SOCKS5_TYPE_UDP_IN_UDP → length buf = 1500%nat →
  ∃ buf' c' tr, runs (hev_socks5_udp_recvmmsg (mkMsg a buf 1500 :: ms) c) tr ((1, mkMsg ANull buf' 0 :: ms), c').
Proof.
  intros Hty Hb. destruct (short_dgram a buf ms Hb) as [buf' E]. exists buf'.
  unfold hev_socks5_udp_recvmmsg, get_base.
  rewrite pgets_bind, decide_False, decide_True by (cbn in Hty |- *; by rewrite Hty).
  unfold hev_socks5_udp_recvmmsg_udp, hev_socks5_udp_get_fd. cbn [get_fd client_udp_relay].
  assert (hev_socks5_client_udp_get_fd c = Ret (udp_fd c, c)) as Efd.
  { unfold hev_socks5_client_udp_get_fd, get_base.
    rewrite pgets_bind, decide_False, decide_True by (cbn in Hty |- *; by rewrite Hty). done. }
  rewrite (pbind_ret _ _ _ _ _ Efd), call_bind. set (dg := ([0; 0; 0], mkSockaddr 0 0 (replicate 16 0))). change [[0; 0; 0]] with [dg.1] in E.
  assert (valid (RecvMMsg (udp_fd c) (m_len <$> mkMsg a buf 1500 :: ms)) (mkResp 1 [] 0 [dg])) as Hv.
  { split; [constructor |]. cbn.
    split_and!; [lia | done | repeat constructor; cbn; lia | repeat constructor; cbn; lia]. }
  destruct (decide (sk_udp_associated (base c) = 0)) as [Ha | Ha].
  - exists (set_base (set_sk_udp_associated 1 (base c)) c),
      [(RecvMMsg (udp_fd c) (m_len <$> mkMsg a buf 1500 :: ms), mkResp 1 [] 0 [dg]);
       (Connect (udp_fd c) dg.2, mkResp 0 [] 0 [])].
    econstructor; [exact Hv |]. cbn [ret msgs fmap list_fmap]. rewrite decide_False by lia.
    unfold get_base. rewrite pgets_bind, decide_True by exact Ha. rewrite E.
    econstructor; [by split; [constructor |] |]. cbn. rewrite decide_False by lia. constructor.
  - exists c, [(RecvMMsg (udp_fd c) (m_len <$> mkMsg a buf 1500 :: ms), mkResp 1 [] 0 [dg])].
    econstructor; [exact Hv |]. cbn [ret msgs fmap list_fmap]. rewrite decide_False by lia.
    unfold get_base. rewrite pgets_bind, decide_False by exact Ha. rewrite E. constructor.
Qed.

(** A datagram of fewer than four bytes from the SOCKS5 server reaches
    [hev_socks5_session_udp_fwd_b] as a message without an address, which it
    reads: the session of a UDP association goes wrong. The other relay,
    [hev_socks5_udp_fwd_f], checks for it. *)
Theorem udp_short_datagram {T L} `{!SearchTree T} `{!LinkedList L} lwip locked (s : udp_task T L) ip0 buf bufs :
  (∀ n, lwip n = []) → sk_type (base (ubase (usess s))) = HEV_SOCKS5_TYPE_UDP_IN_UDP → s_addr (usess s) = 0 → length buf = 1500%nat →
  ¬ safe (hev_socks5_session_udp_fwd_b lwip locked ip0 (buf :: bufs) s).
Proof.
  intros Hno Hty Ha Hb Hs. unfold hev_socks5_session_udp_fwd_b, mbind, P_bind, on_task, on_base in Hs.
  destruct (recv_short AUninit buf (init_msgs bufs) (ubase (usess s)) Hty Hb) as (buf' & c' & tr & Hr).
  eapply safe_after in Hs; [| apply runs_bind; do 3 eexists; split_and!;
    [done | apply runs_bind; do 3 eexists; split_and!; [done | exact Hr | constructor] | constructor]].
  cbn beta iota in Hs. rewrite not_suspended in Hs by done. cbn [io_bind] in Hs. rewrite decide_False in Hs by lia.
  change (Z.to_nat 1) with 1%nat in Hs. cbn [fwd_b_msgs] in Hs.
  rewrite !pgets_bind, decide_False in Hs by (cbn; rewrite Ha; naive_solver). inversion Hs.
Qed.

Lemma udp_short_datagram_witness :
  ¬ safe (hev_socks5_session_udp_fwd_b (λ _, []) (λ _, []) (mkIp 0 []) [replicate 1500 0]
    (udp_task_of (T := rbstore) (mkUSession (hev_socks5_client_udp_construct HEV_SOCKS5_TYPE_UDP_IN_UDP) (ll_empty : lstore) ∅ 0 0 0))).
Proof. by apply (udp_short_datagram (T := rbstore) (L := lstore)). Defined.
