(* ===== verification/SessionTcpRunProps.v ===== *)
(** * Properties of the task of a TCP session

    Every run of the program of [SessionTcpRun] is a path of the step relation
    of [SessionTcp], whose bytes are those of its calls; and a session of
    either protocol gives back its descriptors. *)

From S2P Require Import Prelude Buffer RingBuffer IO Addr Interfaces DList Socks5 Client ClientProps Udp Config Utils SessionTcp SessionTcpProps SessionUdp Session SessionTcpRun SessionUdpRun SessionProps SessionUdpRunProps.

(** ** The bytes of a run *)

(** What the calls of a run moved: written to the socket [fd] and read from
    it, taken by lwIP and given back to its window, whether the socket and the
    connection were shut down, and whether lwIP refused a [tcp_write]. *)
Record flow := mkFlow {
  fl_up : list Z;
  fl_down : list Z;
  fl_out : list Z;
  fl_recved : Z;
  fl_shut : bool;
  fl_fin : bool;
  fl_refused : bool;
}.

Definition flow_step (fd : Z) (fl : flow) (c : ev * resp) : flow :=
  let 'mkFlow up down out recved shut fin refused := fl in
  match c.1 with
  | WriteV f iov =>
      if decide (f = fd) then mkFlow (up ++ take (Z.to_nat (ret c.2)) (concat iov)) down out recved shut fin refused else fl
  | Read f _ => if decide (f = fd) then mkFlow up (down ++ IO.data c.2) out recved shut fin refused else fl
  | TcpWrite bs =>
      if decide (ret c.2 = 0) then mkFlow up down (out ++ bs) recved shut fin refused
      else mkFlow up down out recved shut fin true
  | TcpRecved n => mkFlow up down out (recved + n) shut fin refused
  | Shutdown f => if decide (f = fd) then mkFlow up down out recved true fin refused else fl
  | TcpShutdown => mkFlow up down out recved shut true refused
  | _ => fl
  end.

Definition flow_after (fd : Z) (fl : flow) (tr : list (ev * resp)) : flow := foldl (flow_step fd) fl tr.
Definition no_flow : flow := mkFlow [] [] [] 0 false false false.

(** ** The program follows the relation *)

Section Simulation.
Context (srv : HevConfigServer) (lwip : nat → list callback) (mem : list Z) (size fd : Z).
Context (Hsize : 0 < size ≤ TCP_SND_BUF) (Hmem : Z.of_nat (length mem) = size).

#[local] Existing Instance session_tcp_object.

(** [st] is where the task is, and [fl] what its calls have moved. *)
Record tracks (s : tcp_task) (st : sys) (fl : flow) : Prop := {
  tr_reach : star tcp_step (tcp_init mem size) st;
  tr_self : self st = tsess s;
  tr_conn : conn s = mkConn (inp st) (recved st) (out st) (acked st);
  tr_fd : sk_fd (base (tclient s)) = fd;
  tr_flow : fl = mkFlow (up st) (down st) (out st) (recved st) (fin_up st) (fin_down st) (fl_refused fl);
  tr_lost : fl_refused fl = false → lost st = false;
}.

Definition at_point (c : pc) (rf rb : Z) (st : sys) : Prop := at_pc st = c ∧ res_f st = rf ∧ res_b st = rb.

Definition follows {A} (post : A → sys → Prop) (fl : flow) (r : A * tcp_task) (tr : list (ev * resp)) : Prop :=
  ∃ st, tracks r.2 st (flow_after fd fl tr) ∧ post r.1 st.

Definition simulates {A} (pre : sys → Prop) (m : P tcp_task A) (post : A → sys → Prop) : Prop :=
  ∀ s st fl, tracks s st fl → pre st → wp False (m s) (follows post fl).

(** *** Composition *)

Lemma follows_call {A} e (k : resp → P tcp_task A) s fl (post : A → sys → Prop) :
  (∀ x, valid e x → wp False (k x s) (follows post (flow_step fd fl (e, x)))) →
  wp False ((call e ≫= k) s) (follows post fl).
Proof. intros H. apply wp_call. exact H. Qed.

Lemma follows_call_bind {A B} e (k : resp → P tcp_task A) (f : A → P tcp_task B) s fl (post : B → sys → Prop) :
  (∀ x, valid e x → wp False ((k x ≫= f) s) (follows post (flow_step fd fl (e, x)))) →
  wp False (((call e ≫= k) ≫= f) s) (follows post fl).
Proof. intros H. exact H. Qed.

Lemma follows_then {A B} pre mid (m : P tcp_task A) (k : A → P tcp_task B) s st fl post :
  simulates pre m mid → tracks s st fl → pre st →
  (∀ a s' st' fl', tracks s' st' fl' → mid a st' → wp False (k a s') (follows post fl')) →
  wp False ((m ≫= k) s) (follows post fl).
Proof.
  intros Hm Ht Hp Hk. eapply wp_then; [by eapply Hm |]. intros a s' t1 (st' & Ht' & Hp').
  eapply wp_mono; [by eapply Hk |]. intros r t2 (st2 & Ht2 & Hp2). exists st2. split; [|done].
  unfold flow_after in *. by rewrite foldl_app.
Qed.

Lemma follows_tail {A} pre mid (m : P tcp_task A) s st fl post :
  simulates pre m mid → tracks s st fl → pre st →
  (∀ a s' st' fl', tracks s' st' fl' → mid a st' → ∃ st2, tracks s' st2 fl' ∧ post a st2) →
  wp False (m s) (follows post fl).
Proof.
  intros Hm Ht Hp Hk. eapply wp_mono; [by eapply Hm |]. intros [a s'] tr (st' & Ht' & Hp'). by eapply Hk.
Qed.

Lemma follows_ret {A} (a : A) s st fl (post : A → sys → Prop) : tracks s st fl → post a st → wp False (mret (M := P tcp_task) a s) (follows post fl).
Proof. intros Ht Hp. unfold mret, P_ret. cbn [wp]. by exists st. Qed.

Lemma sim_bind {A B} pre mid (m : P tcp_task A) (k : A → P tcp_task B) post :
  simulates pre m mid → (∀ a, simulates (mid a) (k a) post) → simulates pre (m ≫= k) post.
Proof. intros Hm Hk s st fl Ht Hp. eapply follows_then; [done.. |]. intros. by eapply Hk. Qed.

(** Calls that move nothing. *)
Lemma sim_call {A} e (k : resp → P tcp_task A) pre post :
  (∀ fl x, flow_step fd fl (e, x) = fl) → (∀ x, simulates pre (k x) post) → simulates pre (call e ≫= k) post.
Proof. intros He Hk s st fl Ht Hp. apply follows_call. intros x Hx. rewrite He. by eapply Hk. Qed.

Lemma sim_ret {A} (a : A) pre (post : A → sys → Prop) : (∀ st, pre st → post a st) → simulates pre (mret a) post.
Proof. intros H s st fl Ht Hp. by eapply follows_ret, H. Qed.

(** *** The callbacks *)

Lemma tracks_step s st fl s' st' fl' :
  tracks s st fl → tcp_step st st' → self st' = tsess s' →
  conn s' = mkConn (inp st') (recved st') (out st') (acked st') →
  sk_fd (base (tclient s')) = fd →
  fl' = mkFlow (up st') (down st') (out st') (recved st') (fin_up st') (fin_down st') (fl_refused fl') →
  (fl_refused fl' = false → lost st' = false) → tracks s' st' fl'.
Proof. intros [H1 H2 H3 H4 H5 H6] Hs. intros. split; try done. by eapply star_snoc. Qed.

Lemma terminate_fd b : sk_fd (hev_socks5_set_timeout 0 b) = sk_fd b.
Proof. apply set_timeout_keeps. Qed.

Lemma run_callback_sim cb s st fl c rf rb :
  tracks s st fl → c ≠ Done → at_point c rf rb st →
  ∃ st', tracks (run_callback s cb) st' fl ∧ at_point c rf rb st'.
Proof.
  intros T Hc (Ec & Ef & Eb). unfold run_callback. destruct (allowed cb s) eqn:Ha; [|by exists st].
  pose proof T as [Hr Hs Hn Hfd Hfl Hl]. destruct st as [c' s0 rf' rb' i u r fu d p o a l fin]. cbn in *. subst c' rf' rb' s0.
  rewrite Hn in *. destruct cb as [bs | | n | |]; cbn in Ha |- *.
  - rewrite !andb_true_iff, negb_true_iff in Ha. destruct Ha as [[[H1 H2] H3%bool_decide_eq_true] H4%bool_decide_eq_true].
    rewrite Hn in H4. eexists. split; [eapply (tracks_step _ _ _ _ _ _ T); [by apply cb_recv with (bs := bs) | done..] | by split_and!].
  - eexists. split; [eapply (tracks_step _ _ _ _ _ _ T); [by apply cb_eof | done..] | by split_and!].
  - rewrite !andb_true_iff in Ha. destruct Ha as [[H1 H2%bool_decide_eq_true] H3%bool_decide_eq_true]. rewrite Hn in H3.
    eexists. split; [eapply (tracks_step _ _ _ _ _ _ T); [by apply cb_sent with (n := n) | done..] | by split_and!].
  - eexists. split; [eapply (tracks_step _ _ _ _ _ _ T); [by apply cb_err | try done..] | by split_and!].
    cbn. by rewrite terminate_fd.
  - eexists (mkSys _ _ _ _ _ _ _ _ _ _ _ _ _ _). split; [split; cbn; try done; by rewrite terminate_fd | by split_and!].
Qed.

Lemma suspended_sim c rf rb : c ≠ Done → simulates (at_point c rf rb) (suspended lwip) (λ _, at_point c rf rb).
Proof.
  intros Hc s st fl T Hp. unfold suspended, pmod. cbn [wp].
  assert (∀ cbs s st, tracks s st fl → at_point c rf rb st →
    ∃ st', tracks (foldl run_callback s cbs) st' fl ∧ at_point c rf rb st') as Hall.
  { intros cbs. induction cbs as [|cb cbs IH]; intros s1 st1 T1 P1; [by exists st1 |].
    destruct (run_callback_sim cb s1 st1 fl c rf rb T1 Hc P1) as (st2 & T2 & P2). by apply (IH _ _ T2). }
  destruct (Hall (lwip (tick s)) s st T Hp) as (st' & [H1 H2 H3 H4 H5 H6] & P'). exists st'. split; [|done]. by split.
Qed.

Lemma mutex_lock_sim c rf rb : c ≠ Done → simulates (at_point c rf rb) (mutex_lock lwip) (λ _, at_point c rf rb).
Proof. intros Hc. apply sim_call; [by intros [] | intros x]. by apply suspended_sim. Qed.

Lemma mutex_unlock_sim pre : simulates pre mutex_unlock (λ _, pre).
Proof. apply sim_call; [by intros [] | intros x]. by apply sim_ret. Qed.

Lemma no_progress_sim pre v : simulates pre (no_progress v) (λ res st, pre st ∧ (res = 0 ∨ res = -1)).
Proof.
  unfold no_progress, errno. case_decide; [|apply sim_ret; auto].
  eapply sim_bind with (mid := λ _, pre); [apply sim_call; [by intros [] | intros x; by apply sim_ret] |].
  intros e. apply sim_ret. intros st Hp. split; [done |]. case_decide; auto.
Qed.

Lemma yielder_sim ty c rf rb : c ≠ Done → simulates (at_point c rf rb) (task_io_yielder srv lwip ty) (λ _, at_point c rf rb).
Proof.
  intros Hc. unfold task_io_yielder. eapply sim_bind with (mid := λ _, at_point c rf rb).
  - unfold hev_socks5_task_io_yielder. destruct ty; [apply sim_call; [by intros [] | intros; by apply sim_ret] |].
    unfold get_base. intros s st fl T Hp. rewrite pgets_bind. case_decide.
    + revert T Hp. apply sim_call; [by intros [] | intros; by apply sim_ret].
    + revert T Hp. apply sim_call; [by intros [] | intros x]. case_decide; by apply sim_ret.
  - intros res. eapply sim_bind; [by apply suspended_sim |]. intros. by apply sim_ret.
Qed.

(** Put into a state what [tracks] and its point say of it. *)
Ltac shape T P :=
  let Hn := fresh "Hn" in let Hfl := fresh "Hfl" in let Hs := fresh "Hs" in
  let Hfd := fresh "Hfd" in let Hl := fresh "Hl" in
  let sc := fresh "sc" in let sx := fresh "sx" in let sf := fresh "sf" in let sb := fresh "sb" in
  let si := fresh "si" in let su := fresh "su" in let sr := fresh "sr" in let sfu := fresh "sfu" in
  let sd := fresh "sd" in let sp := fresh "sp" in let so := fresh "so" in let sa := fresh "sa" in
  let sl := fresh "sl" in let sfi := fresh "sfi" in
  match type of T with
  | tracks ?s ?st ?fl =>
      destruct st as [sc sx sf sb si su sr sfu sd sp so sa sl sfi]; try (is_var fl; destruct fl as [? ? ? ? ? ? ?]);
      destruct P as (? & ? & ?); cbn [at_pc res_f res_b] in *; subst;
      pose proof (tr_self _ _ _ T) as Hs; pose proof (tr_conn _ _ _ T) as Hn; pose proof (tr_flow _ _ _ T) as Hfl;
      pose proof (tr_fd _ _ _ T) as Hfd; pose proof (tr_lost _ _ _ T) as Hl;
      cbn in Hs, Hn, Hfl, Hl; injection Hfl as -> -> -> -> -> ->; rewrite Hs in T; clear Hs
  end.

(** One step of the relation. *)
Ltac moved T tac := eapply (tracks_step _ _ _ _ _ _ T); [tac | try done..].

(** *** Forward *)

Lemma follows_fd {A} (k : Z → P tcp_task A) s st fl Q : tracks s st fl →
  wp False (k fd s) Q → wp False ((get_base (H := session_tcp_object srv) sk_fd ≫= k) s) Q.
Proof. intros [_ _ _ H _ _]. intros Hk. unfold get_base. rewrite pgets_bind.
  change (wp False (k (sk_fd (base (tclient s))) s) Q). by rewrite H.
Qed.

Lemma tcp_splice_f_sim rf rb : 0 ≤ rf →
  simulates (at_point AtF rf rb) (tcp_splice_f srv lwip) (λ res, at_point AtB res rb).
Proof.
  intros Hrf s st fl T P. unfold tcp_splice_f. rewrite pgets_bind. eapply follows_fd; [exact T |].
  shape T P. destruct (queue (tsess s)) as [|b q] eqn:Eq.
  { assert (tcp_splice_f_iov (tsess s) = inr (if pcb_eof (tsess s) then (-1, true) else (0, false))) as Ei
      by (unfold tcp_splice_f_iov; by rewrite Eq).
    destruct (pcb_eof (tsess s)).
    - apply follows_call. intros x _. cbn [flow_step fst snd]. rewrite (decide_True (P := fd = fd)) by done. eapply follows_ret.
      + moved T ltac:(eapply f_none; [exact Hrf | exact Ei]). cbn. by rewrite orb_true_r.
      + by split_and!.
    - eapply follows_ret; [moved T ltac:(eapply f_none; [exact Hrf | exact Ei]) |]; [|by split_and!].
      cbn. by rewrite orb_false_r. }
  assert (tcp_splice_f_iov (tsess s) = inl (concat (take 64 (b :: q)))) as Ei
    by (unfold tcp_splice_f_iov; by rewrite Eq).
  apply follows_call. intros x [_ Hx]. cbn [flow_step fst snd]. rewrite (decide_True (P := fd = fd)) by done.
  case_decide as Hret.
  - replace (Z.to_nat (ret x)) with 0%nat by lia. rewrite take_0, app_nil_r.
    eapply follows_tail; [apply (no_progress_sim (λ st, at_point AtF rf rb st ∧ self st = tsess s)) | exact T | by split_and! |].
    intros res s' st' fl' T' [[P' Es] Hres]. rewrite (tr_self _ _ _ T') in Es. shape T' P'. rewrite Es in *.
    eexists. split; [|split_and!].
    { moved T' ltac:(eapply f_fail with (again := bool_decide (res = 0)); [exact Hrf | exact Ei]). }
    all: try done. cbn. case_bool_decide; destruct Hres; congruence.
  - assert (tracks s (mkSys (InF (ret x)) (tsess s) rf rb si (su ++ take (Z.to_nat (ret x)) (concat (take 64 (b :: q)))) sr sfu sd sp so sa sl sfi)
      (mkFlow (su ++ take (Z.to_nat (ret x)) (concat (take 64 (b :: q)))) sd so sr sfu sfi fl_refused0)) as T1.
    { moved T ltac:(rewrite <-(Z2Nat.id (ret x)) at 1 by lia; eapply f_write; [exact Hrf | exact Ei | lia]). }
    eapply follows_then; [by apply (mutex_lock_sim (InF (ret x)) rf rb) | exact T1 | done |].
    intros [] s' st' fl' T' P'. rewrite pgets_bind. shape T' P'.
    destruct (tcp_splice_f_written (ret x) (tsess s')) as [x' len] eqn:Ew. rewrite pmod_bind.
    assert (∀ s2, tsess s2 = x' → tclient s2 = tclient s' →
      conn s2 = mkConn si0 (sr0 + default 0 len) so0 sa0 →
      wp False ((mutex_unlock;; mret 1) s2) (follows (λ res, at_point AtB res rb)
        (mkFlow su0 sd0 so0 (sr0 + default 0 len) sfu0 sfi0 fl_refused1))) as Hend.
    { intros s2 Ex Ec Econ. eapply follows_then; [apply (mutex_unlock_sim (at_point AtB 1 rb)) | | |].
      - moved T' ltac:(by eapply f_written). by rewrite Ec.
      - by split_and!.
      - intros [] s3 st3 fl3 T3 P3. by eapply follows_ret. }
    destruct len as [n|].
    + apply follows_call_bind. intros y _. rewrite pmod_bind. cbn [conn set_tsess]. rewrite Hn0. by apply Hend.
    + rewrite pret_bind. replace sr0 with (sr0 + 0) by lia. apply Hend; [done | done |]. cbn. by rewrite Hn0, Z.add_0_r.
Qed.

(** *** Backward *)

Lemma max_size_step st st' : max_size (buffer (self st)) = size → tcp_step st st' → max_size (buffer (self st')) = size.
Proof.
  intros Hm Hs. destruct Hs; cbn in *; try done.
  - unfold tcp_splice_f_written in H. by simplify_eq.
  - unfold tcp_splice_b_mutex in H. destruct (pcb s); [|by simplify_eq].
    destruct (hev_ring_buffer_reading _); [by simplify_eq |]. destruct (tcp_writes _ _ _). by simplify_eq.
  - unfold hev_ring_buffer_read_release. by case_decide.
Qed.

(** The vectors given to lwIP fit the 16 bits of [tcp_write]. *)
Lemma tracks_reading s st fl : tracks s st fl →
  Forall (λ v, 0 ≤ iov_len v) (hev_ring_buffer_reading (buffer (tsess s))) ∧
  Forall (λ v, iov_len v < 65536) (hev_ring_buffer_reading (buffer (tsess s))).
Proof.
  intros [Hr Hs _ _ _ _]. unfold TCP_SND_BUF in Hsize.
  destruct (session_inv mem size st ltac:(lia) Hmem Hr) as [_ ((rest & _ & _ & Href) & _)].
  rewrite <-Hs. split; [by eapply reading_lengths |].
  assert (max_size (buffer (self st)) = size) as Hm.
  { apply (star_invariant _ (λ st, max_size (buffer (self st)) = size) _ _ max_size_step Hr). cbn. apply Z.mod_small. lia. }
  eapply Forall_impl; [apply (reading_in_bounds _), (ref_wf _ _ Href) |]. cbn. intros v. lia.
Qed.

Definition read_part (x : HevSocks5SessionTCP) : P tcp_task Z :=
  match hev_ring_buffer_writing (buffer x) with
  | [] => mret 0
  | iov =>
      r ← call (Read fd (iov_total iov));
      if decide (ret r ≤ 0) then no_progress (ret r)
      else pmod (set_tsess (set_buffer (ring_write (buffer x) (IO.data r)) x));; mret 1
  end.

Lemma read_part_sim x rf rb : 0 ≤ rb →
  simulates (λ st, at_point AtB rf rb st ∧ self st = x) (read_part x) (λ res, at_point (InB res) rf rb).
Proof.
  intros Hrb s st fl T [P E]. rewrite (tr_self _ _ _ T) in E. subst x. unfold read_part.
  destruct (hev_ring_buffer_writing (buffer (tsess s))) as [|v iov] eqn:Ew.
  { shape T P. eapply follows_ret; [moved T ltac:(by eapply b_full) | by split_and!]. }
  rewrite <-Ew. apply follows_call. intros r [_ Hv]. destruct fl as [fu0 fd0 fo0 fr0 fs0 ff0 fx0].
  cbn [flow_step fst snd]. rewrite (decide_True (P := fd = fd)) by done. case_decide as Hret.
  - destruct Hv as [[? _] | [_ Hd]]; [lia |]. rewrite Hd, app_nil_r.
    eapply follows_tail; [apply (no_progress_sim (λ st, at_point AtB rf rb st ∧ self st = tsess s)) | exact T | split; [done | apply (tr_self _ _ _ T)] |].
    intros res s' st' fl' T' [[P' Es] Hres]. rewrite (tr_self _ _ _ T') in Es. shape T' P'. rewrite Es in *.
    eexists. split; [|split_and!].
    { moved T' ltac:(eapply b_fail with (again := bool_decide (res = 0)); [exact Hrb | by rewrite Ew]). }
    all: try done. cbn. case_bool_decide; destruct Hres; congruence.
  - destruct Hv as [[Hp Hlen] | [? _]]; [|lia]. shape T P.
    rewrite pmod_bind. eapply follows_ret; [moved T ltac:(eapply b_read; [exact Hrb | | ]); lia | by split_and!].
Qed.

(** The loop of [tcp_write]. *)
Lemma tcp_write_iov_spec iov m err s fl :
  wp False (tcp_write_iov iov m err s) (λ r tr, ∃ oks,
    let '(bs, ok) := tcp_writes iov oks m in
    r.2 = set_conn (mkConn (c_inp (conn s)) (c_recved (conn s)) (c_out (conn s) ++ bs) (c_acked (conn s))) s ∧
    flow_after fd fl tr = mkFlow (fl_up fl) (fl_down fl) (fl_out fl ++ bs) (fl_recved fl) (fl_shut fl) (fl_fin fl)
      (fl_refused fl || negb ok) ∧
    (r.1 = 0 ↔ err = 0 ∧ ok = true)).
Proof.
  revert err s fl. induction iov as [|v iov IH]; intros err s fl.
  - exists []. destruct s as [? ? [] ?], fl. cbn. rewrite !app_nil_r, orb_false_r. by split_and!; try (split; intros; tauto).
  - cbn [tcp_write_iov]. apply wp_call. intros x _. rewrite pmod_bind. destruct s as [c t [ci cr co ca] n], fl as [u d o r sh fi re].
    eapply wp_mono; [apply (IH _ _ (flow_step fd (mkFlow u d o r sh fi re) (TcpWrite (slice (iov_base v) (u16 (iov_len v)) m), x))) |].
    intros [a s'] tr (oks & H). exists (bool_decide (ret x = 0) :: oks). cbn [tcp_writes list.head list.tail hd tl default].
    cbn [tcp_writes]. destruct (tcp_writes iov oks m) as [bs ok]. destruct H as (E1 & E2 & E3). cbn in *.
    unfold flow_after in *. cbn [foldl flow_step fst snd]. rewrite E1, E2. destruct (decide (ret x = 0)) as [Hx | Hx].
    + rewrite (bool_decide_eq_true_2 _ Hx). cbn. rewrite <-!app_assoc. split_and!; [done | done |]. by rewrite E3, Hx, Z.lor_0_r.
    + rewrite (bool_decide_eq_false_2 _ Hx). cbn. split_and!; [done | by rewrite orb_true_r |].
      rewrite E3, Z.lor_eq_0_iff. naive_solver.
Qed.

(** [tcp_splice_b] from the mutex on. *)
Definition mutex_part (res : Z) : P tcp_task Z :=
  self ← pgets tsess;
  '(res, err) ←
    (if pcb self then
       match hev_ring_buffer_reading (buffer self) with
       | [] => (if decide (res < 0) then call TcpShutdown;; mret tt else mret tt);; mret (res, 0)
       | iov =>
           err ← tcp_write_iov iov (RingBuffer.data (buffer self)) 0;
           pmod (λ s, set_tsess (set_buffer (hev_ring_buffer_read_finish (buffer (tsess s)) (iov_total iov)) (tsess s)) s);;
           r ← call TcpOutput;
           mret (1, Z.lor err (ret r))
       end
     else mret (res, 0));
  mutex_unlock;;
  self ← pgets tsess;
  mret (if pcb self then if decide (err ≠ 0) then -1 else res else -1).

(** Its end, when the relation has already moved. *)
Lemma b_end s st fl rf res err :
  tracks s st fl → at_point AtYield rf (if pcb (tsess s) then if decide (err ≠ 0) then -1 else res else -1) st →
  wp False ((mutex_unlock;; self ← pgets tsess; mret (if pcb self then if decide (err ≠ 0) then -1 else res else -1)) s)
    (follows (λ r, at_point AtYield rf r) fl).
Proof.
  intros T P. eapply follows_then; [apply (mutex_unlock_sim (λ st', at_point AtYield rf
    (if pcb (tsess s) then if decide (err ≠ 0) then -1 else res else -1) st' ∧ self st' = tsess s)) | exact T | |].
  - split; [exact P | apply (tr_self _ _ _ T)].
  - intros [] s' st' fl' T' [P' E]. rewrite pgets_bind. rewrite (tr_self _ _ _ T') in E. eapply follows_ret; [exact T' |].
    by rewrite E.
Qed.

Lemma splice_b_mutex_writes res oks ok x : pcb x = true → hev_ring_buffer_reading (buffer x) ≠ [] →
  tcp_splice_b_mutex res oks ok x =
    let '(out, all) := tcp_writes (hev_ring_buffer_reading (buffer x)) oks (RingBuffer.data (buffer x)) in
    (set_buffer (hev_ring_buffer_read_finish (buffer x) (iov_total (hev_ring_buffer_reading (buffer x)))) x,
     (if all && ok then 1 else -1), out, false).
Proof. unfold tcp_splice_b_mutex. intros -> Hne. by destruct (hev_ring_buffer_reading (buffer x)). Qed.

Lemma mutex_part_sim res rf rb : simulates (at_point (InB res) rf rb) (mutex_part res) (λ r, at_point AtYield rf r).
Proof.
  intros s st fl T P. unfold mutex_part. rewrite pgets_bind. destruct (tracks_reading _ _ _ T) as [Hpos Hsm].
  shape T P. destruct (pcb (tsess s)) eqn:Epcb.
  2:{ rewrite pret_bind. eapply b_end.
    - moved T ltac:(eapply (b_mutex _ _ _ _ _ _ _ _ _ _ _ _ _ res [] true); unfold tcp_splice_b_mutex; by rewrite Epcb).
      all: cbn; rewrite ?Epcb, ?app_nil_r, ?orb_false_r; done.
    - rewrite Epcb. by split_and!. }
  destruct (hev_ring_buffer_reading (buffer (tsess s))) as [|v iov] eqn:Er.
  - assert (tcp_step (mkSys (InB res) (tsess s) rf rb si su sr sfu sd sp so sa sl sfi)
      (mkSys AtYield (tsess s) rf res si su sr sfu sd sp so sa sl (sfi || bool_decide (res < 0)))) as Hstep.
    { pose proof (b_mutex (tsess s) rf rb si su sr sfu sd sp so sa sl sfi res [] true) as Hm.
      specialize (Hm (tsess s) res [] (bool_decide (res < 0))). unfold tcp_splice_b_mutex in Hm. rewrite Epcb, Er in Hm.
      specialize (Hm eq_refl). cbn in Hm. by rewrite !app_nil_r, orb_false_r in Hm. }
    assert (∀ fl', fl' = mkFlow su sd so sr sfu (sfi || bool_decide (res < 0)) fl_refused0 → wp False
      ((mret (res, 0) ≫= λ '(res, err), mutex_unlock;; self ← pgets tsess;
        mret (if pcb self then if decide (err ≠ 0) then -1 else res else -1)) s) (follows (λ r, at_point AtYield rf r) fl')) as Hk.
    { intros fl' ->. rewrite pret_bind. eapply b_end; [moved T ltac:(exact Hstep) |]. rewrite Epcb. by split_and!. }
    destruct (decide (res < 0)) as [Hneg | Hneg].
    + apply follows_call_bind. intros x _. apply Hk. by rewrite (bool_decide_eq_true_2 _ Hneg), orb_true_r.
    + apply Hk. by rewrite (bool_decide_eq_false_2 _ Hneg), orb_false_r.
  - assert (hev_ring_buffer_reading (buffer (tsess s)) ≠ []) as Hne by (by rewrite Er). rewrite <-Er in *. clear Er.
    set (iovs := hev_ring_buffer_reading (buffer (tsess s))) in *.
    set (m := RingBuffer.data (buffer (tsess s))) in *.
    set (fl0 := mkFlow su sd so sr sfu sfi fl_refused0) in *.
    eapply wp_then with (R := λ r tr, r.1.1 = 1 ∧ pcb (tsess r.2) = true ∧ ∃ st',
      tracks r.2 st' (flow_after fd fl0 tr) ∧ at_point AtYield rf (if decide (r.1.2 ≠ 0) then -1 else 1) st').
    + eapply wp_then; [apply (tcp_write_iov_spec iovs m 0 s fl0) |]. intros err s1 t1 (oks & H).
      destruct (tcp_writes iovs oks m) as [bs ok] eqn:Ew. cbn [fst snd] in H. destruct H as (-> & Hfl & Herr).
      rewrite pmod_bind. apply wp_call. intros y _. unfold mret, P_ret. cbn [wp fst snd].
      split; [done |]. split; [done |]. unfold flow_after in Hfl |- *. rewrite foldl_app, Hfl.
      pose proof (b_mutex (tsess s) rf rb si su sr sfu sd sp so sa sl sfi res oks (bool_decide (ret y = 0))) as Hm.
      rewrite (splice_b_mutex_writes _ _ _ _ Epcb Hne) in Hm. fold iovs m in Hm. rewrite Ew in Hm.
      specialize (Hm _ _ _ _ eq_refl). eexists. split; [moved T ltac:(exact Hm) |].
      * cbn. by rewrite Hn.
      * cbn. by rewrite orb_false_r.
      * cbn. rewrite Epcb. intros [Hre Hok%negb_false_iff]%orb_false_iff. rewrite (Hl Hre). cbn.
        apply bool_decide_eq_false. intros Hd. apply Hd. by apply (tcp_writes_spec _ _ _ _ _ Hpos Ew).
      * split; [done |]. split; [done |]. cbn. rewrite (decide_ext _ (¬ (ok = true ∧ ret y = 0))); [|rewrite Z.lor_eq_0_iff, Herr; tauto].
        destruct (decide (ok = true ∧ ret y = 0)) as [[-> Hy] | Hno].
        -- rewrite decide_False by tauto. by rewrite bool_decide_eq_true_2.
        -- rewrite decide_True by done. destruct ok; [|done]. rewrite bool_decide_eq_false_2; [done | tauto].
    + intros [r e] s' t1 (E1 & Ep & st' & T' & P'). cbn [fst snd] in *. subst r. eapply wp_mono.
      { eapply (b_end s' st' _ rf 1 e T'). by rewrite Ep. }
      intros r t2 (st2 & T2 & P2). exists st2. split; [|exact P2]. unfold flow_after in *. by rewrite foldl_app.
Qed.

Lemma tcp_splice_b_sim rf rb : 0 ≤ rb →
  simulates (at_point AtB rf rb) (tcp_splice_b srv lwip) (λ res, at_point AtYield rf res).
Proof.
  intros Hrb s st fl T P. unfold tcp_splice_b. rewrite pgets_bind. eapply follows_fd; [exact T |].
  eapply follows_then; [apply (read_part_sim (tsess s) rf rb Hrb) | exact T | split; [exact P | apply (tr_self _ _ _ T)] |].
  intros res s1 st1 fl1 T1 P1.
  eapply follows_then; [by apply (mutex_lock_sim (InB res) rf rb) | exact T1 | exact P1 |].
  intros [] s2 st2 fl2 T2 P2. by apply (mutex_part_sim res rf rb s2 st2 fl2).
Qed.

(** *** The loop, the wait and the splicer *)

Lemma splice_f_sim rf rb :
  simulates (at_point AtF rf rb) (if decide (0 ≤ rf) then tcp_splice_f srv lwip else mret rf) (λ res, at_point AtB res rb).
Proof.
  case_decide; [by apply tcp_splice_f_sim |]. intros s st fl T P. shape T P.
  eapply follows_ret; [moved T ltac:(apply f_skip; lia) | by split_and!].
Qed.

Lemma splice_b_sim rf rb :
  simulates (at_point AtB rf rb) (if decide (0 ≤ rb) then tcp_splice_b srv lwip else mret rb) (λ res, at_point AtYield rf res).
Proof.
  case_decide; [by apply tcp_splice_b_sim |]. intros s st fl T P. shape T P.
  eapply follows_ret; [moved T ltac:(apply b_skip; lia) | by split_and!].
Qed.

(** Where the task is when its fuel runs out or the loop is left. *)
Definition loop_ends (o : option unit) (st : sys) : Prop := at_pc st = if o is Some _ then AtDrain else AtF.

Lemma loop_sim fuel rf rb : simulates (at_point AtF rf rb) (tcp_splice_loop srv lwip fuel rf rb) loop_ends.
Proof.
  revert rf rb. induction fuel as [|fuel IH]; intros rf rb; cbn [tcp_splice_loop].
  { apply sim_ret. by intros st (E & _). }
  eapply sim_bind; [apply splice_f_sim | intros rf']. eapply sim_bind; [apply splice_b_sim | intros rb'].
  assert (∀ ty, after_splice rf' rb' = true → simulates (at_point AtYield rf' rb')
    (stop ← task_io_yielder srv lwip ty; if decide (stop < 0) then mret (Some tt) else tcp_splice_loop srv lwip fuel rf' rb')
    loop_ends) as Hnext.
  { intros ty Hgo. eapply sim_bind; [by apply yielder_sim | intros stop]. intros s st fl T P. shape T P. case_decide.
    - eapply follows_ret; [moved T ltac:(by apply yield_loop with (go := false)) | done].
    - eapply IH; [moved T ltac:(by apply yield_loop with (go := true)) | by split_and!]. }
  unfold after_splice in Hnext. destruct (decide (0 < rf' ∨ 0 < rb')) as [H1 | H1]; [apply Hnext; by rewrite (bool_decide_eq_true_2 _ H1) |].
  destruct (decide (Z.land rf' rb' = 0)) as [H2 | H2]; [apply Hnext; by rewrite (bool_decide_eq_true_2 _ H2), orb_true_r |].
  intros s st fl T P. shape T P. eapply follows_ret; [moved T ltac:(apply yield_break) | done].
  unfold after_splice. by rewrite (bool_decide_eq_false_2 _ H1), (bool_decide_eq_false_2 _ H2).
Qed.

Definition drain_ends (o : option unit) (st : sys) : Prop := at_pc st = if o is Some _ then Done else AtDrain.

Lemma drain_sim fuel rf rb : simulates (at_point AtDrain rf rb) (tcp_drain srv lwip fuel) drain_ends.
Proof.
  induction fuel as [|fuel IH]; cbn [tcp_drain]; [apply sim_ret; by intros st (E & _) |].
  intros s st fl T P. rewrite pgets_bind. destruct (pcb (tsess s)) eqn:Ep.
  2:{ shape T P. eapply follows_ret; [moved T ltac:(apply drain_done; by left) | done]. }
  case_decide as Hu.
  { shape T P. eapply follows_ret; [moved T ltac:(apply drain_done; by right) | done]. }
  revert T P. eapply sim_bind; [by apply yielder_sim | intros stop]. case_decide; [|apply IH].
  clear dependent s st fl. intros s st fl T P. shape T P.
  destruct (decide (pcb (tsess s) = true ∧ hev_ring_buffer_get_use_size (buffer (tsess s)) ≠ 0)) as [[Hp Hu] | Hd].
  - eapply follows_ret; [moved T ltac:(by apply drain_wait with (go := false)) | done].
  - eapply follows_ret; [moved T ltac:(apply drain_done) | done].
    destruct (pcb (tsess s)); [right | by left]. apply dec_stable. intros Hu. by apply Hd.
Qed.

(** Before the buffer is there: the callbacks do not touch it, since lwIP has
    nothing to acknowledge. *)
Definition with_buffer (s : tcp_task) : tcp_task :=
  set_tsess (set_buffer (hev_ring_buffer_alloca mem size) (tsess s)) s.

Lemma early_callback s cb : c_out (conn s) = [] →
  c_out (conn (run_callback s cb)) = [] ∧ with_buffer (run_callback s cb) = run_callback (with_buffer s) cb.
Proof.
  intros Ho. destruct s as [c x [i r o a] n]. cbn in Ho. subst o. unfold run_callback.
  assert (allowed cb (with_buffer (mkTask c x (mkConn i r [] a) n)) = allowed cb (mkTask c x (mkConn i r [] a) n)) as -> by by destruct cb.
  destruct (allowed cb _) eqn:Ha; [|done]. destruct cb as [bs | | len | |]; try done. exfalso.
  cbn in Ha. rewrite !andb_true_iff in Ha. destruct Ha as [[_ H1%bool_decide_eq_true] H2%bool_decide_eq_true]. lia.
Qed.

Lemma early_callbacks cbs s : c_out (conn s) = [] →
  with_buffer (foldl run_callback s cbs) = foldl run_callback (with_buffer s) cbs.
Proof.
  revert s. induction cbs as [|cb cbs IH]; intros s Ho; [done |]. cbn [foldl].
  destruct (early_callback s cb Ho) as [Ho' E]. by rewrite IH, E.
Qed.

(** Where the task is when its fuel runs out or it is done. *)
Definition splice_ends (o : option unit) (st : sys) : Prop :=
  if o is Some _ then at_pc st = Done else at_pc st = AtF ∨ at_pc st = AtDrain.

Lemma splice_sim c fuel : sk_fd (base c) = fd →
  wp False (hev_socks5_session_tcp_splice srv lwip mem size fuel (tcp_task_of c)) (λ r tr, ∃ s st,
    (s = r.2 ∧ splice_ends r.1 st ∨ s = with_buffer r.2 ∧ pcb (tsess s) = false ∧ tr = [] ∧ at_pc st = AtF) ∧
    tracks s st (flow_after fd no_flow tr)).
Proof.
  intros Hc. unfold hev_socks5_session_tcp_splice, suspended. rewrite pmod_bind, pgets_bind.
  set (s0 := tcp_task_of c). set (s1 := foldl run_callback s0 (lwip (tick s0))).
  set (s2 := mkTask _ _ _ _). assert (tracks (with_buffer s0) (tcp_init mem size) no_flow) as T0.
  { split; try done. apply star_refl. }
  assert (∃ st, tracks (with_buffer s2) st no_flow ∧ at_point AtF 1 1 st) as (st & T & P).
  { destruct (suspended_sim AtF 1 1 ltac:(done) (with_buffer s0) _ _ T0 ltac:(by split_and!)) as (st & T & P). exists st.
    split; [|exact P]. cbn [wp fst snd] in T. unfold flow_after in T. cbn [foldl] in T.
    enough (with_buffer s2 = mkTask (tclient (with_buffer s1)) (tsess (with_buffer s1)) (conn (with_buffer s1)) 1) as -> by
      (unfold s1; rewrite early_callbacks by done; exact T). done. }
  destruct (pcb (tsess s2)) eqn:Ep.
  - rewrite pmod_bind. change (set_tsess _ s2) with (with_buffer s2).
    eapply (wp_mono _ _ (follows splice_ends no_flow)); [|intros r tr (st' & T' & P'); exists r.2, st'; split; [by left | exact T']].
    eapply follows_then; [apply loop_sim | exact T | exact P |]. intros o s3 st3 fl3 T3 P3. destruct o as [[]|].
    + eapply follows_tail; [apply (drain_sim fuel (res_f st3) (res_b st3)) | exact T3 | by split_and! |].
      intros o s4 st4 fl4 T4 P4. exists st4. split; [done |]. destruct o; [done | by right].
    + eapply follows_ret; [exact T3 | by left].
  - unfold mret, P_ret. cbn [wp fst snd]. exists (with_buffer s2), st. split; [|exact T]. right. split_and!; try done. apply P.
Qed.
End Simulation.

(** ** The descriptors of a TCP session *)

Section Descriptors.
Context (srv : HevConfigServer) (lwip : nat → list callback) (mem : list Z) (size : Z).

#[local] Existing Instances session_tcp_object session_tcp_client.

Definition tv (s : tcp_task) : Z := sk_fd (base (tclient s)).

(** A program whose view is the control connection, as one of the class. *)
Lemma quiet_tv {A} (m : P tcp_task A) : quiet tv m → quiet (λ s, (tv s, @nil Z)) m.
Proof. intros H s l. eapply wp_mono; [apply (H s l) |]. intros r tr [E F]. by rewrite E. Qed.

Lemma run_callback_tv s cb : tv (run_callback s cb) = tv s.
Proof.
  unfold run_callback. destruct (allowed cb s); [|done]. destruct s as [c x [i r o a] n].
  destruct cb; try done; unfold tv; cbn; apply terminate_fd.
Qed.

Lemma suspended_quiet : quiet tv (suspended lwip).
Proof.
  apply quiet_pmod. intros s. unfold tv. cbn. change (tv (foldl run_callback s (lwip (tick s))) = tv s).
  generalize (lwip (tick s)) as cbs. intros cbs. revert s. induction cbs as [|cb cbs IH]; intros s; [done |]. cbn [foldl].
  by rewrite IH, run_callback_tv.
Qed.

Lemma tcp_yielder_quiet ty : quiet tv (task_io_yielder srv lwip ty).
Proof. pose proof suspended_quiet. unfold task_io_yielder, hev_socks5_task_io_yielder, get_base. quiet. Qed.

Ltac tquiet :=
  repeat first [ apply quiet_pmod; intros [? ? [] ?]; reflexivity | progress quiet ].

Lemma mutex_lock_quiet : quiet tv (mutex_lock lwip).
Proof. pose proof suspended_quiet. unfold mutex_lock. tquiet. Qed.

Lemma splice_f_quiet : quiet tv (tcp_splice_f srv lwip).
Proof.
  pose proof mutex_lock_quiet. unfold tcp_splice_f, no_progress, errno, mutex_unlock, get_base. tquiet.
Qed.

Lemma write_iov_quiet iov m err : quiet tv (tcp_write_iov iov m err).
Proof. revert err. induction iov; intros err; cbn [tcp_write_iov]; tquiet; auto. Qed.

Lemma splice_b_quiet : quiet tv (tcp_splice_b srv lwip).
Proof.
  pose proof mutex_lock_quiet. pose proof write_iov_quiet.
  unfold tcp_splice_b, no_progress, errno, mutex_unlock, get_base. tquiet.
Qed.

Lemma splice_loop_quiet fuel rf rb : quiet tv (tcp_splice_loop srv lwip fuel rf rb).
Proof.
  pose proof splice_f_quiet. pose proof splice_b_quiet. pose proof tcp_yielder_quiet.
  revert rf rb. induction fuel as [|fuel IH]; intros rf rb; cbn [tcp_splice_loop]; tquiet.
Qed.

Lemma drain_quiet fuel : quiet tv (tcp_drain srv lwip fuel).
Proof. pose proof tcp_yielder_quiet. induction fuel as [|fuel IH]; cbn [tcp_drain]; tquiet. Qed.

Lemma tcp_splice_quiet fuel : quiet tv (hev_socks5_session_tcp_splice srv lwip mem size fuel).
Proof.
  pose proof suspended_quiet. pose proof splice_loop_quiet. pose proof drain_quiet.
  unfold hev_socks5_session_tcp_splice. tquiet.
Qed.

#[local] Instance session_tcp_owns : OwnsFds (Socks5Client0 := session_tcp_client srv) tcp_task.
Proof. by refine {| own := λ _, [] |}. Defined.

Lemma tcp_destruct_closes (c : HevSocks5ClientTCP) l :
  wp True (hev_socks5_client_tcp_destruct c)
    (λ _ tr, fds_after ((if decide (0 ≤ sk_fd (base c)) then [sk_fd (base c)] else []) ++ l) tr = Some l).
Proof.
  unfold hev_socks5_client_tcp_destruct, hev_socks5_client_destruct, hev_socks5_destruct, get_base.
  rewrite pgets_bind. set (l0 := _ ++ l).
  eapply (wp_then _ _ _ _ (λ r tr, r.2 = c ∧ fds_after l0 tr = Some l0)).
  { destruct (tcp_addr c); [|done]. by apply (quiet_bind id); [apply quiet_call | intros; apply quiet_ret]. }
  intros [] c1 t1 [E F]. cbn [snd] in E. subst c1. rewrite pgets_bind. subst l0. destruct (decide (0 ≤ sk_fd (base c))).
  - eapply wp_mono; [apply del_close_spec |]. intros r tr (_ & _ & F2). rewrite (fds_after_app _ _ _ _ F).
    apply F2. cbn. by rewrite decide_True.
  - unfold mret, P_ret. cbn [wp]. by rewrite app_nil_r.
Qed.

Lemma tcp_destruct_closing : closing (OwnsFds0 := session_tcp_owns) (hev_socks5_session_tcp_destruct lwip).
Proof.
  unfold hev_socks5_session_tcp_destruct, mutex_unlock.
  apply closing_after; [apply quiet_tv, mutex_lock_quiet | intros _].
  apply closing_after; [apply quiet_tv, quiet_pgets | intros x].
  do 3 (apply closing_after; [apply quiet_tv; tquiet | intros _]).
  intros s l. unfold on_client. apply wp_bind. eapply wp_mono; [apply tcp_destruct_closes |].
  intros [[] c] tr F. cbn [wp]. by rewrite app_nil_r.
Qed.

Lemma session_tcp_ok :
  session_ok (Socks5Session0 := session_tcp_is_session srv lwip mem size) (OwnsFds0 := session_tcp_owns).
Proof.
  split_and!.
  - intros ub fd sa c. apply session_bind_silent.
  - intros fuel. apply (quiet_tv _ (tcp_splice_quiet fuel)).
  - apply tcp_destruct_closing.
Qed.
End Descriptors.

(** ** The claims *)

(** C7. The task of a session, from its construction on, for every answer of
    the system, the resolver and the SOCKS5 server, in both handshakes, on
    every error path and for every interleaving with lwIP: when it ends,
    exactly the descriptors are open that were open before, none has been
    closed twice and none that is not the session's.  While it runs, a TCP
    session has its control connection besides them, and a UDP session its
    control connection and the socket of its association. *)
Theorem sessions_give_back p4 p6 g srv frame name user pass fuel l :
  pton_ok 4 p4 → pton_ok 16 p6 →
  (∀ lwip mem size (s : tcp_task), sk_fd (base (tclient s)) = -1 →
    wp True (session_task p4 p6 g frame srv name user pass fuel s
        (Socks5Session0 := session_tcp_is_session srv lwip mem size))
      (λ r tr, fds_after l tr = Some (match r.1 with
         | Some _ => l
         | None => (if decide (0 ≤ sk_fd (base (tclient r.2))) then [sk_fd (base (tclient r.2))] else []) ++ l
         end))) ∧
  (∀ {T L} `{!SearchTree T} `{!LinkedList L} lwip locked ip0 bufs (s : udp_task T L),
    udp_fd (ubase (usess s)) = -1 → sk_fd (base (ubase (usess s))) = -1 →
    wp True (session_task p4 p6 g frame srv name user pass fuel s
        (Socks5Session0 := session_udp_is_session p4 p6 g srv lwip locked ip0 bufs))
      (λ r tr, fds_after l tr = Some (match r.1 with
         | Some _ => l
         | None => filter (λ fd, 0 ≤ fd) [udp_fd (ubase (usess r.2)); sk_fd (base (ubase (usess r.2)))] ++ l
         end))).
Proof.
  intros H4 H6. split; [|intros; by apply udp_session_gives_back].
  intros lwip mem size s Hfd. eapply wp_mono.
  { apply (session_task_spec (Socks5Session0 := session_tcp_is_session srv lwip mem size)
      (OwnsFds0 := session_tcp_owns srv) p4 p6 g frame srv name user pass fuel s l H4 H6 (session_tcp_ok srv lwip mem size)).
    - done.
    - change (sk_fd (base (tclient s)) < 0). lia. }
  intros [[[]|] s'] tr F; [exact F |]. rewrite F. by cbn.
Qed.

(** A session whose client sends two bytes and its end, and whose server
    answers one. *)
Definition demo_lwip (n : nat) : list callback :=
  match n with 0%nat => [Cb_recv [104; 105]; Cb_eof] | 3%nat => [Cb_sent 1] | _ => [] end.
Definition demo_client : HevSocks5ClientTCP :=
  mkClientTCP (hev_socks5_client_construct HEV_SOCKS5_TYPE_TCP) (Some [1; 10; 0; 0; 1; 0; 80]).
Definition demo_tcp_session : Socks5Session tcp_task := session_tcp_is_session (srv config_zero) demo_lwip (replicate 4 0) 4.
Definition demo_tcp_task := session_task demo_p4 (λ _, None) misc_init (replicate SIZEOF_ADDR 0) (srv config_zero) [108] None None 5
  (tcp_task_of demo_client) (Socks5Session0 := demo_tcp_session).
Definition demo_relay : list resp := [val 2; val 0; val 0; val 0; got [9]; val 0; val 0; val 0; val 0; val 0; val 0; val 0; val 0; val 0; val 0].
Definition demo_tcp_answers : list resp :=
  [val 3; val 0; val 0; val 0; val 3; got [5; 0]; val 10; val 0; got [5; 0; 0; 1]; got [0; 0; 0; 0; 0; 0]] ++ demo_relay ++ [val 0; val 0; val 0; val 0; val 0].

Lemma sessions_give_back_witness :
  ∃ tr s', runs demo_tcp_task tr (Some tt, s') ∧ (Socket AF_INET6 SOCK_STREAM, val 3) ∈ tr ∧ fds_after [1] tr = Some [1].
Proof.
  destruct (play demo_tcp_task demo_tcp_answers) as [[[o s'] tr]|] eqn:E; [|by vm_compute in E].
  assert (o = Some tt) as -> by (vm_compute in E; congruence).
  assert (runs demo_tcp_task tr (Some tt, s')) as Hr.
  { eapply play_runs; [exact E |]. vm_compute in E. injection E as <- <-.
    repeat (constructor; [repeat constructor; cbn; lia |]). constructor. }
  exists tr, s'. split; [exact Hr |]. split; [vm_compute in E; injection E as <- <-; by left |].
  eapply (wp_runs True demo_tcp_task _ tr _ (proj1 (sessions_give_back demo_p4 (λ _, None) misc_init (srv config_zero)
    (replicate SIZEOF_ADDR 0) [108] None None 5 [1] ltac:(by intros ? ? [= <-]) ltac:(done))
    demo_lwip (replicate 4 0) 4 (tcp_task_of demo_client) eq_refl) Hr).
Defined.

(** C22. The program of a TCP session, with the connection of lwIP that its
    client was built for, a buffer of a configured size, and any callbacks at
    each of its waits. It never goes wrong, and every run of it is a path of
    the step relation: to the end of the relay, unless it is still running or
    the connection was gone before it began. The bytes of its calls are those
    of the path, so that what it wrote to the socket is what lwIP delivered, in
    order, all of it once the socket is shut down; what it gave lwIP, unless
    lwIP refused a part, is what the socket delivered, all of it once the
    connection is shut down; and it gave back to the window what it wrote. *)
Theorem tcp_task_refines srv lwip mem size c fuel :
  0 < size ≤ TCP_SND_BUF → Z.of_nat (length mem) = size →
  wp False (hev_socks5_session_tcp_splice srv lwip mem size fuel (tcp_task_of c)) (λ r tr,
    let fl := flow_after (sk_fd (base c)) no_flow tr in
    let 'mkConn inp recved out acked := conn r.2 in
    (∃ st, star tcp_step (tcp_init mem size) st ∧
       (r.1 = None ∨ at_pc st = Done ∨ tr = [] ∧ pcb (tsess r.2) = false) ∧
       queue (self st) = queue (tsess r.2) ∧ pcb (self st) = pcb (tsess r.2) ∧ pcb_eof (self st) = pcb_eof (tsess r.2) ∧
       SessionTcp.inp st = inp ∧ up st = fl_up fl ∧ SessionTcp.recved st = recved ∧ fin_up st = fl_shut fl ∧
       down st = fl_down fl ∧ SessionTcp.out st = out ∧ SessionTcp.acked st = acked ∧ fin_down st = fl_fin fl ∧
       (fl_refused fl = false → lost st = false)) ∧
    recved = fl_recved fl ∧ out = fl_out fl ∧
    (∃ rest, inp = fl_up fl ++ rest) ∧ (fl_shut fl = true → fl_up fl = inp) ∧
    (fl_refused fl = false → (∃ rest, fl_down fl = fl_out fl ++ rest) ∧ (fl_fin fl = true → fl_out fl = fl_down fl))).
Proof.
  intros Hs Hm. pose proof Hs as Hs'. unfold TCP_SND_BUF in Hs'.
  eapply wp_mono; [by apply (splice_sim srv lwip mem size (sk_fd (base c)) Hs Hm c fuel) |].
  intros r tr (s & st & Hend & [Hr Hself Hconn _ Hfl Hl]). cbv zeta. set (fl := flow_after _ _ _) in *.
  destruct (session_inv mem size st ltac:(lia) Hm Hr) as [(u0 & Hi & Hu & Hn & _ & _ & _ & _ & _ & Hsh)
    ((rest & Hin & _ & _) & _ & Hlo & Hfi)].
  assert (conn r.2 = conn s ∧ queue (tsess s) = queue (tsess r.2) ∧ pcb (tsess s) = pcb (tsess r.2) ∧
    pcb_eof (tsess s) = pcb_eof (tsess r.2)) as (Ec & Eq & Ep & Ee) by by destruct Hend as [[-> _] | [-> _]].
  rewrite Ec, Hconn, Hfl in *. cbn in *. rewrite <-Hself in *. split_and!; try done.
  - exists st. split_and!; try done. destruct Hend as [[_ He] | (_ & Hp & Ht & _)]; [|right; right; by rewrite <-Ep].
    destruct r.1; [by right; left | by left].
  - exists (drop (written (at_pc st)) (concat (queue (self st)))). by rewrite Hi, Hu, <-app_assoc, take_drop.
  - intros E. destruct (Hsh E) as [_ E2]. by rewrite Hi, Hu, E2, take_nil.
  - intros E. rewrite (Hlo (Hl E)). split; [by exists rest |]. intros E2. by destruct (Hfi E2) as (_ & ? & _).
Qed.

Lemma tcp_task_refines_witness :
  ∃ tr s', runs (hev_socks5_session_tcp_splice (srv config_zero) demo_lwip (replicate 4 0) 4 5
      (tcp_task_of (set_base (set_sk_fd 3 (base demo_client)) demo_client))) tr (Some tt, s') ∧
    flow_after 3 no_flow tr = mkFlow [104; 105] [9] [9] 2 true true false ∧
    ∃ st, star tcp_step (tcp_init (replicate 4 0) 4) st ∧ at_pc st = Done ∧ up st = [104; 105] ∧ out st = [9] ∧ acked st = 1%nat.
Proof.
  set (c := set_base (set_sk_fd 3 (base demo_client)) demo_client).
  set (prog := hev_socks5_session_tcp_splice (srv config_zero) demo_lwip (replicate 4 0) 4 5 (tcp_task_of c)).
  destruct (play prog demo_relay) as [[[o s'] tr]|] eqn:E; [|by vm_compute in E].
  assert (o = Some tt) as -> by (vm_compute in E; congruence).
  assert (runs prog tr (Some tt, s')) as Hr.
  { eapply play_runs; [exact E |]. vm_compute in E. injection E as <- <-.
    repeat (constructor; [repeat constructor; cbn; lia |]). constructor. }
  assert (flow_after 3 no_flow tr = mkFlow [104; 105] [9] [9] 2 true true false ∧ pcb (tsess s') = true ∧
    conn s' = mkConn [104; 105] 2 [9] 1) as (Hfl & Hp & Hc) by (vm_compute in E; injection E as <- <-; done).
  exists tr, s'. split; [exact Hr |]. split; [exact Hfl |].
  pose proof (wp_runs False prog _ tr _ (tcp_task_refines (srv config_zero) demo_lwip (replicate 4 0) 4 c 5
    ltac:(unfold TCP_SND_BUF; lia) eq_refl) Hr) as H.
  cbv zeta in H. change (sk_fd (base c)) with 3 in H. cbn [fst snd] in H. rewrite Hc, Hfl in H.
  destruct H as ((st & H1 & H2 & _ & _ & _ & _ & H3 & _ & _ & _ & H4 & H5 & _) & _).
  exists st. split_and!; [exact H1 | | exact H3 | exact H4 | exact H5].
  destruct H2 as [? | [? | [_ ?]]]; congruence.
Defined.
