(* ===== verification/Sync.v ===== *)
(** * Starting and stopping the tunnel

    Model of the synchronisation in [src/hev-socks5-tunnel.c]: the thread that
    calls [hev_socks5_tunnel_init], [hev_socks5_tunnel_run] and
    [hev_socks5_tunnel_fini], over and over, and any number of calls of
    [hev_socks5_tunnel_stop] from other threads.  They share the atomic word
    [tsync], the socket pair [event_fds] and the variable [run].  A step is one
    atomic operation, or the code up to the next one. *)

From S2P Require Import Prelude.

(** ** The shared state *)

Definition SYNC_SEND : Z := 1.
Definition SYNC_SENT : Z := 2.
Definition SYNC_WAIT : Z := 4.
Definition SYNC_STOP : Z := 8.

(** [event_fds] are descriptors when [event_open], and -1 otherwise;
    [event_bytes] is what the pair holds. *)
Record sync := mkSync {
  tsync : Z;
  event_open : bool;
  event_bytes : nat;
  run : bool;
}.

Definition set_tsync (t : Z) (s : sync) : sync := mkSync t (event_open s) (event_bytes s) (run s).
Definition set_run (r : bool) (s : sync) : sync := mkSync (tsync s) (event_open s) (event_bytes s) r.
Definition set_event (o : bool) (n : nat) (s : sync) : sync := mkSync (tsync s) o n (run s).

(** [tsync] when the program starts. *)
Definition sync_init : sync := mkSync 0 false 0 false.

(** [atomic_fetch_or (&tsync, m)] and [atomic_fetch_and (&tsync, ~m)]; the old
    value is [tsync s]. *)
Definition fetch_or (m : Z) (s : sync) : sync := set_tsync (Z.lor (tsync s) m) s.
Definition fetch_clear (m : Z) (s : sync) : sync := set_tsync (Z.land (tsync s) (Z.lnot m)) s.
Definition flag (t m : Z) : bool := bool_decide (Z.land t m ≠ 0).

(** ** [hev_socks5_tunnel_stop] *)

(** Before taking [SYNC_WAIT]; with it and the old value; before the byte is
    written; before giving it back; returned. *)
Inductive stop_pc :=
| S_wait
| S_have (res : Z)
| S_write
| S_release
| S_done.

(** [None]: the call writes to a descriptor that is not open, or it is over. *)
Definition stop_step (p : stop_pc) (s : sync) : option (stop_pc * sync) :=
  match p with
  | S_wait =>
      let res := tsync s in
      Some (if flag res SYNC_WAIT then S_wait else S_have res, fetch_or SYNC_WAIT s)
  | S_have res =>
      if flag res SYNC_SEND then
        Some (if flag (tsync s) SYNC_SENT then S_release else S_write, fetch_or SYNC_SENT s)
      else Some (S_release, fetch_or SYNC_STOP s)
  | S_write =>
      if event_open s then Some (S_release, set_event true (S (event_bytes s)) s) else None
  | S_release => Some (S_done, fetch_clear SYNC_WAIT s)
  | S_done => None
  end.

#[export] Instance stop_pc_dec : EqDecision stop_pc.
Proof. solve_decision. Defined.

(** ** The thread of the tunnel *)

(** Outside; in [hev_socks5_tunnel_init] before the socket pair, and behind
    it; in [hev_socks5_tunnel_run] before it looks at [SYNC_STOP], and before
    it sets [run]; in [hev_task_system_run] while the event task waits for a
    byte, has it, has cleared [run], and until every task has ended; in
    [hev_socks5_tunnel_fini] before the barrier, and behind it. *)
Inductive main_pc :=
| M_idle
| M_init
| M_inited
| M_run
| M_tasks
| M_loop
| M_event
| M_event_sent
| M_ending
| M_fini
| M_close.

#[export] Instance main_pc_dec : EqDecision main_pc.
Proof. solve_decision. Defined.

(** [ok] is the outcome of the parts of the initialisation; [None]: the event
    task waits. [hev_task_io_read] takes up to the four bytes of [val]. *)
Definition main_step (ok : bool) (p : main_pc) (s : sync) : option (main_pc * sync) :=
  match p with
  | M_idle => Some (M_init, s)
  | M_init => Some (if ok then (M_inited, set_event true 0 s) else (M_fini, s))
  | M_inited => Some (if ok then (M_run, fetch_or SYNC_SEND s) else (M_fini, s))
  | M_run => Some (if flag (tsync s) SYNC_STOP then M_fini else M_tasks, fetch_clear SYNC_STOP s)
  | M_tasks => Some (M_loop, set_run true s)
  | M_loop =>
      if decide (event_bytes s = 0%nat) then None
      else Some (M_event, set_event true (event_bytes s - 4) s)
  | M_event => Some (M_event_sent, set_run false s)
  | M_event_sent => Some (M_ending, fetch_clear SYNC_SENT s)
  | M_ending => Some (M_fini, s)
  | M_fini =>
      Some (if flag (tsync s) SYNC_WAIT then M_fini else M_close, fetch_clear (Z.lor SYNC_SEND SYNC_SENT) s)
  | M_close => Some (M_idle, set_event false 0 s)
  end.

(** ** Interleavings *)

(** [asked] records that a stop call left its request where the current run
    looks: the byte in the socket pair, or [SYNC_STOP] before the run looks at
    it. The code does not read it. *)
Record sys := mkSys {
  main : main_pc;
  sh : sync;
  stops : list stop_pc;
  asked : bool;
}.

Definition sys_init : sys := mkSys M_idle sync_init [] false.

(** Before [hev_socks5_tunnel_run] has looked at [SYNC_STOP]. *)
Definition before_check (p : main_pc) : bool :=
  match p with M_idle | M_init | M_inited | M_run => true | _ => false end.

(** The steps of a stop call that leave the request. *)
Definition leaves_request (p : main_pc) (q : stop_pc) (s : sync) : bool :=
  match q with
  | S_have res => if flag res SYNC_SEND then flag (tsync s) SYNC_SENT else before_check p
  | S_write => true
  | _ => false
  end.

Inductive sys_step : sys → sys → Prop :=
| step_main ok p p' s s' st a :
    main_step ok p s = Some (p', s') →
    sys_step (mkSys p s st a)
      (mkSys p' s' st (if decide (p = M_close) then false else a))
| step_call p s st a :
    sys_step (mkSys p s st a) (mkSys p s (st ++ [S_wait]) a)
| step_stop p s s' st a i q q' :
    st !! i = Some q → stop_step q s = Some (q', s') →
    sys_step (mkSys p s st a)
      (mkSys p s' (<[i := q']> st)
        (a || leaves_request p q s)).

(** A stop call that nothing interrupts, as in the signal handler of a program
    with one thread; [None] when it goes wrong or spins. *)
Fixpoint stop_alone (fuel : nat) (p : main_pc) (q : stop_pc) (s : sync) (a : bool) : option (sync * bool) :=
  match q, fuel with
  | S_done, _ => Some (s, a)
  | _, O => None
  | q, S fuel => '(q', s') ← stop_step q s; stop_alone fuel p q' s' (a || leaves_request p q s)
  end.

(** [hev_socks5_tunnel_stop]: at most four operations when the lock is free. *)
Definition hev_socks5_tunnel_stop (st : sys) : option sys :=
  '(s, a) ← stop_alone 4 (main st) S_wait (sh st) (asked st); Some (mkSys (main st) s (stops st ++ [S_done]) a).
