(* ===== verification/SyncProps.v ===== *)
(** * Properties of starting and stopping

    One invariant of all interleavings carries them: [SYNC_WAIT] is a lock
    between the stop calls, which the barrier of [hev_socks5_tunnel_fini]
    waits for, and [SYNC_SEND] is set only while the socket pair is open.  The
    executions of the threads are sequences of their steps, fair when a thread
    that can take a step is not passed over for ever; a request ends the run in
    all of them, because there is always a thread ([leader]) whose next step is
    progress. *)

From S2P Require Import Prelude Sync.

(** ** The word as four flags *)

Definition enc (send sent wait stop : bool) : Z :=
  (if send then SYNC_SEND else 0) + (if sent then SYNC_SENT else 0) +
  (if wait then SYNC_WAIT else 0) + (if stop then SYNC_STOP else 0).

Lemma flag_enc a b c d :
  flag (enc a b c d) SYNC_SEND = a ∧ flag (enc a b c d) SYNC_SENT = b ∧
  flag (enc a b c d) SYNC_WAIT = c ∧ flag (enc a b c d) SYNC_STOP = d.
Proof. by destruct a, b, c, d. Qed.

Lemma lor_enc a b c d :
  Z.lor (enc a b c d) SYNC_SEND = enc true b c d ∧ Z.lor (enc a b c d) SYNC_SENT = enc a true c d ∧
  Z.lor (enc a b c d) SYNC_WAIT = enc a b true d ∧ Z.lor (enc a b c d) SYNC_STOP = enc a b c true.
Proof. by destruct a, b, c, d. Qed.

Lemma clear_enc a b c d :
  Z.land (enc a b c d) (Z.lnot SYNC_SENT) = enc a false c d ∧
  Z.land (enc a b c d) (Z.lnot SYNC_WAIT) = enc a b false d ∧
  Z.land (enc a b c d) (Z.lnot SYNC_STOP) = enc a b c false ∧
  Z.land (enc a b c d) (Z.lnot (Z.lor SYNC_SEND SYNC_SENT)) = enc false false c d.
Proof. by destruct a, b, c, d. Qed.

(** ** The invariant *)

(** A call between taking [SYNC_WAIT] and giving it back; one that is going
    to write, or may. *)
Definition in_section (q : stop_pc) : bool :=
  match q with S_have _ | S_write | S_release => true | _ => false end.
Definition may_write (q : stop_pc) : bool :=
  match q with S_have res => flag res SYNC_SEND | S_write => true | _ => false end.

Fixpoint sections (st : list stop_pc) : nat :=
  match st with [] => 0 | q :: st => Nat.b2n (in_section q) + sections st end.

(** The descriptors are open and the barrier is ahead. *)
Definition accepting (p : main_pc) : bool :=
  match p with M_idle | M_init | M_inited | M_close => false | _ => true end.

(** The request in the socket pair is not read yet. *)
Definition unread (p : main_pc) : bool :=
  match p with M_run | M_tasks | M_loop => true | _ => false end.

Record sync_inv (st : sys) (send sent wait stop : bool) : Prop := {
  si_word : tsync (sh st) = enc send sent wait stop;
  si_lock : sections (stops st) = if wait then 1%nat else 0%nat;
  si_inited : main st = M_inited → event_open (sh st) = true;
  si_send : send = true → accepting (main st) = true ∧ event_open (sh st) = true;
  si_sent : sent = true → accepting (main st) = true;
  si_write q : q ∈ stops st → may_write q = true → accepting (main st) = true ∧ event_open (sh st) = true;
  si_byte : unread (main st) = true → sent = true → (0 < event_bytes (sh st))%nat ∨ S_write ∈ stops st;
  si_asked : asked st = true → before_check (main st) = true →
    stop = true ∨ (main st = M_run ∧ (0 < event_bytes (sh st))%nat);
  si_asked_loop : asked st = true → main st = M_tasks ∨ main st = M_loop → (0 < event_bytes (sh st))%nat;
  si_unread : unread (main st) = true → send = true;
}.

Lemma sections_app st st' : sections (st ++ st') = (sections st + sections st')%nat.
Proof. induction st as [|q st IH]; cbn; [done |]. lia. Qed.

Lemma sections_insert st i q q' : st !! i = Some q →
  (sections (<[i := q']> st) + Nat.b2n (in_section q) = sections st + Nat.b2n (in_section q'))%nat.
Proof. revert i; induction st as [|x st IH]; intros [|i]; cbn; intros H; simplify_eq; [lia |].
  pose proof (IH _ H) as E. unfold insert in *. lia.
Qed.

Lemma sections_in st q : q ∈ st → in_section q = true → (1 ≤ sections st)%nat.
Proof. induction 1 as [|x y st Hin IH]; cbn; intros H; [rewrite H; cbn; lia | specialize (IH H); lia]. Qed.

(** Two different calls cannot both hold the lock. *)
Lemma sections_two st i q r : st !! i = Some q → r ∈ st → q ≠ r →
  in_section q = true → in_section r = true → (2 ≤ sections st)%nat.
Proof.
  revert i; induction st as [|x st IH]; intros [|i]; cbn; intros H Hr Hne Hq Hs; simplify_eq.
  - apply elem_of_cons in Hr as [-> | Hr]; [done |]. pose proof (sections_in _ _ Hr Hs). rewrite Hq. cbn. lia.
  - apply elem_of_cons in Hr as [-> | Hr].
    + pose proof (sections_in st q ltac:(by eapply list_elem_of_lookup_2) Hq). rewrite Hs. cbn. lia.
    + specialize (IH _ H Hr Hne Hq Hs). lia.
Qed.

Lemma elem_of_insert (st : list stop_pc) (i : nat) (q' r : stop_pc) : r ∈ <[i := q']> st → r = q' ∨ r ∈ st.
Proof.
  intros (j & Hj)%list_elem_of_lookup_1. destruct (decide (i = j)) as [-> | Hij].
  - destruct (decide (j < length st)%nat) as [Hl | Hl].
    + rewrite list_lookup_insert_eq in Hj by done. left. congruence.
    + rewrite list_insert_ge in Hj by lia. right. by eapply list_elem_of_lookup_2.
  - rewrite list_lookup_insert_ne in Hj by done. right. by eapply list_elem_of_lookup_2.
Qed.

Lemma elem_of_keep (st : list stop_pc) (i : nat) (q q' r : stop_pc) : st !! i = Some q → r ∈ st → r ≠ q → r ∈ <[i := q']> st.
Proof.
  intros Hi (j & Hj)%list_elem_of_lookup_1 Hr. assert (i ≠ j) by congruence.
  eapply list_elem_of_lookup_2. by rewrite list_lookup_insert_ne.
Qed.

Definition ok_sys (st : sys) : Prop := ∃ a b c d, sync_inv st a b c d.

Lemma inv_init : ok_sys sys_init.
Proof. exists false, false, false, false. split; cbn; try done; set_solver. Qed.

Lemma may_write_section q : may_write q = true → in_section q = true.
Proof. by destruct q. Qed.

Ltac inv_fields := split; cbn [main sh stops asked tsync event_open event_bytes set_tsync set_run set_event
  fetch_or fetch_clear accepting unread before_check] in *; try done.

(** Forward chaining over the fields of the invariant. *)
Ltac inv_done :=
  intros; repeat match goal with
  | H : False |- _ => destruct H
  | H : false = true |- _ => discriminate H
  | H : _ ∧ _ |- _ => destruct H
  | H : _ ∨ _ |- _ => destruct H
  | H : ?P → _, H' : ?P |- _ => specialize (H H')
  | H : ?x = ?x → _ |- _ => specialize (H eq_refl)
  | H : ∀ q, q ∈ ?st → _, H' : ?q ∈ ?st |- _ => pose proof (H q H'); clear H
  end; subst; try discriminate; try lia; auto.

(** The steps of the thread of the tunnel. *)
Lemma main_step_inv ok p p' s s' st a :
  ok_sys (mkSys p s st a) → main_step ok p s = Some (p', s') →
  ok_sys (mkSys p' s' st (if decide (p = M_close) then false else a)).
Proof.
  intros (se & sn & wa & sp & [Hw Hl Hin Hse Hsn Hwr Hb Ha Hal Hun]) E. cbn [main sh stops asked] in *.
  destruct (flag_enc se sn wa sp) as (F1 & F2 & F3 & F4).
  destruct (lor_enc se sn wa sp) as (O1 & O2 & O3 & O4).
  destruct (clear_enc se sn wa sp) as (C1 & C2 & C3 & C4).
  destruct p; cbn [main_step] in E; rewrite ?Hw, ?F3, ?F4 in E.
  - injection E as <- <-. rewrite decide_False by done. exists se, sn, wa, sp. inv_fields; inv_done.
  - rewrite decide_False by done. destruct ok; injection E as <- <-; exists se, sn, wa, sp; inv_fields; inv_done.
  - rewrite decide_False by done. destruct ok; injection E as <- <-.
    + exists true, sn, wa, sp. inv_fields; [by rewrite Hw | inv_done..].
    + exists se, sn, wa, sp. inv_fields; inv_done.
  - rewrite decide_False by done. injection E as <- <-. exists se, sn, wa, false.
    destruct sp; inv_fields; rewrite ?Hw; try done; inv_done.
  - rewrite decide_False by done. injection E as <- <-. exists se, sn, wa, sp. inv_fields; inv_done.
  - rewrite decide_False by done. destruct (decide (event_bytes s = 0%nat)); [done |]. injection E as <- <-.
    exists se, sn, wa, sp. inv_fields; inv_done.
  - rewrite decide_False by done. injection E as <- <-. exists se, sn, wa, sp. inv_fields; inv_done.
  - rewrite decide_False by done. injection E as <- <-. exists se, false, wa, sp. inv_fields; [by rewrite Hw | inv_done..].
  - rewrite decide_False by done. injection E as <- <-. exists se, sn, wa, sp. inv_fields; inv_done.
  - rewrite decide_False by done. injection E as <- <-. exists false, false, wa, sp.
    destruct wa; inv_fields; rewrite ?Hw; try done; try inv_done.
    match goal with Hq : _ ∈ st, Hm : _ = true |- _ => pose proof (sections_in _ _ Hq (may_write_section _ Hm)) end. lia.
  - rewrite decide_True by done. injection E as <- <-. exists se, sn, wa, sp. inv_fields; inv_done.
Qed.

(** The steps of a stop call. *)
Lemma stop_step_inv p s s' st a i q q' :
  ok_sys (mkSys p s st a) → st !! i = Some q → stop_step q s = Some (q', s') →
  ok_sys (mkSys p s' (<[i := q']> st) (a || leaves_request p q s)).
Proof.
  intros (se & sn & wa & sp & [Hw Hl Hin Hse Hsn Hwr Hb Ha Hal Hun]) Hi E. cbn [main sh stops asked] in *.
  destruct (flag_enc se sn wa sp) as (F1 & F2 & F3 & F4).
  destruct (lor_enc se sn wa sp) as (O1 & O2 & O3 & O4).
  destruct (clear_enc se sn wa sp) as (C1 & C2 & C3 & C4).
  pose proof (sections_insert st i q q' Hi) as Hsec. pose proof (list_elem_of_lookup_2 _ _ _ Hi) as Hqin.
  assert (∀ r, r ∈ <[i := q']> st → may_write r = true → (may_write q' = true → accepting p = true ∧ event_open s = true) →
    accepting p = true ∧ event_open s = true) as Hwr'.
  { intros r [-> | Hr]%elem_of_insert Hm Hq; eauto. }
  assert (q ≠ S_write → S_write ∈ st → S_write ∈ <[i := q']> st) as Hkeep.
  { intros Hq Hr. by apply (elem_of_keep _ _ q). }
  assert (in_section q = true → wa = true) as Hheld.
  { intros Hs. pose proof (sections_in _ _ Hqin Hs). destruct wa; [done | lia]. }
  destruct q as [| res | | |]; cbn [stop_step leaves_request in_section may_write] in *; rewrite ?Hw, ?F3 in E; [| | | | done].
  - rewrite orb_false_r. injection E as <- <-. exists se, sn, true, sp.
    destruct wa; inv_fields; rewrite ?Hw; try done; try (intros; eapply Hwr'; eauto; fail).
    + cbn in Hsec. lia.
    + intros ? ?. destruct Hb; auto.
    + cbn in Hsec. lia.
    + intros ? ?. destruct Hb; auto.
  - rewrite (Hheld eq_refl) in *. destruct (flag res SYNC_SEND) eqn:Hres.
    + destruct (Hwr _ Hqin Hres) as [Hacc Hopen]. rewrite ?F2 in E.
      assert (sn = true → unread p = true → (0 < event_bytes s)%nat) as Hbyte.
      { intros Hs Hu. destruct (Hb Hu Hs) as [? | Hw']; [done |].
        pose proof (sections_two st i (S_have res) S_write Hi Hw' ltac:(done) eq_refl eq_refl). lia. }
      rewrite Hw, F2. exists se, true, true, sp. injection E as <- <-.
      inv_fields; try (by rewrite Hw); try tauto.
      * destruct sn; cbn in Hsec; lia.
      * intros Hu _. destruct sn; [left; by apply Hbyte |]. right.
        eapply list_elem_of_lookup_2, list_lookup_insert_eq. by eapply lookup_lt_Some.
      * intros Has Hbe. apply orb_true_iff in Has as [Has | ->]; [by apply Ha |]. right.
        destruct p; try discriminate. split; [done | by apply Hbyte].
      * intros Has Hp. apply orb_true_iff in Has as [Has | ->]; [by apply Hal |].
        apply Hbyte; [done |]. by destruct Hp as [-> | ->].
    + injection E as <- <-. exists se, sn, true, true. inv_fields; try (by rewrite Hw).
      * cbn in Hsec. lia.
      * intros r Hr Hm. apply (Hwr' r Hr Hm). done.
      * intros ? ?. destruct Hb; auto.
      * intros _ _. by left.
      * intros Has Hp. apply orb_true_iff in Has as [Has | Has]; [by apply Hal |]. destruct Hp as [-> | ->]; done.
  - destruct (event_open s) eqn:Ho; [|done]. injection E as <- <-. rewrite (Hheld eq_refl) in *.
    destruct (Hwr _ Hqin eq_refl) as [Hacc Hopen]. exists se, sn, true, sp. inv_fields.
    * cbn in Hsec. lia.
    * intros ? ?. left. lia.
    * intros _ Hbe. right. destruct p; try discriminate. split; [done | lia].
    * intros. lia.
  - rewrite orb_false_r. injection E as <- <-. rewrite (Hheld eq_refl) in *. exists se, sn, false, sp.
    inv_fields; rewrite ?Hw; try done.
    + cbn in Hsec. lia.
    + intros r Hr Hm. apply (Hwr' r Hr Hm). done.
    + intros ? ?. destruct Hb; auto.
Qed.

Lemma sys_step_inv st st' : ok_sys st → sys_step st st' → ok_sys st'.
Proof.
  intros Hok Hs. revert Hok. destruct Hs as [ok p p' s s' st1 a E | p s st1 a | p s s' st1 a i q q' Hi E]; intros Hok.
  - by eapply main_step_inv.
  - destruct Hok as (se & sn & wa & sp & [Hw Hl Hin Hse Hsn Hwr Hb Ha Hal Hun]). exists se, sn, wa, sp. inv_fields.
    + rewrite sections_app. cbn. lia.
    + intros q [Hq | ->%list_elem_of_singleton]%elem_of_app; [by apply Hwr | done].
    + intros Hu Hs. destruct (Hb Hu Hs); [by left | right]. apply elem_of_app. by left.
  - by eapply stop_step_inv.
Qed.

Lemma reach_inv st : star sys_step sys_init st → ok_sys st.
Proof. intros H. by apply (star_invariant _ ok_sys _ _ sys_step_inv H inv_init). Qed.

(** ** Executions *)

Lemma sections_pos st : (0 < sections st)%nat → ∃ i q, st !! i = Some q ∧ in_section q = true.
Proof.
  induction st as [|q st IH]; cbn; [lia |]. destruct (in_section q) eqn:Hq; intros H.
  - by exists 0%nat, q.
  - destruct IH as (i & r & Hi & Hr); [done |]. by exists (S i), r.
Qed.

Lemma stop_progress st i q : ok_sys st → stops st !! i = Some q → q ≠ S_done → is_Some (stop_step q (sh st)).
Proof.
  intros (se & sn & wa & sp & [_ _ _ _ _ Hwr _ _ _ _]) Hi Hq.
  destruct q; cbn; eauto; [by destruct (flag _ _) | | done].
  destruct (Hwr _ (list_elem_of_lookup_2 _ _ _ Hi) eq_refl) as [_ ->]. eauto.
Qed.

(** The thread of the tunnel, and the call with an index. *)
Inductive thread :=
| T_main
| T_call (i : nat).

(** A step of a thread. *)
Inductive own_step : thread → sys → sys → Prop :=
| own_main ok p p' s s' st a :
    main_step ok p s = Some (p', s') →
    own_step T_main (mkSys p s st a) (mkSys p' s' st (if decide (p = M_close) then false else a))
| own_call p s s' st a i q q' :
    st !! i = Some q → stop_step q s = Some (q', s') →
    own_step (T_call i) (mkSys p s st a) (mkSys p s' (<[i := q']> st) (a || leaves_request p q s)).

Lemma own_sys t st st' : own_step t st st' → sys_step st st'.
Proof. intros [ok p p' s s' st1 a E | p s s' st1 a i q q' Hi E]; econstructor; eauto. Qed.

(** A thread that can take a step; the one of the tunnel is over outside of a
    run. *)
Definition enabled (t : thread) (st : sys) : Prop :=
  match t with
  | T_main => main st ≠ M_idle ∧ is_Some (main_step true (main st) (sh st))
  | T_call i => ∃ q, stops st !! i = Some q ∧ is_Some (stop_step q (sh st))
  end.

(** An execution with the thread of each step; [None] when nothing happens. *)
Definition execution (f : nat → sys) (who : nat → option thread) : Prop :=
  ∀ i, match who i with Some t => own_step t (f i) (f (S i)) | None => f (S i) = f i end.

(** A thread that can take a step takes one, or cannot any more. *)
Definition fair (f : nat → sys) (who : nat → option thread) : Prop :=
  ∀ t i, enabled t (f i) → ∃ d, who (i + d)%nat = Some t ∨ ¬ enabled t (f (i + d)%nat).

(** How far the threads are from their ends. *)
Definition rank (p : main_pc) : nat :=
  match p with
  | M_idle => 0 | M_close => 1 | M_fini => 2 | M_ending => 3 | M_event_sent => 4 | M_event => 5
  | M_loop => 6 | M_tasks => 7 | M_run => 8 | M_inited => 9 | M_init => 10
  end.
Definition stop_rank (q : stop_pc) : nat :=
  match q with S_wait => 4 | S_have _ => 3 | S_write => 2 | S_release => 1 | S_done => 0 end.
Definition measure (st : sys) : nat := rank (main st) + sum_list_with stop_rank (stops st).

Lemma stop_rank_insert st i q q' : st !! i = Some q →
  (sum_list_with stop_rank (<[i := q']> st) + stop_rank q = sum_list_with stop_rank st + stop_rank q')%nat.
Proof.
  revert i; induction st as [|x st IH]; intros [|i]; cbn; intros H; simplify_eq; [lia |].
  pose proof (IH _ H) as E. unfold insert in *. lia.
Qed.

(** A step brings its thread nearer to its end, but for those that wait for
    [SYNC_WAIT], which leave everything in its place. *)
Lemma own_step_measure t st st' : own_step t st st' → main st ≠ M_idle →
  (measure st' < measure st)%nat ∨ (main st' = main st ∧ stops st' = stops st).
Proof.
  intros [ok p p' s s' st1 a E | p s s' st1 a i q q' Hi E]; unfold measure; cbn [main stops].
  - intros Hp. destruct p; cbn in E; try done;
      repeat match type of E with context [if ?b then _ else _] => destruct b end; simplify_eq; cbn;
      try (left; lia); by right.
  - intros _. pose proof (stop_rank_insert _ _ _ q' Hi) as Hr.
    destruct q; cbn in E; try done;
      repeat match type of E with context [if ?b then _ else _] => destruct b end; simplify_eq; cbn in Hr;
      try (left; lia). right. by rewrite list_insert_id.
Qed.

Lemma own_step_asked t st st' : own_step t st st' → asked st = true → asked st' = true ∨ main st' = M_idle.
Proof.
  intros [ok p p' s s' st1 a E | p s s' st1 a i q q' Hi E]; cbn; intros ->; [|by left].
  destruct (decide (p = M_close)) as [-> |]; [right | by left]. by injection E.
Qed.

(** The thread whose step cannot be a wait: the call that has [SYNC_WAIT], or
    the thread of the tunnel when none has it. *)
Definition leader (st : sys) : thread :=
  match list_find in_section (stops st) with Some (i, _) => T_call i | None => T_main end.

Lemma leader_cases st : ok_sys st →
  (∃ i q, leader st = T_call i ∧ stops st !! i = Some q ∧ in_section q = true) ∨
  (leader st = T_main ∧ flag (tsync (sh st)) SYNC_WAIT = false).
Proof.
  intros (se & sn & wa & sp & [Hw Hl _ _ _ _ _ _ _ _]). unfold leader. destruct (list_find _ _) as [[i q]|] eqn:E.
  - left. apply list_find_Some in E as (Hi & Hq & _). exists i, q. split_and!; [done.. | by apply Is_true_true].
  - right. split; [done |]. apply list_find_None in E. destruct (flag_enc se sn wa sp) as (_ & _ & F & _).
    rewrite Hw, F. destruct wa; [|done]. destruct (sections_pos (stops st)) as (i & q & Hi & Hq); [lia |].
    rewrite Forall_lookup in E. destruct (E i q Hi). by rewrite Hq.
Qed.

(** With a request in the run the leader can go on, and waits for nothing. *)
Lemma leader_enabled st : ok_sys st → asked st = true → main st ≠ M_idle → enabled (leader st) st.
Proof.
  intros Hok Ha Hm. destruct (leader_cases _ Hok) as [(i & q & -> & Hi & Hq) | [-> Hf]].
  - exists q. split; [done |]. apply (stop_progress st i); [done.. | by intros ->].
  - split; [done |]. destruct Hok as (? & ? & ? & ? & [_ _ _ _ _ _ _ _ Hb _]).
    destruct (main st) eqn:E; cbn; try by eexists. rewrite decide_False; [by eexists |].
    specialize (Hb Ha (or_intror eq_refl)). lia.
Qed.

Lemma leader_measure st st' : ok_sys st → main st ≠ M_idle → own_step (leader st) st st' →
  (measure st' < measure st)%nat.
Proof.
  intros Hok Hm Hs. destruct (own_step_measure _ _ _ Hs Hm) as [| [Em Es]]; [done | exfalso].
  destruct (leader_cases _ Hok) as [(i & q & El & Hi & Hq) | [El Hf]]; rewrite El in Hs; inversion Hs; subst; cbn in *.
  - pose proof (list_lookup_insert_eq _ i q' (lookup_lt_Some _ _ _ Hi)) as Hx. rewrite Es in Hx. simplify_eq.
    match goal with H : stop_step ?x _ = Some (?x, _) |- _ => destruct x end; cbn in *; try done; repeat case_match; congruence.
  - destruct p; cbn in *; repeat case_match; congruence.
Qed.

(** A request ends the run in every fair execution: up to the next step of the
    leader the other steps are waits, or progress too. *)
Section Execution.
Context (f : nat → sys) (who : nat → option thread) (Hex : execution f who) (Hfair : fair f who).

Lemma execution_progress d : ∀ i, ok_sys (f i) → asked (f i) = true → main (f i) ≠ M_idle →
  who (i + d)%nat = Some (leader (f i)) ∨ ¬ enabled (leader (f i)) (f (i + d)%nat) →
  ∃ j, ok_sys (f j) ∧ (main (f j) = M_idle ∨ asked (f j) = true ∧ (measure (f j) < measure (f i))%nat).
Proof.
  induction d as [|d IH]; intros i Hok Ha Hm Hd; pose proof (Hex i) as Hi.
  - rewrite Nat.add_0_r in Hd. destruct Hd as [Hd | Hd]; [|by destruct (Hd (leader_enabled _ Hok Ha Hm))].
    rewrite Hd in Hi. exists (S i). split; [by eapply sys_step_inv, own_sys |].
    destruct (own_step_asked _ _ _ Hi Ha); [right | by left]. split; [done |]. by apply leader_measure.
  - rewrite Nat.add_succ_r, <-Nat.add_succ_l in Hd. destruct (who i) as [t|].
    + pose proof (sys_step_inv _ _ Hok (own_sys _ _ _ Hi)) as Hok'.
      destruct (own_step_asked _ _ _ Hi Ha) as [Ha' | Hm']; [|exists (S i); auto].
      destruct (own_step_measure _ _ _ Hi Hm) as [Hl | [Em Es]]; [exists (S i); auto |].
      assert (leader (f (S i)) = leader (f i)) as El by (unfold leader; by rewrite Es).
      assert (measure (f (S i)) = measure (f i)) as Er by (unfold measure; by rewrite Em, Es).
      rewrite <-El in Hd. rewrite <-Er. apply IH; congruence || done.
    + rewrite <-Hi. apply IH; by rewrite Hi.
Qed.

Lemma execution_ends n : ∀ i, ok_sys (f i) → asked (f i) = true → measure (f i) = n → ∃ k, main (f k) = M_idle.
Proof.
  induction n as [n IH] using lt_wf_ind. intros i Hok Ha Hn.
  destruct (decide (main (f i) = M_idle)) as [| Hm]; [by exists i |].
  destruct (Hfair _ _ (leader_enabled _ Hok Ha Hm)) as [d Hd].
  destruct (execution_progress d i Hok Ha Hm Hd) as (j & Hj & [| [Haj Hl]]); [by exists j |].
  eapply (IH (measure (f j))); [by rewrite <-Hn | done..].
Qed.
End Execution.

(** ** The claims *)

(** C33. For every interleaving of the thread of the tunnel, through any
    number of starts, with any number of stop calls: no stop call writes to a
    closed descriptor; at most one is between taking and giving back
    [SYNC_WAIT]; and [hev_socks5_tunnel_fini] closes the socket pair only when
    no call is going to write. *)
Theorem stop_safe st i q :
  star sys_step sys_init st → stops st !! i = Some q →
  (q ≠ S_done → is_Some (stop_step q (sh st))) ∧
  (in_section q = true → ∀ j r, stops st !! j = Some r → in_section r = true → i = j) ∧
  (main st = M_close → may_write q = false) ∧
  (may_write q = true → event_open (sh st) = true).
Proof.
  intros Hr Hi. pose proof (reach_inv _ Hr) as Hok.
  pose proof Hok as (se & sn & wa & sp & [Hw Hl Hin Hse Hsn Hwr Hb Ha Hal Hun]).
  pose proof (list_elem_of_lookup_2 _ _ _ Hi) as Hqin. split_and!.
  - by apply (stop_progress st i q Hok).
  - intros Hq j r Hj Hr'. destruct (decide (i = j)) as [| Hij]; [done |].
    pose proof (sections_insert (stops st) i q S_done Hi) as E. rewrite Hq in E. cbn in E.
    pose proof (sections_in (<[i := S_done]> (stops st)) r) as Hs.
    assert (r ∈ <[i := S_done]> (stops st)) as Hin'.
    { eapply list_elem_of_lookup_2. by rewrite list_lookup_insert_ne. }
    specialize (Hs Hin' Hr'). destruct wa; lia.
  - intros Hm. destruct (may_write q) eqn:Hq; [|done]. destruct (Hwr _ Hqin Hq) as [Hacc _]. by rewrite Hm in Hacc.
  - intros Hq. by destruct (Hwr _ Hqin Hq).
Qed.

Definition demo_calls : sys :=
  mkSys M_run (mkSync 7 true 0 false) [S_write; S_wait] false.

Ltac srun H := eapply star_step; [H; reflexivity | cbn].
Ltac smain ok := srun ltac:(eapply (step_main ok)).
Ltac scall := eapply star_step; [apply step_call | cbn].
Ltac sstop i := eapply star_step; [eapply (step_stop _ _ _ _ _ i); reflexivity | cbn].

Lemma demo_reach : star sys_step sys_init demo_calls.
Proof.
  unfold sys_init, demo_calls, sync_init. do 3 smain true. do 2 scall. do 2 sstop 0%nat. apply star_refl.
Qed.

Lemma stop_safe_witness :
  star sys_step sys_init demo_calls ∧ is_Some (stop_step S_write (sh demo_calls)).
Proof.
  split; [apply demo_reach |]. by apply (stop_safe demo_calls 0 S_write demo_reach eq_refl).
Defined.

(** C34. A request is not lost once it is left: until the event task has read
    the byte it is there, and in every fair execution of the thread of the
    tunnel and the calls under way, without new calls, the run ends.  A stop
    call that is not interrupted, as in a signal handler, returns when
    [SYNC_WAIT] is free, gives it back, and leaves its request in a run that
    has not looked at [SYNC_STOP] or not read a byte yet, and in the next run
    when there is none. *)
Theorem stop_ends_run st :
  star sys_step sys_init st →
  (asked st = true →
     (main st = M_tasks ∨ main st = M_loop → (0 < event_bytes (sh st))%nat) ∧
     ∀ f who, f 0%nat = st → execution f who → fair f who → ∃ k, main (f k) = M_idle) ∧
  (flag (tsync (sh st)) SYNC_WAIT = false →
     ∃ st', hev_socks5_tunnel_stop st = Some st' ∧ flag (tsync (sh st')) SYNC_WAIT = false ∧
       (before_check (main st) = true ∨ unread (main st) = true → asked st' = true)).
Proof.
  intros Hr. pose proof (reach_inv _ Hr) as Hok. split.
  - intros Ha. split.
    + destruct Hok as (? & ? & ? & ? & [_ _ _ _ _ _ _ _ H _]). by apply H.
    + intros f who Hf Hex Hfair. eapply (execution_ends f who Hex Hfair _ 0); [by rewrite Hf | by rewrite Hf | done].
  - destruct st as [p s st a].
    destruct Hok as (se & sn & wa & sp & [Hw Hl Hin Hse Hsn Hwr Hb Ha Hal Hun]). cbn [main sh stops asked] in *.
    destruct s as [t o n r]. cbn [tsync event_open event_bytes] in *. subst t. destruct (flag_enc se sn wa sp) as (_ & _ & -> & _). intros ->.
    unfold hev_socks5_tunnel_stop. cbn [main sh asked stops].
    destruct se.
    + destruct (Hse eq_refl) as [Hacc Ho]. cbn in Ho. subst o.
      destruct sn, sp; (eexists; split; [reflexivity | split; [reflexivity |]]); intros _; cbv -[orb]; by rewrite ?orb_true_r.
    + destruct sn, sp; (eexists; split; [reflexivity | split; [reflexivity |]]);
        (intros [Hbe | Hu]; [|by specialize (Hun Hu)]); cbv -[before_check orb]; rewrite Hbe; by rewrite ?orb_true_r.
Qed.

(** A run that reads its request and ends, and then nothing. *)
Definition demo_ends : list sys :=
  [mkSys M_loop (mkSync 3 true 1 true) [S_done] true; mkSys M_event (mkSync 3 true 0 true) [S_done] true;
   mkSys M_event_sent (mkSync 3 true 0 false) [S_done] true; mkSys M_ending (mkSync 1 true 0 false) [S_done] true;
   mkSys M_fini (mkSync 1 true 0 false) [S_done] true; mkSys M_close (mkSync 0 true 0 false) [S_done] true].
Definition demo_end : sys := mkSys M_idle (mkSync 0 false 0 false) [S_done] false.
Definition demo_run (i : nat) : sys := default demo_end (demo_ends !! i).
Definition demo_who (i : nat) : option thread := if decide (i < 6)%nat then Some T_main else None.

Lemma demo_execution : execution demo_run demo_who.
Proof.
  intros i. do 6 (destruct i as [|i]; [apply (own_main true); reflexivity |]). done.
Qed.

Lemma demo_fair : fair demo_run demo_who.
Proof.
  intros t i _. exists 6%nat. right. assert (demo_run (i + 6) = demo_end) as ->.
  { rewrite Nat.add_comm. done. }
  destruct t as [|k]; [by intros [] |]. intros (q & Hq & [x Hx]). destruct k as [|k]; [|done]. cbn in Hq. by simplify_eq.
Qed.

Lemma stop_ends_run_witness : ∃ st, hev_socks5_tunnel_stop (mkSys M_loop (mkSync 1 true 0 true) [] false) = Some st ∧
  st = demo_run 0 ∧ asked st = true ∧ ∃ k, main (demo_run k) = M_idle.
Proof.
  assert (star sys_step sys_init (mkSys M_loop (mkSync 1 true 0 true) [] false)) as Hr.
  { unfold sys_init, sync_init. do 5 smain true. apply star_refl. }
  destruct (stop_ends_run _ Hr) as [_ H]. destruct (H eq_refl) as (st & E & _ & Ha). exists st. split; [done |].
  vm_compute in E. injection E as <-. split; [done |]. split; [done |].
  refine (proj2 (proj1 (stop_ends_run (demo_run 0) _) eq_refl) demo_run demo_who eq_refl demo_execution demo_fair).
  eapply star_trans; [exact Hr |]. scall. do 4 sstop 0%nat. apply star_refl.
Defined.
