(* ===== verification/Jni.v ===== *)
(** * The native interface of the app

    Model of [src/hev-jni.c] and of the order of the calls in
    [src/hev-main.c]: Java threads call start, stop and is-running at any
    time; start creates the thread that runs the tunnel.  The tunnel and its
    stop calls are those of [Sync].  A step is one operation the other
    threads can observe; what happens under the mutex to variables that are
    only read under it is joined to the operation before. *)

From S2P Require Import Prelude Sync.

(** ** The state *)

(** The thread of the tunnel: none, or joined; reading the configuration and
    preparing; between [hev_socks5_tunnel_init] and the end of
    [hev_socks5_tunnel_fini]; with the main function over; exited. *)
Inductive wstate := W_none | W_config | W_tunnel | W_ended | W_exited.

#[export] Instance wstate_dec : EqDecision wstate.
Proof. solve_decision. Defined.

(** A native call: [native_start_service] before the mutex, behind it, before
    it joins the last thread, stores [is_running] and creates the thread;
    [native_stop_service] before the mutex, behind it, before it reads
    [is_running], in [hev_socks5_tunnel_quit] with the number of its stop
    call, before the join and before the store; before the mutex is given
    back; returned. *)
Inductive jpc :=
| JS_lock | JS_check | JS_join | JS_store | JS_create
| JP_lock | JP_check | JP_running | JP_quit (k : nat) | JP_join | JP_store
| J_unlock (res : bool)
| J_done (res : bool).

Record jsys := mkJsys {
  tun : sys;
  is_running : bool;
  thread_joinable : bool;
  mutex : option nat;
  callers : list jpc;
  work_thread : wstate;
}.

Definition jsys_init : jsys := mkJsys sys_init false false None [] W_none.

Definition set_tun (t : sys) (j : jsys) : jsys :=
  mkJsys t (is_running j) (thread_joinable j) (mutex j) (callers j) (work_thread j).
Definition set_is_running (r : bool) (j : jsys) : jsys :=
  mkJsys (tun j) r (thread_joinable j) (mutex j) (callers j) (work_thread j).
Definition set_thread (b : bool) (w : wstate) (j : jsys) : jsys :=
  mkJsys (tun j) (is_running j) b (mutex j) (callers j) w.
Definition set_mutex (m : option nat) (j : jsys) : jsys :=
  mkJsys (tun j) (is_running j) (thread_joinable j) m (callers j) (work_thread j).
Definition set_callers (c : list jpc) (j : jsys) : jsys :=
  mkJsys (tun j) (is_running j) (thread_joinable j) (mutex j) c (work_thread j).
Definition set_main (p : main_pc) (s : sync) (a : bool) (t : sys) : sys := mkSys p s (stops t) a.

(** ** Native calls *)

(** [Wrong]: a thread is joined that is not there, a second one is created
    beside the first, a mutex is given back by a thread that does not hold
    it, or the stop call goes wrong. *)
Inductive outcome (A : Type) := Next (a : A) | Blocked | Wrong.
Arguments Next {A}.
Arguments Blocked {A}.
Arguments Wrong {A}.

Definition lock (i : nat) (p : jpc) (j : jsys) : outcome (jpc * jsys) :=
  match mutex j with None => Next (p, set_mutex (Some i) j) | Some _ => Blocked end.

Definition unlock (i : nat) (p : jpc) (j : jsys) : outcome (jpc * jsys) :=
  if decide (mutex j = Some i) then Next (p, set_mutex None j) else Wrong.

(** [pthread_join] and [thread_joinable = 0]. *)
Definition join (p : jpc) (j : jsys) : outcome (jpc * jsys) :=
  match work_thread j with
  | W_none => Wrong
  | W_exited => Next (p, set_thread false W_none j)
  | _ => Blocked
  end.

(** [ok]: the allocations succeed; [pthread_create] does. *)
Definition native_start_service (i : nat) (ok : bool) (p : jpc) (j : jsys) : outcome (jpc * jsys) :=
  match p with
  | JS_lock => lock i JS_check j
  | JS_check =>
      if is_running j then Next (J_unlock false, j)
      else Next (if thread_joinable j then JS_join else JS_store, j)
  | JS_join => join JS_store j
  | JS_store => if ok then Next (JS_create, set_is_running true j) else Next (J_unlock false, j)
  | JS_create =>
      if ok then
        match work_thread j with
        | W_none => Next (J_unlock true, set_thread true W_config j)
        | _ => Wrong
        end
      else Next (J_unlock false, set_is_running false j)
  | _ => Wrong
  end.

Definition native_stop_service (i : nat) (p : jpc) (j : jsys) : outcome (jpc * jsys) :=
  match p with
  | JP_lock => lock i JP_check j
  | JP_check => Next (if thread_joinable j then JP_running else J_unlock true, j)
  | JP_running =>
      if is_running j then
        let t := tun j in
        Next (JP_quit (length (stops t)), set_tun (mkSys (main t) (sh t) (stops t ++ [S_wait]) (asked t)) j)
      else Next (JP_join, j)
  | JP_quit k =>
      let t := tun j in
      match stops t !! k with
      | None => Wrong
      | Some q =>
          if decide (q = S_done) then Next (JP_join, j)
          else
            match stop_step q (sh t) with
            | None => Wrong
            | Some (q', s') =>
                Next (JP_quit k,
                  set_tun (mkSys (main t) s' (<[k := q']> (stops t)) (asked t || leaves_request (main t) q (sh t))) j)
            end
      end
  | JP_join => join JP_store j
  | JP_store => Next (J_unlock true, set_is_running false j)
  | _ => Wrong
  end.

Definition native_step (i : nat) (ok : bool) (p : jpc) (j : jsys) : outcome (jpc * jsys) :=
  match p with
  | JS_lock | JS_check | JS_join | JS_store | JS_create => native_start_service i ok p j
  | JP_lock | JP_check | JP_running | JP_quit _ | JP_join | JP_store => native_stop_service i p j
  | J_unlock res => unlock i (J_done res) j
  | J_done _ => Blocked
  end.

Definition native_is_running (j : jsys) : bool := is_running j.

(** ** The thread *)

(** [thread_handler]: [hev_socks5_tunnel_main], which returns early when the
    configuration cannot be read or a part before [hev_socks5_tunnel_init]
    fails, and then the store. *)
Definition thread_handler (ok : bool) (j : jsys) : option jsys :=
  match work_thread j with
  | W_none | W_exited => None
  | W_config => Some (set_thread (thread_joinable j) (if ok then W_tunnel else W_ended) j)
  | W_tunnel =>
      let t := tun j in
      '(p', s') ← main_step ok (main t) (sh t);
      Some (set_thread (thread_joinable j) (if decide (p' = M_idle) then W_ended else W_tunnel)
        (set_tun (set_main p' s' (if decide (main t = M_close) then false else asked t) t) j))
  | W_ended => Some (set_thread (thread_joinable j) W_exited (set_is_running false j))
  end.

Inductive jstep : jsys → jsys → Prop :=
| j_start j : jstep j (set_callers (callers j ++ [JS_lock]) j)
| j_stop j : jstep j (set_callers (callers j ++ [JP_lock]) j)
| j_native j i ok p p' j' :
    callers j !! i = Some p → native_step i ok p j = Next (p', j') →
    jstep j (set_callers (<[i := p']> (callers j)) j')
| j_thread j ok j' : thread_handler ok j = Some j' → jstep j j'.
