(* ===== verification/JniProps.v ===== *)
(** * Properties of the native interface

    The mutex and [thread_joinable] keep one thread of the tunnel at a time,
    which [Sync] takes for granted; the native calls refine the steps of
    [Sync].  A stop that comes while the tunnel starts can block for good. *)

From S2P Require Import Prelude Sync SyncProps Jni.

(** ** The invariant *)

Definition holding (p : jpc) : bool :=
  match p with JS_lock | JP_lock | J_done _ => false | _ => true end.

(** [is_running] is set. *)
Definition live (w : wstate) : bool :=
  match w with W_config | W_tunnel | W_ended => true | _ => false end.

Definition pc_ok (p : jpc) (j : jsys) : Prop :=
  match p with
  | JS_join => work_thread j = W_exited
  | JS_store | JP_store => work_thread j = W_none
  | JS_create => work_thread j = W_none ∧ is_running j = true
  | JP_running | JP_join => work_thread j ≠ W_none
  | JP_quit k => work_thread j ≠ W_none ∧ is_Some (stops (tun j) !! k)
  | _ => True
  end.

Record jni_inv (j : jsys) : Prop := {
  ji_tun : star sys_step sys_init (tun j);
  ji_hold i p : callers j !! i = Some p → holding p = true → mutex j = Some i;
  ji_mutex i : mutex j = Some i → ∃ p, callers j !! i = Some p ∧ holding p = true;
  ji_join : thread_joinable j = bool_decide (work_thread j ≠ W_none);
  ji_live : live (work_thread j) = true → is_running j = true;
  ji_idle : work_thread j ≠ W_tunnel → main (tun j) = M_idle;
  ji_pc i p : callers j !! i = Some p → pc_ok p j;
}.

Lemma jni_inv_init : jni_inv jsys_init.
Proof. split; cbn; try done. constructor. Qed.

(** What the calls need of the steps of [Sync]. *)
Lemma thread_inv j ok j' : jni_inv j → thread_handler ok j = Some j' → jni_inv j'.
Proof.
  intros [Ht Hh Hm Hj Hl Hi Hp] E. unfold thread_handler in E.
  destruct j as [[p s st a] r tj m cs w]. cbn in *. destruct w; cbn in *; try done.
  - injection E as <-. destruct ok; (split; cbn; [done | done | done | done | auto | auto | ]);
      intros i q Hq; specialize (Hp i q Hq); destruct q; cbn in *; naive_solver.
  - destruct (main_step ok p s) as [[p' s']|] eqn:Em; [|done]. cbn in E. injection E as <-.
    split; cbn.
    + eapply star_snoc; [exact Ht |]. by eapply step_main.
    + done.
    + done.
    + rewrite Hj. by destruct (decide (p' = M_idle)).
    + auto.
    + by destruct (decide (p' = M_idle)).
    + intros i q Hq; specialize (Hp i q Hq); destruct q; cbn in *; destruct (decide (p' = M_idle)); naive_solver.
  - injection E as <-. split; cbn; [done | done | done | done | done | auto |].
    intros i q Hq; specialize (Hp i q Hq); destruct q; cbn in *; naive_solver.
Qed.

(** A caller that does not hold the mutex has nothing to keep. *)
Lemma pc_ok_free p j : holding p = false → pc_ok p j.
Proof. by destruct p. Qed.

(** A step of a caller while no other one holds the mutex. *)
Lemma update_callers j i p p' j' :
  jni_inv j → callers j !! i = Some p → (mutex j = Some i ∨ mutex j = None) →
  star sys_step sys_init (tun j') → mutex j' = (if holding p' then Some i else None) →
  thread_joinable j' = bool_decide (work_thread j' ≠ W_none) →
  (live (work_thread j') = true → is_running j' = true) →
  (work_thread j' ≠ W_tunnel → main (tun j') = M_idle) → pc_ok p' j' →
  jni_inv (set_callers (<[i := p']> (callers j)) j').
Proof.
  intros [Ht Hh Hm Hj Hl Hi Hp] Hc Hmi Ht' Hm' Hj' Hl' Hi' Hp'.
  assert (∀ k q, <[i := p']> (callers j) !! k = Some q → k = i ∧ q = p' ∨ k ≠ i ∧ callers j !! k = Some q) as Hcase.
  { intros k q Hq. destruct (decide (k = i)) as [-> | Hk]; [left | right].
    - rewrite list_lookup_insert_eq in Hq by (by eapply lookup_lt_Some). split; congruence.
    - rewrite list_lookup_insert_ne in Hq by done. done. }
  split; cbn; try done.
  - intros k q [[-> ->] | [Hk Hq]]%Hcase Hhq; [by rewrite Hm', Hhq |].
    pose proof (Hh _ _ Hq Hhq). destruct Hmi; congruence.
  - intros k Hk. rewrite Hm' in Hk. destruct (holding p') eqn:Hh'; [|done]. injection Hk as <-.
    exists p'. split; [|done]. apply list_lookup_insert_eq. by eapply lookup_lt_Some.
  - intros k q [[-> ->] | [Hk Hq]]%Hcase; [by destruct p' |].
    destruct (holding q) eqn:Hhq; [|by apply pc_ok_free].
    pose proof (Hh _ _ Hq Hhq). destruct Hmi; congruence.
Qed.

(** The successors of a call that keep the rest of the state. *)
Ltac upd := intros ? ? [= <- <-];
  eapply update_callers; [eassumption | eassumption | by auto | cbn; try first [assumption | by apply ji_join | by apply ji_live] ..]; try done.

Lemma native_inv j i ok p : jni_inv j → callers j !! i = Some p →
  native_step i ok p j ≠ Wrong ∧
  ∀ p' j', native_step i ok p j = Next (p', j') → jni_inv (set_callers (<[i := p']> (callers j)) j').
Proof.
  intros Hinv Hc. pose proof Hinv as [Ht Hh Hm Hj Hl Hi Hp].
  pose proof (Hh _ _ Hc) as Hhold. pose proof (Hp _ _ Hc) as Hpc.
  destruct p; cbn [native_step native_start_service native_stop_service holding pc_ok] in *;
    try (specialize (Hhold eq_refl)).
  - unfold lock. destruct (mutex j) eqn:Hmu; split; try done. upd.
  - destruct (is_running j) eqn:Hr; split; try done; [upd |].
    destruct (thread_joinable j) eqn:Htj; upd; clear Hinv; symmetry in Hj.
    + apply bool_decide_eq_true in Hj. destruct (work_thread j); cbn in *; (done || by specialize (Hl eq_refl)).
    + apply bool_decide_eq_false in Hj. cbn. by destruct (decide (work_thread j = W_none)).
  - unfold join. rewrite Hpc. split; [done |]. upd. intros _. apply Hi. by rewrite Hpc.
  - destruct ok; split; try done; upd.
  - destruct Hpc as [Hpc Hrun], ok; [rewrite Hpc |]; split; try done; upd; cbn.
    + intros _. apply Hi. by rewrite Hpc.
    + by rewrite Hpc.
  - unfold lock. destruct (mutex j) eqn:Hmu; split; try done. upd.
  - split; [done |]. destruct (thread_joinable j) eqn:Htj; upd.
    symmetry in Hj. by apply bool_decide_eq_true in Hj.
  - destruct (is_running j) eqn:Hr; split; try done; upd.
    + eapply star_snoc; [exact Ht |]. destruct (tun j). cbn. constructor.
    + split; [done |]. rewrite lookup_app_r, Nat.sub_diag by lia. by eexists.
  - destruct Hpc as [Hw [q Hq]]. rewrite Hq. destruct (decide (q = S_done)) as [Hd | Hd]; [split; [done | upd] |].
    destruct (stop_progress (tun j) k q (reach_inv _ Ht) Hq Hd) as [[q' s'] E]. rewrite E.
    split; [done |]. upd.
    + eapply star_snoc; [exact Ht |]. destruct (tun j). cbn. by econstructor.
    + split; [done |]. exists q'. apply list_lookup_insert_eq. by eapply lookup_lt_Some.
  - unfold join. destruct (work_thread j) eqn:Hw; try done; split; try done. upd. intros _. by apply Hi.
  - split; [done |]. upd. by rewrite Hpc.
  - unfold unlock. rewrite decide_True by done. split; [done |]. upd.
  - done.
Qed.

Lemma call_inv j p : holding p = false → jni_inv j → jni_inv (set_callers (callers j ++ [p]) j).
Proof.
  intros Hp0 [Ht Hh Hm Hj Hl Hi Hp]. split; cbn; try done.
  - intros i q [Hq | [_ Hq]]%lookup_app_Some; [by apply Hh |].
    apply list_lookup_singleton_Some in Hq as [_ <-]. congruence.
  - intros i (q & Hp' & Hq)%Hm. exists q. split; [|done]. by apply lookup_app_l_Some.
  - intros i q [Hq | [_ Hq]]%lookup_app_Some; [by specialize (Hp _ _ Hq); destruct q |].
    apply list_lookup_singleton_Some in Hq as [_ <-]. by apply pc_ok_free.
Qed.

Lemma jstep_inv j j' : jni_inv j → jstep j j' → jni_inv j'.
Proof.
  intros Hinv Hs. revert Hinv. destruct Hs as [j | j | j i ok p p' j' Hc E | j ok j' E]; intros Hinv.
  - by apply call_inv.
  - by apply call_inv.
  - by apply (proj2 (native_inv j i ok p Hinv Hc)).
  - by eapply thread_inv.
Qed.

Lemma jni_reach j : star jstep jsys_init j → jni_inv j.
Proof. intros H. by apply (star_invariant _ jni_inv _ _ jstep_inv H jni_inv_init). Qed.

(** ** Runs *)

Ltac jn i b := eapply star_step; [eapply (j_native _ i b); [reflexivity | vm_compute; reflexivity] | vm_compute].
Ltac jt b := eapply star_step; [eapply (j_thread _ b); vm_compute; reflexivity | vm_compute].
Ltac jstart := eapply star_step; [apply j_start | vm_compute].
Ltac jstop := eapply star_step; [apply j_stop | vm_compute].

(** The state a stop that overtakes the start ends in: the loop of the tunnel
    without a request. *)
Definition stuck : jsys :=
  mkJsys (mkSys M_loop (mkSync 9 true 0 true) [S_done] false) true true (Some 1%nat)
    [J_done true; JP_join] W_tunnel.

Lemma stuck_reach : star jstep jsys_init stuck.
Proof.
  unfold jsys_init, sys_init, sync_init, stuck.
  jstart. do 4 jn 0%nat true. jn 0%nat true. do 3 jt true. jstop. do 4 jn 1%nat true.
  do 3 jt true. do 3 jn 1%nat true. apply star_refl.
Qed.

(** No step leads out of a state like [stuck]: new calls wait for the mutex. *)
Definition is_stuck (j : jsys) : Prop :=
  mutex j = Some 1%nat ∧ callers j !! 1%nat = Some JP_join ∧ work_thread j = W_tunnel ∧
  main (tun j) = M_loop ∧ event_bytes (sh (tun j)) = 0%nat ∧
  ∀ i p, callers j !! i = Some p → i = 1%nat ∨ p = JS_lock ∨ p = JP_lock ∨ ∃ b, p = J_done b.

Lemma stuck_step j j' : is_stuck j → jstep j j' → is_stuck j'.
Proof.
  intros (Hm & Hc & Hw & Hp & Hb & Ho) Hs.
  assert (∀ q, q = JS_lock ∨ q = JP_lock → is_stuck (set_callers (callers j ++ [q]) j)) as Hnew.
  { intros q Hq. split_and!; cbn; try done; [by apply lookup_app_l_Some |].
    intros i r [Hi | [_ Hi]]%lookup_app_Some; [by eapply Ho |].
    apply list_lookup_singleton_Some in Hi as [_ <-]. tauto. }
  destruct Hs as [j | j | j i ok p p' j' Hi E | j ok j' E]; [apply Hnew; tauto | apply Hnew; tauto | |].
  - exfalso. destruct (Ho _ _ Hi) as [-> | [-> | [-> | [b ->]]]].
    + rewrite Hc in Hi. injection Hi as <-. cbn in E. unfold join in E. by rewrite Hw in E.
    + cbn in E. unfold lock in E. by rewrite Hm in E.
    + cbn in E. unfold lock in E. by rewrite Hm in E.
    + done.
  - unfold thread_handler in E. rewrite Hw, Hp in E. cbn in E. rewrite (decide_True (P := event_bytes _ = _)) in E by exact Hb. done.
Qed.

(** The tunnel's thread at the check of a run that nobody asked to stop since
    it was started. *)
Definition stale : jsys :=
  mkJsys (mkSys M_run (mkSync 9 true 0 false) [S_done] true) true true None
    [J_done true; J_done true; J_done true] W_tunnel.

Lemma stale_reach : ∃ j, star jstep jsys_init j ∧ callers j = [J_done true; J_done true] ∧
  work_thread j = W_none ∧ star jstep j stale.
Proof.
  exists (mkJsys (mkSys M_idle (mkSync 8 false 0 false) [S_done] true) false false None
    [J_done true; J_done true] W_none). split_and!; [| done | done |].
  - unfold jsys_init, sys_init, sync_init.
    jstart. do 4 jn 0%nat true. jn 0%nat true. jt false. jstop. do 7 jn 1%nat true. jt true.
    do 3 jn 1%nat true. apply star_refl.
  - jstart. do 4 jn 2%nat true. jn 2%nat true. do 4 jt true. apply star_refl.
Qed.

(** ** The claims *)

(** C35. For every interleaving of native calls and the thread they create:
    no call joins a thread that is not there, creates a second one, gives back
    a mutex it does not hold or has a stop call that goes wrong; the tunnel's
    own states are those of [Sync], so there is one thread of the tunnel at a
    time; is-running is true while there is one between the first step of the
    initialisation and the last of the finalisation; and a stop call that has
    joined finds the tunnel out of it. *)
Theorem jni_one_thread j i ok p :
  star jstep jsys_init j → callers j !! i = Some p →
  native_step i ok p j ≠ Wrong ∧ star sys_step sys_init (tun j) ∧
  (holding p = true → ∀ k q, callers j !! k = Some q → holding q = true → k = i) ∧
  (main (tun j) ≠ M_idle → native_is_running j = true) ∧
  (p = JP_store → main (tun j) = M_idle ∧ work_thread j = W_none).
Proof.
  intros Hr Hc. pose proof (jni_reach j Hr) as Hinv.
  pose proof (native_inv j i ok p Hinv Hc) as [Hw _]. destruct Hinv as [Ht Hh Hm Hj Hl Hi Hp]. split_and!; [done | done | | |].
  - intros Hq k q Hk Hq'. pose proof (Hh _ _ Hc Hq). pose proof (Hh _ _ Hk Hq'). congruence.
  - intros Hne. apply Hl. destruct (decide (work_thread j = W_tunnel)) as [-> | Hn]; [done |]. by destruct Hne; apply Hi.
  - intros ->. specialize (Hp _ _ Hc). cbn in Hp. split; [|done]. apply Hi. congruence.
Qed.

Lemma jni_one_thread_witness : native_step 1 true JP_join stuck ≠ Wrong ∧ native_is_running stuck = true.
Proof.
  destruct (jni_one_thread stuck 1 true JP_join stuck_reach eq_refl) as (H1 & _ & _ & H2 & _).
  split; [exact H1 | by apply H2].
Defined.

(** C36. Two stops that go wrong. One that overtakes the start, taking
    [SYNC_WAIT] before the initialisation sets [SYNC_SEND] and leaving
    [SYNC_STOP] after the run looked at it, is lost: the call waits for the
    thread forever with the mutex held, and the tunnel runs on. One that finds
    [is_running] set although the thread has failed to start stays behind:
    the next run, started after that call returned, ends at once. *)
Theorem jni_stop_races :
  (∃ j, star jstep jsys_init j ∧ callers j = [J_done true; JP_join] ∧
     ∀ j', star jstep j j' →
       callers j' !! 1%nat = Some JP_join ∧ mutex j' = Some 1%nat ∧ main (tun j') = M_loop) ∧
  (∃ j j', star jstep jsys_init j ∧ callers j = [J_done true; J_done true] ∧ work_thread j = W_none ∧
     star jstep j j' ∧ callers j' = [J_done true; J_done true; J_done true] ∧
     main (tun j') = M_run ∧ ∃ s, main_step true (main (tun j')) (sh (tun j')) = Some (M_fini, s)).
Proof.
  split.
  - exists stuck. split; [apply stuck_reach |]. split; [done |]. intros j' Hr.
    assert (is_stuck j') as (? & ? & _ & ? & _).
    { apply (star_invariant _ is_stuck _ _ stuck_step Hr). split_and!; try done.
      intros [|[|i]] p Hp; cbn in Hp; simplify_eq; eauto. }
    done.
  - destruct stale_reach as (j & H1 & H2 & H3 & H4). exists j, stale. split_and!; try done. by eexists.
Qed.
