(* ===== verification/Tunnel.v ===== *)
(** * The session set of the tunnel

    Model of the session set, the callbacks of lwIP, the stop event and the
    mapped DNS in [src/hev-socks5-tunnel.c].  The sessions stand in a list in
    the order of their last activity, which is used through [LinkedList]; a
    session is keyed by the address of its node.  The tasks interleave only at
    their yields, so a handler is one step. *)

From S2P Require Import Prelude Buffer IO Interfaces MappedDNS DNSHandle Config Utils.

(** [err_t] of lwIP. *)
Definition ERR_OK : Z := 0.
Definition ERR_MEM : Z := -1.
Definition ERR_RST : Z := -14.

(** The static variables the sessions share. [timeouts] holds the live
    sessions, with whether [hev_socks5_session_terminate] has set their
    timeout to 0; reading another one is a use after free. *)
Record tunnel (L : Type) := mkTunnel {
  session_set : L;
  session_count : Z;
  timeouts : gmap ptr bool;
  t_run : bool;
}.
Arguments mkTunnel {L}.
Arguments session_set {L}.
Arguments session_count {L}.
Arguments timeouts {L}.
Arguments t_run {L}.

Section Program.
Context {L : Type} `{!LinkedList L}.
(** [hev_config_get_misc_max_session_count ()] *)
Context (max_session_count : Z).
Abbreviation T := (tunnel L).

Definition set_session_set (l : L) (t : T) : T := mkTunnel l (session_count t) (timeouts t) (t_run t).
Definition set_session_count (n : Z) (t : T) : T := mkTunnel (session_set t) n (timeouts t) (t_run t).
Definition set_timeouts (m : gmap ptr bool) (t : T) : T := mkTunnel (session_set t) (session_count t) m (t_run t).
Definition set_t_run (r : bool) (t : T) : T := mkTunnel (session_set t) (session_count t) (timeouts t) r.

Definition on_set {A} (m : M L A) : M T A := λ t,
  '(a, l) ← m (session_set t); Some (a, set_session_set l t).
Definition tmod (f : T → T) : M T unit := λ t, Some (tt, f t).

(** ** Sessions *)

(** [hev_socks5_session_terminate] on the session of a node. *)
Definition hev_socks5_session_terminate (node : ptr) : M T unit :=
  m ← mgets timeouts;
  _ ← mlift (m !! node);
  tmod (set_timeouts (<[node := true]> m)).

Definition hev_socks5_tunnel_insert_session (node : ptr) : M T unit :=
  on_set (ll_add_tail node);;
  tmod (λ t, set_session_count (session_count t + 1) t);;
  n ← mgets session_count;
  if decide (max_session_count = 0 ∨ n < max_session_count) then mret tt
  else
    node ← on_set ll_first;
    hev_socks5_session_terminate node.

Definition hev_socks5_tunnel_delete_session (node : ptr) : M T unit :=
  on_set (ll_del node);;
  tmod (λ t, set_session_count (session_count t - 1) t).

Definition hev_socks5_tunnel_update_session (node : ptr) : M T unit :=
  if decide (max_session_count = 0) then mret tt
  else on_set (ll_del node);; on_set (ll_add_tail node).

(** [hev_object_unref] of the last reference frees the session. *)
Definition unref_session (node : ptr) : M T unit :=
  tmod (λ t, set_session_set (ll_free node (session_set t)) (set_timeouts (delete node (timeouts t)) t)).

(** [hev_socks5_session_task_entry] behind [hev_socks5_session_run]. *)
Definition session_task_exit (node : ptr) : M T unit :=
  hev_socks5_tunnel_delete_session node;; unref_session node.

(** ** The callbacks of lwIP *)

(** A new session in its memory, as the constructors leave it. *)
Definition new_session (node : ptr) : M T unit :=
  tmod (λ t, set_session_set (ll_alloc node (session_set t)) (set_timeouts (<[node := false]> (timeouts t)) t)).

(** [node]: the new session, or null; [task]: [hev_task_new] succeeds. *)
Definition start_session (node : ptr) (task : bool) : M T bool :=
  new_session node;;
  if task then hev_socks5_tunnel_insert_session node;; mret true
  else unref_session node;; mret false.

Definition tcp_accept_handler (err : Z) (node : ptr) (task : bool) : M T Z :=
  if decide (err ≠ ERR_OK) then mret err
  else
    r ← mgets t_run;
    if negb r then mret ERR_RST
    else if decide (node = NULL) then mret ERR_MEM
    else
      ok ← start_session node task;
      mret (if ok : bool then ERR_OK else ERR_MEM).

(** What becomes of the new connection. *)
Inductive udp_action := U_removed | U_dns | U_session | U_freed.

#[export] Instance udp_action_dec : EqDecision udp_action.
Proof. solve_decision. Defined.

(** The tunnel's [udp_recv_handler]; [dns]: there is a mapped-DNS table. *)
Definition tunnel_udp_recv_handler (dns : bool) (c : config) (addr : ip_addr_t) (port : Z) (node : ptr)
    (task : bool) : M T udp_action :=
  r ← mgets t_run;
  if negb r then mret U_removed
  else
    mapped ←
      (if decide (dns = true ∧ ip_type addr = IPADDR_TYPE_V4) then
         b ← mlift (mem_read (ip_bytes addr) 0 4);
         mret (bool_decide (hev_config_get_mapdns_port c = port ∧ u32 (hev_config_get_mapdns_address c) = le32 b))
       else mret false);
    if mapped : bool then mret U_dns
    else if decide (node = NULL) then mret U_removed
    else
      ok ← start_session node task;
      mret (if ok : bool then U_session else U_freed).

(** ** The stop event *)

Fixpoint terminate_all (fuel : nat) (node : ptr) : M T (option unit) :=
  match fuel with
  | O => mret None
  | S fuel =>
      if decide (node = NULL) then mret (Some tt)
      else
        hev_socks5_session_terminate node;;
        next ← on_set (ll_next node);
        terminate_all fuel next
  end.

(** [event_task_entry] between the byte and the joins. *)
Definition event_task_entry (fuel : nat) : M T (option unit) :=
  tmod (set_t_run false);;
  node ← on_set ll_first;
  terminate_all fuel node.

(** ** Histories *)

Inductive op :=
| Accept (err : Z) (node : ptr) (task : bool)
| Udp (dns : bool) (c : config) (addr : ip_addr_t) (port : Z) (node : ptr) (task : bool)
| Update (node : ptr)
| Terminate (node : ptr)
| Exit (node : ptr)
| Event.

Definition do_op (o : op) : M T unit :=
  match o with
  | Accept err node task => tcp_accept_handler err node task;; mret tt
  | Udp dns c addr port node task => tunnel_udp_recv_handler dns c addr port node task;; mret tt
  | Update node => hev_socks5_tunnel_update_session node
  | Terminate node => hev_socks5_session_terminate node
  | Exit node => session_task_exit node
  | Event => λ t, (event_task_entry (S (size (timeouts t)));; mret tt) t
  end.

Fixpoint do_ops (os : list op) : M T unit :=
  match os with [] => mret tt | o :: os => do_op o;; do_ops os end.
End Program.

(** ** The answers of the mapped DNS *)

Section DNS.
Context {T L : Type} `{!SearchTree T} `{!LinkedList L}.

(** [dns_recv_handler]: the packet it sends; [b] is the memory of the new
    pbuf. Of the chain [p] it handles the first pbuf. *)
Definition dns_recv_handler (alloc : nat → gmap Z HevMappedDNSNode → ptr * bool) (b : option (list Z)) (p : pbuf) :
    M (HevMappedDNS T L) (option (list Z)) := λ d,
  match b with
  | None => Some (None, d)
  | Some b =>
      '(res, h) ← hev_mapped_dns_handle alloc (p_len p) (Z.of_nat (length b)) (mkH d (payload p) b);
      Some (if decide (res < 0) then None else Some (take (Z.to_nat res) (sb h)), h_self h)
  end.
End DNS.
