(* ===== verification/TunnelProps.v ===== *)
(** * Properties of the session set

    Against any history the set is a list of the live sessions in the order of
    their last activity, each with whether it was told to end; the functions
    on it refine the obvious ones on such a list. *)

From S2P Require Import Prelude Buffer IO Interfaces DList RBTree RBMap MappedDNS DNSHandle Config Utils Tunnel.

(** ** The abstract set *)

Record aset := mkA { sessions : list (ptr * bool); a_run : bool }.

Definition a_terminate (p : ptr) (xs : list (ptr * bool)) : list (ptr * bool) :=
  (λ x, (x.1, x.2 || bool_decide (x.1 = p))) <$> xs.
Definition a_insert (max : Z) (p : ptr) (xs : list (ptr * bool)) : list (ptr * bool) :=
  let xs := xs ++ [(p, false)] in
  if decide (max = 0 ∨ Z.of_nat (length xs) < max) then xs
  else match xs with [] => [] | (q, _) :: xs => (q, true) :: xs end.
Definition a_delete (p : ptr) (xs : list (ptr * bool)) : list (ptr * bool) := filter (λ x, x.1 ≠ p) xs.
Definition a_touch (max : Z) (p : ptr) (xs : list (ptr * bool)) : list (ptr * bool) :=
  if decide (max = 0) then xs else a_delete p xs ++ filter (λ x, x.1 = p) xs.

Definition dns_query (c : config) (addr : ip_addr_t) (port : Z) : bool :=
  bool_decide (ip_type addr = IPADDR_TYPE_V4 ∧ hev_config_get_mapdns_port c = port ∧
    u32 (hev_config_get_mapdns_address c) = le32 (take 4 (ip_bytes addr))).

Definition a_op (max : Z) (o : op) (a : aset) : aset :=
  match o with
  | Accept err node task =>
      mkA (if decide (err = ERR_OK ∧ a_run a = true ∧ node ≠ NULL ∧ task = true)
           then a_insert max node (sessions a) else sessions a) (a_run a)
  | Udp dns c addr port node task =>
      mkA (if decide (a_run a = true ∧ ¬ (dns = true ∧ dns_query c addr port = true) ∧ node ≠ NULL ∧ task = true)
           then a_insert max node (sessions a) else sessions a) (a_run a)
  | Update node => mkA (a_touch max node (sessions a)) (a_run a)
  | Terminate node => mkA (a_terminate node (sessions a)) (a_run a)
  | Exit node => mkA (a_delete node (sessions a)) (a_run a)
  | Event => mkA ((λ x, (x.1, true)) <$> sessions a) false
  end.

Definition a_ops (max : Z) (os : list op) (a : aset) : aset := foldl (λ a o, a_op max o a) a os.

(** New sessions come in fresh memory; the other operations are of a live
    session. *)
Definition op_ok (o : op) (a : aset) : Prop :=
  match o with
  | Accept _ node _ => node ∉ (sessions a).*1
  | Udp _ _ addr _ node _ => (node ∉ (sessions a).*1) ∧ (4 ≤ length (ip_bytes addr))%nat
  | Update node | Terminate node | Exit node => node ∈ (sessions a).*1
  | Event => True
  end.

Fixpoint ops_ok (max : Z) (os : list op) (a : aset) : Prop :=
  match os with [] => True | o :: os => op_ok o a ∧ ops_ok max os (a_op max o a) end.

(** ** Lists of sessions *)

Lemma a_terminate_fst p xs : (a_terminate p xs).*1 = xs.*1.
Proof. induction xs as [|x xs IH]; cbn; [done |]. by f_equal. Qed.

Lemma a_event_fst (xs : list (ptr * bool)) : ((λ x, (x.1, true)) <$> xs).*1 = xs.*1.
Proof. induction xs as [|x xs IH]; cbn; [done |]. by f_equal. Qed.

Lemma filter_none (P : ptr * bool → Prop) `{!∀ x, Decision (P x)} (xs : list (ptr * bool)) : (∀ x, x ∈ xs → ¬ P x) → filter P xs = [].
Proof.
  induction xs as [|x xs IH]; [done |]. intros HP. rewrite filter_cons_False by (apply HP; by left).
  apply IH. intros y Hy. apply HP. by right.
Qed.

Lemma filter_all (P : ptr * bool → Prop) `{!∀ x, Decision (P x)} (xs : list (ptr * bool)) : (∀ x, x ∈ xs → P x) → filter P xs = xs.
Proof.
  induction xs as [|x xs IH]; [done |]. intros HP. rewrite filter_cons_True by (apply HP; by left).
  f_equal. apply IH. intros y Hy. apply HP. by right.
Qed.

(** Where a live session stands. *)
Lemma a_split p (xs : list (ptr * bool)) : NoDup xs.*1 → p ∈ xs.*1 →
  ∃ l b r, xs = l ++ (p, b) :: r ∧ a_delete p xs = l ++ r ∧ filter (λ x, x.1 = p) xs = [(p, b)].
Proof.
  intros Hnd ([q b] & -> & (l & r & ->)%list_elem_of_split)%list_elem_of_fmap.
  rewrite fmap_app, fmap_cons in Hnd. apply NoDup_app in Hnd as (_ & Hl & [Hr _]%NoDup_cons). cbn in *.
  assert (∀ x, x ∈ l → x.1 ≠ q) as H1.
  { intros x Hx <-. apply (Hl x.1); [by apply list_elem_of_fmap_2 | by left]. }
  assert (∀ x, x ∈ r → x.1 ≠ q) as H2.
  { intros x Hx <-. apply Hr. by apply list_elem_of_fmap_2. }
  exists l, b, r. split; [done |]. unfold a_delete. split.
  - rewrite filter_app, filter_cons_False by (cbn; tauto). by rewrite !filter_all.
  - rewrite filter_app, filter_cons_True by done. by rewrite !filter_none.
Qed.

(** ** The operations *)

Section Ops.
Context {L : Type} `{!LinkedList L} (max : Z).
Abbreviation T := (tunnel L).

Record set_rep (t : T) (a : aset) : Prop := {
  sr_list : ll_rep (session_set t) (sessions a).*1;
  sr_count : session_count t = Z.of_nat (length (sessions a));
  sr_data p b : timeouts t !! p = Some b ↔ (p, b) ∈ sessions a;
  sr_run : t_run t = a_run a;
}.

Lemma on_set_some {A} (m : M L A) (t : T) x l : m (session_set t) = Some (x, l) →
  on_set m t = Some (x, set_session_set l t).
Proof. unfold on_set. by intros ->. Qed.

Lemma set_id (t : T) : set_session_set (session_set t) t = t.
Proof. by destruct t. Qed.

Lemma terminate_spec t a p : set_rep t a → p ∈ (sessions a).*1 →
  ∃ t', hev_socks5_session_terminate p t = Some (tt, t') ∧ set_rep t' (mkA (a_terminate p (sessions a)) (a_run a)).
Proof.
  intros [Hl Hc Hd Hr] ([q b] & -> & Hp)%list_elem_of_fmap. cbn [fst].
  eexists. split.
  - unfold hev_socks5_session_terminate. unfold mbind at 1, M_bind at 1, mgets. cbn.
    pose proof (proj2 (Hd q b) Hp) as E. unfold mbind at 1, M_bind at 1, mlift. rewrite E. reflexivity.
  - split; cbn [session_set session_count timeouts t_run set_timeouts sessions a_run].
    + by rewrite a_terminate_fst.
    + unfold a_terminate. by rewrite length_fmap.
    + intros p b'. unfold a_terminate. rewrite list_elem_of_fmap. destruct (decide (p = q)) as [-> | Hpq].
      * rewrite lookup_insert_eq. split.
        -- intros [= <-]. exists (q, b). split; [|done]. cbn. by rewrite bool_decide_eq_true_2, orb_true_r.
        -- intros ([q' b''] & [= -> ->] & _). by rewrite bool_decide_eq_true_2, orb_true_r.
      * rewrite lookup_insert_ne, Hd by done. split.
        -- intros Hin. exists (p, b'). split; [|done]. cbn. by rewrite bool_decide_eq_false_2, orb_false_r.
        -- intros ([q' b''] & [= -> ->] & Hin). by rewrite bool_decide_eq_false_2, orb_false_r.
    + done.
Qed.

(** Unlink a live session and link it at the tail. *)
Lemma touch_spec t a p : set_rep t a → p ∈ (sessions a).*1 →
  ∃ t', hev_socks5_tunnel_update_session max p t = Some (tt, t') ∧ set_rep t' (mkA (a_touch max p (sessions a)) (a_run a)).
Proof.
  intros Hrep Hp. unfold hev_socks5_tunnel_update_session, a_touch. case_decide as Hmax.
  { exists t. split; [done |]. by destruct a. }
  destruct Hrep as [Hl Hc Hd Hr]. pose proof (proj1 (ll_rep_nodup _ _ Hl)) as Hnd.
  destruct (a_split p _ Hnd Hp) as (l & b & r & E & Ed & Ef). rewrite Ed, Ef. rewrite E in *.
  rewrite fmap_app, fmap_cons in Hl. cbn [fst] in Hl.
  destruct (ll_touch_spec _ _ _ _ Hl) as (s' & Es & Hs').
  unfold ll_touch in Es. apply mbind_inv in Es as ([] & s1 & E1 & E2).
  exists (set_session_set s' t). split.
  - rewrite (mbind_some _ _ _ _ _ (on_set_some _ _ _ _ E1)). apply (on_set_some _ (set_session_set s1 t) _ _ E2).
  - split; cbn [session_set session_count timeouts t_run set_session_set sessions a_run].
    + by rewrite !fmap_app, <-app_assoc.
    + rewrite Hc, !length_app. cbn. lia.
    + intros q b'. rewrite Hd. set_solver.
    + done.
Qed.

Lemma exit_spec t a p : set_rep t a → p ∈ (sessions a).*1 →
  ∃ t', session_task_exit p t = Some (tt, t') ∧ set_rep t' (mkA (a_delete p (sessions a)) (a_run a)).
Proof.
  intros [Hl Hc Hd Hr] Hp. pose proof (proj1 (ll_rep_nodup _ _ Hl)) as Hnd.
  destruct (a_split p _ Hnd Hp) as (l & b & r & E & Ed & _). rewrite Ed. rewrite E in *.
  rewrite fmap_app, fmap_cons in Hl, Hnd. cbn [fst] in Hl, Hnd.
  assert (p ∉ l.*1 ++ r.*1) as Hpn.
  { apply NoDup_app in Hnd as (_ & Hdis & [Hr' _]%NoDup_cons). intros [Hin | Hin]%elem_of_app; [|done].
    apply (Hdis p Hin). by left. }
  destruct (ll_del_spec _ _ _ _ Hl) as (s1 & E1 & Hs1 & _).
  unfold session_task_exit, hev_socks5_tunnel_delete_session.
  unfold mbind at 1, M_bind at 1. rewrite (mbind_some _ _ _ _ _ (on_set_some _ _ _ _ E1)). cbn.
  eexists. split; [reflexivity |].
  split; cbn [session_set session_count timeouts t_run set_session_set set_timeouts set_session_count sessions a_run].
  - rewrite fmap_app. by apply ll_free_spec.
  - rewrite Hc, !length_app. cbn. lia.
  - intros q b'. rewrite fmap_app in *. destruct (decide (q = p)) as [-> | Hq].
    + rewrite lookup_delete_eq. split; [done |]. intros Hin. destruct Hpn.
      rewrite <-fmap_app. by apply (list_elem_of_fmap_2 fst _ (p, b')).
    + rewrite lookup_delete_ne, Hd by done. set_solver.
  - done.
Qed.

Lemma a_terminate_head q b (xs : list (ptr * bool)) : q ∉ xs.*1 → a_terminate q ((q, b) :: xs) = (q, true) :: xs.
Proof.
  intros Hq. unfold a_terminate. cbn. rewrite bool_decide_eq_true_2, orb_true_r by done. f_equal.
  induction xs as [|[p c] xs IH]; [done |]. cbn in *. apply not_elem_of_cons in Hq as [Hne Hq].
  rewrite bool_decide_eq_false_2, orb_false_r by done. by rewrite IH.
Qed.

Lemma insert_spec t a p : set_rep t a → p ∉ (sessions a).*1 → p ≠ NULL →
  let t1 := mkTunnel (ll_alloc p (session_set t)) (session_count t) (<[p := false]> (timeouts t)) (t_run t) in
  ∃ t', hev_socks5_tunnel_insert_session max p t1 = Some (tt, t') ∧
    set_rep t' (mkA (a_insert max p (sessions a)) (a_run a)).
Proof.
  intros [Hl Hc Hd Hr] Hp Hn t1. destruct (ll_alloc_spec _ _ p Hl Hp) as [Hla Hrdy].
  destruct (ll_add_tail_spec _ _ p Hla Hp Hn Hrdy) as (l2 & E2 & Hl2).
  set (xs := sessions a ++ [(p, false)]).
  assert (set_rep (mkTunnel l2 (session_count t + 1) (<[p := false]> (timeouts t)) (t_run t)) (mkA xs (a_run a))) as Hrep.
  { split; cbn [session_set session_count timeouts t_run sessions a_run].
    - unfold xs. by rewrite fmap_app.
    - unfold xs. rewrite Hc, length_app. cbn. lia.
    - intros q b. unfold xs. rewrite elem_of_app, list_elem_of_singleton. destruct (decide (q = p)) as [-> | Hq].
      + rewrite lookup_insert_eq. split; [intros [= <-]; by right |]. intros [Hin | [= ->]]; [|done].
        destruct Hp. by apply (list_elem_of_fmap_2 fst _ (p, b)).
      + rewrite lookup_insert_ne, Hd by done. naive_solver.
    - done. }
  unfold hev_socks5_tunnel_insert_session.
  rewrite (mbind_some _ _ _ _ _ (on_set_some _ t1 _ _ E2)). unfold mbind at 1, M_bind at 1, tmod.
  unfold mbind at 1, M_bind at 1, mgets. cbn [session_count set_session_count set_session_set t1].
  unfold a_insert. fold xs. rewrite Hc.
  replace (Z.of_nat (length xs)) with (Z.of_nat (length (sessions a)) + 1) by (unfold xs; rewrite length_app; cbn; lia).
  case_decide as Hmax; [eexists; split; [reflexivity | by rewrite <-Hc] |].
  set (t2 := set_session_count _ _).
  assert (t2 = mkTunnel l2 (session_count t + 1) (<[p := false]> (timeouts t)) (t_run t)) as -> by (unfold t2; by rewrite Hc).
  destruct xs as [|[q b] ys] eqn:Hxs; [by destruct (sessions a)|].
  pose proof (ll_first_spec _ _ (sr_list _ _ Hrep)) as Ef. cbn [sessions fmap list_fmap fst first_of list.head default from_option] in Ef.
  rewrite (mbind_some _ _ _ _ _ (on_set_some _ _ _ _ Ef)), set_id.
  destruct (terminate_spec _ _ q Hrep) as (t' & E' & Hrep'); [by left |].
  exists t'. split; [exact E' |]. cbn [sessions a_run] in Hrep'.
  pose proof (proj1 (ll_rep_nodup _ _ (sr_list _ _ Hrep))) as [Hq _]%NoDup_cons.
  by rewrite a_terminate_head in Hrep'.
Qed.

Lemma start_spec t a p task : set_rep t a → p ∉ (sessions a).*1 → p ≠ NULL →
  ∃ t', start_session max p task t = Some (task, t') ∧
    set_rep t' (mkA (if task then a_insert max p (sessions a) else sessions a) (a_run a)).
Proof.
  intros Hrep Hp Hn. unfold start_session. unfold mbind at 1, M_bind at 1, new_session, tmod.
  destruct task.
  - destruct (insert_spec t a p Hrep Hp Hn) as (t' & E & Hrep'). exists t'. split; [|done].
    by rewrite (mbind_some _ _ _ _ _ E).
  - eexists. split; [reflexivity |]. destruct Hrep as [Hl Hc Hd Hr].
    destruct (ll_alloc_spec _ _ p Hl Hp) as [Hla _]. split; cbn; [by apply ll_free_spec | done | | done].
    intros q b. destruct (decide (q = p)) as [-> | Hq].
    + rewrite lookup_delete_eq. split; [done |]. intros Hin. destruct Hp. by apply (list_elem_of_fmap_2 fst _ (p, b)).
    + by rewrite lookup_delete_ne, lookup_insert_ne, Hd.
Qed.

(** The loop of the stop event, with the sessions before [node] done. *)
Lemma terminate_all_spec fuel t ys zs r : set_rep t (mkA (((λ x, (x.1, true)) <$> ys) ++ zs) r) →
  (length zs < fuel)%nat →
  ∃ t', terminate_all fuel (first_of NULL zs.*1) t = Some (Some tt, t') ∧
    set_rep t' (mkA ((λ x, (x.1, true)) <$> (ys ++ zs)) r).
Proof.
  revert t ys zs; induction fuel as [|fuel IH]; intros t ys zs Hrep Hf; [lia |].
  cbn [terminate_all]. destruct zs as [|[p b] zs]; cbn [first_of fmap list_fmap list.head default from_option fst].
  { rewrite decide_True by done. exists t. by rewrite app_nil_r in *. }
  pose proof (sr_list _ _ Hrep) as Hl. cbn [sessions] in Hl. rewrite fmap_app, fmap_cons in Hl. cbn [fst] in Hl.
  destruct (ll_rep_nodup _ _ Hl) as [Hnd Hnull]. rewrite decide_False by set_solver.
  destruct (terminate_spec _ _ p Hrep) as (t1 & E1 & Hrep1); [cbn; rewrite fmap_app; set_solver |].
  rewrite (mbind_some _ _ _ _ _ E1). cbn [sessions a_run] in Hrep1.
  apply NoDup_app in Hnd as (_ & Hdis & [Hpz _]%NoDup_cons). rewrite a_event_fst in Hdis.
  assert (a_terminate p (((λ x, (x.1, true)) <$> ys) ++ (p, b) :: zs) =
    ((λ x, (x.1, true)) <$> (ys ++ [(p, b)])) ++ zs) as Ea.
  { unfold a_terminate. rewrite fmap_app. fold (a_terminate p ((p, b) :: zs)). rewrite a_terminate_head by done.
    rewrite fmap_app, <-app_assoc. cbn. f_equal. clear. induction ys as [|y ys IH]; cbn; [done |]. by f_equal. }
  rewrite Ea in Hrep1. pose proof (sr_list _ _ Hrep1) as Hl1. cbn [sessions] in Hl1.
  rewrite !fmap_app in Hl1. cbn [fmap list_fmap fst] in Hl1. rewrite <-app_assoc in Hl1. cbn [app] in Hl1.
  rewrite (mbind_some _ _ _ _ _ (on_set_some _ _ _ _ (ll_next_spec _ _ _ _ Hl1))), set_id.
  destruct (IH _ _ _ Hrep1) as (t' & E' & Hrep'); [cbn in Hf; lia |].
  exists t'. split; [exact E' |]. by rewrite <-app_assoc in Hrep'.
Qed.

Lemma rep_size t a : set_rep t a → size (timeouts t) = length (sessions a).
Proof.
  intros [Hl _ Hd _]. pose proof (proj1 (ll_rep_nodup _ _ Hl)) as Hnd.
  assert (timeouts t = list_to_map (sessions a)) as ->.
  { apply map_eq. intros p. apply option_eq. intros b. rewrite Hd. by rewrite elem_of_list_to_map. }
  rewrite map_size_list_to_map; [done |]. done.
Qed.

Lemma event_spec t a : set_rep t a →
  ∃ t', event_task_entry (S (size (timeouts t))) t = Some (Some tt, t') ∧
    set_rep t' (mkA ((λ x, (x.1, true)) <$> sessions a) false).
Proof.
  intros Hrep. rewrite (rep_size _ _ Hrep). unfold event_task_entry.
  unfold mbind at 1, M_bind at 1, tmod. set (t1 := set_t_run false t).
  assert (set_rep t1 (mkA (sessions a) false)) as Hrep1 by (destruct Hrep; by split).
  rewrite (mbind_some _ _ _ _ _ (on_set_some _ _ _ _ (ll_first_spec _ _ (sr_list _ _ Hrep1)))), set_id.
  destruct (terminate_all_spec (S (length (sessions a))) t1 [] (sessions a) false) as (t' & E & Hrep'); [done | lia |].
  exists t'. split; [exact E | done].
Qed.

Lemma accept_spec t a err p task : set_rep t a → p ∉ (sessions a).*1 →
  ∃ r t', tcp_accept_handler max err p task t = Some (r, t') ∧ set_rep t' (a_op max (Accept err p task) a).
Proof.
  intros Hrep Hp. unfold tcp_accept_handler, a_op. destruct (decide (err ≠ ERR_OK)) as [He | He].
  { rewrite decide_False by tauto. exists err, t. split; [done | by destruct a]. }
  unfold mbind at 1, M_bind at 1, mgets. rewrite (sr_run _ _ Hrep). destruct (a_run a) eqn:Hr; cbn [negb].
  2: { rewrite decide_False by naive_solver. exists ERR_RST, t. split; [done |]. rewrite <-Hr. by destruct a. }
  destruct (decide (p = NULL)) as [Hn | Hn].
  { rewrite decide_False by naive_solver. exists ERR_MEM, t. split; [done |]. rewrite <-Hr. by destruct a. }
  destruct (start_spec t a p task Hrep Hp Hn) as (t' & E & Hrep'). rewrite (mbind_some _ _ _ _ _ E).
  eexists _, t'. split; [reflexivity |]. rewrite Hr in Hrep'. destruct task.
  - rewrite decide_True; [done |]. split_and!; try done. by destruct (decide (err = ERR_OK)).
  - rewrite decide_False by naive_solver. done.
Qed.

Lemma mem_read_4 (m : list Z) : (4 ≤ length m)%nat → mem_read m 0 4 = Some (take 4 m).
Proof. intros Hl. unfold mem_read. by rewrite decide_True by lia. Qed.

Lemma udp_spec t a dns c addr port p task : set_rep t a → p ∉ (sessions a).*1 → (4 ≤ length (ip_bytes addr))%nat →
  ∃ r t', tunnel_udp_recv_handler max dns c addr port p task t = Some (r, t') ∧
    set_rep t' (a_op max (Udp dns c addr port p task) a).
Proof.
  intros Hrep Hp Hip. unfold tunnel_udp_recv_handler, a_op.
  unfold mbind at 1, M_bind at 1, mgets. rewrite (sr_run _ _ Hrep). destruct (a_run a) eqn:Hr; cbn [negb].
  2: { rewrite decide_False by naive_solver. exists U_removed, t. split; [done |]. rewrite <-Hr. by destruct a. }
  match goal with |- context [(if decide (dns = true ∧ ip_type addr = IPADDR_TYPE_V4) then ?m else _) ≫= ?k] =>
    assert ((if decide (dns = true ∧ ip_type addr = IPADDR_TYPE_V4) then m else mret false) t =
      Some (dns && dns_query c addr port, t)) as Eq end.
  { unfold dns_query. case_decide as Hd.
    - destruct Hd as [-> Hty]. unfold mbind at 1, M_bind at 1, mlift. rewrite mem_read_4 by done. cbn [andb].
      unfold mret, M_ret. do 2 f_equal. apply bool_decide_ext. tauto.
    - unfold mret, M_ret. do 2 f_equal. destruct dns; [|done]. cbn. rewrite bool_decide_eq_false_2; [done | tauto]. }
  rewrite (mbind_some _ _ _ _ _ Eq). destruct (dns && dns_query c addr port) eqn:Hq.
  { apply andb_true_iff in Hq. rewrite decide_False by tauto. exists U_dns, t. split; [done |]. rewrite <-Hr. by destruct a. }
  apply andb_false_iff in Hq. destruct (decide (p = NULL)) as [Hn | Hn].
  { rewrite decide_False by naive_solver. exists U_removed, t. split; [done |]. rewrite <-Hr. by destruct a. }
  destruct (start_spec t a p task Hrep Hp Hn) as (t' & E & Hrep'). rewrite (mbind_some _ _ _ _ _ E).
  eexists _, t'. split; [reflexivity |]. rewrite Hr in Hrep'. destruct task.
  - rewrite decide_True; [done |]. split_and!; try done. intros [H1 H2]. rewrite H1, H2 in Hq. by destruct Hq.
  - rewrite decide_False by naive_solver. done.
Qed.

Lemma do_op_spec t a o : set_rep t a → op_ok o a →
  ∃ t', do_op max o t = Some (tt, t') ∧ set_rep t' (a_op max o a).
Proof.
  intros Hrep Hok. destruct o as [err p task | dns c addr port p task | p | p | p |]; cbn [op_ok do_op] in *.
  - destruct (accept_spec t a err p task Hrep Hok) as (r & t' & E & H'). exists t'. by rewrite (mbind_some _ _ _ _ _ E).
  - destruct Hok as [Hp Hip]. destruct (udp_spec t a dns c addr port p task Hrep Hp Hip) as (r & t' & E & H').
    exists t'. by rewrite (mbind_some _ _ _ _ _ E).
  - by apply touch_spec.
  - by apply terminate_spec.
  - by apply exit_spec.
  - destruct (event_spec t a Hrep) as (t' & E & H'). exists t'. by rewrite (mbind_some _ _ _ _ _ E).
Qed.

Lemma do_ops_spec os t a : set_rep t a → ops_ok max os a →
  ∃ t', do_ops max os t = Some (tt, t') ∧ set_rep t' (a_ops max os a).
Proof.
  revert t a; induction os as [|o os IH]; intros t a Hrep Hok; [by exists t |].
  destruct Hok as [Ho Hok]. destruct (do_op_spec t a o Hrep Ho) as (t1 & E & Hrep1).
  cbn [do_ops]. rewrite (mbind_some _ _ _ _ _ E). by apply IH.
Qed.

Definition tunnel_start : T := mkTunnel ll_empty 0 ∅ true.

Lemma start_rep : set_rep tunnel_start (mkA [] true).
Proof. split; cbn; [exact ll_rep_empty | done | | done]. intros p b. rewrite lookup_empty. set_solver. Qed.
End Ops.

(** After the stop event: nothing joins the set, and what is in it was told to
    end. *)
Definition stopped (base : list ptr) (a : aset) : Prop :=
  a_run a = false ∧ ∀ x, x ∈ sessions a → x.2 = true ∧ x.1 ∈ base.

Lemma stopped_op max base a o : stopped base a → stopped base (a_op max o a).
Proof.
  intros [Hr Hx]. destruct o as [err p task | dns c addr port p task | p | p | p |]; cbn [a_op]; unfold stopped; cbn [sessions a_run].
  - rewrite decide_False by (rewrite Hr; intros (_ & ? & _); done). done.
  - rewrite decide_False by (rewrite Hr; intros (? & _); done). done.
  - split; [done |]. unfold a_touch, a_delete. case_decide; [done |].
    intros x [[_ Hin]%list_elem_of_filter | [_ Hin]%list_elem_of_filter]%elem_of_app; auto.
  - split; [done |]. intros x (y & -> & Hin)%list_elem_of_fmap. destruct (Hx y Hin) as [H1 H2]. cbn. by rewrite H1.
  - split; [done |]. intros x [_ Hin]%list_elem_of_filter. auto.
  - split; [done |]. intros x (y & -> & Hin)%list_elem_of_fmap. cbn. split; [done | by apply Hx].
Qed.

Lemma stopped_ops max base os a : stopped base a → stopped base (a_ops max os a).
Proof. revert a; induction os as [|o os IH]; intros a H; [done |]. cbn. apply IH. by apply stopped_op. Qed.

Lemma ops_ok_app max os1 os2 a : ops_ok max (os1 ++ os2) a ↔ ops_ok max os1 a ∧ ops_ok max os2 (a_ops max os1 a).
Proof. revert a; induction os1 as [|o os1 IH]; intros a; cbn; [tauto |]. rewrite IH. unfold a_ops. cbn. tauto. Qed.

(** ** The claims *)

(** C37. For every history of accepted connections, datagrams, activity,
    terminations, ends of sessions and stop events, the handlers never touch a
    session or a list node that is not there, and the set is what the same
    history makes of a plain list: sessions in the order of their last
    activity, [session_count] its length, a session added at the tail, and the
    first one told to end when the count has reached a limit that is not 0. *)
Theorem session_set_refines {L} `{!LinkedList L} max os :
  ops_ok max os (mkA [] true) →
  ∃ t' : tunnel L, do_ops max os tunnel_start = Some (tt, t') ∧ set_rep t' (a_ops max os (mkA [] true)).
Proof. apply do_ops_spec, start_rep. Qed.

Definition demo_addr : ip_addr_t := mkIp IPADDR_TYPE_V4 [8; 8; 8; 8].
Definition demo_history : list op :=
  [Accept ERR_OK 16 true; Udp true config_zero demo_addr 53 32 true; Update 16; Accept ERR_OK 48 true;
   Accept ERR_OK 64 false; Exit 32].

Lemma demo_history_ok : ops_ok 3 demo_history (mkA [] true).
Proof. unfold demo_history. cbn -[dns_query]. split_and!; try (vm_compute; set_solver); set_solver. Qed.

Lemma session_set_refines_witness :
  ∃ t' : tunnel lstore, do_ops 3 demo_history tunnel_start = Some (tt, t') ∧
    set_rep t' (mkA [(16, false); (48, false)] true).
Proof. exact (session_set_refines (L := lstore) 3 demo_history demo_history_ok). Defined.

(** C38. A stop leaves no session behind: after the stop event every session
    still in the set was told to end, and none joins it again, whatever
    connections and datagrams arrive; so the number of sessions only falls. *)
Theorem stop_ends_sessions {L} `{!LinkedList L} max os1 os2 :
  ops_ok max (os1 ++ Event :: os2) (mkA [] true) →
  ∃ t1 t2 : tunnel L, do_ops max os1 tunnel_start = Some (tt, t1) ∧
    do_ops max (Event :: os2) t1 = Some (tt, t2) ∧ t_run t2 = false ∧
    (∀ node b, timeouts t2 !! node = Some b → b = true ∧ is_Some (timeouts t1 !! node)) ∧
    session_count t2 ≤ session_count t1.
Proof.
  intros [H1 H2]%ops_ok_app. destruct (do_ops_spec max os1 _ _ start_rep H1) as (t1 & E1 & Hrep1).
  destruct (do_ops_spec max (Event :: os2) t1 _ Hrep1 H2) as (t2 & E2 & Hrep2). exists t1, t2.
  set (a1 := a_ops max os1 _) in *. assert (stopped (sessions a1).*1 (a_ops max (Event :: os2) a1)) as [Hr Hx].
  { cbn [a_ops foldl]. apply stopped_ops. split; [done |]. cbn.
    intros x (y & -> & Hin)%list_elem_of_fmap. split; [done | exact (list_elem_of_fmap_2 fst _ _ Hin)]. }
  split_and!; [done | done | by rewrite (sr_run _ _ Hrep2) | |].
  - intros p b Hp%(sr_data _ _ Hrep2). destruct (Hx _ Hp) as [Hb ([q c] & Hq & Hin)%list_elem_of_fmap].
    split; [done |]. cbn in Hq. subst q. exists c. by apply (sr_data _ _ Hrep1).
  - rewrite (sr_count _ _ Hrep1), (sr_count _ _ Hrep2).
    pose proof (proj1 (ll_rep_nodup _ _ (sr_list _ _ Hrep2))) as Hnd.
    apply Nat2Z.inj_le. rewrite <-!(length_fmap fst). apply submseteq_length, NoDup_submseteq; [done |].
    intros p (x & -> & Hin)%list_elem_of_fmap. by apply Hx.
Qed.

Lemma stop_ends_sessions_witness : ∃ t1 t2 : tunnel lstore,
  do_ops 3 demo_history tunnel_start = Some (tt, t1) ∧
  do_ops 3 [Event; Accept ERR_OK 96 true; Exit 16] t1 = Some (tt, t2) ∧
  ∀ node b, timeouts t2 !! node = Some b → b = true.
Proof.
  destruct (stop_ends_sessions (L := lstore) 3 demo_history [Accept ERR_OK 96 true; Exit 16])
    as (t1 & t2 & E1 & E2 & _ & H & _).
  - apply ops_ok_app. split; [exact demo_history_ok |]. cbn -[dns_query]. split_and!; try done; vm_compute; set_solver.
  - exists t1, t2. split; [done |]. split; [done |]. intros node b Hb. by apply (H node b).
Defined.
