(* ===== verification/Ledger.v ===== *)
(** * The ledger of handles

    What a program takes from the outside and gives back: the events of a run
    are booked on a list of handles, and a run is balanced when it turns what
    is held before into what is held after, whatever else is held.  A run can
    lose the pcb it gives to a [tcp_listen] that fails ([lost]). *)

From S2P Require Import Prelude IO.

(** ** The ledger *)

Abbreviation handles := (list (resource * Z)).

Definition got (k : resource) (h : Z) : handles :=
  match k with
  | R_fd | R_sys => if decide (0 ≤ h) then [(k, h)] else []
  | _ => if decide (h = NULL) then [] else [(k, h)]
  end.

(** What is held after an event; [None] when something is given back that is
    not held.  A listening pcb replaces the one it is made of; a pbuf that
    lwIP takes and a packet that is sent are not held any more. *)
Definition ledger_step (o : option handles) (c : ev * resp) : option handles :=
  l ← o;
  match c.1 with
  | Acquire k => Some (got k (ret c.2) ++ l)
  | Open _ | Socket _ _ => Some (got R_fd (ret c.2) ++ l)
  | SocketPair => Some (if decide (ret c.2 < 0) then l else (R_fd, aux c.2) :: (R_fd, ret c.2) :: l)
  | TcpListen h =>
      if decide (ret c.2 = NULL) then Some l else cons (R_tcp, ret c.2) <$> remove_one (R_tcp, h) l
  | Close fd => remove_one (R_fd, fd) l
  | Release k h => remove_one (k, h) l
  | NetifInput h _ => if decide (ret c.2 = 0) then remove_one (R_pbuf, h) l else Some l
  | Windows (SendPacket _ h _) => remove_one (R_packet, h) l
  | _ => Some l
  end.

Definition held_after (l : handles) (tr : list (ev * resp)) : option handles := foldl ledger_step (Some l) tr.

(** The events that are not booked. *)
Definition harmless (e : ev) : Prop :=
  match e with
  | Acquire _ | Open _ | Socket _ _ | SocketPair | TcpListen _ | Close _ | Release _ _ | NetifInput _ _
  | Windows (SendPacket _ _ _) => False
  | _ => True
  end.

(** The pcbs a run loses: [tcp_listen] leaves its argument as it is when it
    fails, and the variable that held it has the null pointer then. *)
Definition lost_by (c : ev * resp) : handles :=
  match c.1 with TcpListen h => if decide (ret c.2 = NULL) then [(R_tcp, h)] else [] | _ => [] end.

Definition lost (tr : list (ev * resp)) : handles := tr ≫= lost_by.

Lemma lost_app t1 t2 : lost (t1 ++ t2) = lost t1 ++ lost t2.
Proof. apply bind_app. Qed.

Lemma lost_cons c tr : lost (c :: tr) = lost_by c ++ lost tr.
Proof. done. Qed.

Lemma remove_one_in {A} `{EqDecision A} (x : A) l : x ∈ l → ∃ l', remove_one x l = Some l' ∧ l ≡ₚ x :: l'.
Proof.
  induction l as [|y l IH]; [by intros ?%elem_of_nil |]. intros Hin. cbn. destruct (decide (x = y)) as [-> | Hn].
  - by exists l.
  - apply elem_of_cons in Hin as [-> | Hin]; [done |]. destruct (IH Hin) as (l' & -> & Hp).
    exists (y :: l'). split; [done |]. rewrite Hp. apply Permutation_swap.
Qed.

(** [balanced a b tr]: whatever else is held, the run turns what [a] holds
    into what [b] holds, beside what it loses. *)
Definition balanced (a b : handles) (tr : list (ev * resp)) : Prop :=
  ∀ l l0, l0 ≡ₚ a ++ l → ∃ l1, held_after l0 tr = Some l1 ∧ l1 ≡ₚ b ++ lost tr ++ l.

Lemma balanced_nil a b : a ≡ₚ b → balanced a b [].
Proof. intros E l l0 H. exists l0. split; [done |]. by rewrite H, E. Qed.

Lemma held_cons l c tr l1 : ledger_step (Some l) c = Some l1 → held_after l (c :: tr) = held_after l1 tr.
Proof. unfold held_after. cbn [foldl]. by intros ->. Qed.

Lemma balanced_app a b c t1 t2 : balanced a b t1 → balanced b c t2 → balanced a c (t1 ++ t2).
Proof.
  intros H1 H2 l l0 P0. destruct (H1 l l0 P0) as (l1 & E1 & P1).
  destruct (H2 _ l1 P1) as (l2 & E2 & P2). exists l2. split.
  - unfold held_after in *. by rewrite foldl_app, E1.
  - rewrite P2, lost_app. solve_Permutation.
Qed.

Lemma balanced_cons a b c tr a1 :
  (∀ l l0, l0 ≡ₚ a ++ l → ∃ l1, ledger_step (Some l0) c = Some l1 ∧ l1 ≡ₚ a1 ++ lost_by c ++ l) →
  balanced a1 b tr → balanced a b (c :: tr).
Proof.
  intros Hc. apply (balanced_app _ _ _ [c]). intros l l0 P0. destruct (Hc l l0 P0) as (l1 & E & P1).
  exists l1. split; [exact E |]. rewrite lost_cons, app_nil_r. exact P1.
Qed.

Lemma balanced_perm a a' b b' tr : a ≡ₚ a' → b ≡ₚ b' → balanced a b tr → balanced a' b' tr.
Proof. intros Ea Eb H l l0 P0. destruct (H l l0) as (l1 & E & P1); [by rewrite P0, Ea |]. exists l1. by rewrite <-Eb. Qed.

Lemma balanced_frame a b c tr : balanced a b tr → balanced (a ++ c) (b ++ c) tr.
Proof.
  intros H l l0 P0. rewrite <-app_assoc in P0. destruct (H _ _ P0) as (l1 & E & P1). exists l1. split; [done |].
  rewrite P1. solve_Permutation.
Qed.

Lemma balanced_beside a tr : balanced [] [] tr → balanced a a tr.
Proof. apply (balanced_frame [] [] a). Qed.

Lemma balanced_same a : balanced a a [].
Proof. by apply balanced_nil. Qed.

#[export] Hint Resolve balanced_same balanced_beside : hev.

Lemma got_negative v : v < 0 → got R_fd v = [].
Proof. intros Hv. cbn. by rewrite decide_False by lia. Qed.

Lemma got_fd v : 0 ≤ v → got R_fd v = [(R_fd, v)].
Proof. intros Hv. cbn. by rewrite decide_True by lia. Qed.

(** The events, one by one. *)
Lemma bal_acquire k r a b tr : balanced (got k (ret r) ++ a) b tr → balanced a b ((Acquire k, r) :: tr).
Proof. apply balanced_cons. intros l l0 P0. eexists. split; [reflexivity |]. by rewrite P0, app_assoc. Qed.

Lemma bal_socket f t r a b tr : balanced (got R_fd (ret r) ++ a) b tr → balanced a b ((Socket f t, r) :: tr).
Proof. apply balanced_cons. intros l l0 P0. eexists. split; [reflexivity |]. by rewrite P0, app_assoc. Qed.

Lemma bal_open p r a b tr : balanced (got R_fd (ret r) ++ a) b tr → balanced a b ((Open p, r) :: tr).
Proof. apply balanced_cons. intros l l0 P0. eexists. split; [reflexivity |]. by rewrite P0, app_assoc. Qed.

Lemma bal_give k h l l0 (a : handles) : l0 ≡ₚ ((k, h) :: a) ++ l → ∃ l1, remove_one (k, h) l0 = Some l1 ∧ l1 ≡ₚ a ++ l.
Proof.
  intros P0. destruct (remove_one_in (k, h) l0) as (l1 & E & P1); [rewrite P0; by left |].
  exists l1. split; [done |]. rewrite P1 in P0. by apply Permutation_cons_inv in P0.
Qed.

Lemma bal_close fd r a b tr : balanced a b tr → balanced ((R_fd, fd) :: a) b ((Close fd, r) :: tr).
Proof. apply balanced_cons. intros l l0 P0. by apply bal_give. Qed.

Lemma bal_release k h r a b tr : balanced a b tr → balanced ((k, h) :: a) b ((Release k h, r) :: tr).
Proof. apply balanced_cons. intros l l0 P0. by apply bal_give. Qed.

Lemma bal_input h bs r a b tr : (ret r = 0 → balanced a b tr) → (ret r ≠ 0 → balanced ((R_pbuf, h) :: a) b tr) →
  balanced ((R_pbuf, h) :: a) b ((NetifInput h bs, r) :: tr).
Proof.
  intros H0 H1. destruct (decide (ret r = 0)) as [E | E].
  - apply (balanced_cons _ _ _ _ a); [|auto]. intros l l0 P0. cbn. rewrite decide_True by done. by apply bal_give.
  - apply (balanced_cons _ _ _ _ ((R_pbuf, h) :: a)); [|auto]. intros l l0 P0. cbn. rewrite decide_False by done. by exists l0.
Qed.

Lemma bal_send s h bs r a b tr : balanced a b tr → balanced ((R_packet, h) :: a) b ((Windows (SendPacket s h bs), r) :: tr).
Proof. apply balanced_cons. intros l l0 P0. by apply bal_give. Qed.

Lemma bal_listen h r a b tr : balanced (got R_tcp (ret r) ++ a) b tr →
  balanced ((R_tcp, h) :: a) b ((TcpListen h, r) :: tr).
Proof.
  apply balanced_cons. intros l l0 P0. unfold lost_by. cbn. destruct (decide (ret r = NULL)) as [E | E].
  - exists l0. split; [done |]. rewrite P0. cbn. solve_Permutation.
  - destruct (bal_give _ _ _ _ _ P0) as (l1 & -> & P1). eexists. split; [reflexivity |]. by rewrite P1.
Qed.

Lemma bal_pair r a b tr : balanced ((if decide (ret r < 0) then [] else [(R_fd, aux r); (R_fd, ret r)]) ++ a) b tr →
  balanced a b ((SocketPair, r) :: tr).
Proof. apply balanced_cons. intros l l0 P0. eexists. split; [reflexivity |]. cbn; case_decide; cbn; by rewrite P0. Qed.

Lemma bal_skip e r a b tr :
  harmless e →
  balanced a b tr → balanced a b ((e, r) :: tr).
Proof.
  intros He. apply balanced_cons. intros l l0 P0. exists l0.
  destruct e; try match goal with c : wincall |- _ => destruct c end; done.
Qed.

(** ** Programs that keep their state *)

(** The run keeps the state and gives back what it takes. *)
Definition keeps {S A} (s : S) (r : A * S) (tr : list (ev * resp)) : Prop := r.2 = s ∧ ∀ a, balanced a a tr.

Lemma keeps_ret {S A} (s : S) (x : A) : keeps s (x, s) [].
Proof. split; [done | auto with hev]. Qed.

Lemma wp_keeps {S A B} (m : P S A) (f : A → P S B) s (Q : B * S → list (ev * resp) → Prop) :
  wp False (m s) (keeps s) →
  (∀ x t1, (∀ a, balanced a a t1) → wp False (f x s) (λ r t2, Q r (t1 ++ t2))) → wp False ((m ≫= f) s) Q.
Proof. intros Hm Hf. eapply wp_then; [exact Hm |]. intros x s' t1 [E Hb]. cbn in E. subst s'. by apply Hf. Qed.

Lemma keeps_skip {S A} e (s : S) x (r : A * S) tr :
  harmless e →
  keeps s r tr → keeps s r ((e, x) :: tr).
Proof. intros He [E Hb]. split; [done |]. intros a. apply bal_skip; [done | apply Hb]. Qed.

(** Programs of harmless calls. *)
Ltac wkeeps := repeat first
  [ progress (unfold mret, P_ret; cbn [wp]); apply keeps_ret
  | rewrite pgets_bind
  | apply wp_call; intros ? _; eapply wp_mono; [|intros ? ? ?; apply keeps_skip; [exact I | eassumption]]
  | progress cbn beta iota
  | case_decide | match goal with |- context [if ?b then _ else _] => destruct b end ].


(** ** Programs that lose nothing *)

(** No run loses a pcb. *)
Definition listless {A} (m : io A) : Prop := wp True m (λ _ tr, lost tr = []).

Lemma listless_call {S} e (s : S) : (∀ x, lost_by (e, x) = []) → listless (call e s).
Proof. intros He x _. cbn. by rewrite He. Qed.

Lemma listless_plift {S A} (o : option A) (s : S) : listless (plift o s).
Proof. by destruct o. Qed.

Lemma listless_io {A B} (m : io A) (f : A → io B) : listless m → (∀ x, listless (f x)) → listless (io_bind m f).
Proof.
  intros Hm Hf. apply wp_bind. eapply wp_mono; [exact Hm |]. intros x t1 E1.
  eapply wp_mono; [apply Hf |]. intros r t2 E2. cbn beta. by rewrite lost_app, E1, E2.
Qed.

Lemma listless_bind {S A B} (m : P S A) (f : A → P S B) s :
  listless (m s) → (∀ x s', listless (f x s')) → listless ((m ≫= f) s).
Proof. intros Hm Hf. apply listless_io; [done |]. intros [x s']. apply Hf. Qed.

(** Programs without [tcp_listen], by their structure. *)
Ltac wlistless := repeat
  match goal with
  | |- listless (io_bind _ _) => apply listless_io; [| intros [? ?]]
  | |- listless ((_ ≫= _) _) => apply listless_bind; [| intros ? ?]
  | |- listless (call _ _) => apply listless_call; intros ?; reflexivity
  | |- listless (plift _ _) => apply listless_plift
  | |- context [match ?x with _ => _ end] => destruct x
  | |- listless _ => first [ exact eq_refl | exact I ]
  end.
