(* ===== verification/Device.v ===== *)
(** * The device

    Model of [src/hev-tunnel.h] and of the devices of Linux, FreeBSD, NetBSD
    and macOS in [src/hev-tunnel-*.c].  The class [HevTunnel] has the functions
    of the header over the static variables of a system; a module for each
    system has its own.  The variable they share is [tun_name]. *)

From stdpp Require Import strings.
From S2P Require Import Prelude Buffer IO Config.

(** ** The functions of the header *)

Class HevTunnel (D : Type) := {
  hev_tunnel_open : option (list Z) → Z → P D Z;
  hev_tunnel_close : Z → P D unit;
  hev_tunnel_set_mtu : Z → P D Z;
  hev_tunnel_set_state : Z → P D Z;
  hev_tunnel_set_ipv4 : list Z → Z → P D Z;
  hev_tunnel_set_ipv6 : list Z → Z → P D Z;
  hev_tunnel_get_name : D → list Z;
  (** the index, [None] for a null pointer *)
  hev_tunnel_get_index : P D (option Z);
}.

(** ** Names and masks *)

Definition IFNAMSIZ : nat := 16.

(** The variable [tun_name]: 16 bytes. *)
Definition ifname := list Z.
Definition tun_name_zero : ifname := replicate IFNAMSIZ 0.

(** A name as the kernel stores it: terminated inside its 16 bytes. *)
Definition kernel_name (bs : list Z) : ifname := take 15 (bs ++ tun_name_zero) ++ [0].

(** [strcpy (ifra.ifra_name, tun_name)] into an array of zeros. *)
Definition ifra_name (t : ifname) : option (list Z) :=
  n ← cstr t; mem_write (replicate IFNAMSIZ 0) 0 (n ++ [0]).

(** [htonl (((unsigned int)(-1)) << (32 - prefix))] in memory; a shift by 32
    or more is undefined. *)
Definition ipv4_mask (prefix : Z) : option (list Z) :=
  let n := u32 (32 - prefix) in
  if decide (n < 32) then
    let m := u32 (Z.shiftl (2 ^ 32 - 1) n) in
    Some [u8 (Z.shiftr m 24); u8 (Z.shiftr m 16); u8 (Z.shiftr m 8); u8 m]
  else None.

(** The loop behind [bytes[prefix / 8] <<= prefix % 8]. *)
Fixpoint clear_from (fuel : nat) (i : Z) (bytes : list Z) : option (list Z) :=
  match fuel with
  | O => Some bytes
  | S fuel => if decide (i < 16) then bytes ← mem_set bytes i 0; clear_from fuel (i + 1) bytes else Some bytes
  end.

(** The mask of the BSD systems: [bytes] points to the 16 bytes of [sin6_addr],
    so the byte of the prefix 128 is outside of it. *)
Definition ipv6_mask (prefix : Z) : option (list Z) :=
  let bytes := replicate 16 0xff in
  b ← mem_get bytes (prefix / 8);
  bytes ← mem_set bytes (prefix / 8) (u8 (Z.shiftl b (prefix mod 8)));
  let prefix := u32 (prefix + prefix mod 8) in
  clear_from 16 (prefix / 8) bytes.

(** ** What the systems share *)

Definition EEXIST : Z := 17.
Definition IFF_UP : Z := 1.

Section Shared.
Context (inet_pton4 inet_pton6 : list Z → option (list Z)).

(** The functions that set something up open a socket for their [ioctl]s. *)
Definition with_socket (family type : Z) (body : Z → P ifname Z) : P ifname Z :=
  fd ← call (Socket family type);
  if decide (ret fd < 0) then mret (-1)
  else
    res ← body (ret fd);
    call (Close (ret fd));;
    mret res.

(** [hev_tunnel_set_mtu] *)
Definition ifr_set_mtu (mtu : Z) : P ifname Z :=
  with_socket AF_INET SOCK_STREAM (λ fd,
    t ← pgets id;
    res ← call (Ioctl fd SIOCSIFMTU (t ++ [mtu]));
    mret (ret res)).

(** [hev_tunnel_set_state] *)
Definition ifr_set_state (state : Z) : P ifname Z :=
  with_socket AF_INET SOCK_STREAM (λ fd,
    t ← pgets id;
    res ← call (Ioctl fd SIOCGIFFLAGS t);
    if decide (ret res < 0) then mret (ret res)
    else
      let flags := if decide (state ≠ 0) then Z.lor (aux res) IFF_UP else Z.land (aux res) (Z.lnot IFF_UP) in
      res ← call (Ioctl fd SIOCSIFFLAGS (t ++ [flags]));
      mret (ret res)).

(** [hev_tunnel_set_ipv4] of the BSD systems *)
Definition ifra_set_ipv4 (addr : list Z) (prefix : Z) : P ifname Z :=
  with_socket AF_INET SOCK_DGRAM (λ fd,
    t ← pgets id;
    name ← plift (ifra_name t);
    match inet_pton4 addr with
    | None => mret 0
    | Some ip =>
        mask ← plift (ipv4_mask prefix);
        res ← call (Ioctl fd SIOCAIFADDR (name ++ ip ++ ip ++ mask));
        mret (ret res)
    end).

(** [hev_tunnel_set_ipv6] of the BSD systems *)
Definition ifra_set_ipv6 (addr : list Z) (prefix : Z) : P ifname Z :=
  with_socket AF_INET6 SOCK_DGRAM (λ fd,
    t ← pgets id;
    name ← plift (ifra_name t);
    match inet_pton6 addr with
    | None => mret 0
    | Some ip =>
        mask ← plift (ipv6_mask prefix);
        res ← call (Ioctl fd SIOCAIFADDR_IN6 (name ++ ip ++ mask));
        mret (ret res)
    end).

(** [hev_tunnel_close] of FreeBSD and NetBSD *)
Definition close_destroy (fd : Z) : P ifname unit :=
  call (Close fd);;
  fd ← call (Socket AF_INET SOCK_STREAM);
  if decide (ret fd < 0) then mret tt
  else
    t ← pgets id;
    call (Ioctl (ret fd) SIOCIFDESTROY t);;
    call (Close (ret fd));;
    mret tt.

(** [hev_tunnel_close] of Linux and macOS *)
Definition close_only (fd : Z) : P ifname unit := call (Close fd);; mret tt.

Definition get_name (t : ifname) : list Z := t.

(** [hev_tunnel_get_index] *)
Definition get_index : P ifname (option Z) :=
  t ← pgets id;
  index ← call (IfNameToIndex t);
  mret (Some (ret index)).

(** [fail_close: close (fd); fail: return -1;] *)
Definition fail_close (fd : Z) : P ifname Z := call (Close fd);; mret (-1).

(** ** The systems *)

Definition IFF_TUN : Z := 0x1.
Definition IFF_NO_PI : Z := 0x1000.
Definition IFF_MULTI_QUEUE : Z := 0x100.

Definition linux_open (name : option (list Z)) (multi_queue : Z) : P ifname Z :=
  fd ← call (Open (str "/dev/net/tun"));
  if decide (ret fd < 0) then mret (-1)
  else
    let flags := Z.lor IFF_TUN IFF_NO_PI in
    let flags := if decide (multi_queue ≠ 0) then Z.lor flags IFF_MULTI_QUEUE else flags in
    let ifr_name := match name with Some n => strncpy tun_name_zero n 15 | None => tun_name_zero end in
    res ← call (Ioctl (ret fd) TUNSETIFF (ifr_name ++ [flags]));
    if decide (ret res < 0) then call (Close (ret fd));; mret (ret res)
    else
      pmod (λ _, kernel_name (data res));;
      mret (ret fd).

(** [res], unless the address or mask is there already. *)
Definition unless_exists (res : Z) : P ifname Z :=
  if decide (res < 0) then
    e ← call Errno;
    mret (if decide (ret e = EEXIST) then 0 else res)
  else mret res.

Definition linux_set_ipv4 (addr : list Z) (prefix : Z) : P ifname Z :=
  with_socket AF_INET SOCK_STREAM (λ fd,
    t ← pgets id;
    match inet_pton4 addr with
    | None => mret 0
    | Some ip =>
        res ← call (Ioctl fd SIOCSIFADDR (t ++ ip));
        if decide (ret res < 0) then mret (ret res)
        else
          mask ← plift (ipv4_mask prefix);
          res ← call (Ioctl fd SIOCSIFNETMASK (t ++ mask));
          unless_exists (ret res)
    end).

Definition linux_set_ipv6 (addr : list Z) (prefix : Z) : P ifname Z :=
  with_socket AF_INET6 SOCK_STREAM (λ fd,
    t ← pgets id;
    index ← call (Ioctl fd SIOCGIFINDEX t);
    if decide (ret index < 0) then mret (ret index)
    else
      match inet_pton6 addr with
      | None => mret 0
      | Some ip =>
          res ← call (Ioctl fd SIOCSIFADDR (ip ++ [prefix; aux index]));
          unless_exists (ret res)
      end).

Definition linux_close := close_only.
Definition linux_set_mtu := ifr_set_mtu.
Definition linux_set_state := ifr_set_state.
Definition linux_get_index := get_index.

Definition linux : HevTunnel ifname :=
  Build_HevTunnel _ linux_open linux_close linux_set_mtu linux_set_state linux_set_ipv4 linux_set_ipv6
    get_name linux_get_index.

(** The name of the configuration must not be null: [snprintf] and [strncpy]
    read it. *)
Definition freebsd_open (name : option (list Z)) (multi_queue : Z) : P ifname Z :=
  name ← plift name;
  let succ tfd := pmod (λ t, strncpy t name 15);; mret tfd in
  tfd ← call (Open (take 255 (str "/dev/" ++ name)));
  if decide (0 ≤ ret tfd) then succ (ret tfd)
  else
    tfd ← call (Open (str "/dev/tun"));
    if decide (ret tfd < 0) then mret (-1)
    else
      ifr ← call (Ioctl (ret tfd) TUNGIFNAME []);
      if decide (ret ifr < 0) then fail_close (ret tfd)
      else
        sfd ← call (Socket AF_INET SOCK_DGRAM);
        if decide (ret sfd < 0) then fail_close (ret tfd)
        else
          res ← call (Ioctl (ret sfd) SIOCSIFNAME (kernel_name (data ifr) ++ take 255 name));
          call (Close (ret sfd));;
          if decide (ret res < 0) then fail_close (ret tfd) else succ (ret tfd).

Definition freebsd_close := close_destroy.
Definition freebsd_set_mtu := ifr_set_mtu.
Definition freebsd_set_state := ifr_set_state.
Definition freebsd_set_ipv4 := ifra_set_ipv4.
Definition freebsd_set_ipv6 := ifra_set_ipv6.
Definition freebsd_get_index := get_index.

Definition freebsd : HevTunnel ifname :=
  Build_HevTunnel _ freebsd_open freebsd_close freebsd_set_mtu freebsd_set_state freebsd_set_ipv4 freebsd_set_ipv6
    get_name freebsd_get_index.

Definition netbsd_open (name : option (list Z)) (multi_queue : Z) : P ifname Z :=
  name ← plift name;
  fd ← call (Open (take 255 (str "/dev/" ++ name)));
  if decide (ret fd < 0) then mret (-1)
  else
    res ← call (Ioctl (ret fd) FIONBIO [1]);
    if decide (ret res < 0) then fail_close (ret fd)
    else
      pmod (λ t, strncpy t name 15);;
      mret (ret fd).

Definition netbsd_close := close_destroy.
Definition netbsd_set_mtu := ifr_set_mtu.
Definition netbsd_set_state := ifr_set_state.
Definition netbsd_set_ipv4 := ifra_set_ipv4.
Definition netbsd_set_ipv6 := ifra_set_ipv6.
Definition netbsd_get_index := get_index.

Definition netbsd : HevTunnel ifname :=
  Build_HevTunnel _ netbsd_open netbsd_close netbsd_set_mtu netbsd_set_state netbsd_set_ipv4 netbsd_set_ipv6
    get_name netbsd_get_index.

(** [PF_SYSTEM], [SYSPROTO_CONTROL] and [UTUN_OPT_IFNAME] of macOS. *)
Definition PF_SYSTEM : Z := 32.
Definition SYSPROTO_CONTROL : Z := 2.
Definition UTUN_OPT_IFNAME : Z := 2.

(** [sscanf (name, "utun%u", &unit)] when it converts. *)
Definition scan_utun (name : list Z) : option Z :=
  let digits := drop 4 name in
  if decide (take 4 name = str "utun") then
    match (read_sign (skip_spaces digits)).2 with
    | b :: _ => if decide (48 ≤ b ≤ 57) then Some (u32 (strtoul digits 10)) else None
    | [] => None
    end
  else None.

(** [osx] is [TARGET_OS_OSX]; the other systems of Apple have their device
    from the caller. *)
Definition macos_open (osx : bool) (name : option (list Z)) (multi_queue : Z) : P ifname Z :=
  if negb osx then mret 0
  else
    fd ← call (Socket PF_SYSTEM SOCK_DGRAM);
    if decide (ret fd < 0) then mret (-1)
    else
      let close_with res := call (Close (ret fd));; mret res in
      res ← call (Ioctl (ret fd) CTLIOCGINFO []);
      if decide (ret res < 0) then close_with (ret res)
      else
        name ← plift name;
        let unit := match scan_utun name with Some u => u32 (u + 1) | None => 0 end in
        res ← call (ConnectControl (ret fd) unit);
        if decide (ret res < 0) then close_with (ret res)
        else
          res ← call (Ioctl (ret fd) FIONBIO [1]);
          if decide (ret res < 0) then close_with (ret res)
          else
            res ← call (GetSockOpt (ret fd) SYSPROTO_CONTROL UTUN_OPT_IFNAME);
            if decide (ret res < 0) then close_with (ret res)
            else
              pmod (λ _, kernel_name (data res));;
              mret (ret fd).

Definition macos_set_ipv4 (osx : bool) (addr : list Z) (prefix : Z) : P ifname Z :=
  if negb osx then mret 0 else ifra_set_ipv4 addr prefix.

Definition macos_set_ipv6 (osx : bool) (addr : list Z) (prefix : Z) : P ifname Z :=
  if negb osx then mret 0 else ifra_set_ipv6 addr prefix.

Definition macos_close := close_only.
Definition macos_set_mtu := ifr_set_mtu.
Definition macos_set_state := ifr_set_state.
Definition macos_get_index := get_index.

Definition macos (osx : bool) : HevTunnel ifname :=
  Build_HevTunnel _ (macos_open osx) macos_close macos_set_mtu macos_set_state (macos_set_ipv4 osx) (macos_set_ipv6 osx)
    get_name macos_get_index.
End Shared.
