(* ===== verification/DeviceProps.v ===== *)
(** * Properties of the devices

    What the tunnel relies on, as the class [HevTunnelLaws]: every function of
    a device gives back what it takes but for the device itself, which an open
    leaves in hand and a close gives back.  Linux, FreeBSD, NetBSD and macOS
    have it, the last three when the configuration names the device and gives it
    no IPv6 address, of which the prefix makes the code of the mask undefined. *)

From stdpp Require Import strings.
From S2P Require Import Prelude Buffer IO Ledger Config ConfigProps Device.

(** ** The laws *)

Class HevTunnelLaws {D} (Tun : HevTunnel D) := {
  (** the names an open may be given *)
  tun_name_ok : option (list Z) → Prop;
  (** the IPv6 prefixes the device may be given *)
  tun_prefix6 : Z → Prop;
  (** the variables before an open and while the device is set up *)
  tun_ready : D → Prop;
  (** what an open device with this descriptor holds *)
  tun_holds : Z → D → handles;
  tun_holds_closed fd d : fd < 0 → tun_holds fd d = [];
  tun_open_law name mq d : tun_name_ok name → tun_ready d →
    wp False (hev_tunnel_open name mq d) (λ r tr, tun_ready r.2 ∧ balanced [] (tun_holds r.1 r.2) tr);
  tun_mtu_law fd mtu d : 0 ≤ fd → tun_ready d →
    wp False (hev_tunnel_set_mtu mtu d) (λ r tr, tun_ready r.2 ∧ balanced (tun_holds fd d) (tun_holds fd r.2) tr);
  tun_ipv4_law fd addr prefix d : 0 ≤ fd → tun_ready d → 0 < prefix ≤ 32 →
    wp False (hev_tunnel_set_ipv4 addr prefix d) (λ r tr, tun_ready r.2 ∧ balanced (tun_holds fd d) (tun_holds fd r.2) tr);
  tun_ipv6_law fd addr prefix d : 0 ≤ fd → tun_ready d → tun_prefix6 prefix →
    wp False (hev_tunnel_set_ipv6 addr prefix d) (λ r tr, tun_ready r.2 ∧ balanced (tun_holds fd d) (tun_holds fd r.2) tr);
  tun_state_law fd state d : 0 ≤ fd → tun_ready d →
    wp False (hev_tunnel_set_state state d) (λ r tr, tun_ready r.2 ∧ balanced (tun_holds fd d) (tun_holds fd r.2) tr);
  tun_index_law d : tun_ready d →
    wp False (hev_tunnel_get_index d) (λ r tr, r.2 = d ∧ balanced [] [] tr);
  tun_close_law fd d : 0 ≤ fd → tun_ready d →
    wp False (hev_tunnel_close fd d) (λ r tr, tun_ready r.2 ∧ balanced (tun_holds fd d) [] tr);
}.

(** ** Names and masks *)

Abbreviation name_array := (array_ok IFNAMSIZ).

Lemma kernel_name_array bs : name_array (kernel_name bs).
Proof.
  split; [|by eexists]. unfold kernel_name, tun_name_zero. rewrite length_app, length_take, length_app, length_replicate.
  cbn [length]. unfold IFNAMSIZ. lia.
Qed.

Lemma ifra_name_ok t : name_array t → is_Some (ifra_name t).
Proof.
  intros (s & E & Hs)%array_ok_cstr. unfold ifra_name. rewrite E. cbn [mbind option_bind]. unfold mem_write.
  rewrite decide_True; [by eexists |]. rewrite length_app, length_replicate. cbn [length]. unfold IFNAMSIZ in *. lia.
Qed.

Lemma ipv4_mask_ok prefix : 0 < prefix ≤ 32 → is_Some (ipv4_mask prefix).
Proof. intros Hp. unfold ipv4_mask. rewrite u32_small, decide_True by lia. by eexists. Qed.

(** The mask of a prefix: the first [prefix] of [n] bits are set. *)
Definition net_mask (bytes : nat) (prefix : Z) : list Z :=
  (λ i, 255 - (2 ^ (8 - Z.max 0 (Z.min 8 (prefix - 8 * Z.of_nat i))) - 1)) <$> seq 0 bytes.

(** Every prefix, computed. *)
Lemma all_prefixes (f : Z → bool) n : forallb f (Z.of_nat <$> seq 0 n) = true → ∀ p, 0 ≤ p < Z.of_nat n → f p = true.
Proof.
  intros H p Hp. rewrite forallb_forall in H. apply H. rewrite <-list_elem_of_In. apply list_elem_of_fmap.
  exists (Z.to_nat p). split; [lia |]. apply elem_of_seq. lia.
Qed.

Lemma ipv4_mask_net prefix : 0 < prefix ≤ 32 → ipv4_mask prefix = Some (net_mask 4 prefix).
Proof.
  intros Hp. pose proof (all_prefixes (λ p, bool_decide (p = 0) || bool_decide (ipv4_mask p = Some (net_mask 4 p))) 33) as H.
  specialize (H ltac:(vm_compute; reflexivity) prefix ltac:(lia)). apply orb_true_iff in H as [H | H];
    apply bool_decide_eq_true in H; [lia | done].
Qed.

Lemma ipv6_mask_ok prefix : 0 ≤ prefix < 128 → is_Some (ipv6_mask prefix).
Proof.
  intros Hp. pose proof (all_prefixes (λ p, if ipv6_mask p then true else false) 128) as H.
  specialize (H ltac:(vm_compute; reflexivity) prefix ltac:(lia)). cbv beta in H. by destruct (ipv6_mask prefix).
Qed.

(** ** What the functions of the systems keep *)

Section Devices.
Context (p4 p6 : list Z → option (list Z)).

Lemma with_socket_spec family type body t :
  (∀ fd, wp False (body fd t) (keeps t)) → wp False (with_socket family type body t) (keeps t).
Proof.
  intros Hb. unfold with_socket. apply wp_call. intros x _. destruct (decide (ret x < 0)) as [Hx | Hx].
  - split; [done |]. intros a. apply bal_socket. rewrite got_negative by done. auto with hev.
  - eapply wp_keeps; [apply Hb |]. intros r t1 Hk. apply wp_call. intros y _.
    split; [done |]. intros a. apply bal_socket. rewrite got_fd by lia.
    eapply balanced_app; [apply Hk |]. apply bal_close. auto with hev.
Qed.

Lemma set_mtu_spec mtu t : wp False (ifr_set_mtu mtu t) (keeps t).
Proof. apply with_socket_spec. intros fd. wkeeps. Qed.

Lemma set_state_spec state t : wp False (ifr_set_state state t) (keeps t).
Proof. apply with_socket_spec. intros fd. wkeeps. Qed.

Lemma ifra_set_ipv4_spec addr prefix t : name_array t → 0 < prefix ≤ 32 →
  wp False (ifra_set_ipv4 p4 addr prefix t) (keeps t).
Proof.
  intros [n En]%ifra_name_ok [m Em]%ipv4_mask_ok. apply with_socket_spec. intros fd.
  rewrite pgets_bind, (plift_bind _ _ _ _ En). destruct (p4 addr) as [ip|]; [rewrite (plift_bind _ _ _ _ Em) |]; wkeeps.
Qed.

Lemma ifra_set_ipv6_spec addr prefix t : name_array t → 0 ≤ prefix < 128 →
  wp False (ifra_set_ipv6 p6 addr prefix t) (keeps t).
Proof.
  intros [n En]%ifra_name_ok [m Em]%ipv6_mask_ok. apply with_socket_spec. intros fd.
  rewrite pgets_bind, (plift_bind _ _ _ _ En). destruct (p6 addr) as [ip|]; [rewrite (plift_bind _ _ _ _ Em) |]; wkeeps.
Qed.

Lemma unless_exists_spec res t : wp False (unless_exists res t) (keeps t).
Proof. unfold unless_exists. wkeeps. Qed.

Lemma linux_set_ipv4_spec addr prefix t : 0 < prefix ≤ 32 → wp False (linux_set_ipv4 p4 addr prefix t) (keeps t).
Proof.
  intros [m Em]%ipv4_mask_ok. apply with_socket_spec. intros fd. rewrite pgets_bind.
  destruct (p4 addr) as [ip|]; wkeeps. rewrite (plift_bind _ _ _ _ Em). wkeeps; apply unless_exists_spec.
Qed.

Lemma linux_set_ipv6_spec addr prefix t : wp False (linux_set_ipv6 p6 addr prefix t) (keeps t).
Proof.
  apply with_socket_spec. intros fd. rewrite pgets_bind. wkeeps. destruct (p6 addr) as [ip|]; wkeeps; apply unless_exists_spec.
Qed.

Lemma get_index_spec t : wp False (get_index t) (keeps t).
Proof. unfold get_index. wkeeps. Qed.

(** ** The laws of the systems *)

(** An open leaves its descriptor in hand, and the name terminated. *)
Definition opens (r : Z * ifname) (tr : list (ev * resp)) : Prop :=
  name_array r.2 ∧ balanced [] (got R_fd r.1) tr.

Lemma opens_none t v tr : name_array t → v < 0 → balanced [] [] tr → opens (v, t) tr.
Proof. intros Ht Hv Hb. split; [done |]. cbn [fst]. by rewrite got_negative. Qed.

(** What an open has opened, closed on failure. *)
Lemma opens_close t fd v p x y tr : name_array t → 0 ≤ ret x → v < 0 → fd = ret x →
  balanced [] [] tr → opens (v, t) ((Open p, x) :: tr ++ [(Close fd, y)]).
Proof.
  intros Ht Hx Hv -> Hb. apply opens_none; [done.. |]. apply bal_open. rewrite got_fd by done.
  eapply balanced_app; [by apply balanced_beside |]. by apply bal_close, balanced_same.
Qed.

Lemma linux_open_spec name mq t : name_array t → wp False (linux_open name mq t) opens.
Proof.
  intros Ht. unfold linux_open. apply wp_call. intros x _. destruct (decide (ret x < 0)) as [Hx | Hx].
  - apply opens_none; [done | lia |]. apply bal_open. rewrite got_negative by done. by apply balanced_same.
  - cbv zeta. apply wp_call. intros y _. destruct (decide (ret y < 0)) as [Hy | Hy].
    + intros z _. apply (opens_close t (ret x) (ret y) _ x z [_]); [done | lia | done | done |].
      by apply bal_skip, balanced_same.
    + split; [apply kernel_name_array |]. apply bal_open, bal_skip; [done |]. rewrite app_nil_r. by apply balanced_same.
Qed.

Lemma strncpy_array t name : name_array t → name_array (strncpy t name 15).
Proof. apply array_ok_strncpy. Qed.

Lemma netbsd_open_spec name mq t : is_Some name → name_array t → wp False (netbsd_open name mq t) opens.
Proof.
  intros [n ->] Ht. unfold netbsd_open. rewrite (plift_bind _ _ _ n) by done.
  apply wp_call. intros x _. destruct (decide (ret x < 0)) as [Hx | Hx].
  - apply opens_none; [done | lia |]. apply bal_open. rewrite got_negative by done. by apply balanced_same.
  - apply wp_call. intros y _. destruct (decide (ret y < 0)) as [Hy | Hy].
    + intros z _. apply (opens_close t (ret x) (-1) _ x z [_]); [done | lia | done | done |].
      by apply bal_skip, balanced_same.
    + split; [by apply strncpy_array |]. apply bal_open, bal_skip; [done |]. rewrite app_nil_r. by apply balanced_same.
Qed.

Lemma freebsd_open_spec name mq t : is_Some name → name_array t → wp False (freebsd_open name mq t) opens.
Proof.
  intros [n ->] Ht. unfold freebsd_open. rewrite (plift_bind _ _ _ n) by done. cbv zeta.
  apply wp_call. intros x _. destruct (decide (0 ≤ ret x)) as [Hx | Hx].
  { split; [by apply strncpy_array |]. apply bal_open. rewrite app_nil_r. by apply balanced_same. }
  apply wp_call. intros y _.
  assert (∀ r tr, opens r ((Open (str "/dev/tun"), y) :: tr) → opens r ((Open (take 255 (str "/dev/" ++ n)), x) :: (Open (str "/dev/tun"), y) :: tr)) as Hfirst.
  { intros r tr [Hn Hb]. split; [done |]. apply bal_open. rewrite got_negative by lia. exact Hb. }
  destruct (decide (ret y < 0)) as [Hy | Hy].
  { apply Hfirst, opens_none; [done | lia |]. apply bal_open. rewrite got_negative by done. by apply balanced_same. }
  apply wp_call. intros i _. destruct (decide (ret i < 0)) as [Hi | Hi].
  { intros z _. apply Hfirst, (opens_close t (ret y) (-1) _ y z [_]); [done | lia | done | done |].
    by apply bal_skip, balanced_same. }
  apply wp_call. intros sk _. destruct (decide (ret sk < 0)) as [Hs | Hs].
  { intros z _. apply Hfirst, (opens_close t (ret y) (-1) _ y z [_; _]); [done | lia | done | done |].
    apply bal_skip, bal_socket; [done |]. rewrite got_negative by done. by apply balanced_same. }
  apply wp_call. intros res _. apply wp_call. intros cl _.
  assert (balanced [] [] [(Ioctl (ret y) TUNGIFNAME [], i); (Socket AF_INET SOCK_DGRAM, sk);
    (Ioctl (ret sk) SIOCSIFNAME (kernel_name (data i) ++ take 255 n), res); (Close (ret sk), cl)]) as Hb.
  { apply bal_skip, bal_socket; [done |]. rewrite got_fd by lia. apply bal_skip; [done |]. by apply bal_close, balanced_same. }
  destruct (decide (ret res < 0)) as [Hr | Hr].
  - intros z _. apply Hfirst, (opens_close t (ret y) (-1) _ y z [_; _; _; _]); [done | lia | lia | done | done].
  - apply Hfirst. split; [by apply strncpy_array |]. apply bal_open. rewrite app_nil_r.
    by apply balanced_beside.
Qed.

Lemma macos_open_spec name mq t : is_Some name → name_array t → wp False (macos_open true name mq t) opens.
Proof.
  intros [n ->] Ht. unfold macos_open. cbn [negb]. apply wp_call. intros x _.
  destruct (decide (ret x < 0)) as [Hx | Hx].
  { apply opens_none; [done | lia |]. apply bal_socket. rewrite got_negative by done. by apply balanced_same. }
  assert (∀ v z tr, v < 0 → balanced [] [] tr →
    opens (v, t) ((Socket PF_SYSTEM SOCK_DGRAM, x) :: tr ++ [(Close (ret x), z)])) as Hclose.
  { intros v z tr Hv Hb. apply opens_none; [done.. |]. apply bal_socket. rewrite got_fd by lia.
    eapply balanced_app; [by apply balanced_beside |]. by apply bal_close, balanced_same. }
  apply wp_call. intros y1 _. destruct (decide (ret y1 < 0)) as [H1 | H1].
  { intros z _. apply (Hclose _ z [_] H1). by apply bal_skip, balanced_same. }
  rewrite (plift_bind _ _ _ n) by done. cbv zeta. apply wp_call. intros y2 _. destruct (decide (ret y2 < 0)) as [H2 | H2].
  { intros z _. apply (Hclose _ z [_; _] H2). do 2 (apply bal_skip; [done |]). by apply balanced_same. }
  apply wp_call. intros y3 _. destruct (decide (ret y3 < 0)) as [H3 | H3].
  { intros z _. apply (Hclose _ z [_; _; _] H3). do 3 (apply bal_skip; [done |]). by apply balanced_same. }
  apply wp_call. intros y4 _. destruct (decide (ret y4 < 0)) as [H4 | H4].
  { intros z _. apply (Hclose _ z [_; _; _; _] H4). do 4 (apply bal_skip; [done |]). by apply balanced_same. }
  split; [apply kernel_name_array |]. apply bal_socket. rewrite app_nil_r.
  do 4 (apply bal_skip; [done |]). by apply balanced_same.
Qed.

Lemma close_only_spec fd t : 0 ≤ fd → wp False (close_only fd t) (λ r tr, r.2 = t ∧ balanced (got R_fd fd) [] tr).
Proof. intros Hf x _. split; [done |]. rewrite got_fd by done. by apply bal_close, balanced_same. Qed.

Lemma close_destroy_spec fd t : 0 ≤ fd → wp False (close_destroy fd t) (λ r tr, r.2 = t ∧ balanced (got R_fd fd) [] tr).
Proof.
  intros Hf. unfold close_destroy. apply wp_call. intros x _. apply wp_call. intros y _. rewrite got_fd by done.
  destruct (decide (ret y < 0)) as [Hy | Hy].
  - split; [done |]. apply bal_close, bal_socket. rewrite got_negative by done. by apply balanced_same.
  - rewrite pgets_bind. intros z _ w _. split; [done |]. apply bal_close, bal_socket. rewrite got_fd by lia.
    apply bal_skip; [done |]. by apply bal_close, balanced_same.
Qed.

(** A function that keeps the name keeps the device. *)
Lemma keeps_ready {A} (m : io (A * ifname)) fd t : name_array t → wp False m (keeps t) →
  wp False m (λ r tr, name_array r.2 ∧ balanced (got R_fd fd) (got R_fd fd) tr).
Proof. intros Ht Hm. eapply wp_mono; [exact Hm |]. intros [a t'] tr [E Hb]. cbn in E. subst t'. by split. Qed.
End Devices.

(** The systems have the laws, whatever [inet_pton] does. *)
Section Instances.
Context (p4 p6 : list Z → option (list Z)).

#[local] Hint Resolve set_mtu_spec set_state_spec linux_set_ipv4_spec linux_set_ipv6_spec ifra_set_ipv4_spec
  ifra_set_ipv6_spec get_index_spec linux_open_spec freebsd_open_spec netbsd_open_spec macos_open_spec : laws.

(** The laws over [tun_name] and the descriptor. *)
Ltac unix_laws :=
  intros; cbv [linux freebsd netbsd macos]; cbn [hev_tunnel_open hev_tunnel_close hev_tunnel_set_mtu
    hev_tunnel_set_state hev_tunnel_set_ipv4 hev_tunnel_set_ipv6 hev_tunnel_get_index];
  cbv [linux_close linux_set_mtu linux_set_state linux_get_index freebsd_close freebsd_set_mtu freebsd_set_state
    freebsd_set_ipv4 freebsd_set_ipv6 freebsd_get_index netbsd_close netbsd_set_mtu netbsd_set_state netbsd_set_ipv4
    netbsd_set_ipv6 netbsd_get_index macos_close macos_set_mtu macos_set_state macos_set_ipv4 macos_set_ipv6
    macos_get_index negb];
  first
  [ by apply got_negative
  | by (apply keeps_ready; eauto with laws)
  | by (eapply wp_mono; [by (eauto with laws) |]; intros ? ? []; split; [by subst | eauto])
  | by (eapply wp_mono; [by (apply close_only_spec || apply close_destroy_spec) |]; intros ? ? [E Hb]; split; [by rewrite E |]) ].

#[export] Program Instance linux_laws : HevTunnelLaws (linux p4 p6) :=
  {| tun_name_ok _ := True; tun_prefix6 _ := True; tun_ready := array_ok IFNAMSIZ; tun_holds fd _ := got R_fd fd |}.
Solve All Obligations with unix_laws.

#[export] Program Instance freebsd_laws : HevTunnelLaws (freebsd p4 p6) :=
  {| tun_name_ok := is_Some; tun_prefix6 p := 0 ≤ p < 128; tun_ready := array_ok IFNAMSIZ; tun_holds fd _ := got R_fd fd |}.
Solve All Obligations with unix_laws.

#[export] Program Instance netbsd_laws : HevTunnelLaws (netbsd p4 p6) :=
  {| tun_name_ok := is_Some; tun_prefix6 p := 0 ≤ p < 128; tun_ready := array_ok IFNAMSIZ; tun_holds fd _ := got R_fd fd |}.
Solve All Obligations with unix_laws.

#[export] Program Instance macos_laws : HevTunnelLaws (macos p4 p6 true) :=
  {| tun_name_ok := is_Some; tun_prefix6 p := 0 ≤ p < 128; tun_ready := array_ok IFNAMSIZ; tun_holds fd _ := got R_fd fd |}.
Solve All Obligations with unix_laws.
End Instances.

(** C13. What the masks of the devices are, for every prefix.  The one for IPv4
    is right for the prefixes 1 to 32; for 0 the shift by 32 is undefined.  The
    code of the BSD systems for IPv6 shifts the last byte by the number of the
    bits to keep instead of those to clear: the mask is right for the multiples
    of 4 below 128 and no other prefix.  For 128 it accesses a byte outside of
    the address, which is undefined. *)
Theorem device_masks p :
  (0 < p ≤ 32 → ipv4_mask p = Some (net_mask 4 p)) ∧ ipv4_mask 0 = None ∧
  (0 ≤ p < 128 → ∃ m, ipv6_mask p = Some m ∧ length m = 16%nat ∧ (m = net_mask 16 p ↔ p mod 4 = 0)) ∧
  ipv6_mask 128 = None.
Proof.
  split; [by apply ipv4_mask_net |]. split; [done |]. split; [|done]. intros Hp.
  pose proof (all_prefixes (λ p, match ipv6_mask p with
    | Some b => bool_decide (length b = 16%nat ∧ (bool_decide (b = net_mask 16 p) = bool_decide (p mod 4 = 0)))
    | None => false end) 128) as H.
  specialize (H ltac:(vm_compute; reflexivity) p ltac:(lia)). cbv beta in H.
  destruct (ipv6_mask p) as [b|]; [|done]. apply bool_decide_eq_true in H as [Hl Hm].
  exists b. split; [done |]. split; [done |].
  by rewrite <-(bool_decide_eq_true (b = _)), Hm, bool_decide_eq_true.
Qed.

(** The tunnel configures its IPv6 address with the prefix 128, so on the BSD
    systems an address that [inet_pton] reads makes the start undefined. *)
Theorem ipv6_prefix_overrun p6 addr ip t : name_array t → p6 addr = Some ip → ¬ safe (ifra_set_ipv6 p6 addr 128 t).
Proof.
  intros [n En]%ifra_name_ok Ei H. unfold ifra_set_ipv6, with_socket in H. inversion H as [|? ? Hk]; subst.
  specialize (Hk (val 0) ltac:(by split; [constructor |])). rewrite decide_False in Hk by (cbn; lia).
  unfold plift, pgets, id, mbind, P_bind in Hk. cbn -[ifra_name] in Hk. rewrite En, Ei in Hk. cbn in Hk. inversion Hk.
Qed.
