(* ===== verification/Packets.v ===== *)
(** * The packets of the device

    Model of [hev_tunnel_read] and [hev_tunnel_write] in [src/hev-tunnel.h]
    and [src/hev-tunnel-macos.h], and of what passes packets between the
    device and lwIP in [src/hev-socks5-tunnel.c], with the counters. *)

From S2P Require Import Prelude Buffer IO Device.

(** ** The functions of the headers *)

(** A pbuf with its payload. *)
Record packet := mkPacket { pk_pbuf : Z; pk_data : list Z }.

(** A read is [None] when its fuel ends before it returns; a chain of pbufs is
    the list of their payloads. *)
Class HevTunnelIO (D : Type) := {
  hev_tunnel_read : nat → Z → Z → P D (option (option packet));
  hev_tunnel_write : Z → list (list Z) → P D Z;
  (** [pbuf_free] of a packet that was read *)
  packet_free : packet → P D unit;
}.

Section Systems.
Context {D : Type}.

(** Linux, FreeBSD and NetBSD; the waiting of [hev_task_io_read] is the
    library's. *)
Definition unix_read (fuel : nat) (fd mtu : Z) : P D (option (option packet)) :=
  buf ← call (Acquire R_pbuf);
  if decide (ret buf = NULL) then mret (Some None)
  else
    s ← call (Read fd (u16 mtu));
    if decide (ret s ≤ 0) then
      call (Release R_pbuf (ret buf));;
      mret (Some None)
    else mret (Some (Some (mkPacket (ret buf) (data s)))).

Definition unix_write (fd : Z) (chain : list (list Z)) : P D Z :=
  match chain with
  | [p] => s ← call (WriteV fd [p]); mret (ret s)
  | _ => s ← call (WriteV fd (take 512 chain)); mret (ret s)
  end.

Definition unix_free (p : packet) : P D unit := call (Release R_pbuf (pk_pbuf p));; mret tt.

Definition unix_io : HevTunnelIO D := Build_HevTunnelIO _ unix_read unix_write unix_free.

(** macOS puts the family, as a word in network order, before a packet. *)
Definition macos_read (fuel : nat) (fd mtu : Z) : P D (option (option packet)) :=
  buf ← call (Acquire R_pbuf);
  if decide (ret buf = NULL) then mret (Some None)
  else
    s ← call (Read fd (4 + u16 mtu));
    if decide (ret s ≤ 4) then
      call (Release R_pbuf (ret buf));;
      mret (Some None)
    else mret (Some (Some (mkPacket (ret buf) (drop 4 (data s))))).

(** [AF_INET] and [AF_INET6] of macOS in network order; the type of the first
    payload that is not empty. *)
Fixpoint macos_type (chain : list (list Z)) : list Z :=
  match chain with
  | [] => [0; 0; 0; 0]
  | [] :: chain => macos_type chain
  | (b :: _) :: _ => if decide (Z.land (Z.shiftr b 4) 0xF = 4) then [0; 0; 0; 2] else [0; 0; 0; 30]
  end.

Definition macos_write (fd : Z) (chain : list (list Z)) : P D Z :=
  let ps := take 511 chain in
  res ← call (WriteV fd (macos_type ps :: ps));
  mret (if decide (ret res ≤ 4) then -1 else ret res).

Definition macos_io : HevTunnelIO D := Build_HevTunnelIO _ macos_read macos_write unix_free.
End Systems.

(** ** Counters *)

Record stats := mkStats {
  stat_tx_packets : Z;
  stat_rx_packets : Z;
  stat_tx_bytes : Z;
  stat_rx_bytes : Z;
}.

Definition stats_zero : stats := mkStats 0 0 0 0.

(** A packet read by [lwip_io_task_entry]. *)
Definition lwip_io_packet (tot_len : Z) (st : stats) : stats :=
  mkStats (u64 (stat_tx_packets st + 1)) (stat_rx_packets st) (u64 (stat_tx_bytes st + tot_len)) (stat_rx_bytes st).

(** A packet written by [netif_output_handler]. *)
Definition netif_packet (s : Z) (st : stats) : stats :=
  mkStats (stat_tx_packets st) (u64 (stat_rx_packets st + 1)) (stat_tx_bytes st) (u64 (stat_rx_bytes st + s)).

(** [hev_socks5_tunnel_stats], in the order of its arguments. *)
Definition hev_socks5_tunnel_stats (st : stats) : Z * Z * Z * Z :=
  (stat_tx_packets st, stat_tx_bytes st, stat_rx_packets st, stat_rx_bytes st).

(** ** Between the device and lwIP *)

Definition ERR_OK : Z := 0.
Definition ERR_WOULDBLOCK : Z := -7.
Definition ERR_IF : Z := -12.

Section Path.
Context {D : Type} {Io : HevTunnelIO D} (tun_fd mtu : Z).

(** The variables of the device, and the counters. *)
Record path := mkPath { p_device : D; p_stats : stats }.

Definition set_p_stats (st : stats) (s : path) : path := mkPath (p_device s) st.

Definition on_io {A} (m : P D A) : P path A := λ s,
  io_bind (m (p_device s)) (λ '(r, d), Ret (r, mkPath d (p_stats s))).

Definition netif_output_handler (p : list (list Z)) : P path Z :=
  s ← on_io (hev_tunnel_write tun_fd p);
  if decide (s ≤ 0) then
    e ← call Errno;
    mret (if decide (ret e = EAGAIN) then ERR_WOULDBLOCK else ERR_IF)
  else
    pmod (λ st, set_p_stats (netif_packet s (p_stats st)) st);;
    mret ERR_OK.

(** The loop of [lwip_io_task_entry]; [None] when its fuel ends. *)
Fixpoint lwip_io_loop (fuel : nat) : P path (option unit) :=
  match fuel with
  | O => mret None
  | S fuel =>
      run ← call ReadRun;
      if decide (ret run = 0) then mret (Some tt)
      else
        o ← on_io (hev_tunnel_read fuel tun_fd mtu);
        match o with
        | None => mret None
        | Some None => lwip_io_loop fuel
        | Some (Some buf) =>
            pmod (λ s, set_p_stats (lwip_io_packet (Z.of_nat (length (pk_data buf))) (p_stats s)) s);;
            call MutexLock;;
            e ← call (NetifInput (pk_pbuf buf) (pk_data buf));
            (if decide (ret e = ERR_OK) then mret tt else on_io (packet_free buf));;
            call MutexUnlock;;
            lwip_io_loop fuel
        end
  end.

(** The device is watched while the task runs. *)
Definition lwip_io_task_entry (fuel : nat) : P path (option unit) :=
  call (AddFd tun_fd);;
  o ← lwip_io_loop fuel;
  match o with
  | None => mret None
  | Some _ => call (DelFd tun_fd);; mret (Some tt)
  end.
End Path.
Arguments path : clear implicits.
