(* ===== verification/PacketsProps.v ===== *)
(** * Properties of the packet path

    Packets go from the device to lwIP and back unchanged, once and in order,
    and no pbuf is lost, on every device with the laws of [HevTunnelIOLaws]. *)

From S2P Require Import Prelude Buffer IO Ledger Device Packets.

(** ** What a run passes on *)

Abbreviation trace := (list (ev * resp)).

(** The packets given to lwIP. *)
Definition inputs (tr : trace) : list (list Z) :=
  omap (λ c, match c.1 with NetifInput _ bs => Some bs | _ => None end) tr.

(** The bytes of each write. *)
Definition writes (tr : trace) : list (list Z) :=
  omap (λ c, match c.1 with WriteV _ iov => Some (concat iov) | _ => None end) tr.

(** The packets that were read, given how to take one out of a response. *)
Definition arrivals (unframe : resp → option (list Z)) (tr : trace) : list (list Z) :=
  omap (λ c, match c.1 with Read _ _ => unframe c.2 | _ => None end) tr.

(** The run turns the handles [a] into [b] and loses none. *)
Definition turns (a b : handles) (tr : trace) : Prop := lost tr = [] ∧ balanced a b tr.

Lemma turns_app a b c t1 t2 : turns a b t1 → turns b c t2 → turns a c (t1 ++ t2).
Proof. intros [L1 B1] [L2 B2]. split; [by rewrite lost_app, L1, L2 | by eapply balanced_app]. Qed.

Lemma turns_same a : turns a a [].
Proof. split; [done | by apply balanced_same]. Qed.

Lemma turns_skip e x a b tr : harmless e → turns a b tr → turns a b ((e, x) :: tr).
Proof. intros He [L B]. split; [rewrite lost_cons, L; by destruct e | by apply bal_skip]. Qed.

Lemma turns_acquire k r a b tr : turns (got k (ret r) ++ a) b tr → turns a b ((Acquire k, r) :: tr).
Proof. intros [L B]. split; [done | by apply bal_acquire]. Qed.

Lemma turns_release k h r a b tr : turns a b tr → turns ((k, h) :: a) b ((Release k h, r) :: tr).
Proof. intros [L B]. split; [done | by apply bal_release]. Qed.

Lemma turns_input h bs r a b tr : (ret r = 0 → turns a b tr) → (ret r ≠ 0 → turns ((R_pbuf, h) :: a) b tr) →
  turns ((R_pbuf, h) :: a) b ((NetifInput h bs, r) :: tr).
Proof.
  intros H0 H1. split.
  - rewrite lost_cons. destruct (decide (ret r = 0)) as [E | E]; [apply (H0 E) | apply (H1 E)].
  - apply bal_input; intros E; [apply (H0 E) | apply (H1 E)].
Qed.

(** ** The laws *)

Class HevTunnelIOLaws {D} (Io : HevTunnelIO D) := {
  (** the packet in what a [Read] returned, and what is written for one *)
  io_unframe : resp → option (list Z);
  io_frame : list Z → list Z;
  (** the length of a chain that is written whole *)
  io_chain : nat;
  io_round p x : p ≠ [] → data x = io_frame p → ret x = Z.of_nat (length (data x)) → io_unframe x = Some p;
  io_read_law fuel fd mtu d : wp False (hev_tunnel_read fuel fd mtu d) (λ r tr, r.2 = d ∧ inputs tr = [] ∧
    match r.1 with
    | Some (Some p) => turns [] [(R_pbuf, pk_pbuf p)] tr ∧ arrivals io_unframe tr = [pk_data p]
    | _ => turns [] [] tr ∧ arrivals io_unframe tr = []
    end);
  io_free_law p d : wp False (packet_free p d) (λ r tr, r.2 = d ∧ inputs tr = [] ∧
    turns [(R_pbuf, pk_pbuf p)] [] tr ∧ arrivals io_unframe tr = []);
  io_write_law fd chain d : wp False (hev_tunnel_write fd chain d) (λ r tr, r.2 = d ∧ turns [] [] tr ∧
    ∃ bs, writes tr = [bs] ∧ ((length chain ≤ io_chain)%nat → bs = io_frame (concat chain)));
}.

(** ** The systems have them *)

(** The packet behind a header of [k] bytes. *)
Definition unframe (k : nat) (x : resp) : option (list Z) :=
  if decide (Z.of_nat k < ret x) then Some (drop k (data x)) else None.

Lemma read_spec {D} k fd n (d : D) :
  wp False ((buf ← call (Acquire R_pbuf);
    if decide (ret buf = NULL) then mret (Some None)
    else
      s ← call (Read fd n);
      if decide (ret s ≤ Z.of_nat k) then call (Release R_pbuf (ret buf));; mret (Some None)
      else mret (Some (Some (mkPacket (ret buf) (drop k (data s)))))) d)
    (λ (r : option (option packet) * D) tr, r.2 = d ∧ inputs tr = [] ∧
      match r.1 with
      | Some (Some p) => turns [] [(R_pbuf, pk_pbuf p)] tr ∧ arrivals (unframe k) tr = [pk_data p]
      | _ => turns [] [] tr ∧ arrivals (unframe k) tr = []
      end).
Proof.
  apply wp_call. intros b _. destruct (decide (ret b = NULL)) as [Hb | Hb].
  { split; [done |]. split; [done |]. split; [|done]. apply turns_acquire. rewrite Hb. by apply turns_same. }
  apply wp_call. intros s _. destruct (decide (ret s ≤ Z.of_nat k)) as [Hs | Hs].
  - apply wp_call. intros f _. split; [done |]. split; [done |]. split.
    + apply turns_acquire. cbn [got]. rewrite decide_False by done. apply turns_skip; [done |]. by apply turns_release, turns_same.
    + cbn. unfold unframe. by rewrite decide_False by lia.
  - split; [done |]. split; [done |]. split.
    + apply turns_acquire. cbn [got pk_pbuf]. rewrite decide_False by done. apply turns_skip; [done |]. by apply turns_same.
    + cbn. unfold unframe. by rewrite decide_True by lia.
Qed.

Lemma unix_free_spec {D} f p (d : D) : wp False (unix_free p d) (λ r tr, r.2 = d ∧ inputs tr = [] ∧
  turns [(R_pbuf, pk_pbuf p)] [] tr ∧ arrivals f tr = []).
Proof. intros x _. split_and!; [done.. | | done]. by apply turns_release, turns_same. Qed.

Lemma one_write {D} fd iov (g : resp → Z) (d : D) n (frame : list Z → list Z) (chain : list (list Z)) :
  ((length chain ≤ n)%nat → concat iov = frame (concat chain)) →
  wp False ((s ← call (WriteV fd iov); mret (g s)) d) (λ (r : Z * D) tr, r.2 = d ∧ turns [] [] tr ∧
    ∃ bs, writes tr = [bs] ∧ ((length chain ≤ n)%nat → bs = frame (concat chain))).
Proof.
  intros Hf x _. split; [done |]. split; [by apply turns_skip, turns_same |]. by exists (concat iov).
Qed.

Lemma unix_write_spec {D} fd (chain : list (list Z)) (d : D) : wp False (unix_write fd chain d) (λ r tr, r.2 = d ∧ turns [] [] tr ∧
  ∃ bs, writes tr = [bs] ∧ ((length chain ≤ 512)%nat → bs = id (concat chain))).
Proof.
  assert (∀ ps : list (list Z), ((length ps ≤ 512)%nat → concat (take 512 ps) = id (concat ps))) as H by (intros ps Hps; by rewrite take_ge).
  destruct chain as [|p [|q chain]]; unfold unix_write; apply one_write; auto.
Qed.

Lemma macos_type_concat chain : macos_type chain = macos_type [concat chain].
Proof. induction chain as [|[|b p] chain IH]; [done | done |]. cbn. by case_decide. Qed.

Lemma macos_write_spec {D} fd (chain : list (list Z)) (d : D) : wp False (macos_write fd chain d) (λ r tr, r.2 = d ∧ turns [] [] tr ∧
  ∃ bs, writes tr = [bs] ∧ ((length chain ≤ 511)%nat → bs = macos_type [concat chain] ++ concat chain)).
Proof.
  unfold macos_write. cbv zeta.
  apply (one_write fd _ _ d 511 (λ p, macos_type [p] ++ p)). intros Hc.
  rewrite (take_ge chain) by lia. rewrite (macos_type_concat chain) at 1. done.
Qed.

#[export] Program Instance unix_io_laws {D} : HevTunnelIOLaws (@unix_io D) :=
  {| io_unframe := unframe 0; io_frame := id; io_chain := 512 |}.
Next Obligation.
  intros D p x Hp E Hr. unfold id in E. unfold unframe. rewrite decide_True; [by rewrite E |].
  rewrite Hr, E. destruct p; [done |]. cbn. lia.
Qed.
Next Obligation. intros. apply (read_spec 0). Qed.
Next Obligation. intros. apply unix_free_spec. Qed.
Next Obligation. intros. apply unix_write_spec. Qed.

Lemma macos_type_length chain : length (macos_type chain) = 4%nat.
Proof. induction chain as [|[|b p] chain IH]; [done | done |]. cbn. by case_decide. Qed.

#[export] Program Instance macos_io_laws {D} : HevTunnelIOLaws (@macos_io D) :=
  {| io_unframe := unframe 4; io_frame p := macos_type [p] ++ p; io_chain := 511 |}.
Next Obligation.
  intros D p x Hp E Hr. unfold unframe. pose proof (macos_type_length [p]) as Hl. rewrite decide_True.
  - by rewrite E, drop_app_length'.
  - rewrite Hr, E, length_app, Hl. destruct p; [done |]. cbn. lia.
Qed.
Next Obligation. intros. apply (read_spec 4). Qed.
Next Obligation. intros. apply unix_free_spec. Qed.
Next Obligation. intros. apply macos_write_spec. Qed.

(** ** The path *)

Section Path.
Context {D : Type} {Io : HevTunnelIO D} {Laws : HevTunnelIOLaws Io} (tun_fd mtu : Z).
#[local] Abbreviation path := (path D).

(** The counters after some packets were read. *)
Definition counted (ps : list (list Z)) (st : stats) : stats :=
  foldl (λ st p, lwip_io_packet (Z.of_nat (length p)) st) st ps.

(** What was read was given to lwIP and counted. *)
Definition passed (s : path) (r : option unit * path) (tr : trace) : Prop :=
  p_device r.2 = p_device s ∧ turns [] [] tr ∧ inputs tr = arrivals io_unframe tr ∧
  p_stats r.2 = counted (arrivals io_unframe tr) (p_stats s).

Lemma on_io_spec {A} (m : P D A) (s : path) R : wp False (m (p_device s)) R →
  wp False (on_io m s) (λ r tr, ∃ d, r.2 = mkPath d (p_stats s) ∧ R (r.1, d) tr).
Proof.
  intros H. unfold on_io. apply wp_bind. eapply wp_mono; [exact H |]. intros [r d] tr HR. cbn [wp fst snd].
  exists d. by rewrite app_nil_r.
Qed.

Lemma inputs_app t1 t2 : inputs (t1 ++ t2) = inputs t1 ++ inputs t2.
Proof. apply omap_app. Qed.

Lemma arrivals_app f t1 t2 : arrivals f (t1 ++ t2) = arrivals f t1 ++ arrivals f t2.
Proof. apply omap_app. Qed.

(** A packet was read and passed on by [t1]. *)
Lemma passed_packet p s d t1 r tr : d = p_device s →
  turns [] [] t1 → inputs t1 = [p] → arrivals io_unframe t1 = [p] →
  passed (mkPath d (lwip_io_packet (Z.of_nat (length p)) (p_stats s))) r tr → passed s r (t1 ++ tr).
Proof.
  intros -> B I A (Hd & Ht & Hi & Hs). split; [done |]. split; [by eapply turns_app |].
  rewrite inputs_app, arrivals_app, I, A, Hi. by split.
Qed.

Lemma passed_quiet s r t1 tr : turns [] [] t1 → inputs t1 = [] → arrivals io_unframe t1 = [] →
  passed s r tr → passed s r (t1 ++ tr).
Proof.
  intros B I A (Hd & Ht & Hi & Hs). split; [done |]. split; [by eapply turns_app |].
  rewrite inputs_app, arrivals_app, I, A, Hi. by split.
Qed.

(** One packet on its way to lwIP. *)
Lemma input_spec buf (s : path) (k : P path (option unit)) Q :
  (∀ t, turns [(R_pbuf, pk_pbuf buf)] [] t → inputs t = [pk_data buf] → arrivals io_unframe t = [] →
    wp False (k s) (λ r tr, Q r (t ++ tr))) →
  wp False ((call MutexLock;;
    e ← call (NetifInput (pk_pbuf buf) (pk_data buf));
    (if decide (ret e = ERR_OK) then mret tt else on_io (packet_free buf));;
    call MutexUnlock;; k) s) Q.
Proof.
  intros Hk. apply wp_call. intros x1 _. apply wp_call. intros e _.
  eapply (wp_then _ _ _ _ (λ r t, r.2 = s ∧ turns (if decide (ret e = ERR_OK) then [] else [(R_pbuf, pk_pbuf buf)]) [] t ∧
    inputs t = [] ∧ arrivals io_unframe t = [])).
  - case_decide; [split_and!; [done | apply turns_same | done | done] |].
    eapply wp_mono; [apply on_io_spec, io_free_law |]. intros [[] s'] t (d & E & E' & I & B & A). cbn [fst snd] in *. subst.
    split; [by destruct s |]. by split.
  - intros [] s' t1 (E & B & I & A). cbn [snd] in E. subst s'. apply wp_call. intros x2 _.
    eapply wp_mono; [apply (Hk ((MutexLock, x1) :: (NetifInput (pk_pbuf buf) (pk_data buf), e) :: t1 ++ [(MutexUnlock, x2)])) |].
    + apply turns_skip, turns_input; [done | |]; intros He; [rewrite decide_True in B by done | rewrite decide_False in B by done];
        (eapply turns_app; [exact B |]; by apply turns_skip, turns_same).
    + change (inputs _) with ([pk_data buf] ++ inputs (t1 ++ [(MutexUnlock, x2)])). by rewrite inputs_app, I.
    + change (arrivals io_unframe _) with (arrivals io_unframe (t1 ++ [(MutexUnlock, x2)])). by rewrite arrivals_app, A.
    + intros r tr. cbn [app]. by rewrite <-app_assoc.
Qed.

Lemma loop_spec fuel s : wp False (lwip_io_loop tun_fd mtu fuel s) (passed s).
Proof.
  revert s; induction fuel as [|fuel IH]; intros s; cbn [lwip_io_loop].
  { split_and!; [done | apply turns_same | done | done]. }
  apply wp_call. intros run _. destruct (decide (ret run = 0)).
  { split_and!; [done | by apply turns_skip, turns_same | done | done]. }
  eapply wp_mono; [|intros r tr Hp; apply (passed_quiet s r [(ReadRun, run)]); [by apply turns_skip, turns_same | done | done | exact Hp]].
  eapply wp_then; [apply on_io_spec, io_read_law |]. intros o s1 t1 (d & E & E' & I & Ho). cbn [fst snd] in *. subst d s1.
  assert (mkPath (p_device s) (p_stats s) = s) as -> by by destruct s.
  destruct o as [[buf|]|]; destruct Ho as [B A].
  - rewrite pmod_bind. apply input_spec. intros t2 B2 I2 A2. eapply wp_mono; [apply IH |]. intros r tr Hp. rewrite app_assoc.
    eapply (passed_packet (pk_data buf) s (p_device s)); [done | by eapply turns_app | | | exact Hp].
    + by rewrite inputs_app, I, I2.
    + by rewrite arrivals_app, A, A2.
  - eapply wp_mono; [apply IH |]. intros r tr Hp. by apply passed_quiet.
  - unfold mret, P_ret. cbn [wp]. rewrite app_nil_r. split_and!; [done | done | by rewrite I, A | by rewrite A].
Qed.

Lemma task_spec fuel s : wp False (lwip_io_task_entry tun_fd mtu fuel s) (passed s).
Proof.
  unfold lwip_io_task_entry. apply wp_call. intros x _.
  eapply wp_mono; [|intros r tr Hp; apply (passed_quiet s r [(AddFd tun_fd, x)]); [by apply turns_skip, turns_same | done | done | exact Hp]].
  eapply wp_then; [apply loop_spec |]. intros o s1 t1 (Hd & B & I & St). cbn [fst snd] in *. destruct o as [[]|].
  - intros y _. split; [done |]. split; [eapply turns_app; [exact B |]; by apply turns_skip, turns_same |].
    rewrite inputs_app, arrivals_app, !app_nil_r. by split.
  - unfold mret, P_ret. cbn [wp]. rewrite app_nil_r. by split.
Qed.

Lemma output_spec chain s : wp False (netif_output_handler tun_fd chain s) (λ r tr, turns [] [] tr ∧
  ∃ bs, writes tr = [bs] ∧ ((length chain ≤ io_chain)%nat → bs = io_frame (concat chain))).
Proof.
  unfold netif_output_handler. eapply wp_then; [apply on_io_spec, io_write_law |].
  intros r s1 t1 (d & E & E' & B & bs & W & Hbs). cbn [fst snd] in *. subst d s1.
  assert (∀ t, turns [] [] t → writes t = [] → turns [] [] (t1 ++ t) ∧
    ∃ bs, writes (t1 ++ t) = [bs] ∧ ((length chain ≤ io_chain)%nat → bs = io_frame (concat chain))) as Hend.
  { intros t Bt Wt. split; [by eapply turns_app |]. exists bs. split; [|done]. unfold writes in *. by rewrite omap_app, W, Wt. }
  destruct (decide (r ≤ 0)).
  - intros e _. apply Hend; [by apply turns_skip, turns_same | done].
  - apply Hend; [apply turns_same | done].
Qed.
End Path.

(** ** The claims *)

(** C28. Packets pass between the device and lwIP.  Whatever the device and lwIP
    answer, and however long the task runs, it gives every packet it reads to
    lwIP, once, unchanged and in the order they arrived, counts it, and loses
    no pbuf: one that lwIP does not take is freed, once.  The output of lwIP
    is one write for each packet, which for a chain the device can gather is
    the whole packet, framed so that a read of it gives the packet back. *)
Theorem packets_pass {D} {Io : HevTunnelIO D} {Laws : HevTunnelIOLaws Io} tun_fd mtu :
  (∀ fuel s, safe (lwip_io_task_entry tun_fd mtu fuel s) ∧
    ∀ tr o s', runs (lwip_io_task_entry tun_fd mtu fuel s) tr (o, s') →
      inputs tr = arrivals io_unframe tr ∧ p_stats s' = counted (arrivals io_unframe tr) (p_stats s) ∧
      ∀ l, ∃ l', held_after l tr = Some l' ∧ l' ≡ₚ l) ∧
  (∀ chain s, safe (netif_output_handler tun_fd chain s) ∧
    ∀ tr r s', runs (netif_output_handler tun_fd chain s) tr (r, s') →
      ∃ bs, writes tr = [bs] ∧ ((length chain ≤ io_chain)%nat → bs = io_frame (concat chain) ∧
        ∀ x, concat chain ≠ [] → data x = bs → ret x = Z.of_nat (length bs) → io_unframe x = Some (concat chain))).
Proof.
  split; [intros fuel s | intros chain s].
  - pose proof (task_spec tun_fd mtu fuel s) as Hwp. split; [by eapply wp_safe |]. intros tr o s' Hr.
    destruct (wp_runs _ _ _ _ _ Hwp Hr) as (_ & [Hl Hb] & Hi & Hs). split; [done |]. split; [done |].
    intros l. destruct (Hb l l) as (l' & E & P); [done |]. rewrite Hl in P. by exists l'.
  - pose proof (output_spec tun_fd chain s) as Hwp. split; [by eapply wp_safe |]. intros tr r s' Hr.
    destruct (wp_runs _ _ _ _ _ Hwp Hr) as (_ & bs & Hw & Hbs). exists bs. split; [done |]. intros Hc.
    split; [by apply Hbs |]. intros x Hp Hd Hx. apply io_round; [done | by rewrite Hd, Hbs | by rewrite Hd].
Qed.

(** A task on Linux that reads two packets, of which lwIP refuses one. *)
Lemma packets_pass_witness :
  ∃ tr s', runs (lwip_io_task_entry (Io := unix_io) 5 8500 10 (mkPath tt stats_zero)) tr (Some tt, s') ∧
    inputs tr = [[69; 0]; [96; 1; 2]] ∧ p_stats s' = mkStats 2 0 5 0 ∧ held_after [] tr = Some [].
Proof.
  pose (rs := [val 0; val 1; val 16; mkResp 2 [69; 0] 0 []; val 0; val 0; val 0;
    val 1; val 32; mkResp 3 [96; 1; 2] 0 []; val 0; val (-1); val 0; val 0; val 0; val 0]).
  destruct (play (lwip_io_task_entry (Io := unix_io) 5 8500 10 (mkPath tt stats_zero)) rs) as [[[o s'] tr]|] eqn:E;
    [|by vm_compute in E].
  assert (runs (lwip_io_task_entry (Io := unix_io) 5 8500 10 (mkPath tt stats_zero)) tr (o, s')) as Hr.
  { eapply play_runs; [exact E |]. vm_compute in E. injection E as <- <- <-.
    repeat (constructor; [split; [repeat constructor; cbn; lia | first [done | cbn; lia]] |]). constructor. }
  destruct (packets_pass (D := unit) (Io := unix_io) 5 8500) as [H _]. destruct (H 10%nat (mkPath tt stats_zero)) as [_ H'].
  destruct (H' tr o s' Hr) as (Hi & Hs & _).
  exists tr, s'. vm_compute in E. injection E as <- <- <-. split; [exact Hr |]. split; [rewrite Hi |]; vm_compute; done.
Defined.
