(* ===== verification/Lifecycle.v ===== *)
(** * Setting the tunnel up and taking it down

    Model of the initialisation and finalisation in [src/hev-socks5-tunnel.c],
    of [src/misc/hev-exec.c] and of the log file in [src/misc/hev-logger.c],
    over any device of [Device].  What each part takes from the outside is an
    event with its handle, null or negative when it fails. *)

From S2P Require Import Prelude Buffer IO Config Device.

(** ** Running a script *)

(** [hev_exec_run] in the parent; the child runs the script or exits. *)
Definition hev_exec_run {S} (script_path tun_name : list Z) (tun_index : option Z) (wait : bool) : P S unit :=
  pid ← call (Fork [script_path; tun_name; option_list tun_index]);
  if decide (ret pid < 0) then mret tt
  else if wait then call (WaitPid (ret pid));; mret tt
  else mret tt.

(** ** The static variables *)

Section Life.
Context {D : Type}.

Record life := mkLife {
  tun_fd : Z;
  tun_fd_local : bool;
  netif : Z;
  tcp : Z;
  udp : Z;
  event_fd0 : Z;
  event_fd1 : Z;
  task_event : Z;
  task_lwip_io : Z;
  task_lwip_timer : Z;
  mapped_dns : Z;
  device : D;
}.

Definition life_zero (d : D) : life := mkLife (-1) false 0 0 0 (-1) (-1) 0 0 0 0 d.

Definition set_tun_fd v s := mkLife v (tun_fd_local s) (netif s) (tcp s) (udp s) (event_fd0 s) (event_fd1 s) (task_event s) (task_lwip_io s) (task_lwip_timer s) (mapped_dns s) (device s).
Definition set_tun_fd_local v s := mkLife (tun_fd s) v (netif s) (tcp s) (udp s) (event_fd0 s) (event_fd1 s) (task_event s) (task_lwip_io s) (task_lwip_timer s) (mapped_dns s) (device s).
Definition set_netif v s := mkLife (tun_fd s) (tun_fd_local s) v (tcp s) (udp s) (event_fd0 s) (event_fd1 s) (task_event s) (task_lwip_io s) (task_lwip_timer s) (mapped_dns s) (device s).
Definition set_tcp v s := mkLife (tun_fd s) (tun_fd_local s) (netif s) v (udp s) (event_fd0 s) (event_fd1 s) (task_event s) (task_lwip_io s) (task_lwip_timer s) (mapped_dns s) (device s).
Definition set_udp v s := mkLife (tun_fd s) (tun_fd_local s) (netif s) (tcp s) v (event_fd0 s) (event_fd1 s) (task_event s) (task_lwip_io s) (task_lwip_timer s) (mapped_dns s) (device s).
Definition set_event_fd0 v s := mkLife (tun_fd s) (tun_fd_local s) (netif s) (tcp s) (udp s) v (event_fd1 s) (task_event s) (task_lwip_io s) (task_lwip_timer s) (mapped_dns s) (device s).
Definition set_event_fd1 v s := mkLife (tun_fd s) (tun_fd_local s) (netif s) (tcp s) (udp s) (event_fd0 s) v (task_event s) (task_lwip_io s) (task_lwip_timer s) (mapped_dns s) (device s).
Definition set_task_event v s := mkLife (tun_fd s) (tun_fd_local s) (netif s) (tcp s) (udp s) (event_fd0 s) (event_fd1 s) v (task_lwip_io s) (task_lwip_timer s) (mapped_dns s) (device s).
Definition set_task_lwip_io v s := mkLife (tun_fd s) (tun_fd_local s) (netif s) (tcp s) (udp s) (event_fd0 s) (event_fd1 s) (task_event s) v (task_lwip_timer s) (mapped_dns s) (device s).
Definition set_task_lwip_timer v s := mkLife (tun_fd s) (tun_fd_local s) (netif s) (tcp s) (udp s) (event_fd0 s) (event_fd1 s) (task_event s) (task_lwip_io s) v (mapped_dns s) (device s).
Definition set_mapped_dns v s := mkLife (tun_fd s) (tun_fd_local s) (netif s) (tcp s) (udp s) (event_fd0 s) (event_fd1 s) (task_event s) (task_lwip_io s) (task_lwip_timer s) v (device s).
Definition set_device v s := mkLife (tun_fd s) (tun_fd_local s) (netif s) (tcp s) (udp s) (event_fd0 s) (event_fd1 s) (task_event s) (task_lwip_io s) (task_lwip_timer s) (mapped_dns s) v.

(** A function of the device on its own variables. *)
Definition on_device {A} (m : P D A) : P life A := λ s,
  io_bind (m (device s)) (λ '(r, d), Ret (r, set_device d s)).
End Life.
Arguments life : clear implicits.

(** ** Initialisation *)

(** What the configuration says of the tunnel; the strings are [None] when
    they are not configured. *)
Record tunnel_conf := mkTunnelConf {
  cf_name : option (list Z);
  cf_multi_queue : Z;
  cf_mtu : Z;
  cf_ipv4 : option (list Z);
  cf_ipv6 : option (list Z);
  cf_post_up : option (list Z);
  cf_pre_down : option (list Z);
  cf_cache_size : Z;
}.

Section Program.
Context {D : Type} `{Tun : HevTunnel D} (conf : tunnel_conf).
#[local] Abbreviation P' := (P (life D)).

(** [if (res < 0) return -1;] and go on. *)
Definition check (m : P' Z) (k : P' Z) : P' Z :=
  res ← m; if decide (res < 0) then mret (-1) else k.

Definition optional (o : option (list Z)) (f : list Z → P D Z) : P D Z :=
  match o with None => mret 0 | Some addr => f addr end.

(** The script, when there is one. *)
Definition run_script (script : option (list Z)) (wait : bool) : P' unit :=
  match script with
  | None => mret tt
  | Some path =>
      name ← pgets (λ s, hev_tunnel_get_name (device s));
      index ← on_device hev_tunnel_get_index;
      hev_exec_run path name index wait
  end.

Definition tunnel_init (extern_tun_fd : Z) : P' Z :=
  if decide (0 ≤ extern_tun_fd) then
    check (res ← call (Ioctl extern_tun_fd FIONBIO [1]); mret (ret res))
      (pmod (set_tun_fd extern_tun_fd);; mret 0)
  else
    pmod (set_tun_fd_local true);;
    fd ← on_device (hev_tunnel_open (cf_name conf) (cf_multi_queue conf));
    pmod (set_tun_fd fd);;
    if decide (fd < 0) then mret (-1)
    else
      check (on_device (hev_tunnel_set_mtu (cf_mtu conf)))
        (check (on_device (optional (cf_ipv4 conf) (λ addr, hev_tunnel_set_ipv4 addr 32)))
          (check (on_device (optional (cf_ipv6 conf) (λ addr, hev_tunnel_set_ipv6 addr 128)))
            (check (on_device (hev_tunnel_set_state 1))
              (run_script (cf_post_up conf) false;;
               mret 0)))).

Definition tunnel_fini : P' unit :=
  l ← pgets tun_fd_local;
  if negb l then mret tt
  else
    run_script (cf_pre_down conf) true;;
    fd ← pgets tun_fd;
    if decide (0 ≤ fd) then
      on_device (hev_tunnel_close fd);;
      pmod (set_tun_fd_local false);;
      pmod (set_tun_fd (-1))
    else mret tt.

Definition gateway_init : P' Z :=
  n ← call (Acquire R_netif);
  pmod (set_netif (ret n));;
  if decide (ret n = NULL) then mret (-1)
  else
    t ← call (Acquire R_tcp);
    pmod (set_tcp (ret t));;
    if decide (ret t = NULL) then mret (-1)
    else
      t ← call (TcpListen (ret t));
      pmod (set_tcp (ret t));;
      u ← call (Acquire R_udp);
      pmod (set_udp (ret u));;
      mret (if decide (ret u = NULL) then -1 else 0).

(** [if (x) { release (x); x = NULL; }] *)
Definition drop_handle (k : resource) (get : life D → Z) (set : Z → life D → life D) : P' unit :=
  h ← pgets get;
  if decide (h = NULL) then mret tt
  else call (Release k h);; pmod (set NULL).

(** [if (x >= 0) { close (x); x = -1; }] *)
Definition drop_fd (get : life D → Z) (set : Z → life D → life D) : P' unit :=
  fd ← pgets get;
  if decide (0 ≤ fd) then call (Close fd);; pmod (set (-1)) else mret tt.

Definition gateway_fini : P' unit :=
  drop_handle R_udp udp set_udp;;
  drop_handle R_tcp tcp set_tcp;;
  drop_handle R_netif netif set_netif.

Definition task_init (set : Z → life D → life D) : P' Z :=
  t ← call (Acquire R_task);
  pmod (set (ret t));;
  mret (if decide (ret t = NULL) then -1 else 0).

Definition event_task_init : P' Z :=
  r ← call SocketPair;
  if decide (ret r < 0) then mret (-1)
  else
    pmod (set_event_fd0 (aux r));; pmod (set_event_fd1 (ret r));;
    n ← call (Ioctl (aux r) FIONBIO [1]);
    if decide (ret n < 0) then mret (-1)
    else task_init set_task_event.

Definition event_task_fini : P' unit :=
  drop_handle R_task task_event set_task_event;;
  drop_fd event_fd0 set_event_fd0;;
  drop_fd event_fd1 set_event_fd1.

Definition lwip_io_task_init : P' Z := task_init set_task_lwip_io.
Definition lwip_io_task_fini : P' unit := drop_handle R_task task_lwip_io set_task_lwip_io.
Definition lwip_timer_task_init : P' Z := task_init set_task_lwip_timer.
Definition lwip_timer_task_fini : P' unit := drop_handle R_task task_lwip_timer set_task_lwip_timer.

Definition mapped_dns_init : P' Z :=
  if decide (cf_cache_size conf = 0) then mret 0
  else
    d ← call (Acquire R_dns);
    if decide (ret d = NULL) then mret (-1)
    else pmod (set_mapped_dns (ret d));; mret 0.

Definition mapped_dns_fini : P' unit := drop_handle R_dns mapped_dns set_mapped_dns.

(** [hev_socks5_tunnel_fini] behind the barrier of [Sync]. *)
Definition hev_socks5_tunnel_fini : P' unit :=
  mapped_dns_fini;;
  lwip_timer_task_fini;;
  lwip_io_task_fini;;
  event_task_fini;;
  gateway_fini;;
  tunnel_fini.

Definition hev_socks5_tunnel_init (fd : Z) : P' Z :=
  res ←
    check (tunnel_init fd)
      (check gateway_init
        (check event_task_init
          (check lwip_io_task_init
            (check lwip_timer_task_init
              (check mapped_dns_init (mret 0))))));
  if decide (res < 0) then hev_socks5_tunnel_fini;; mret (-1)
  else mret 0.

(** [hev_socks5_tunnel_run]; [stopped] is the flag [SYNC_STOP] it takes
    ([Sync]).  The scheduler has a reference of each task until it ends, and
    returns when there is no task left. *)
Definition hev_socks5_tunnel_run (stopped : bool) : P' Z :=
  if stopped then mret 0
  else
    t ← pgets task_event;
    call (TaskRun t);;
    t ← pgets task_lwip_io;
    call (TaskRun t);;
    t ← pgets task_lwip_timer;
    call (TaskRun t);;
    call SystemRun;;
    mret 0.

(** The start, the run, and the end when the start succeeded. *)
Definition tunnel_life (stopped : bool) (fd : Z) : P' Z :=
  res ← hev_socks5_tunnel_init fd;
  if decide (res < 0) then mret res
  else
    hev_socks5_tunnel_run stopped;;
    hev_socks5_tunnel_fini;;
    mret res.
End Program.

(** ** The log file *)

(** [hev_logger_init], [hev_logger_fini] and [hev_logger_enabled] on the
    descriptor and the level; [path] says whether there is one. *)
Record logger := mkLogger { log_fd : Z; req_level : Z }.

Definition logger_start : logger := mkLogger (-1) 0.

Definition hev_logger_init (level : Z) (path : bool) : P logger Z :=
  if negb path then mret 0
  else
    fd ← call (Acquire R_fd);
    pmod (λ _, mkLogger (ret fd) level);;
    mret (if decide (ret fd < 0) then -1 else 0).

Definition hev_logger_fini : P logger unit :=
  fd ← pgets log_fd;
  if decide (0 ≤ fd) then call (Close fd);; mret tt else mret tt.

Definition hev_logger_enabled (level : Z) (l : logger) : bool :=
  bool_decide (req_level l ≤ level ∧ 0 ≤ log_fd l).
