(* ===== verification/LifecycleProps.v ===== *)
(** * Properties of setting up and taking down

    Every handle the initialisation takes is given back once, whichever part
    fails, on every device with the laws of [HevTunnelLaws]: the ledger of a
    run is balanced against the static variables. *)

From S2P Require Import Prelude Buffer IO Ledger Config Device DeviceProps Lifecycle.

(** ** The parts *)

Section Parts.
Context {D : Type}.
#[local] Abbreviation life := (life D).

Lemma wp_check (m k : P life Z) s Q :
  wp False (m s) (λ r t1, if decide (r.1 < 0) then Q (-1, r.2) t1 else wp False (k r.2) (λ r t2, Q r (t1 ++ t2))) →
  wp False (check m k s) Q.
Proof.
  intros H. unfold check. eapply wp_then; [exact H |]. intros x s' t1. cbn [fst snd].
  destruct (decide (x < 0)); intros Hr; [|exact Hr]. unfold mret, P_ret. cbn [wp]. by rewrite app_nil_r.
Qed.

Lemma wp_check_keeps (m k : P life Z) s Q : wp False (m s) (keeps s) →
  (∀ t1, (∀ a, balanced a a t1) → Q (-1, s) t1 ∧ wp False (k s) (λ r t2, Q r (t1 ++ t2))) → wp False (check m k s) Q.
Proof.
  intros Hm Hk. apply wp_check. eapply wp_mono; [exact Hm |]. intros [x s'] t1 [E Hb]. cbn [fst snd] in *. subst s'.
  destruct (Hk t1 Hb). by case_decide.
Qed.

(** A function of the device. *)
Lemma on_device_spec {A} (m : P D A) (s : life) R : wp False (m (device s)) R →
  wp False (on_device m s) (λ r tr, ∃ d, r.2 = set_device d s ∧ R (r.1, d) tr).
Proof.
  intros H. unfold on_device. apply wp_bind. eapply wp_mono; [exact H |]. intros [r d] tr HR. cbn [wp fst snd].
  exists d. by rewrite app_nil_r.
Qed.

(** A step of setting the device up, behind the trace [t0]: [holds] is what
    the device holds, [ready] what the step makes of it. *)
Lemma check_device (ready : D → Prop) (holds : D → handles) m (k : P life Z) s t0 (G : Z * life → list (ev * resp) → Prop) :
  balanced [] (holds (device s)) t0 →
  wp False (m (device s)) (λ r tr, ready r.2 ∧ balanced (holds (device s)) (holds r.2) tr) →
  (∀ d t, ready d → balanced [] (holds d) t → G (-1, set_device d s) t) →
  (∀ d t, ready d → balanced [] (holds d) t → wp False (k (set_device d s)) (λ r t1, G r (t ++ t1))) →
  wp False (check (on_device m) k s) (λ r t, G r (t0 ++ t)).
Proof.
  intros H0 Hm Hfail Hk. apply wp_check. eapply wp_mono; [by apply on_device_spec |].
  intros [r s'] t1 (d & E & Hr & Hb). cbn [fst snd] in *. subst s'.
  pose proof (balanced_app _ _ _ _ _ H0 Hb) as H1. case_decide; [by apply Hfail |].
  eapply wp_mono; [by apply Hk |]. intros r2 t2. by rewrite app_assoc.
Qed.
End Parts.

Section Props.
Context {D : Type} {Tun : HevTunnel D} {Laws : HevTunnelLaws Tun}.
#[local] Abbreviation life := (life D).
#[local] Hint Resolve balanced_same : core.

(** What the static variables hold. *)
Definition owns (s : life) : handles :=
  got R_dns (mapped_dns s) ++ got R_task (task_lwip_timer s) ++ got R_task (task_lwip_io s) ++
  got R_task (task_event s) ++ got R_fd (event_fd0 s) ++ got R_fd (event_fd1 s) ++
  got R_udp (udp s) ++ got R_tcp (tcp s) ++ got R_netif (netif s) ++
  (if tun_fd_local s then tun_holds (tun_fd s) (device s) else []).

(** Nothing is held; [tun_fd_local] may have stayed. *)
Record clean (s : life) : Prop := {
  cl_dns : mapped_dns s = NULL;
  cl_timer : task_lwip_timer s = NULL;
  cl_io : task_lwip_io s = NULL;
  cl_event : task_event s = NULL;
  cl_fd0 : event_fd0 s < 0;
  cl_fd1 : event_fd1 s < 0;
  cl_udp : udp s = NULL;
  cl_tcp : tcp s = NULL;
  cl_netif : netif s = NULL;
  cl_device : tun_ready (device s);
  cl_tun : tun_fd_local s = true → tun_fd s < 0;
}.

Lemma optional_law o f fd d :
  tun_ready d → (∀ a, o = Some a → wp False (f a d) (λ r tr, tun_ready r.2 ∧ balanced (tun_holds fd d) (tun_holds fd r.2) tr)) →
  wp False (optional o f d) (λ r tr, tun_ready r.2 ∧ balanced (tun_holds fd d) (tun_holds fd r.2) tr).
Proof. intros Hd Hf. destruct o; [by apply Hf |]. split; [done |]. by apply balanced_same. Qed.

Section Config.
Context (conf : tunnel_conf).

Lemma run_script_spec script wait (s : life) : tun_ready (device s) → wp False (run_script script wait s) (keeps s).
Proof.
  intros Hd. unfold run_script. destruct script as [path|]; [|apply keeps_ret]. rewrite pgets_bind.
  eapply wp_keeps.
  - eapply wp_mono; [apply on_device_spec, tun_index_law, Hd |]. intros [r s'] tr (d & E & E' & Hb). cbn [fst snd] in *.
    subst d s'. split; [by destruct s |]. auto with hev.
  - intros index t1 H1. eapply (wp_mono _ _ (keeps s)); [unfold hev_exec_run; wkeeps |].
    intros r tr [E Hb]. split; [done |]. intros a. eapply balanced_app; [apply H1 | apply Hb].
Qed.

(** The device can be opened: it has a name that can be opened and the IPv6
    address has a prefix the device takes. *)
Definition openable (fd : Z) : Prop :=
  fd < 0 → tun_name_ok (cf_name conf) ∧ (is_Some (cf_ipv6 conf) → tun_prefix6 128).

(** What [tunnel_init] leaves: the descriptor, the device and whether it is
    its own. *)
Definition tunnel_taken (fd : Z) (s s' : life) (tr : list (ev * resp)) : Prop :=
  ∃ v b d, s' = set_device d (set_tun_fd v (set_tun_fd_local b s)) ∧ (0 ≤ fd → b = tun_fd_local s) ∧ tun_ready d ∧
    balanced [] (if b && negb (bool_decide (0 ≤ fd)) then tun_holds v d else []) tr.

Lemma tunnel_init_spec fd s : tun_ready (device s) → openable fd →
  wp False (tunnel_init conf fd s) (λ r tr, tunnel_taken fd s r.2 tr).
Proof.
  intros Hd Hn. unfold tunnel_init. destruct (decide (0 ≤ fd)) as [Hfd | Hfd].
  - apply wp_check_keeps; [wkeeps |]. intros t1 Hb. split.
    + exists (tun_fd s), (tun_fd_local s), (device s). split; [by destruct s |]. split; [done |]. split; [done |].
      by rewrite bool_decide_eq_true_2, andb_false_r.
    + exists fd, (tun_fd_local s), (device s). cbn [wp mret P_ret]. split; [by destruct s |]. split; [done |]. split; [done |].
      by rewrite bool_decide_eq_true_2, andb_false_r, app_nil_r.
  - assert (∀ r v d tr, tun_ready d → balanced [] (tun_holds v d) tr →
      tunnel_taken fd s (@snd Z life (r, set_device d (set_tun_fd v (set_tun_fd_local true s)))) tr) as Hdone.
    { intros r v d tr Hr Hb. exists v, true, d. split; [done |]. split; [lia |]. split; [done |].
      by rewrite bool_decide_eq_false_2. }
    rewrite pmod_bind. eapply wp_then; [apply on_device_spec, tun_open_law; [apply Hn; lia | done] |].
    intros v s1 t1 (d & E & Hr & Hb). cbn [fst snd] in *. subst s1. rewrite pmod_bind.
    destruct (decide (v < 0)) as [Hv | Hv].
    { unfold mret, P_ret. cbn [wp]. rewrite app_nil_r. by apply (Hdone (-1) v d). }
    apply (check_device tun_ready (tun_holds v) _ _ _ t1 (λ r t, tunnel_taken fd s r.2 t)); [done | apply tun_mtu_law; [lia | done] | by intros; apply Hdone |].
    clear t1 Hr Hb. intros ? t1 Hr Hb.
    apply (check_device tun_ready (tun_holds v) _ _ _ t1 (λ r t, tunnel_taken fd s r.2 t)); [done | | by intros; apply Hdone |].
    { apply optional_law; [done |]. intros a _. apply tun_ipv4_law; [lia | done | lia]. }
    clear t1 Hr Hb. intros ? t1 Hr Hb.
    apply (check_device tun_ready (tun_holds v) _ _ _ t1 (λ r t, tunnel_taken fd s r.2 t)); [done | | by intros; apply Hdone |].
    { apply optional_law; [done |]. intros a Ha. apply tun_ipv6_law; [lia | done |]. apply Hn; [lia | by exists a]. }
    clear t1 Hr Hb. intros ? t1 Hr Hb.
    apply (check_device tun_ready (tun_holds v) _ _ _ t1 (λ r t, tunnel_taken fd s r.2 t)); [done | apply tun_state_law; [lia | done] | by intros; apply Hdone |].
    clear t1 Hr Hb. intros ? t1 Hr Hb.
    eapply wp_keeps; [by apply run_script_spec |]. intros _ t2 H2. unfold mret, P_ret. cbn [wp].
    rewrite app_nil_r. apply (Hdone 0 v); [done |]. eapply balanced_app; [exact Hb | apply H2].
Qed.

Lemma gateway_init_spec s : tcp s = NULL → udp s = NULL →
  wp False (gateway_init s) (λ (r : _ * life) tr, ∃ n t u, r.2 = set_udp u (set_tcp t (set_netif n s)) ∧
    ∀ a, balanced a (got R_udp u ++ got R_tcp t ++ got R_netif n ++ a) tr).
Proof.
  intros Ht Hu. unfold gateway_init. apply wp_call. intros n _. rewrite pmod_bind.
  destruct (decide (ret n = NULL)) as [Hn | Hn].
  { exists (ret n), (tcp s), (udp s). split; [by destruct s |]. intros a. apply bal_acquire. rewrite Ht, Hu. cbn. auto. }
  apply wp_call. intros t0 _. rewrite pmod_bind. destruct (decide (ret t0 = NULL)) as [Ht0 | Ht0].
  { exists (ret n), (ret t0), (udp s). split; [by destruct s |]. intros a. apply bal_acquire, bal_acquire. rewrite Hu. cbn. auto. }
  apply wp_call. intros t1 _. rewrite pmod_bind. apply wp_call. intros u _. rewrite pmod_bind.
  exists (ret n), (ret t1), (ret u). split; [by destruct s |]. intros a. apply bal_acquire, bal_acquire.
  cbn [got]. rewrite (decide_False (P := ret t0 = NULL)) by done. apply bal_listen, bal_acquire. auto.
Qed.

Lemma task_init_spec set (s : life) :
  wp False (task_init set s) (λ (r : _ * life) tr, ∃ h, r.2 = set h s ∧ ∀ a, balanced a (got R_task h ++ a) tr).
Proof.
  unfold task_init. apply wp_call. intros t _. rewrite pmod_bind. exists (ret t). split; [done |].
  intros a. apply bal_acquire. auto.
Qed.

Lemma event_task_init_spec s : event_fd0 s < 0 → event_fd1 s < 0 → task_event s = NULL →
  wp False (event_task_init s) (λ (r : _ * life) tr, ∃ f0 f1 t, r.2 = set_task_event t (set_event_fd1 f1 (set_event_fd0 f0 s)) ∧
    ∀ a, balanced a (got R_task t ++ got R_fd f0 ++ got R_fd f1 ++ a) tr).
Proof.
  intros H0 H1 Ht. unfold event_task_init. apply wp_call. intros r Hv. destruct (decide (ret r < 0)) as [Hr | Hr].
  { exists (event_fd0 s), (event_fd1 s), (task_event s). split; [by destruct s |]. intros a. apply bal_pair.
    rewrite decide_True, Ht by done. cbn [got]. rewrite !(decide_False (P := 0 ≤ _)) by lia. cbn. auto. }
  destruct Hv as [_ Ha]. specialize (Ha ltac:(lia)). rewrite !pmod_bind. apply wp_call. intros n _.
  assert (∀ b c tr, balanced (got R_fd (aux r) ++ got R_fd (ret r) ++ b) c tr → balanced b c ((SocketPair, r) :: (Ioctl (aux r) FIONBIO [1], n) :: tr)) as Hb.
  { intros b c tr Hb. apply bal_pair. rewrite decide_False by lia. apply bal_skip; [done |].
    cbn [got] in Hb. by rewrite !decide_True in Hb by lia. }
  destruct (decide (ret n < 0)) as [Hn | Hn].
  { exists (aux r), (ret r), (task_event s). split; [by destruct s |]. intros a. apply Hb. rewrite Ht. cbn. auto. }
  eapply wp_mono; [apply task_init_spec |]. intros [x s'] tr (h & E & Hh). cbn [snd] in *. exists (aux r), (ret r), h.
  split; [done |]. intros a. apply Hb, Hh.
Qed.

Lemma mapped_dns_init_spec s : mapped_dns s = NULL →
  wp False (mapped_dns_init conf s) (λ (r : _ * life) tr, ∃ h, r.2 = set_mapped_dns h s ∧ ∀ a, balanced a (got R_dns h ++ a) tr).
Proof.
  intros Hd. unfold mapped_dns_init. destruct (decide (cf_cache_size conf = 0)).
  { exists (mapped_dns s). split; [by destruct s |]. intros a. rewrite Hd. cbn. auto. }
  apply wp_call. intros d _. destruct (decide (ret d = NULL)) as [Hn | Hn].
  - exists (mapped_dns s). split; [by destruct s |]. intros a. apply bal_acquire. rewrite Hd, Hn. cbn. auto.
  - exists (ret d). split; [done |]. intros a. apply bal_acquire. auto.
Qed.

(** ** Taking down *)

Lemma drop_handle_spec k get set (s : life) : k ≠ R_fd ∧ k ≠ R_sys → (∀ s, set (get s) s = s) →
  wp False (drop_handle k get set s) (λ (r : _ * life) tr, r.2 = set NULL s ∧ ∀ a, balanced (got k (get s) ++ a) a tr).
Proof.
  intros [Hk1 Hk2] Hs. unfold drop_handle. rewrite pgets_bind. destruct (decide (get s = NULL)) as [Hn | Hn].
  - split; [by rewrite <-Hn, Hs |]. intros a. rewrite Hn. destruct k; try done; cbn; auto.
  - apply wp_call. intros r _. split; [done |]. intros a. destruct k; try done; cbn [got];
      rewrite decide_False by done; apply bal_release; auto.
Qed.

Lemma drop_fd_spec get set (s : life) : (∀ s, set (get s) s = s) →
  wp False (drop_fd get set s) (λ (r : _ * life) tr, (∃ v, v < 0 ∧ r.2 = set v s) ∧ ∀ a, balanced (got R_fd (get s) ++ a) a tr).
Proof.
  intros Hs. unfold drop_fd. rewrite pgets_bind. destruct (decide (0 ≤ get s)) as [Hn | Hn].
  - apply wp_call. intros r _. split; [by exists (-1) |]. intros a. cbn [got]. rewrite decide_True by done. apply bal_close. auto.
  - split; [exists (get s); split; [lia | by rewrite Hs] |]. intros a. cbn [got]. rewrite decide_False by done. auto.
Qed.

Lemma tunnel_fini_spec s : tun_ready (device s) →
  wp False (tunnel_fini conf s) (λ (r : _ * life) tr,
    (∃ v b d, r.2 = set_device d (set_tun_fd v (set_tun_fd_local b s)) ∧ tun_ready d ∧ (b = true → v < 0)) ∧
    balanced (if tun_fd_local s then tun_holds (tun_fd s) (device s) else []) [] tr).
Proof.
  intros Hd. unfold tunnel_fini. rewrite pgets_bind. destruct (tun_fd_local s) eqn:Hl; cbn [negb].
  2: { unfold mret, P_ret. cbn [wp snd]. split; [|auto]. exists (tun_fd s), (tun_fd_local s), (device s).
    split; [by destruct s |]. split; [done | congruence]. }
  eapply wp_keeps; [by apply run_script_spec |]. intros _ t1 H1. rewrite pgets_bind. destruct (decide (0 ≤ tun_fd s)) as [Hf | Hf].
  - eapply wp_then; [by apply on_device_spec, tun_close_law |]. intros [] s1 t2 (d & E & Hr & Hb). cbn [fst snd] in *. subst s1.
    rewrite pmod_bind. unfold pmod. cbn [wp snd]. split; [by exists (-1), false, d |].
    rewrite app_nil_r. eapply balanced_app; [apply H1 | done].
  - unfold mret, P_ret. cbn [wp snd]. split.
    + exists (tun_fd s), true, (device s). split; [destruct s; cbn in Hl; by subst |]. split; [done | lia].
    + rewrite tun_holds_closed, app_nil_r by lia. apply H1.
Qed.

(** Give one handle back and go on. *)
Lemma wp_drop {A} k get set (m : P life A) s (Q : A * life → list (ev * resp) → Prop) :
  k ≠ R_fd ∧ k ≠ R_sys → (∀ s, set (get s) s = s) →
  (∀ t1, (∀ a, balanced (got k (get s) ++ a) a t1) → wp False (m (set NULL s)) (λ r t2, Q r (t1 ++ t2))) →
  wp False ((drop_handle k get set;; m) s) Q.
Proof.
  intros Hk Hs Hm. eapply wp_then; [by apply drop_handle_spec |]. intros [] s' t1 [E Hb]. cbn in E. subst s'. by apply Hm.
Qed.

Lemma event_fini_spec s :
  wp False (event_task_fini s) (λ (r : _ * life) tr,
    (∃ v w, v < 0 ∧ w < 0 ∧ r.2 = set_event_fd1 w (set_event_fd0 v (set_task_event NULL s))) ∧
    ∀ a, balanced (got R_task (task_event s) ++ got R_fd (event_fd0 s) ++ got R_fd (event_fd1 s) ++ a) a tr).
Proof.
  unfold event_task_fini. apply wp_drop; [done | by intros [] |]. intros t1 H1.
  eapply wp_then; [apply drop_fd_spec; by intros [] |]. intros [] s1 t2 [(v & Hv & E) H2]. cbn [snd] in E. subst s1.
  eapply wp_mono; [apply drop_fd_spec; by intros [] |]. intros [[] s1] t3 [(w & Hw & E) H3]. cbn [snd] in *. subst s1.
  split; [by exists v, w |]. intros a. eapply balanced_app; [apply H1 |]. eapply balanced_app; [apply H2 | apply H3].
Qed.

Lemma gateway_fini_spec s :
  wp False (gateway_fini s) (λ (r : _ * life) tr, r.2 = set_netif NULL (set_tcp NULL (set_udp NULL s)) ∧
    ∀ a, balanced (got R_udp (udp s) ++ got R_tcp (tcp s) ++ got R_netif (netif s) ++ a) a tr).
Proof.
  unfold gateway_fini. apply wp_drop; [done | by intros [] |]. intros t1 H1.
  apply wp_drop; [done | by intros [] |]. intros t2 H2.
  eapply wp_mono; [apply drop_handle_spec; [done | by intros []] |]. intros [[] s1] t3 [E H3]. cbn [snd] in *. subst s1.
  split; [done |]. intros a. eapply balanced_app; [apply H1 |]. eapply balanced_app; [apply H2 | apply H3].
Qed.

Lemma fini_spec s : tun_ready (device s) →
  wp False (hev_socks5_tunnel_fini conf s) (λ (r : _ * life) tr, balanced (owns s) [] tr ∧ clean r.2).
Proof.
  intros Hd. unfold hev_socks5_tunnel_fini, mapped_dns_fini, lwip_timer_task_fini, lwip_io_task_fini, owns.
  apply wp_drop; [done | by intros [] |]. intros t1 H1.
  apply wp_drop; [done | by intros [] |]. intros t2 H2.
  apply wp_drop; [done | by intros [] |]. intros t3 H3.
  eapply wp_then; [apply event_fini_spec |]. intros [] s4 t4 [(v & w & Hv & Hw & E) H4]. cbn [snd] in E. subst s4.
  eapply wp_then; [apply gateway_fini_spec |]. intros [] s5 t5 [E H5]. cbn [snd] in E. subst s5.
  eapply wp_mono; [by apply tunnel_fini_spec |]. intros [[] s6] t6 [(x & b & d & E & Hr & Hx) H6]. cbn [snd] in *. subst s6. split.
  - eapply balanced_app; [apply H1 |]. eapply balanced_app; [apply H2 |]. eapply balanced_app; [apply H3 |].
    eapply balanced_app; [apply H4 |]. eapply balanced_app; [apply H5 | apply H6].
  - by split.
Qed.

(** ** Setting up *)

Lemma owns_clean s : clean s → owns s = [].
Proof.
  intros []. unfold owns. rewrite cl_dns0, cl_timer0, cl_io0, cl_event0, cl_udp0, cl_tcp0, cl_netif0, !got_negative by done.
  destruct (tun_fd_local s); [rewrite tun_holds_closed by auto |]; done.
Qed.

(** What a state built from the clean state [s] owns. *)
Ltac owned s :=
  subst; unfold owns; cbn -[got];
  repeat match goal with
  | H : _ s = NULL |- _ => rewrite H
  | H : _ s < 0 |- _ => rewrite (got_negative _ H)
  end; reflexivity.

(** The parts in order, without the way out. *)
Lemma init_parts_spec fd s : clean s → openable fd → (0 ≤ fd → tun_fd_local s = false) →
  wp False (check (tunnel_init conf fd)
      (check gateway_init
        (check event_task_init
          (check lwip_io_task_init
            (check lwip_timer_task_init
              (check (mapped_dns_init conf) (mret 0)))))) s)
    (λ (r : _ * life) tr, balanced [] (owns r.2) tr ∧ tun_ready (device r.2) ∧ (r.1 = 0 ∨ r.1 = -1)).
Proof.
  intros Hc Hname Hfd. pose proof Hc as [Hd Htm Hio Hev H0 H1 Hu Ht Hn Hdev Htun].
  apply wp_check. eapply wp_mono; [by apply tunnel_init_spec |]. intros [r1 s1] t1 (v & b & d & E & Hb & Hready & B1).
  cbn [fst snd] in *. set (T := if b then tun_holds v d else []).
  assert (balanced [] T t1) as B1'.
  { unfold T. destruct (decide (0 ≤ fd)) as [Hf | Hf].
    - rewrite bool_decide_eq_true_2, andb_false_r in B1 by done. by rewrite Hb, Hfd by done.
    - rewrite bool_decide_eq_false_2, andb_true_r in B1 by done. done. }
  clear B1.
  assert (owns s1 = T) as O1 by owned s.
  case_decide; [rewrite O1; split; [done |]; split; [by subst | by right] |].
  apply wp_check. eapply wp_mono; [apply gateway_init_spec; by subst |].
  intros [r2 s2] t2 (n & t & u & E2 & B2). cbn [fst snd] in *.
  pose proof (balanced_app _ _ _ _ _ B1' (B2 T)) as B2'.
  assert (owns s2 = got R_udp u ++ got R_tcp t ++ got R_netif n ++ T) as O2 by owned s. rewrite <-O2 in B2'.
  case_decide; [split; [done |]; split; [by subst | by right] |].
  apply wp_check. eapply wp_mono; [apply event_task_init_spec; by subst |].
  intros [r3 s3] t3 (f0 & f1 & te & E3 & B3). cbn [fst snd] in *.
  pose proof (balanced_app _ _ _ _ _ B2' (B3 _)) as B3'.
  assert (owns s3 = got R_task te ++ got R_fd f0 ++ got R_fd f1 ++ owns s2) as O3 by (rewrite O2; owned s).
  rewrite <-O3, <-app_assoc in B3'.
  case_decide; [split; [done |]; split; [by subst | by right] |].
  apply wp_check. eapply wp_mono; [apply task_init_spec |]. intros [r4 s4] t4 (h4 & E4 & B4). cbn [fst snd] in *.
  pose proof (balanced_app _ _ _ _ _ B3' (B4 _)) as B4'.
  assert (owns s4 = got R_task h4 ++ owns s3) as O4 by (rewrite O3, O2; owned s). rewrite <-O4, <-!app_assoc in B4'.
  case_decide; [split; [done |]; split; [by subst | by right] |].
  apply wp_check. eapply wp_mono; [apply task_init_spec |]. intros [r5 s5] t5 (h5 & E5 & B5). cbn [fst snd] in *.
  pose proof (balanced_app _ _ _ _ _ B4' (B5 _)) as B5'.
  assert (owns s5 = got R_task h5 ++ owns s4) as O5 by (rewrite O4, O3, O2; owned s). rewrite <-O5, <-!app_assoc in B5'.
  case_decide; [split; [done |]; split; [by subst | by right] |].
  apply wp_check. eapply wp_mono; [apply mapped_dns_init_spec; by subst |]. intros [r6 s6] t6 (h6 & E6 & B6). cbn [fst snd] in *.
  pose proof (balanced_app _ _ _ _ _ B5' (B6 _)) as B6'.
  assert (owns s6 = got R_dns h6 ++ owns s5) as O6 by (rewrite O5, O4, O3, O2; owned s). rewrite <-O6, <-!app_assoc in B6'.
  case_decide; [split; [done |]; split; [by subst | by right] |].
  unfold mret, P_ret. cbn [wp fst snd]. rewrite app_nil_r. split; [done |]. split; [by subst | by left].
Qed.

Lemma run_spec stopped (s : life) : wp False (hev_socks5_tunnel_run stopped s) (keeps s).
Proof.
  unfold hev_socks5_tunnel_run. destruct stopped; [by apply keeps_ret |]. rewrite pgets_bind. wkeeps.
Qed.

Lemma tunnel_life_spec stopped fd s : clean s → openable fd → (0 ≤ fd → tun_fd_local s = false) →
  wp False (tunnel_life conf stopped fd s) (λ (r : _ * life) tr,
    balanced [] [] tr ∧ clean r.2 ∧ (r.1 = 0 ∨ r.1 = -1)).
Proof.
  intros Hc Hname Hfd. unfold tunnel_life, hev_socks5_tunnel_init. apply wp_bind.
  eapply wp_then; [by apply init_parts_spec |]. intros res s1 t1 (B1 & Hready & Hres). cbn [fst snd] in *.
  destruct (decide (res < 0)) as [Hr | Hr].
  - eapply wp_then; [by apply fini_spec |]. intros [] s2 t2 [B2 C2]. unfold mret, P_ret. cbn [wp].
    rewrite decide_True by lia. unfold mret, P_ret. cbn [wp snd] in *. rewrite !app_nil_r.
    split; [by eapply balanced_app |]. split; [done | by right].
  - unfold mret, P_ret. cbn [wp]. rewrite decide_False by lia.
    eapply wp_then; [apply run_spec |]. intros ? s1' tr [E Br]. cbn [snd] in E. subst s1'.
    eapply wp_then; [by apply fini_spec |]. intros [] s2 t2 [B2 C2]. unfold mret, P_ret. cbn [wp snd] in *.
    rewrite !app_nil_r. split; [|split; [done | by left]]. eapply balanced_app; [exact B1 |]. eapply balanced_app; [apply Br | done].
Qed.
End Config.

Lemma life_zero_clean d : tun_ready d → clean (life_zero d).
Proof. by split. Qed.
End Props.
