(* ===== verification/Windows.v ===== *)
(** * The device of Windows

    Model of [src/misc/hev-wintun.c] and [src/hev-tunnel-windows.c].  The
    functions of [wintun.dll] are called through variables that are set while
    the library is loaded; a call of them at another time is undefined. *)

From stdpp Require Import strings.
From S2P Require Import Prelude Buffer IO Config Device Packets.

(** ** The static variables *)

(** [wintun], [adapter], [session] and [tun_name], and whether the functions
    of the library can be called. *)
Record windows := mkWindows {
  w_wintun : Z;
  w_adapter : Z;
  w_session : Z;
  w_name : ifname;
  w_loaded : bool;
}.

Definition windows_zero : windows := mkWindows NULL NULL NULL tun_name_zero false.

Definition set_w_wintun v w := mkWindows v (w_adapter w) (w_session w) (w_name w) (w_loaded w).
Definition set_w_adapter v w := mkWindows (w_wintun w) v (w_session w) (w_name w) (w_loaded w).
Definition set_w_session v w := mkWindows (w_wintun w) (w_adapter w) v (w_name w) (w_loaded w).
Definition set_w_name v w := mkWindows (w_wintun w) (w_adapter w) (w_session w) v (w_loaded w).
Definition set_w_loaded v w := mkWindows (w_wintun w) (w_adapter w) (w_session w) (w_name w) v.

(** ** [hev-wintun.c] *)

Definition NO_ERROR : Z := 0.
Definition ERROR_OBJECT_ALREADY_EXISTS : Z := 5010.
Definition HEV_WINTUN_EAGAIN : Z := 259.

(** A call of a function of the library. *)
Definition wintun_call {A} (m : P windows A) : P windows A :=
  l ← pgets w_loaded;
  if negb l then ub else m.

(** The functions of the library are unset before the first open and dangle
    behind [FreeLibrary]. *)
Definition hev_wintun_open : P windows Z :=
  self ← call (Acquire R_library);
  if decide (ret self = NULL) then mret NULL
  else
    found ← call (Windows (GetProcAddresses (ret self)));
    if decide (ret found = 0) then
      call (Release R_library (ret self));;
      mret NULL
    else
      pmod (set_w_loaded true);;
      mret (ret self).

Definition hev_wintun_close (self : Z) : P windows unit :=
  call (Release R_library self);;
  pmod (set_w_loaded false).

Definition hev_wintun_adapter_create (name : list Z) : P windows Z :=
  len ← call (Windows (WideLength name));
  if decide (256 ≤ ret len) then mret NULL
  else wintun_call (adapter ← call (Acquire R_adapter); mret (ret adapter)).

Definition hev_wintun_adapter_close (adapter : Z) : P windows unit :=
  wintun_call (call (Release R_adapter adapter);; mret tt).

(** The index is in [aux] when there is no error. *)
Definition hev_wintun_adapter_get_index (adapter : Z) : P windows Z :=
  wintun_call (
    e ← call (Windows (AdapterIndex adapter));
    mret (if decide (ret e ≠ NO_ERROR) then -1 else aux e)).

Definition hev_wintun_adapter_set_mtu (adapter mtu : Z) : P windows Z :=
  wintun_call (
    e ← call (Windows (AdapterIndex adapter));
    if decide (ret e ≠ NO_ERROR) then mret (-1)
    else
      g ← call (Windows (GetIfEntry (aux e)));
      if decide (ret g ≠ NO_ERROR) then mret (-1)
      else
        s ← call (Windows (SetIfEntry (aux e) mtu));
        mret (if decide (ret s ≠ NO_ERROR) then -1 else 0)).

(** [hev_wintun_adapter_set_ipv4] and [hev_wintun_adapter_set_ipv6] *)
Definition adapter_set_address (family adapter : Z) (addr : list Z) (prefix : Z) : P windows Z :=
  wintun_call (
    e ← call (Windows (CreateUnicastIpAddressEntry adapter family addr prefix));
    mret (if decide (ret e ≠ NO_ERROR ∧ ret e ≠ ERROR_OBJECT_ALREADY_EXISTS) then -1 else 0)).

Definition hev_wintun_adapter_set_ipv4 := adapter_set_address AF_INET.
(** [AF_INET6] of Windows is 23. *)
Definition hev_wintun_adapter_set_ipv6 := adapter_set_address 23.

Definition hev_wintun_session_start (adapter : Z) : P windows Z :=
  wintun_call (s ← call (Acquire R_session); mret (ret s)).

Definition hev_wintun_session_stop (session : Z) : P windows unit :=
  wintun_call (call (Release R_session session);; mret tt).

(** The packet and its bytes. *)
Definition hev_wintun_session_receive (session : Z) : P windows (Z * list Z) :=
  wintun_call (p ← call (Acquire R_packet); mret (ret p, data p)).

Definition hev_wintun_session_release (session packet : Z) : P windows unit :=
  wintun_call (call (Release R_packet packet);; mret tt).

Definition hev_wintun_session_allocate (session size : Z) : P windows Z :=
  wintun_call (p ← call (Acquire R_packet); mret (ret p)).

Definition hev_wintun_session_send (session packet : Z) (bytes : list Z) : P windows unit :=
  wintun_call (call (Windows (SendPacket session packet bytes));; mret tt).

Definition hev_wintun_get_last_error : P windows Z :=
  e ← call (Windows GetLastError); mret (ret e).

(** ** [hev-tunnel-windows.c] *)

Section Device.
Context (inet_pton4 inet_pton6 : list Z → option (list Z)).

(** The name must not be null: [strncpy] reads it. *)
Definition windows_open (name : option (list Z)) (multi_queue : Z) : P windows Z :=
  lib ← hev_wintun_open;
  pmod (set_w_wintun lib);;
  if decide (lib = NULL) then mret (-1)
  else
    adapter ← hev_wintun_adapter_create (default [] name);
    pmod (set_w_adapter adapter);;
    if decide (adapter = NULL) then
      hev_wintun_close lib;;
      mret (-1)
    else
      name ← plift name;
      pmod (λ w, set_w_name (strncpy (w_name w) name 15) w);;
      mret 0.

Definition windows_close (fd : Z) : P windows unit :=
  w ← pgets id;
  (if decide (w_session w = NULL) then mret tt else hev_wintun_session_stop (w_session w));;
  hev_wintun_adapter_close (w_adapter w);;
  hev_wintun_close (w_wintun w).

Definition windows_set_mtu (mtu : Z) : P windows Z :=
  w ← pgets id;
  hev_wintun_adapter_set_mtu (w_adapter w) mtu.

Definition windows_set_state (state : Z) : P windows Z :=
  w ← pgets id;
  if decide (state ≠ 0) then
    s ← hev_wintun_session_start (w_adapter w);
    pmod (set_w_session s);;
    mret (if decide (s = NULL) then -1 else 0)
  else if decide (w_session w = NULL) then mret 0
  else
    hev_wintun_session_stop (w_session w);;
    pmod (set_w_session NULL);;
    mret 0.

Definition windows_set_ipv4 (addr : list Z) (prefix : Z) : P windows Z :=
  match inet_pton4 addr with
  | None => mret (-1)
  | Some ip => w ← pgets id; hev_wintun_adapter_set_ipv4 (w_adapter w) ip prefix
  end.

Definition windows_set_ipv6 (addr : list Z) (prefix : Z) : P windows Z :=
  match inet_pton6 addr with
  | None => mret (-1)
  | Some ip => w ← pgets id; hev_wintun_adapter_set_ipv6 (w_adapter w) ip prefix
  end.

Definition windows_get_index : P windows (option Z) :=
  w ← pgets id;
  index ← hev_wintun_adapter_get_index (w_adapter w);
  mret (if decide (index < 0) then None else Some index).

Definition windows_tunnel : HevTunnel windows :=
  Build_HevTunnel _ windows_open windows_close windows_set_mtu windows_set_state windows_set_ipv4 windows_set_ipv6
    w_name windows_get_index.
End Device.

(** ** Packets *)

(** [hev_tunnel_read]; its yielder is never null here.  A packet with its
    [HevPBuf]: the handle of the packet is behind its bytes. *)
Fixpoint windows_read_loop (fuel : nat) (spin : Z) : P windows (option (option (Z * Z * list Z))) :=
  match fuel with
  | O => mret None
  | S fuel =>
      w ← pgets id;
      '(packet, bytes) ← hev_wintun_session_receive (w_session w);
      if decide (packet = NULL) then
        e ← hev_wintun_get_last_error;
        if decide (e = HEV_WINTUN_EAGAIN) then
          if decide (spin < 1000) then
            call (TaskYield HEV_TASK_YIELD);;
            windows_read_loop fuel (spin + 1)
          else
            stop ← call (TaskYield HEV_TASK_WAITIO);
            if decide (ret stop ≠ 0) then mret (Some None) else windows_read_loop fuel (spin + 1)
        else mret (Some None)
      else
        buf ← call (Acquire R_heap);
        if decide (ret buf = NULL) then mret (Some None)
        else mret (Some (Some (ret buf, packet, bytes)))
  end.

Definition windows_read (fuel : nat) (fd mtu : Z) : P windows (option (option (Z * Z * list Z))) :=
  windows_read_loop fuel 0.

Definition hev_pbuf_free (buf mem : Z) : P windows unit :=
  w ← pgets id;
  hev_wintun_session_release (w_session w) mem;;
  call (Release R_heap buf);;
  mret tt.

Definition windows_write (fd : Z) (chain : list (list Z)) : P windows Z :=
  w ← pgets id;
  let bytes := concat chain in
  packet ← hev_wintun_session_allocate (w_session w) (u16 (Z.of_nat (length bytes)));
  if decide (packet = NULL) then mret (-1)
  else
    hev_wintun_session_send (w_session w) packet bytes;;
    mret (Z.of_nat (length bytes)).
