(* ===== verification/WindowsProps.v ===== *)
(** * Properties of the device of Windows, and faults of the devices

    On Windows one start and end of the tunnel gives back everything, but the
    device does not have the laws of [HevTunnelLaws]: what an end leaves is
    not what a start needs.  The last theorem collects runs of the devices of
    all systems that go wrong. *)

From stdpp Require Import strings.
From S2P Require Import Prelude Buffer IO Ledger Config Device Lifecycle LifecycleProps Packets Windows.

(** ** The functions of the device *)

(** What an open device holds, and its state before its session starts. *)
Definition w_holds (w : windows) : handles :=
  got R_session (w_session w) ++ got R_adapter (w_adapter w) ++ got R_library (w_wintun w).

Record w_open (w : windows) : Prop := {
  wo_loaded : w_loaded w = true;
  wo_adapter : w_adapter w ≠ NULL;
  wo_wintun : w_wintun w ≠ NULL;
}.

Definition w_ready (w : windows) : Prop := w_open w ∧ w_session w = NULL.

Lemma wintun_call_loaded {A} (m : P windows A) w : w_loaded w = true → wintun_call m w = m w.
Proof. intros E. unfold wintun_call. by rewrite pgets_bind, E. Qed.

Lemma wintun_bind {A B} (m : P windows A) (k : A → P windows B) w :
  w_loaded w = true → (wintun_call m ≫= k) w = (m ≫= k) w.
Proof. intros E. unfold mbind, P_bind. by rewrite wintun_call_loaded. Qed.

Lemma wintun_open_spec w : wp False (hev_wintun_open w) (λ r tr,
  (r.1 = NULL ∧ r.2 = w ∧ balanced [] [] tr) ∨
  (r.1 ≠ NULL ∧ r.2 = set_w_loaded true w ∧ balanced [] (got R_library r.1) tr)).
Proof.
  unfold hev_wintun_open. apply wp_call. intros lib _. destruct (decide (ret lib = NULL)) as [Hl | Hl].
  { left. split_and!; [done.. |]. apply bal_acquire. rewrite Hl. by apply balanced_same. }
  apply wp_call. intros found _. destruct (decide (ret found = 0)) as [Hf | Hf].
  - intros f _. left. split_and!; [done.. |]. apply bal_acquire. cbn [got]. rewrite decide_False by done.
    apply bal_skip; [done |]. by apply bal_release, balanced_same.
  - right. split_and!; [done.. |]. apply bal_acquire, bal_skip; [done |]. rewrite app_nil_r. by apply balanced_same.
Qed.

Lemma adapter_create_spec name w : w_loaded w = true →
  wp False (hev_wintun_adapter_create name w) (λ r tr, r.2 = w ∧ balanced [] (got R_adapter r.1) tr).
Proof.
  intros Hl. unfold hev_wintun_adapter_create. apply wp_call. intros len _. case_decide.
  - split; [done |]. apply bal_skip; [done |]. by apply balanced_same.
  - rewrite wintun_call_loaded by done. intros a _. split; [done |]. apply bal_skip, bal_acquire; [done |].
    rewrite app_nil_r. by apply balanced_same.
Qed.

Lemma got_handle k h : k ≠ R_fd → k ≠ R_sys → h ≠ NULL → got k h = [(k, h)].
Proof. intros H1 H2 H. destruct k; try done; cbn; by rewrite decide_False. Qed.

Section Device.
Context (p4 p6 : list Z → option (list Z)).

Lemma windows_open_spec name mq w : w_session w = NULL → is_Some name →
  wp False (windows_open name mq w) (λ r tr,
    (r.1 = -1 ∧ balanced [] [] tr) ∨ (r.1 = 0 ∧ w_ready r.2 ∧ balanced [] (w_holds r.2) tr)).
Proof.
  intros Hs [n ->]. unfold windows_open. eapply wp_then; [apply wintun_open_spec |]. intros lib w1 t1 Ho. cbn [fst snd] in *.
  rewrite pmod_bind. destruct Ho as [(-> & -> & B1) | (Hl & -> & B1)].
  { rewrite decide_True by done. unfold mret, P_ret. cbn [wp]. rewrite app_nil_r. by left. }
  rewrite decide_False by done. rewrite got_handle in B1 by done.
  eapply wp_then; [by apply adapter_create_spec |]. intros ad w2 t2 [E B2]. cbn [fst snd] in *. subst w2. rewrite pmod_bind.
  destruct (decide (ad = NULL)) as [-> | Ha].
  - intros x _. left. split; [done |]. eapply balanced_app; [exact B1 |].
    eapply balanced_app; [by apply balanced_beside |]. by apply bal_release, balanced_same.
  - rewrite (plift_bind _ _ _ n) by done. rewrite pmod_bind. unfold mret, P_ret. cbn [wp]. right. split; [done |].
    split; [by split |]. unfold w_holds. cbn [snd w_session w_adapter w_wintun set_w_name set_w_adapter set_w_wintun set_w_loaded].
    rewrite Hs, app_nil_r, (got_handle R_library) by done. cbn [got app]. eapply balanced_app; [exact B1 |].
    by apply (balanced_frame [] (got R_adapter ad)).
Qed.

(** A step that keeps the device. *)
Lemma ready_keeps {A} (m : io (A * windows)) w (ready : windows → Prop) : ready w →
  wp False m (keeps w) → wp False m (λ r tr, ready r.2 ∧ balanced (w_holds w) (w_holds r.2) tr).
Proof. intros Hw Hm. eapply wp_mono; [exact Hm |]. intros [a w'] tr [E Hb]. cbn in E. subst w'. by split. Qed.

Lemma windows_set_mtu_spec mtu w : w_loaded w = true → wp False (windows_set_mtu mtu w) (keeps w).
Proof.
  intros Hl. unfold windows_set_mtu. rewrite pgets_bind. unfold hev_wintun_adapter_set_mtu.
  rewrite wintun_call_loaded by done. wkeeps.
Qed.

Lemma windows_set_ipv4_spec addr prefix w : w_loaded w = true → wp False (windows_set_ipv4 p4 addr prefix w) (keeps w).
Proof.
  intros Hl. unfold windows_set_ipv4. destruct (p4 addr); [|by apply keeps_ret]. rewrite pgets_bind.
  unfold hev_wintun_adapter_set_ipv4, adapter_set_address. rewrite wintun_call_loaded by done. wkeeps.
Qed.

Lemma windows_set_ipv6_spec addr prefix w : w_loaded w = true → wp False (windows_set_ipv6 p6 addr prefix w) (keeps w).
Proof.
  intros Hl. unfold windows_set_ipv6. destruct (p6 addr); [|by apply keeps_ret]. rewrite pgets_bind.
  unfold hev_wintun_adapter_set_ipv6, adapter_set_address. rewrite wintun_call_loaded by done. wkeeps.
Qed.

Lemma windows_set_state_spec w : w_ready w →
  wp False (windows_set_state 1 w) (λ r tr, w_open r.2 ∧ balanced (w_holds w) (w_holds r.2) tr).
Proof.
  intros [[Hl Ha Hw] Hs]. unfold windows_set_state. rewrite pgets_bind. rewrite decide_True by done.
  unfold hev_wintun_session_start. rewrite wintun_bind by done. intros x _. split; [done |].
  apply bal_acquire. unfold w_holds. rewrite Hs. by apply balanced_same.
Qed.

Lemma windows_index_spec w : w_loaded w = true → wp False (windows_get_index w) (keeps w).
Proof.
  intros Hl. unfold windows_get_index. rewrite pgets_bind. unfold hev_wintun_adapter_get_index.
  rewrite wintun_bind by done. intros x _. split; [done |]. intros a. by apply bal_skip, balanced_same.
Qed.

Lemma windows_close_spec fd w : w_open w →
  wp False (windows_close fd w) (λ r tr, balanced (w_holds w) [] tr).
Proof.
  intros [Hl Ha Hw]. unfold windows_close. rewrite pgets_bind. unfold w_holds, id.
  rewrite (got_handle R_adapter), (got_handle R_library) by done.
  eapply (wp_then _ _ _ _ (λ r tr, r.2 = w ∧ balanced (got R_session (w_session w)) [] tr)).
  - destruct (decide (w_session w = NULL)) as [E | E].
    + split; [done |]. rewrite E. by apply balanced_same.
    + unfold hev_wintun_session_stop. rewrite wintun_call_loaded by done. intros x _. split; [done |].
      rewrite got_handle by done. by apply bal_release, balanced_same.
  - intros [] w1 t1 [E B1]. cbn [snd] in E. subst w1. unfold hev_wintun_adapter_close. rewrite wintun_bind by done.
    intros x _ y _. eapply balanced_app; [apply (balanced_frame _ []), B1 |]. by do 2 apply bal_release; apply balanced_same.
Qed.

(** ** One start and end *)

#[local] Abbreviation tun := (windows_tunnel p4 p6).

(** A start that opens the device, and the end. *)
Definition start_and_end (conf : tunnel_conf) : P (life windows) Z :=
  res ← tunnel_init (Tun := tun) conf (-1);
  tunnel_fini (Tun := tun) conf;;
  mret res.

Lemma run_script_none wait s : wp False (run_script (Tun := tun) None wait s) (keeps s).
Proof. apply keeps_ret. Qed.

Lemma run_script_windows script wait (s : life windows) : w_loaded (device s) = true →
  wp False (run_script (Tun := tun) script wait s) (keeps s).
Proof.
  intros Hl. unfold run_script. destruct script as [path|]; [|apply keeps_ret]. rewrite pgets_bind.
  eapply wp_keeps.
  - eapply wp_mono; [by apply on_device_spec, windows_index_spec |]. intros [r s'] tr (d & E & E' & Hb). cbn [fst snd] in *.
    subst d s'. split; [by destruct s | done].
  - intros index t1 H1. eapply (wp_mono _ _ (keeps s)); [unfold hev_exec_run; wkeeps |].
    intros r tr [E Hb]. split; [done |]. intros a. eapply balanced_app; [apply H1 | apply Hb].
Qed.

(** What a start leaves. *)
Definition started (s : life windows) (tr : list (ev * resp)) : Prop :=
  tun_fd_local s = true ∧
  ((tun_fd s = -1 ∧ balanced [] [] tr) ∨
   (tun_fd s = 0 ∧ w_open (device s) ∧ balanced [] (w_holds (device s)) tr)).

Lemma windows_init_spec conf s : w_session (device s) = NULL → is_Some (cf_name conf) →
  wp False (tunnel_init (Tun := tun) conf (-1) s) (λ r tr, started r.2 tr).
Proof.
  intros Hs Hn. unfold tunnel_init. rewrite (decide_False (P := 0 ≤ -1)) by lia. rewrite pmod_bind.
  eapply wp_then; [by apply on_device_spec, windows_open_spec |].
  intros v s1 t1 (d & E & Ho). cbn [fst snd] in *. subst s1. rewrite pmod_bind.
  destruct Ho as [(-> & B1) | (-> & Hr & B1)].
  { rewrite (decide_True (P := -1 < 0)) by lia. unfold mret, P_ret. cbn [wp]. rewrite app_nil_r. split; [done |]. by left. }
  rewrite (decide_False (P := 0 < 0)) by lia.
  set (G := λ (r : Z * life windows) t, started r.2 t).
  assert (∀ r (x : life windows) t, tun_fd_local x = true → tun_fd x = 0 → w_ready (device x) →
    balanced [] (w_holds (device x)) t → G (r, x) t) as Hfail.
  { intros r x t El Ef [Ho _] Hb. split; [done |]. right. by split. }
  apply (check_device w_ready w_holds _ _ _ t1 G); [done | | by intros; apply Hfail |].
  { apply ready_keeps; [done |]. by apply windows_set_mtu_spec, Hr. }
  clear t1 B1 Hr. intros ? t1 Hr B1.
  apply (check_device w_ready w_holds _ _ _ t1 G); [done | | by intros; apply Hfail |].
  { apply ready_keeps; [done |]. destruct (cf_ipv4 conf); [|apply keeps_ret]. by apply windows_set_ipv4_spec, Hr. }
  clear t1 B1 Hr. intros ? t1 Hr B1.
  apply (check_device w_ready w_holds _ _ _ t1 G); [done | | by intros; apply Hfail |].
  { apply ready_keeps; [done |]. destruct (cf_ipv6 conf); [|apply keeps_ret]. by apply windows_set_ipv6_spec, Hr. }
  clear t1 B1 Hr. intros ? t1 Hr B1.
  apply (check_device w_open w_holds _ _ _ t1 G); [done | by apply windows_set_state_spec | |].
  { intros ? t H1 Hb. split; [done |]. right. by split. }
  clear t1 B1 Hr. intros ? t1 Hr B1.
  eapply wp_keeps; [apply run_script_windows, Hr |]. intros _ t2 H2. unfold mret, P_ret. cbn [wp].
  rewrite app_nil_r. split; [done |]. right. split; [done |]. split; [done |]. eapply balanced_app; [exact B1 | apply H2].
Qed.

Lemma windows_fini_spec conf s t : cf_pre_down conf = None ∨ 0 ≤ tun_fd s → started s t →
  wp False (tunnel_fini (Tun := tun) conf s) (λ r tr, balanced [] [] (t ++ tr)).
Proof.
  intros Hp [Hl Hd]. unfold tunnel_fini. rewrite pgets_bind, Hl. cbn [negb].
  eapply (wp_keeps _ _ s).
  { destruct Hp as [-> | Hf]; [apply run_script_none |]. destruct Hd as [[Hf' _] | (_ & Ho & _)]; [lia |].
    apply run_script_windows, Ho. }
  intros _ t1 H1. rewrite pgets_bind. destruct Hd as [(Ef & B) | (Ef & Ho & B)]; rewrite Ef.
  - rewrite decide_False by lia. unfold mret, P_ret. cbn [wp]. rewrite app_nil_r. eapply balanced_app; [exact B | apply H1].
  - rewrite decide_True by lia. eapply wp_then; [by apply on_device_spec, windows_close_spec |].
    intros [] s1 t2 (d & _ & B2). rewrite pmod_bind. unfold pmod. cbn [wp]. rewrite app_nil_r.
    eapply balanced_app; [exact B |]. eapply balanced_app; [apply H1 | exact B2].
Qed.

Lemma start_and_end_spec conf s : w_session (device s) = NULL → is_Some (cf_name conf) → cf_pre_down conf = None →
  wp False (start_and_end conf s) (λ r tr, balanced [] [] tr).
Proof.
  intros Hs Hn Hp. unfold start_and_end. eapply wp_then; [by apply windows_init_spec |]. intros res s1 t1 Hst. cbn [snd] in Hst.
  eapply wp_then; [apply windows_fini_spec; [by left | exact Hst] |]. intros [] s2 t2 Hb.
  unfold mret, P_ret. cbn [wp]. by rewrite app_nil_r.
Qed.

Lemma start_and_end_listless conf s : listless (start_and_end conf s).
Proof.
  unfold start_and_end, tunnel_init, tunnel_fini, run_script, hev_exec_run, check, on_device.
  cbn [windows_tunnel hev_tunnel_open hev_tunnel_set_mtu hev_tunnel_set_ipv4 hev_tunnel_set_ipv6 hev_tunnel_set_state
    hev_tunnel_close hev_tunnel_get_index].
  unfold optional, windows_open, windows_close, windows_set_mtu, windows_set_ipv4, windows_set_ipv6, windows_set_state,
    windows_get_index, hev_wintun_open, hev_wintun_close, hev_wintun_adapter_create, hev_wintun_adapter_close,
    hev_wintun_adapter_get_index, hev_wintun_adapter_set_mtu, hev_wintun_adapter_set_ipv4, hev_wintun_adapter_set_ipv6,
    adapter_set_address, hev_wintun_session_start, hev_wintun_session_stop, wintun_call.
  wlistless.
Qed.
End Device.

(** ** The claims *)

(** A configuration with a name, and one with a script for the end. *)
Definition demo_conf : tunnel_conf := mkTunnelConf (Some (str "tun0")) 0 8500 None None None None 0.
Definition script_conf : tunnel_conf := mkTunnelConf (Some (str "tun0")) 0 8500 None None None (Some (str "down.sh")) 0.
Definition no_pton (_ : list Z) : option (list Z) := None.

(** The responses to a start and end, and to a start whose adapter has no
    index. *)
Definition windows_run : list resp := val <$> [16; 1; 5; 32; 0; 0; 0; 48; 0; 0; 0].
Definition windows_fail : list resp := val <$> [16; 1; 5; 32; 1; 0; 0; 0].

(** C32. The first start of the tunnel on Windows with the end that follows,
    when the device has a name and the configuration no script for the end:
    whatever fails, they give back the library, the adapter and the session,
    once, and call no function of the library while it is not loaded.  A later
    start can find the session of the last one in its variable, and a script
    for the end is called without an adapter when the open failed: both are in
    [device_faults]. *)
Theorem windows_gives_back p4 p6 conf s :
  w_session (device s) = NULL → is_Some (cf_name conf) → cf_pre_down conf = None →
  safe (start_and_end p4 p6 conf s) ∧
  ∀ tr res s', runs (start_and_end p4 p6 conf s) tr (res, s') →
    ∀ l, ∃ l', held_after l tr = Some l' ∧ l' ≡ₚ l.
Proof.
  intros Hs Hn Hp. pose proof (start_and_end_spec p4 p6 conf s Hs Hn Hp) as Hwp. split; [by eapply wp_safe |].
  intros tr res s' Hr l. destruct (wp_runs _ _ _ _ _ Hwp Hr l l) as (l' & E & P); [done |].
  pose proof (wp_runs _ _ _ _ _ (start_and_end_listless p4 p6 conf s) Hr) as Hl. cbn in Hl. rewrite Hl in P. by exists l'.
Qed.

Lemma windows_gives_back_witness : ∃ tr s',
  runs (start_and_end no_pton no_pton demo_conf (life_zero windows_zero)) tr (0, s') ∧
  length tr = 11%nat ∧ held_after [] tr = Some [].
Proof.
  destruct (play (start_and_end no_pton no_pton demo_conf (life_zero windows_zero)) windows_run) as [[[r s'] tr]|] eqn:E;
    [|by vm_compute in E].
  assert (runs (start_and_end no_pton no_pton demo_conf (life_zero windows_zero)) tr (r, s')) as Hr.
  { eapply play_runs; [exact E |]. vm_compute in E. injection E as <- <- <-. repeat (constructor; [by split; [constructor |] |]). constructor. }
  destruct (windows_gives_back no_pton no_pton demo_conf (life_zero windows_zero) eq_refl (ex_intro _ _ eq_refl) eq_refl) as [_ H].
  destruct (H tr r s' Hr (@nil (resource * Z))) as (l' & Hl & _).
  exists tr, s'. vm_compute in E. injection E as <- <- <-. split; [exact Hr |]. split; vm_compute; reflexivity.
Defined.

(** The session of the last run is still in its variable. *)
Lemma stale_session : ∃ t1 s1 t2 s2,
  runs (start_and_end no_pton no_pton demo_conf (life_zero windows_zero)) t1 (0, s1) ∧
  runs (start_and_end no_pton no_pton demo_conf s1) t2 (-1, s2) ∧
  held_after [] t1 = Some [] ∧ held_after [] t2 = None.
Proof.
  do 4 eexists. split; [|split].
  - eapply (play_runs _ windows_run); [vm_compute; reflexivity |]. repeat (constructor; [by split; [constructor |] |]). constructor.
  - eapply (play_runs _ windows_fail); [vm_compute; reflexivity |]. repeat (constructor; [by split; [constructor |] |]). constructor.
  - split; vm_compute; reflexivity.
Qed.

Lemma script_without_adapter : ¬ safe (start_and_end no_pton no_pton script_conf (life_zero windows_zero)).
Proof.
  intros H. inversion H as [|? ? Hk]; subst. specialize (Hk (val 0) ltac:(by split; [constructor |])).
  vm_compute in Hk. inversion Hk.
Qed.

Lemma packet_lost : ∃ w tr, runs (windows_read 1 0 8500 w) tr (Some None, w) ∧ held_after [] tr = Some [(R_packet, 64)].
Proof.
  exists (mkWindows 16 32 48 tun_name_zero true). eexists. split.
  - eapply (play_runs _ [val 64; val 0]); [vm_compute; reflexivity |]. repeat (constructor; [by split; [constructor |] |]). constructor.
  - vm_compute. reflexivity.
Qed.

Lemma address_ignored : ∃ tr, runs (linux_set_ipv6 no_pton (str "fc00::x") 128 tun_name_zero) tr (0, tun_name_zero) ∧
  Forall (λ c, match c.1 with Ioctl _ SIOCSIFADDR _ => False | _ => True end) tr.
Proof.
  eexists. split.
  - eapply (play_runs _ [val 5; val 0; val 0]); [vm_compute; reflexivity |]. repeat (constructor; [by split; [constructor |] |]). constructor.
  - repeat (constructor; [done |]). constructor.
Qed.

Lemma null_names t : ¬ safe (freebsd_open None 0 t) ∧ ¬ safe (netbsd_open None 0 t).
Proof. split; intros H; inversion H. Qed.

Lemma stdin_closed t : runs (macos_open false None 0 t) [] (0, t) ∧
  ∃ tr, runs (macos_close 0 t) tr (tt, t) ∧ held_after [] tr = None.
Proof.
  split; [constructor |]. exists [(Close 0, val 0)]. split; [|vm_compute; reflexivity].
  constructor; [by split; [constructor |] | constructor].
Qed.

(** Where the devices go wrong.  On Windows a second run that fails before it
    starts a session ends that of the first run again; a script for the end is
    called with a function of the library that is not there when the library
    could not be loaded; and a packet is lost for good when there is no memory
    for its pbuf.  An address that [inet_pton] does not read counts as
    configured on Linux.  On FreeBSD and NetBSD a configuration without a name
    is a null pointer for [strncpy].  And without [TARGET_OS_OSX] the device
    that macOS did not open is closed as descriptor 0. *)
Theorem device_faults :
  (∃ t1 s1 t2 s2,
    runs (start_and_end no_pton no_pton demo_conf (life_zero windows_zero)) t1 (0, s1) ∧
    runs (start_and_end no_pton no_pton demo_conf s1) t2 (-1, s2) ∧
    held_after [] t1 = Some [] ∧ held_after [] t2 = None) ∧
  ¬ safe (start_and_end no_pton no_pton script_conf (life_zero windows_zero)) ∧
  (∃ w tr, runs (windows_read 1 0 8500 w) tr (Some None, w) ∧ held_after [] tr = Some [(R_packet, 64)]) ∧
  (∃ tr, runs (linux_set_ipv6 no_pton (str "fc00::x") 128 tun_name_zero) tr (0, tun_name_zero) ∧
    Forall (λ c, match c.1 with Ioctl _ SIOCSIFADDR _ => False | _ => True end) tr) ∧
  (∀ t, ¬ safe (freebsd_open None 0 t) ∧ ¬ safe (netbsd_open None 0 t)) ∧
  ∀ t, runs (macos_open false None 0 t) [] (0, t) ∧
    ∃ tr, runs (macos_close 0 t) tr (tt, t) ∧ held_after [] tr = None.
Proof.
  exact (conj stale_session (conj script_without_adapter (conj packet_lost (conj address_ignored (conj null_names stdin_closed))))).
Qed.
