(* ===== verification/Main.v ===== *)
(** * The main program

    Model of [src/hev-main.c], of [src/core/src/hev-socks5-logger.c] and of
    [run_as_daemon] and [set_limit_nofile] of [src/misc/hev-utils.c]: the
    configuration goes to the settings, the two loggers, the scheduler and
    the tunnel are set up, run and taken down in turn. *)

From stdpp Require Import strings.
From S2P Require Import Prelude Buffer IO Socks5 Config Device Lifecycle.

(** ** The static variables *)

Section App.
Context {D : Type}.

Record app := mkApp {
  a_conf : config;
  a_misc : misc;
  a_log : logger;
  a_slog : logger;
  a_life : life D;
}.

Definition set_conf v a := mkApp v (a_misc a) (a_log a) (a_slog a) (a_life a).
Definition set_misc v a := mkApp (a_conf a) v (a_log a) (a_slog a) (a_life a).
Definition set_log v a := mkApp (a_conf a) (a_misc a) v (a_slog a) (a_life a).
Definition set_slog v a := mkApp (a_conf a) (a_misc a) (a_log a) v (a_life a).
Definition set_life v a := mkApp (a_conf a) (a_misc a) (a_log a) (a_slog a) v.

(** A part of the program on its own variables. *)
Definition on_part {X A} (get : app → X) (set : X → app → app) (m : P X A) : P app A := λ a,
  io_bind (m (get a)) (λ '(r, x), Ret (r, set x a)).

Definition on_life {A} : P (life D) A → P app A := on_part a_life set_life.
Definition on_log {A} : P logger A → P app A := on_part a_log set_log.
Definition on_slog {A} : P logger A → P app A := on_part a_slog set_slog.

End App.
Arguments app : clear implicits.

(** ** The SOCKS5 logger *)

Definition hev_socks5_logger_init (level : Z) (path : bool) : P logger Z :=
  if negb path then mret 0
  else
    fd ← call (Acquire R_fd);
    pmod (λ _, mkLogger (ret fd) level);;
    mret (if decide (ret fd < 0) then -1 else 0).

Definition hev_socks5_logger_fini : P logger unit :=
  fd ← pgets log_fd;
  if decide (0 ≤ fd) then call (Close fd);; mret tt else mret tt.

Definition hev_socks5_logger_enabled (level : Z) (l : logger) : bool :=
  bool_decide (req_level l ≤ level ∧ 0 ≤ log_fd l).

(** ** Helpers *)

Section Helpers.
Context {S : Type}.

Definition run_as_daemon : P S unit :=
  fp ← call (Acquire R_file);
  if decide (ret fp = NULL) then mret tt
  else
    call Daemon;;
    call (WriteFile (ret fp));;
    call (Release R_file (ret fp));;
    mret tt.

Definition set_limit_nofile (limit_nofile : Z) : P S Z :=
  limit ← call (Rlimit None);
  if decide (ret limit < 0) then mret (-1)
  else
    res ← call (Rlimit (Some (aux limit, aux limit)));
    if decide (ret res < 0) then mret (-1)
    else
      res ← call (Rlimit (Some (limit_nofile, limit_nofile)));
      mret (ret res).
End Helpers.

(** ** The program *)

Section Program.
Context {D : Type} `{Tun : HevTunnel D}.
(** The C library and the YAML parser. *)
Context (inet_pton4 : list Z → option (list Z)).
Context (fopen : list Z → option (list Z)).
Context (yaml_parser_initialize : bool) (yaml_parser_load : list Z → option document).

(** The settings of [hev-socks5-misc.c]. *)
Definition apply_settings (c : config) (g : misc) : misc :=
  hev_socks5_set_udp_recv_buffer_size (hev_config_get_misc_udp_recv_buffer_size c)
    (hev_socks5_set_udp_timeout (hev_config_get_misc_udp_read_write_timeout c)
      (hev_socks5_set_tcp_timeout (hev_config_get_misc_tcp_read_write_timeout c)
        (hev_socks5_set_connect_timeout (hev_config_get_misc_connect_timeout c) g))).

(** What the tunnel reads of the configuration. *)
Definition tunnel_settings (c : config) : option tunnel_conf :=
  name ← hev_config_get_tunnel_name c;
  ipv4 ← hev_config_get_tunnel_ipv4_address c;
  ipv6 ← hev_config_get_tunnel_ipv6_address c;
  post_up ← hev_config_get_tunnel_post_up_script c;
  pre_down ← hev_config_get_tunnel_pre_down_script c;
  Some (mkTunnelConf name (hev_config_get_tunnel_multi_queue c) (hev_config_get_tunnel_mtu c) ipv4 ipv6
    post_up pre_down (hev_config_get_mapdns_cache_size c)).

(** The tunnel as the configuration has it. *)
Definition configured_tunnel (stopped : bool) (tun_fd : Z) : P (app D) Z :=
  c ← pgets a_conf;
  conf ← plift (tunnel_settings c);
  on_life (tunnel_life conf stopped tun_fd).

Definition hev_socks5_tunnel_main_inner (stopped : bool) (tun_fd : Z) : P (app D) Z :=
  c ← pgets a_conf;
  log_file ← plift (hev_config_get_misc_log_file c);
  let log_level := hev_config_get_misc_log_level c in
  let path := bool_decide (is_Some log_file) in
  pmod (λ a, set_misc (apply_settings c (a_misc a)) a);;
  res ← on_log (hev_logger_init log_level path);
  if decide (res < 0) then mret res
  else
    res ← on_slog (hev_socks5_logger_init log_level path);
    res ←
      (if decide (res < 0) then mret res
       else
         set_limit_nofile (hev_config_get_misc_limit_nofile c);;
         pid_file ← plift (hev_config_get_misc_pid_file c);
         (match pid_file with Some _ => run_as_daemon | None => mret tt end);;
         sys ← call (Acquire R_sys);
         res ←
           (if decide (ret sys < 0) then mret (ret sys)
            else
              res ← configured_tunnel stopped tun_fd;
              call (Release R_sys (ret sys));;
              mret res);
         on_slog hev_socks5_logger_fini;;
         mret res);
    on_log hev_logger_fini;;
    mret res.

(** [if (res < 0) return -1;] behind the load of a configuration. *)
Definition with_config (init : config → option (Z * config)) (run : P (app D) Z) : P (app D) Z :=
  c ← pgets a_conf;
  '(res, c) ← plift (init c);
  pmod (set_conf c);;
  if decide (res < 0) then mret (-1) else run.

Definition hev_socks5_tunnel_main_from_file (stopped : bool) (config_path : list Z) (tun_fd : Z) : P (app D) Z :=
  with_config (hev_config_init_from_file inet_pton4 yaml_parser_initialize fopen yaml_parser_load config_path)
    (hev_socks5_tunnel_main_inner stopped tun_fd).

Definition hev_socks5_tunnel_main_from_str (stopped : bool) (config_str : list Z) (config_len tun_fd : Z) : P (app D) Z :=
  with_config (hev_config_init_from_str inet_pton4 yaml_parser_initialize yaml_parser_load config_str config_len)
    (hev_socks5_tunnel_main_inner stopped tun_fd).

Definition hev_socks5_tunnel_main (stopped : bool) (config_path : list Z) (tun_fd : Z) : P (app D) Z :=
  hev_socks5_tunnel_main_from_file stopped config_path tun_fd.

(** [main] on the command line after the name of the program; the signal
    handlers it installs are stop calls of [Sync]. *)
Definition main (argv : list (list Z)) : P (app D) Z :=
  match argv with
  | [] => mret (-1)
  | arg :: _ =>
      if decide (arg = str "--version") then mret (-1)
      else
        res ← hev_socks5_tunnel_main false arg (-1);
        mret (if decide (res < 0) then -2 else 0)
  end.
End Program.
