(* ===== verification/MainProps.v ===== *)
(** * Properties of the main program

    One run of the program from a state it can start from, whatever fails in
    it, gives back everything it took but a pcb that [tcp_listen] refused, and
    the settings are those of the configuration.  What the static
    variables carry from one run to the next is where it goes wrong. *)

From stdpp Require Import strings.
From S2P Require Import Prelude Buffer IO Ledger Socks5 Config ConfigProps Device DeviceProps Lifecycle LifecycleProps Main.

(** ** The parts *)

Lemma wp_part {D X A B} (get : app D → X) set (m : P X A) (f : A → P (app D) B) a (R : A * X → list (ev * resp) → Prop) Q :
  wp False (m (get a)) R →
  (∀ r x t1, R (r, x) t1 → wp False (f r (set x a)) (λ r t2, Q r (t1 ++ t2))) →
  wp False ((on_part get set m ≫= f) a) Q.
Proof.
  intros Hm Hf. eapply (wp_then _ _ _ _ (λ r tr, ∃ x, r.2 = set x a ∧ R (r.1, x) tr)).
  - unfold on_part. apply wp_bind. eapply wp_mono; [exact Hm |]. intros [r x] tr HR. cbn [wp fst snd].
    exists x. by rewrite app_nil_r.
  - intros r a' t1 (x & E & HR). cbn [fst snd] in *. subst a'. by apply Hf.
Qed.

(** Both loggers, which have the same code. *)
Lemma logger_init_spec level path l : (path = false → log_fd l < 0) →
  wp False (hev_logger_init level path l) (λ r tr, balanced [] (got R_fd (log_fd r.2)) tr ∧
    (r.1 = 0 ∨ r.1 = -1 ∧ log_fd r.2 < 0)).
Proof.
  intros Hl. unfold hev_logger_init. destruct path; cbn [negb].
  - apply wp_call. intros x _. rewrite pmod_bind. unfold mret, P_ret. cbn [wp fst snd log_fd]. split.
    + apply bal_acquire. rewrite app_nil_r. by apply balanced_nil.
    + case_decide; [right; by split | by left].
  - unfold mret, P_ret. cbn [wp fst snd]. split; [|by left]. rewrite got_negative by auto. by apply balanced_nil.
Qed.

Lemma logger_fini_spec l :
  wp False (hev_logger_fini l) (λ r tr, r.2 = l ∧ balanced (got R_fd (log_fd l)) [] tr).
Proof.
  unfold hev_logger_fini. rewrite pgets_bind. destruct (decide (0 ≤ log_fd l)) as [H | H].
  - intros x _. split; [done |]. cbn [got]. rewrite decide_True by done. by apply bal_close, balanced_nil.
  - unfold mret, P_ret. cbn [wp snd got]. split; [done |]. rewrite decide_False by done. by apply balanced_nil.
Qed.

Lemma daemon_spec {S} (a : S) : wp False (run_as_daemon a) (λ r tr, r.2 = a ∧ balanced [] [] tr).
Proof.
  unfold run_as_daemon. apply wp_call. intros x _. case_decide as Hx.
  - split; [done |]. apply bal_acquire. rewrite Hx. by apply balanced_nil.
  - intros y _ z _ w _. split; [done |]. apply bal_acquire. cbn [got]. rewrite decide_False by done.
    do 2 (apply bal_skip; [done |]). by apply bal_release, balanced_nil.
Qed.

Lemma limit_spec {S} n (a : S) : wp False (set_limit_nofile n a) (λ r tr, r.2 = a ∧ balanced [] [] tr).
Proof.
  assert (∀ tr, (∀ e r, (e, r) ∈ tr → ∃ o, e = Rlimit o) → balanced [] [] tr) as Hr.
  { induction tr as [|[e r] tr IH]; intros H; [by apply balanced_nil |].
    destruct (H e r) as [o ->]; [by left |]. apply bal_skip; [done |]. apply IH. intros e' r' Hin. apply (H e' r'). by right. }
  unfold set_limit_nofile. apply wp_call. intros x _. case_decide; [split; [done |]; apply Hr; set_solver |].
  apply wp_call. intros y _. case_decide; [split; [done |]; apply Hr; set_solver |].
  intros z _. split; [done |]. apply Hr. intros e r. rewrite !elem_of_cons, elem_of_nil. naive_solver.
Qed.

(** The string getters of a configuration read terminated arrays. *)
Lemma settings_defined c : config_ok c →
  ∃ conf, tunnel_settings c = Some conf ∧ hev_config_get_tunnel_name c = Some (cf_name conf) ∧
    hev_config_get_tunnel_ipv6_address c = Some (cf_ipv6 conf).
Proof.
  intros H%string_getters_ok. unfold string_getters in H. rewrite !Forall_cons in H. cbn [snd fst] in H.
  destruct H as ((n & E1 & _) & (? & E2 & _) & (? & E3 & _) & (? & E4 & _) & (? & E5 & _) & _).
  unfold tunnel_settings. rewrite E1, E2, E3, E4, E5. by eexists.
Qed.

Lemma files_defined c : config_ok c →
  is_Some (hev_config_get_misc_pid_file c) ∧ is_Some (hev_config_get_misc_log_file c).
Proof.
  intros H%string_getters_ok. unfold string_getters in H. rewrite !Forall_cons in H. cbn [snd fst] in H.
  destruct H as (_ & _ & _ & _ & _ & (? & E1 & _) & (? & E2 & _) & _). split; eauto.
Qed.

Section Main.
Context {D : Type} {Tun : HevTunnel D} {Laws : HevTunnelLaws Tun}.
#[local] Abbreviation app := (app D).

(** The state a run can start from: the descriptor of the caller does not
    come after a device that could not be opened, a device to open has a name
    that can be opened and no IPv6 address with a prefix it does not take, and
    a run without a log file has no log descriptors. *)
Record startable (tun_fd : Z) (a : app) : Prop := {
  st_conf : config_ok (a_conf a);
  st_life : clean (a_life a);
  st_local : 0 ≤ tun_fd → tun_fd_local (a_life a) = false;
  st_name : tun_fd < 0 → ∀ name, hev_config_get_tunnel_name (a_conf a) = Some name → tun_name_ok name;
  st_ipv6 : tun_fd < 0 → ∀ addr, hev_config_get_tunnel_ipv6_address (a_conf a) = Some (Some addr) → tun_prefix6 128;
  st_log : hev_config_get_misc_log_file (a_conf a) = Some None → log_fd (a_log a) < 0 ∧ log_fd (a_slog a) < 0;
}.

Lemma configured_tunnel_spec stopped tun_fd a a0 :
  startable tun_fd a0 → a_conf a = a_conf a0 → a_life a = a_life a0 →
  wp False (configured_tunnel stopped tun_fd a) (λ r tr, balanced [] [] tr ∧
    (∃ s, r.2 = set_life s a ∧ clean s) ∧ (r.1 = 0 ∨ r.1 = -1)).
Proof.
  intros [Hc Hl Hfd Hn H6 _] Ec El. destruct (settings_defined _ Hc) as (conf & Econf & Ename & E6).
  unfold configured_tunnel. rewrite pgets_bind, Ec, (plift_bind _ _ _ _ Econf).
  unfold on_life, on_part. apply wp_bind. eapply wp_mono; [apply tunnel_life_spec|].
  - by rewrite El.
  - intros Hneg. split; [by apply (Hn Hneg) |]. intros [addr Ea]. apply (H6 Hneg addr). by rewrite E6, Ea.
  - by rewrite El.
  - intros [r s] tr (B & C & Hr). cbn [wp fst snd] in *. rewrite app_nil_r. split; [done |]. split; [by exists s | done].
Qed.

(** What one run leaves of the variables. *)
Record ran (a a' : app) : Prop := {
  ran_conf : a_conf a' = a_conf a;
  ran_misc : a_misc a' = apply_settings (a_conf a) (a_misc a);
  ran_life : clean (a_life a');
}.

(** The run with the scheduler, between the loggers. *)
Definition with_system (stopped : bool) (tun_fd : Z) : P app Z :=
  sys ← call (Acquire R_sys);
  if decide (ret sys < 0) then mret (ret sys)
  else
    res ← configured_tunnel stopped tun_fd;
    call (Release R_sys (ret sys));;
    mret res.

Lemma with_system_spec stopped tun_fd a a0 :
  startable tun_fd a0 → a_conf a = a_conf a0 → a_life a = a_life a0 →
  wp False (with_system stopped tun_fd a) (λ r tr, balanced [] [] tr ∧ (∃ s, r.2 = set_life s a ∧ clean s) ∧ r.1 ≤ 0).
Proof.
  intros Ha Ec El. pose proof (st_life _ _ Ha) as Hl. rewrite <-El in Hl. unfold with_system. apply wp_call. intros x _. destruct (decide (ret x < 0)) as [Hx | Hx].
  - unfold mret, P_ret. cbn [wp fst snd]. split; [|split; [exists (a_life a); by destruct a | lia]].
    apply bal_acquire. cbn [got]. rewrite decide_False by lia. by apply balanced_nil.
  - eapply wp_then; [by eapply configured_tunnel_spec |]. intros res a1 t1 (B & Hs & Hr). cbn [fst snd] in *.
    apply wp_call. intros y _. unfold mret, P_ret. cbn [wp fst snd]. split; [|split; [done | lia]].
    apply bal_acquire. cbn [got]. rewrite decide_True by lia.
    eapply balanced_app; [by apply balanced_beside |]. by apply bal_release, balanced_nil.
Qed.

Lemma main_inner_spec stopped tun_fd a : startable tun_fd a →
  wp False (hev_socks5_tunnel_main_inner stopped tun_fd a) (λ r tr, balanced [] [] tr ∧ ran a r.2 ∧ r.1 ≤ 0).
Proof.
  intros Ha. pose proof Ha as [Hc Hl _ _ _ Hlog]. destruct (files_defined _ Hc) as [[pid Ep] [log El]].
  unfold hev_socks5_tunnel_main_inner. rewrite pgets_bind, (plift_bind _ _ _ _ El). cbv zeta. rewrite pmod_bind.
  set (path := bool_decide (is_Some log)). set (a1 := set_misc _ a).
  assert (path = false → log_fd (a_log a1) < 0 ∧ log_fd (a_slog a1) < 0) as Hlog'.
  { intros Hp%bool_decide_eq_false. apply Hlog. destruct log; [exfalso; eauto | done]. }
  assert (∀ l l' s, clean s → ran a (set_life s (set_slog l' (set_log l a1)))) as Hran by by split.
  eapply wp_part; [apply logger_init_spec; intros; by apply Hlog' |]. intros r l t1 [B1 H1]. cbn [fst snd] in *.
  destruct (decide (r < 0)) as [Hr | Hr].
  { destruct H1 as [-> | [-> Hneg]]; [lia |]. unfold mret, P_ret. cbn [wp fst snd]. rewrite app_nil_r.
    rewrite got_negative in B1 by done. split; [done |]. split; [|lia]. by apply (Hran l (a_slog a1) (a_life a)). }
  clear H1 Hr.
  eapply wp_part; [apply (logger_init_spec _ path (a_slog (set_log l a1))); intros; by apply Hlog' |].
  intros r2 l2 t2 [B2 H2]. cbn [fst snd] in *.
  set (a2 := set_slog l2 (set_log l a1)).
  set (G := got R_fd (log_fd l)) in *.
  eapply (wp_then _ _ _ _ (λ r t, balanced G G (t2 ++ t) ∧ (∃ s, r.2 = set_life s a2 ∧ clean s) ∧ r.1 ≤ 0)).
  - destruct (decide (r2 < 0)) as [Hr | Hr].
    { destruct H2 as [-> | [-> Hneg]]; [lia |]. unfold mret, P_ret. cbn [wp fst snd]. rewrite app_nil_r.
      rewrite got_negative in B2 by done. split; [by apply balanced_beside |].
      split; [exists (a_life a); by split | lia]. }
    apply (balanced_frame _ _ G) in B2. rewrite app_nil_l in B2.
    eapply wp_then; [apply limit_spec |]. intros ? a3 t3 [E B3]. cbn [snd] in E. subst a3.
    rewrite (plift_bind _ _ _ _ Ep).
    eapply (wp_then _ _ _ _ (λ r t, r.2 = a2 ∧ balanced [] [] t)).
    { destruct pid; [apply daemon_spec |]. unfold mret, P_ret. cbn [wp snd]. split; [done | by apply balanced_nil]. }
    intros ? a3 t4 [E B4]. cbn [snd] in E. subst a3.
    eapply (wp_then _ (with_system stopped tun_fd)); [by eapply with_system_spec |].
    intros res a5 t5 (B5 & (s & E & Hs) & Hres). cbn [fst snd] in *. subst a5.
    eapply wp_part; [apply (logger_fini_spec l2) |]. intros [] l3 t6 [E B6]. cbn [snd] in E. subst l3.
    unfold mret, P_ret. cbn [wp fst snd]. split; [|split; [exists s; by destruct a | done]].
    rewrite app_nil_r. eapply balanced_app; [exact B2 |]. do 3 (eapply balanced_app; [by apply balanced_beside |]).
    apply (balanced_frame _ [] G), B6.
  - intros res a3 t3 (B3 & (s & E & Hs) & Hres). cbn [fst snd] in *. subst a3.
    eapply wp_part; [apply (logger_fini_spec l) |]. intros [] l3 t6 [E B6]. cbn [snd] in E. subst l3.
    unfold mret, P_ret. cbn [wp fst snd]. split; [|split; [by apply Hran | done]].
    rewrite app_nil_r. eapply balanced_app; [exact B1 |]. rewrite app_assoc. by eapply balanced_app.
Qed.
End Main.

(** ** Runs with given responses *)

(** The responses to a start without a device, and to a start and end on a
    descriptor of the caller. *)
Definition no_device : list resp := [val (-1)].
Definition foreign_device : list resp :=
  [val 0; val 16; val 32; val 48; val 64; mkResp 9 [] 8 []; val 0; val 80; val 96; val 112] ++ replicate 9 (val 0).

(** The responses to a whole run without files, around those of the tunnel. *)
Definition whole_run (tunnel : list resp) : list resp := replicate 4 (val 0) ++ tunnel ++ [val 0].

(** The variables at the start of the process, with a configuration. *)
Definition app_start {D} (c : config) (d : D) : app D := mkApp c misc_init logger_start logger_start (life_zero d).

(** The program on Linux. *)
Definition no_pton (_ : list Z) : option (list Z) := None.
Definition linux_main := hev_socks5_tunnel_main_inner (Tun := linux no_pton no_pton).
Definition linux_start (c : config) : app ifname := app_start c tun_name_zero.

(** The responses of a list that satisfy the events they answer. *)
Ltac answered := repeat (constructor; [split; [constructor | first [done | cbn; lia]] |]); constructor.

(** ** The claims *)

(** C39. A run of the program from a state it can start from, whatever fails in
    it, gives back everything it took, once, and nothing else: the files of the
    two loggers and of the pid, the task system, the descriptors of the device,
    of its sockets and of the event, the interface and the pcbs of lwIP, the
    tasks and the mapped-DNS table, on every device with the laws of its class,
    such as those of Linux, FreeBSD, NetBSD and macOS.  The one exception is
    the pcb whose [tcp_listen] failed, which the run loses.  It leaves the
    configuration as it was, the settings of the clients as the configuration
    has them, and a tunnel that can be started again; its result is not
    positive.  A state it can start from ([startable]) has a configuration with
    terminated strings and a tunnel that is down; a descriptor of the caller
    does not come after a device that could not be opened, a device to open has
    a name the system accepts and, on FreeBSD, NetBSD and macOS, no IPv6
    address, and a run without a log file does not come after one with a log
    file. *)
Theorem main_gives_back {D} {Tun : HevTunnel D} {Laws : HevTunnelLaws Tun} stopped tun_fd (a : app D) :
  startable tun_fd a →
  safe (hev_socks5_tunnel_main_inner stopped tun_fd a) ∧
  ∀ tr res a', runs (hev_socks5_tunnel_main_inner stopped tun_fd a) tr (res, a') →
    res ≤ 0 ∧ ran a a' ∧ ∀ l, ∃ l', held_after l tr = Some l' ∧ l' ≡ₚ lost tr ++ l.
Proof.
  intros Ha. pose proof (main_inner_spec stopped tun_fd a Ha) as Hwp.
  split; [by eapply wp_safe |]. intros tr res a' Hr. destruct (wp_runs _ _ _ _ _ Hwp Hr) as (Hb & Hran & Hres).
  split; [done |]. split; [done |]. intros l. by apply (Hb l l).
Qed.

Lemma linux_startable fd : startable (Tun := linux no_pton no_pton) fd (linux_start config_zero).
Proof.
  split; [apply config_zero_ok | apply life_zero_clean; apply array_ok_zero | done | done | done |].
  by intros _.
Qed.

Lemma main_gives_back_witness : ∃ tr a', runs (linux_main true 7 (linux_start config_zero)) tr (0, a') ∧
  ran (Tun := linux no_pton no_pton) (linux_start config_zero) a' ∧ held_after [] tr = Some [].
Proof.
  destruct (play (linux_main true 7 (linux_start config_zero)) (whole_run foreign_device)) as [[[r a'] tr]|] eqn:E;
    [|by vm_compute in E].
  assert (runs (linux_main true 7 (linux_start config_zero)) tr (r, a')) as Hr.
  { eapply play_runs; [exact E |]. vm_compute in E. injection E as <- <- <-. answered. }
  destruct (main_gives_back (Tun := linux no_pton no_pton) true 7 (linux_start config_zero) (linux_startable 7)) as [_ H].
  destruct (H tr r a' Hr) as (_ & Ha & _).
  exists tr, a'. vm_compute in E. injection E as <- <- <-. split; [exact Hr |]. split; [exact Ha | vm_compute; reflexivity].
Defined.

(** A configuration with a log file. *)
Definition config_log : config :=
  set_c_misc (set_log_file (str "log" ++ replicate 1021 0) (c_misc config_zero)) config_zero.

(** C40. Two descriptors that are closed although they are not the program's.
    When the device cannot be opened [tun_fd_local] stays set, so the next
    run, on a descriptor of the caller, closes that one at its end.  And the
    loggers keep the descriptors they closed: a run without a log file that
    follows one with a log file still logs to those numbers, and closes them
    again. *)
Theorem closes_foreign_descriptor :
  (∃ t1 a1 t2 a2,
     runs (linux_main true (-1) (linux_start config_zero)) t1 (-1, a1) ∧
     runs (linux_main true 7 a1) t2 (0, a2) ∧
     held_after [] t1 = Some [] ∧ held_after [(R_fd, 7)] t2 = Some [] ∧ held_after [] t2 = None) ∧
  (∃ t1 a1 t2 a2,
     runs (linux_main true 7 (linux_start config_log)) t1 (0, a1) ∧
     runs (linux_main true 7 (set_conf config_zero a1)) t2 (0, a2) ∧
     hev_config_get_misc_log_file config_zero = Some None ∧ hev_logger_enabled 0 (a_log a1) = true ∧
     hev_socks5_logger_enabled 0 (a_slog a1) = true ∧
     held_after [] t1 = Some [] ∧ held_after [] (t1 ++ t2) = None).
Proof.
  split; do 4 eexists; (split; [|split]).
  - eapply (play_runs _ (whole_run no_device)); [vm_compute; reflexivity | answered].
  - eapply (play_runs _ (whole_run foreign_device)); [vm_compute; reflexivity | answered].
  - split_and!; vm_compute; reflexivity.
  - eapply (play_runs _ ([val 50; val 60] ++ whole_run foreign_device ++ [val 0; val 0])); [vm_compute; reflexivity | answered].
  - eapply (play_runs _ (whole_run foreign_device ++ [val 0; val 0])); [vm_compute; reflexivity | answered].
  - split_and!; vm_compute; reflexivity.
Qed.
