(* ===== verification/Net.v ===== *)
(** * Two programs on a connection

    Two programs of [IO] that talk over a stream connection, in every
    interleaving.  What one sends is queued until the other receives it; a
    receive ([MSG_WAITALL]) waits until its buffer can be filled.  The other
    calls of each program are answered by a function, its environment. *)

From stdpp Require Import relations.
From S2P Require Import Prelude Buffer IO.

(** The answer to a complete send or receive. *)
Definition sent_all (bs : list Z) : resp := mkResp (Z.of_nat (length bs)) [] 0 [].
Definition arrived (bs : list Z) : resp := mkResp (Z.of_nat (length bs)) bs 0 [].

(** A program and the calls it has made. *)
Record side (A : Type) := mkSide { prog : io A; calls : list (ev * resp) }.
Arguments mkSide {A}.
Arguments prog {A}.
Arguments calls {A}.

Definition goes_on {A} (k : resp → io A) (e : ev) (x : resp) (s : side A) : side A :=
  mkSide (k x) (calls s ++ [(e, x)]).

(** One call of a program whose end of the connection is [fd]: the program
    after it, what is left of its input, and what it adds to its output. *)
Definition side_step {A} (env : ev → resp) (fd : Z) (s : side A) (inq : list Z) : option (side A * list Z * list Z) :=
  match prog s with
  | Ret _ | Ub => None
  | Vis e k =>
      match e with
      | Send f bs =>
          if decide (f = fd) then Some (goes_on k e (sent_all bs) s, inq, bs)
          else Some (goes_on k e (env e) s, inq, [])
      | Recv f n =>
          if decide (f = fd) then
            if decide (0 ≤ n ≤ Z.of_nat (length inq))
            then Some (goes_on k e (arrived (take (Z.to_nat n) inq)) s, drop (Z.to_nat n) inq, [])
            else None
          else Some (goes_on k e (env e) s, inq, [])
      | _ => Some (goes_on k e (env e) s, inq, [])
      end
  end.

Record net (A B : Type) := mkNet { left : side A; right : side B; to_right : list Z; to_left : list Z }.
Arguments mkNet {A B}.
Arguments left {A B}.
Arguments right {A B}.
Arguments to_right {A B}.
Arguments to_left {A B}.

Section Net.
Context {A B : Type} (envl envr : ev → resp) (fdl fdr : Z).
Implicit Types w : net A B.

Inductive net_step : net A B → net A B → Prop :=
| step_left w s q out :
    side_step envl fdl (left w) (to_left w) = Some (s, q, out) →
    net_step w (mkNet s (right w) (to_right w ++ out) q)
| step_right w s q out :
    side_step envr fdr (right w) (to_right w) = Some (s, q, out) →
    net_step w (mkNet (left w) s q (to_left w ++ out)).

(** More input does not change what a program does with what it has. *)
Lemma side_step_more {C} env fd (s s' : side C) inq q out more :
  side_step env fd s inq = Some (s', q, out) → side_step env fd s (inq ++ more) = Some (s', q ++ more, out).
Proof.
  unfold side_step. destruct (prog s) as [| | e k]; [done.. |].
  destruct e; repeat case_decide; intros [= <- <- <-]; try done.
  - rewrite length_app in *. rewrite take_app_le, drop_app_le by lia. done.
  - rewrite length_app in *. lia.
Qed.

Lemma net_step_diamond w w1 w2 :
  net_step w w1 → net_step w w2 → w1 = w2 ∨ ∃ w3, net_step w1 w3 ∧ net_step w2 w3.
Proof.
  intros H1 H2. inversion H1 as [? s1 q1 o1 E1 | ? s1 q1 o1 E1]; inversion H2 as [? s2 q2 o2 E2 | ? s2 q2 o2 E2]; subst.
  - left. congruence.
  - right. eexists. split.
    + apply step_right. cbn. eapply side_step_more, E2.
    + apply step_left. cbn. eapply side_step_more, E1.
  - right. eexists. split.
    + apply step_left. cbn. eapply side_step_more, E2.
    + apply step_right. cbn. eapply side_step_more, E1.
  - left. congruence.
Qed.

(** When one run of [n] steps ends, every run ends there after [n] steps. *)
Lemma net_one_outcome n w v :
  nsteps net_step n w v → (∀ v', ¬ net_step v v') →
  ∀ m w', nsteps net_step m w w' → (m ≤ n)%nat ∧ nsteps net_step (n - m) w' v.
Proof.
  revert w. induction n as [|n IH]; intros w Hn Hv m w' Hm.
  - inversion Hn; subst. inversion Hm; subst; [split; [lia | constructor] |]. exfalso. by eapply Hv.
  - inversion Hm as [| m' ? w1 ? S1 Hm']; subst; [by split; [lia |] |].
    inversion Hn as [| ? ? w2 ? S2 Hn']; subst.
    assert (nsteps net_step n w1 v) as Hw1.
    { destruct (net_step_diamond _ _ _ S1 S2) as [-> | (w3 & S13 & S23)]; [done |].
      destruct (IH w2 Hn' Hv 1%nat w3) as [Hle H3]; [by eapply nsteps_once |].
      destruct n as [|n]; [lia |]. eapply nsteps_l; [exact S13 |]. by replace (S n - 1)%nat with n in H3 by lia. }
    destruct (IH w1 Hw1 Hv m' w' Hm') as [? ?]. split; [lia | done].
Qed.
End Net.

(** ** Scripts

    What a program does on its end of the connection when nothing fails. *)

Inductive act := Out (bs : list Z) | In (bs : list Z).

Definition other_call (fd : Z) (e : ev) : Prop :=
  match e with Send f _ | Recv f _ => f ≠ fd | _ => True end.

Inductive script {A} (env : ev → resp) (fd : Z) : io A → list act → list (ev * resp) → A → Prop :=
| script_ret a : script env fd (Ret a) [] [] a
| script_send bs k sc tr a :
    script env fd (k (sent_all bs)) sc tr a →
    script env fd (Vis (Send fd bs) k) (Out bs :: sc) ((Send fd bs, sent_all bs) :: tr) a
| script_recv n bs k sc tr a :
    n = Z.of_nat (length bs) → script env fd (k (arrived bs)) sc tr a →
    script env fd (Vis (Recv fd n) k) (In bs :: sc) ((Recv fd n, arrived bs) :: tr) a
| script_env e k sc tr a :
    other_call fd e → script env fd (k (env e)) sc tr a →
    script env fd (Vis e k) sc ((e, env e) :: tr) a.

Lemma script_bind {S A B} env fd (m : P S A) (f : A → P S B) s a s' sc1 sc2 t1 t2 r :
  script env fd (m s) sc1 t1 (a, s') → script env fd (f a s') sc2 t2 r →
  script env fd ((m ≫= f) s) (sc1 ++ sc2) (t1 ++ t2) r.
Proof.
  unfold mbind, P_bind. remember (a, s') as x eqn:Ex. intros H H2. induction H; subst; cbn; [done | ..]; by constructor; auto.
Qed.

(** Two scripts fit together: some order of their actions empties both, with
    every receive served from what was sent before; [z1] and [z2] are the bytes
    that nobody reads. *)
Inductive dialogue (z1 z2 : list Z) : list act → list act → list Z → list Z → Prop :=
| dlg_end : dialogue z1 z2 [] [] z1 z2
| dlg_left_out bs sl sr q1 q2 : dialogue z1 z2 sl sr (q1 ++ bs) q2 → dialogue z1 z2 (Out bs :: sl) sr q1 q2
| dlg_left_in bs sl sr q1 q2 : dialogue z1 z2 sl sr q1 q2 → dialogue z1 z2 (In bs :: sl) sr q1 (bs ++ q2)
| dlg_right_out bs sl sr q1 q2 : dialogue z1 z2 sl sr q1 (q2 ++ bs) → dialogue z1 z2 sl (Out bs :: sr) q1 q2
| dlg_right_in bs sl sr q1 q2 : dialogue z1 z2 sl sr q1 q2 → dialogue z1 z2 sl (In bs :: sr) (bs ++ q1) q2.

(** Calls that do not touch the connection. *)
Definition quiet_step {A} (env : ev → resp) (fd : Z) (s s' : side A) : Prop :=
  ∀ inq, side_step env fd s inq = Some (s', inq, []).

(** A program with its script about to do the first action, or at its end. *)
Definition ready {A} (env : ev → resp) (fd : Z) (m : io A) (sc : list act) (tr : list (ev * resp)) (a : A) : Prop :=
  match sc with
  | [] => m = Ret a ∧ tr = []
  | Out bs :: sc => ∃ k tr', m = Vis (Send fd bs) k ∧ tr = (Send fd bs, sent_all bs) :: tr' ∧
      script env fd (k (sent_all bs)) sc tr' a
  | In bs :: sc => let n := Z.of_nat (length bs) in ∃ k tr', m = Vis (Recv fd n) k ∧
      tr = (Recv fd n, arrived bs) :: tr' ∧ script env fd (k (arrived bs)) sc tr' a
  end.

Lemma script_head {A} env fd (m : io A) sc tr a : script env fd m sc tr a →
  ∃ m' t1 t2, tr = t1 ++ t2 ∧ ready env fd m' sc t2 a ∧
    ∀ l, rtc (quiet_step env fd) (mkSide m l) (mkSide m' (l ++ t1)).
Proof.
  induction 1 as [a | bs k sc tr a H IH | n bs k sc tr a -> H IH | e k sc tr a He H IH].
  - exists (Ret a), [], []. split_and!; [done | done |]. intros l. by rewrite app_nil_r.
  - eexists _, [], _. split_and!; [done | cbn; eauto |]. intros l. by rewrite app_nil_r.
  - eexists _, [], _. split_and!; [done | cbn; eauto |]. intros l. by rewrite app_nil_r.
  - destruct IH as (m' & t1 & t2 & -> & Hr & Hs). exists m', ((e, env e) :: t1), t2. split_and!; [done | done |].
    intros l. eapply rtc_l; [|specialize (Hs (l ++ [(e, env e)])); rewrite <-app_assoc in Hs; exact Hs].
    intros inq. destruct e; cbn in *; by rewrite ?decide_False.
Qed.

Section Run.
Context {A B : Type} (envl envr : ev → resp) (fdl fdr : Z).
Abbreviation steps := (rtc (net_step (A := A) (B := B) envl envr fdl fdr)).

Lemma steps_left s s' r q1 q2 : rtc (quiet_step envl fdl) s s' → steps (mkNet s r q1 q2) (mkNet s' r q1 q2).
Proof.
  apply (rtc_congruence (λ s, mkNet s r q1 q2)). intros x y H.
  pose proof (step_left envl envr fdl fdr (mkNet x r q1 q2) _ _ _ (H q2)) as S. cbn in S. by rewrite app_nil_r in S.
Qed.

Lemma steps_right s s' l q1 q2 : rtc (quiet_step envr fdr) s s' → steps (mkNet l s q1 q2) (mkNet l s' q1 q2).
Proof.
  apply (rtc_congruence (λ s, mkNet l s q1 q2)). intros x y H.
  pose proof (step_right envl envr fdl fdr (mkNet l x q1 q2) _ _ _ (H q1)) as S. cbn in S. by rewrite app_nil_r in S.
Qed.

Lemma side_step_send {C} env fd bs (k : resp → io C) l inq :
  side_step env fd (mkSide (Vis (Send fd bs) k) l) inq =
    Some (mkSide (k (sent_all bs)) (l ++ [(Send fd bs, sent_all bs)]), inq, bs).
Proof. cbn. by rewrite decide_True. Qed.

Lemma side_step_recv {C} env fd bs (k : resp → io C) l inq :
  let n := Z.of_nat (length bs) in
  side_step env fd (mkSide (Vis (Recv fd n) k) l) (bs ++ inq) =
    Some (mkSide (k (arrived bs)) (l ++ [(Recv fd n, arrived bs)]), inq, []).
Proof.
  cbn. rewrite decide_True by done. rewrite length_app, decide_True by lia.
  by rewrite Nat2Z.id, take_app_length, drop_app_length.
Qed.

(** Programs whose scripts fit together can run to their ends. *)
Lemma dialogue_runs z1 z2 sl sr q1 q2 : dialogue z1 z2 sl sr q1 q2 → ∀ ml mr tl tr a b ll lr,
  script envl fdl ml sl tl a → script envr fdr mr sr tr b →
  steps (mkNet (mkSide ml ll) (mkSide mr lr) q1 q2) (mkNet (mkSide (Ret a) (ll ++ tl)) (mkSide (Ret b) (lr ++ tr)) z1 z2).
Proof.
  induction 1 as [| bs sl sr q1 q2 H IH | bs sl sr q1 q2 H IH | bs sl sr q1 q2 H IH | bs sl sr q1 q2 H IH];
    intros ml mr tl tr a b ll lr Hl Hr.
  - destruct (script_head _ _ _ _ _ _ Hl) as (ml' & t1 & t2 & -> & [-> ->] & Hs).
    destruct (script_head _ _ _ _ _ _ Hr) as (mr' & u1 & u2 & -> & [-> ->] & Hs').
    rewrite !app_nil_r. etransitivity; [apply steps_left, Hs | apply steps_right, Hs'].
  - destruct (script_head _ _ _ _ _ _ Hl) as (ml' & t1 & t2 & -> & (k & t3 & -> & -> & Hk) & Hs).
    etransitivity; [apply steps_left, Hs |].
    eapply rtc_l; [eapply step_left; cbn [left to_left]; apply side_step_send |]. cbn [right to_right].
    rewrite (cons_middle _ t1 t3), !app_assoc. by apply IH.
  - destruct (script_head _ _ _ _ _ _ Hl) as (ml' & t1 & t2 & -> & (k & t3 & -> & -> & Hk) & Hs).
    etransitivity; [apply steps_left, Hs |].
    eapply rtc_l; [eapply step_left; cbn [left to_left]; apply side_step_recv |]. cbn [right to_right].
    rewrite (cons_middle _ t1 t3), !app_assoc, app_nil_r. by apply IH.
  - destruct (script_head _ _ _ _ _ _ Hr) as (mr' & t1 & t2 & -> & (k & t3 & -> & -> & Hk) & Hs).
    etransitivity; [apply steps_right, Hs |].
    eapply rtc_l; [eapply step_right; cbn [right to_right]; apply side_step_send |]. cbn [left to_left].
    rewrite (cons_middle _ t1 t3), !app_assoc. by apply IH.
  - destruct (script_head _ _ _ _ _ _ Hr) as (mr' & t1 & t2 & -> & (k & t3 & -> & -> & Hk) & Hs).
    etransitivity; [apply steps_right, Hs |].
    eapply rtc_l; [eapply step_right; cbn [right to_right]; apply side_step_recv |]. cbn [left to_left].
    rewrite (cons_middle _ t1 t3), !app_assoc, app_nil_r. by apply IH.
Qed.

(** What two fitting programs do is determined: every run is finite, can go
    on until both have returned, and ends in the same state. *)
Lemma dialogue_outcome z1 z2 ml mr sl sr tl tr a b :
  script envl fdl ml sl tl a → script envr fdr mr sr tr b → dialogue z1 z2 sl sr [] [] →
  ∃ n, ∀ m w, nsteps (net_step (A := A) (B := B) envl envr fdl fdr) m (mkNet (mkSide ml []) (mkSide mr []) [] []) w →
    (m ≤ n)%nat ∧ nsteps (net_step (A := A) (B := B) envl envr fdl fdr) (n - m) w (mkNet (mkSide (Ret a) tl) (mkSide (Ret b) tr) z1 z2).
Proof.
  intros Hl Hr Hd. destruct (rtc_nsteps_1 _ _ (dialogue_runs _ _ _ _ _ _ Hd ml mr tl tr a b [] [] Hl Hr)) as [n Hn].
  exists n. eapply net_one_outcome; [exact Hn |]. intros v' Hv. inversion Hv as [? ? ? ? E | ? ? ? ? E]; by cbn in E.
Qed.
End Run.
