(* ===== verification/Interop.v ===== *)
(** * A client and a server on one connection

    The handshake of the TCP client and the one of the server, both as they
    are, on the two ends of a connection ([Net]): in every interleaving they
    come to an agreement, and the server is connected where the client
    wanted to go. *)

From stdpp Require Import relations.
From S2P Require Import Prelude Buffer IO Addr Interfaces DList RBTree RBMap MappedDNS DNSHandle DNSProps Auth Socks5 Client ClientProps Udp Server ServerProps Config Utils UtilsProps SessionUdp Session Net.

(** ** Programs and their scripts *)

Definition talks {A} (env : ev → resp) (fd : Z) (m : io A) (sc : list act) (Q : A → list (ev * resp) → Prop) : Prop :=
  ∃ tr a, script env fd m sc tr a ∧ Q a tr.

Section Talks.
Context (env : ev → resp) (fd : Z).

Lemma talks_mono {A} (m : io A) sc (Q Q' : A → list (ev * resp) → Prop) :
  talks env fd m sc Q → (∀ a tr, Q a tr → Q' a tr) → talks env fd m sc Q'.
Proof. intros (tr & a & H & HQ) Himp. exists tr, a. auto. Qed.

Lemma talks_ret {A} (a : A) (Q : A → list (ev * resp) → Prop) : Q a [] → talks env fd (Ret a) [] Q.
Proof. intros H. exists [], a. split; [constructor | done]. Qed.

Lemma talks_then {S A B} (m : P S A) (f : A → P S B) s sc1 sc2 (R : A * S → list (ev * resp) → Prop) Q :
  talks env fd (m s) sc1 R →
  (∀ a s' t1, R (a, s') t1 → talks env fd (f a s') sc2 (λ r t2, Q r (t1 ++ t2))) →
  talks env fd ((m ≫= f) s) (sc1 ++ sc2) Q.
Proof.
  intros (t1 & [a s'] & H1 & HR) Hf. destruct (Hf a s' t1 HR) as (t2 & r & H2 & HQ).
  exists (t1 ++ t2), r. split; [by eapply script_bind | done].
Qed.

Context {S B : Type} (f : resp → P S B) (s : S).

Lemma talks_out bs sc (Q : B * S → list (ev * resp) → Prop) :
  talks env fd (f (sent_all bs) s) sc (λ r tr, Q r ((Send fd bs, sent_all bs) :: tr)) →
  talks env fd ((call (Send fd bs) ≫= f) s) (Out bs :: sc) Q.
Proof. intros (tr & a & H & HQ). eexists _, a. split; [by apply script_send | done]. Qed.

Lemma talks_in n bs sc (Q : B * S → list (ev * resp) → Prop) :
  n = Z.of_nat (length bs) →
  talks env fd (f (arrived bs) s) sc (λ r tr, Q r ((Recv fd n, arrived bs) :: tr)) →
  talks env fd ((call (Recv fd n) ≫= f) s) (In bs :: sc) Q.
Proof. intros Hn (tr & a & H & HQ). eexists _, a. split; [by apply script_recv | done]. Qed.

Lemma talks_call e sc (Q : B * S → list (ev * resp) → Prop) :
  other_call fd e → talks env fd (f (env e) s) sc (λ r tr, Q r ((e, env e) :: tr)) →
  talks env fd ((call e ≫= f) s) sc Q.
Proof. intros He (tr & a & H & HQ). eexists _, a. split; [by apply script_env | done]. Qed.
End Talks.

(** ** The client *)

Section Client.
Context (env : ev → resp) (g : misc) (frame : list Z) (Hframe : length frame = SIZEOF_ADDR).
Implicit Types c : HevSocks5ClientTCP.
Abbreviation fd_of c := (sk_fd (base c)).
Abbreviation plays c m sc := (talks env (fd_of c) m sc).

(** What a part does whose result is [v] in the state [c']. *)
Definition becomes {A S} (v : A) (c' : S) (r : A * S) (tr : list (ev * resp)) : Prop := r = (v, c').

Lemma write_methods_plays c :
  plays c (hev_socks5_client_write_auth_methods c) [Out (methods_bytes c)] (becomes 0 c).
Proof.
  unfold hev_socks5_client_write_auth_methods, client_creds, get_base. rewrite !pgets_bind.
  assert (methods_bytes c = [5; 1; match creds_of c with None => 0 | Some _ => 2 end]) as E by done.
  unfold creds_of in E. rewrite E. clear E. destruct (auth_user (client c)), (auth_pass (client c));
    (apply talks_out, talks_ret; done).
Qed.

Definition creds_script c : list act := match creds_of c with None => [] | Some _ => [Out (creds_bytes c)] end.

Lemma write_creds_plays c :
  plays c (hev_socks5_client_write_auth_creds c) (creds_script c) (becomes 0 c).
Proof.
  clear Hframe.
  unfold hev_socks5_client_write_auth_creds, client_creds, get_base, creds_script. rewrite pgets_bind.
  change (match auth_user (client c), auth_pass (client c) with Some u, Some p => Some (u, p) | _, _ => None end)
    with (creds_of c).
  destruct (creds_of c) as [[u p]|] eqn:Hc; [|by apply talks_ret]. cbv zeta.
  pose proof (u8_range (Z.of_nat (length u))). pose proof (u8_le (length u)).
  pose proof (u8_range (Z.of_nat (length p))). pose proof (u8_le (length p)). unfold byte_ok in *.
  rewrite (plift_bind _ _ _ _ (mem_read_prefix u (u8 (Z.of_nat (length u))) ltac:(lia))), (plift_bind _ _ _ _ (mem_read_prefix p (u8 (Z.of_nat (length p))) ltac:(lia))).
  rewrite pgets_bind. unfold creds_bytes. rewrite Hc. apply talks_out. cbn [ret sent_all length].
  rewrite decide_False by lia. by apply talks_ret.
Qed.

Lemma read_method_plays c m : plays c (hev_socks5_client_read_auth_method c) [In [5; m]] (becomes m c).
Proof. unfold hev_socks5_client_read_auth_method, get_base. rewrite pgets_bind. by apply talks_in, talks_ret. Qed.

Lemma read_creds_plays c : plays c (hev_socks5_client_read_auth_creds c) [In [1; 0]] (becomes 0 c).
Proof. unfold hev_socks5_client_read_auth_creds, get_base. rewrite pgets_bind. by apply talks_in, talks_ret. Qed.

Definition asked c : HevSocks5ClientTCP := mkClientTCP (tcp_client c) None.

Lemma write_request_plays c a : address_ok a → tcp_ready a c → sk_type (base c) = HEV_SOCKS5_TYPE_TCP →
  plays c (hev_socks5_client_write_request c) [Out (5 :: 1 :: 0 :: wire a)] (becomes 0 (asked c)).
Proof.
  clear Hframe.
  intros Ha Hc Ht. unfold hev_socks5_client_write_request, get_base. rewrite pgets_bind.
  replace (request_cmd _) with (Some HEV_SOCKS5_REQ_CMD_CONNECT) by (cbn in *; by rewrite Ht).
  assert (get_upstream_addr c = Ret (Some (wire a), asked c)) as E by (unfold tcp_ready in Hc; rewrite <-Hc; by destruct c).
  rewrite (pbind_ret _ _ _ _ _ E). rewrite (plift_bind _ _ _ (wire a)) by done.
  rewrite (plift_bind _ _ _ (Z.of_nat (length (wire a)))) by (rewrite <-(app_nil_r (wire a)) at 1; by apply addr_len_wire).
  rewrite decide_False by lia. rewrite (plift_bind _ _ _ (wire a)) by apply mem_read_all.
  rewrite pgets_bind. change (sk_fd (base (asked c))) with (fd_of c). apply talks_out.
  cbn [ret sent_all length]. rewrite decide_False by lia. apply talks_call; [done |]. by apply talks_ret.
Qed.

(** A reply with an IP address. *)
Lemma read_response_plays c b t rest : address_ok b → (∀ n p, b ≠ AName n p) → wire b = t :: rest →
  plays c (hev_socks5_client_read_response frame c) [In [5; 0; 0; t]; In rest] (becomes 0 c).
Proof.
  intros Hb Hn Hw. unfold hev_socks5_client_read_response, get_base. rewrite pgets_bind. apply talks_in; [done |].
  cbn [ret arrived length data]. rewrite decide_False by lia.
  rewrite (plift_bind _ _ _ 5), decide_False, (plift_bind _ _ _ 0), decide_False, (plift_bind _ _ _ t) by (done || by intros []).
  cbv zeta.
  assert ((t = HEV_SOCKS5_ADDR_TYPE_IPV4 ∧ length rest = 6%nat) ∨ (t = HEV_SOCKS5_ADDR_TYPE_IPV6 ∧ length rest = 18%nat)) as Ht.
  { pose proof (wire_length b Hb) as Hl. rewrite Hw in Hl. cbn in Hl. destruct b; [left | right | by edestruct Hn];
      injection Hw as <- _; split; try done; lia. }
  set (n := if decide (t = HEV_SOCKS5_ADDR_TYPE_IPV4) then _ else _).
  assert (n = Z.of_nat (length rest) ∧ 0 < n) as [En Hn0] by (unfold n; by destruct Ht as [[-> ->] | [-> ->]]).
  rewrite decide_False by lia. apply talks_in; [done |]. cbn [ret arrived length data]. rewrite decide_False by lia.
  destruct (frame_write frame Hframe (t :: rest)) as (post & Ew & _); [exists rest, t; split; [done |]; lia |].
  rewrite (plift_bind _ _ _ _ Ew). by apply talks_ret.
Qed.

(** *** The whole handshake *)

Lemma ok_then_plays fd c (m k : P HevSocks5ClientTCP Z) sc1 sc2 v c1 Q :
  0 ≤ v → talks env fd (m c) sc1 (becomes v c1) → talks env fd (k c1) sc2 Q →
  (∀ r t1 t2, Q r t2 → Q r (t1 ++ t2)) → talks env fd (ok_then m k c) (sc1 ++ sc2) Q.
Proof.
  clear Hframe.
  intros Hv Hm Hk HQ. unfold ok_then. eapply talks_then; [exact Hm |]. intros ? ? t1 [= -> ->].
  rewrite decide_False by lia. eapply talks_mono; [exact Hk |]. intros r t2. apply HQ.
Qed.

(** The client's verdict part, for the method its credentials call for. *)
Definition method_of c : Z := match creds_of c with None => 0 | Some _ => 2 end.

Lemma after_method_plays c (creds : P HevSocks5ClientTCP Z) sc :
  plays c (creds c) sc (becomes 0 c) →
  plays c ((hev_socks5_client_read_auth_method ≫= after_method creds) c)
    (In [5; method_of c] :: match creds_of c with None => [] | Some _ => sc end) (becomes 0 c).
Proof.
  intros Hc. eapply (talks_then _ _ _ _ _ [_]); [apply read_method_plays |]. intros ? ? t1 [= -> ->].
  unfold after_method, method_of. destruct (creds_of c).
  - rewrite decide_False, decide_True by done. by eapply talks_mono; [exact Hc |].
  - by apply talks_ret.
Qed.

(** The scripts of the two modes, for the request [req] and the reply [t], [rest]. *)
Definition client_script (pipeline : bool) c (a : address) (t : Z) (rest : list Z) : list act :=
  let verdict := match creds_of c with None => [] | Some _ => [In [1; 0]] end in
  if pipeline then
    Out (methods_bytes c) :: creds_script c ++ [Out (5 :: 1 :: 0 :: wire a); In [5; method_of c]] ++ verdict ++
      [In [5; 0; 0; t]; In rest]
  else
    Out (methods_bytes c) :: In [5; method_of c] :: creds_script c ++ verdict ++
      [Out (5 :: 1 :: 0 :: wire a); In [5; 0; 0; t]; In rest].

Lemma response_plays c b t rest : address_ok b → (∀ n p, b ≠ AName n p) → wire b = t :: rest →
  plays c (ok_then (hev_socks5_client_read_response frame) (mret 0) c) [In [5; 0; 0; t]; In rest] (becomes 0 c).
Proof.
  intros. eapply (ok_then_plays _ _ _ _ [_; _] []); [done | by eapply read_response_plays | by apply talks_ret | done].
Qed.

Lemma modes_play (pipeline : bool) c a b t rest :
  address_ok a → tcp_ready a c → sk_type (base c) = HEV_SOCKS5_TYPE_TCP →
  address_ok b → (∀ n p, b ≠ AName n p) → wire b = t :: rest →
  plays c ((if pipeline then hev_socks5_client_handshake_pipeline frame
            else hev_socks5_client_handshake_standard frame) c)
    (client_script pipeline c a t rest) (becomes 0 (asked c)).
Proof.
  intros Ha Hc Ht Hb Hn Hw. unfold client_script. cbv zeta.
  pose proof (write_request_plays c a Ha Hc Ht) as Hreq.
  pose proof (response_plays (asked c) b t rest Hb Hn Hw) as Hresp.
  destruct pipeline; unfold hev_socks5_client_handshake_pipeline, hev_socks5_client_handshake_standard;
    (eapply (ok_then_plays _ _ _ _ [_]); [done | apply write_methods_plays | | done]).
  - eapply ok_then_plays; [done | apply write_creds_plays | | done].
    eapply (ok_then_plays _ _ _ _ [_]); [done | exact Hreq | | done]. rewrite app_comm_cons.
    eapply ok_then_plays; [done | | exact Hresp | done].
    apply (after_method_plays (asked c)). apply read_creds_plays.
  - replace (In [5; method_of c] :: _) with ((In [5; method_of c] :: match creds_of c with None => [] | Some _ =>
      creds_script c ++ [In [1; 0]] end) ++ [Out (5 :: 1 :: 0 :: wire a); In [5; 0; 0; t]; In rest])
      by (unfold creds_script; by destruct (creds_of c)).
    eapply ok_then_plays; [done | apply after_method_plays | | done].
    + eapply ok_then_plays; [done | apply write_creds_plays | apply read_creds_plays | done].
    + eapply (ok_then_plays _ _ _ _ [_]); [done | exact Hreq | exact Hresp | done].
Qed.

Lemma client_plays (pipeline : bool) c a b t rest :
  address_ok a → tcp_ready a c → sk_type (base c) = HEV_SOCKS5_TYPE_TCP →
  address_ok b → (∀ n p, b ≠ AName n p) → wire b = t :: rest →
  plays c (hev_socks5_client_handshake g frame pipeline c) (client_script pipeline c a t rest) (λ r _, r.1 = 0).
Proof.
  intros Ha Hc Ht Hb Hn Hw. unfold hev_socks5_client_handshake, upd_base. rewrite pmod_bind.
  set (c1 := set_base _ c). assert (kept c c1) as (Hfd & Hty & Hu & Hp) by apply kept_timeout.
  assert (client_script pipeline c a t rest = client_script pipeline c1 a t rest) as ->
    by (unfold client_script, methods_bytes, creds_script, creds_bytes, method_of, creds_of; by rewrite Hu, Hp).
  replace (fd_of c) with (fd_of c1) by exact Hfd. rewrite <-(app_nil_r (client_script _ _ _ _ _)).
  eapply talks_then; [apply (modes_play pipeline c1 a b t rest); try done; exact (eq_trans Hty Ht) |]. intros ? ? t1 [= -> ->].
  unfold get_base. rewrite pgets_bind. rewrite decide_False; [by apply talks_ret |].
  cbn in Hty, Ht |- *. rewrite Hty, Ht. by intros [?|?].
Qed.
End Client.

(** ** The server *)

(** A program that every run leaves without a call has returned. *)
Lemma valid_any e : ∃ x, valid e x.
Proof.
  assert (∀ n, bytes_ok (replicate n 0)) as H0 by (intros n; apply Forall_replicate; unfold byte_ok; lia).
  exists (mkResp (-1) (match e with GetSockName _ => replicate 16 0 | _ => [] end) 0 []).
  unfold valid. cbn [ret data aux msgs]. destruct e; (split; [apply (H0 0%nat) || apply (H0 16%nat) |]); cbn; try done; try lia.
  - by right.
  - split_and!; try done; try lia; by constructor.
  - by right.
Qed.

Lemma wp_never {A} (m : io A) : ¬ wp False m (λ _ _, False).
Proof. induction m as [a | | e k IH]; cbn; [by intros [].. |]. intros H. destruct (valid_any e) as [x Hx]. by apply (IH x), H. Qed.

Lemma wp_silent {A} (m : io A) (Q : A → Prop) : wp False m (λ a tr, tr = [] ∧ Q a) → ∃ a, m = Ret a ∧ Q a.
Proof.
  destruct m as [a | | e k]; cbn; [intros [_ ?]; eauto | done |]. intros H. exfalso.
  destruct (valid_any e) as [x Hx]. apply (wp_never (k x)). eapply wp_mono; [by apply H |]. by intros a tr [? _].
Qed.

(** An environment in which the socket calls succeed. *)
Record cooperates (env : ev → resp) : Prop := {
  co_socket f t : 0 ≤ ret (env (Socket f t));
  co_option fd l n v : 0 ≤ ret (env (SetSockOpt fd l n v));
  co_connect fd sa : 0 ≤ ret (env (Connect fd sa));
}.

(** The address a server's reply names. *)
Definition addr_of (sa : sockaddr_in6) : address :=
  if v4mapped (sin6_addr sa) then A4 (drop 12 (sin6_addr sa)) (sin6_port sa) else A6 (sin6_addr sa) (sin6_port sa).

Lemma from_sockaddr6_wire block sa : (19 ≤ length block)%nat → length (sin6_addr sa) = 16%nat →
  ∃ rest, hev_socks5_addr_from_sockaddr6 block sa =
    Some (Z.of_nat (length (wire (addr_of sa))), wire (addr_of sa) ++ rest).
Proof.
  destruct sa as [f p a]; cbn [sin6_addr]. intros Hb Ha. explicit block 19%nat.
  do 16 (destruct a as [|? a]; [discriminate Ha |]). destruct a; [clear Ha | discriminate Ha].
  unfold hev_socks5_addr_from_sockaddr6, addr_of. cbn [sin6_addr sin6_port app]. clear Hb.
  destruct (v4mapped _); unfold le16; mem_eval; eexists; reflexivity.
Qed.

Lemma addr_of_ok sa : sa_ok sa → bytes_ok (sin6_addr sa) → address_ok (addr_of sa) ∧ ∀ n p, addr_of sa ≠ AName n p.
Proof.
  intros [Hl Hp] Hb. unfold addr_of. destruct (v4mapped _); (split; [|done]).
  - split; [by rewrite length_drop, Hl |]. split; [by apply Forall_drop | done].
  - by split.
Qed.

Section Server.
Context (env : ev → resp) (Henv : cooperates env).
Context (p4 p6 : list Z → option (list Z)) (g : misc) (frame : list Z) (Hframe : length frame = SIZEOF_ADDR).
Context {T : Type} `{!SearchTree T}.
Abbreviation Server := (HevSocks5Server T).
Implicit Types s : Server.
Abbreviation fd_of s := (sk_fd (sv_base s)).
Abbreviation plays s m sc := (talks env (fd_of s) m sc).

(** The credentials with which [s], whose users are [m], admits a client. *)
Definition admits s (m : gmap (list Z) ptr) (creds : option (list Z * list Z)) : Prop :=
  match creds with
  | None => sv_obj s = SNone
  | Some (u, p) => sv_obj s = SAuth ∧ (0 < length u ≤ 255)%nat ∧ (0 < length p ≤ 255)%nat ∧
      ∃ q user, m !! u = Some q ∧ users (sv_store s) !! q = Some user ∧ upass user = p
  end.

Definition method_for (creds : option (list Z * list Z)) : Z := match creds with None => 0 | Some _ => 2 end.

Definition login_script (creds : option (list Z * list Z)) : list act :=
  match creds with
  | None => []
  | Some (u, p) => [In [1; Z.of_nat (length u)]; In (u ++ [Z.of_nat (length p)]); In p; Out [1; 0]]
  end.

Lemma server_method_plays s m creds : admits s m creds →
  plays s (hev_socks5_server_read_auth_method s) [In [5; 1]; In [method_for creds]] (becomes (method_for creds) s).
Proof.
  clear Henv Hframe.
  intros Ha. unfold hev_socks5_server_read_auth_method, get_base. rewrite pgets_bind. apply talks_in; [done |].
  cbn [ret arrived length data]. rewrite decide_False by lia.
  rewrite (plift_bind _ _ _ 5), decide_False, (plift_bind _ _ _ 1) by (done || by intros []).
  apply talks_in; [done |]. cbn [ret arrived length data]. rewrite decide_False by lia. rewrite pgets_bind. cbv zeta.
  replace (match sv_obj s with SNone => _ | _ => _ end) with (method_for creds)
    by (destruct creds as [[u p]|]; [by destruct Ha as [-> _] | by rewrite Ha]).
  rewrite decide_True by set_solver. by apply talks_ret.
Qed.

Lemma server_user_plays s m u p : server_ok s m → admits s m (Some (u, p)) →
  plays s (hev_socks5_server_read_auth_user s)
    [In [1; Z.of_nat (length u)]; In (u ++ [Z.of_nat (length p)]); In p]
    (λ r tr, r.1 = 0 ∧ sv_base r.2 = sv_base s ∧ sv_fds r.2 = sv_fds s).
Proof.
  clear Henv Hframe.
  intros Hok (Ho & Hu & Hp & q & user & Hm & Huser & Hpass). pose proof Hok as [(l & Hr & Hpw) _].
  destruct (proj1 (ar_map _ _ _ Hr u q) Hm) as [Hqin Hkey].
  destruct (ar_users _ _ _ Hr q Hqin) as (user' & Hu' & Hwf).
  assert (user' = user) as -> by congruence. subst p.
  destruct (tr_rep_ok _ _ (ar_tree _ _ _ Hr)) as (_ & Hokp & _). rewrite Forall_forall in Hokp.
  destruct (Hokp q Hqin) as [Hnn _].
  unfold hev_socks5_server_read_auth_user, get_base. rewrite pgets_bind. apply talks_in; [done |].
  cbn [ret arrived length data]. rewrite decide_False by lia.
  rewrite (plift_bind _ _ _ 1), decide_False, (plift_bind _ _ _ (Z.of_nat (length u))) by (done || by intros []).
  rewrite decide_False by lia. apply talks_in; [rewrite length_app; cbn; lia |].
  cbn [ret arrived data]. rewrite decide_False by (rewrite length_app; cbn; lia).
  rewrite (plift_bind _ _ _ (Z.of_nat (length (upass user)))); last first.
  { rewrite <-(Z.add_0_r (Z.of_nat (length u))). by rewrite mem_get_app. }
  rewrite decide_False by lia. apply talks_in; [done |]. cbn [ret arrived data]. rewrite decide_False by lia.
  unfold server_auth_get. erewrite pbind_ret; last first.
  { rewrite pgets_bind, Ho. unfold on_auth.
    rewrite (auth_get_spec _ l m _ _ Hr) by (rewrite length_app; cbn; lia).
    rewrite Nat2Z.id, take_app_length, Hm, set_store_id. reflexivity. }
  cbn [default id]. rewrite decide_False by done. erewrite pbind_ret; last first.
  { unfold on_auth, hev_socks5_user_check. erewrite mbind_some by (apply user_get_some; exact Huser).
    unfold mlift. rewrite user_checker_spec by (by eauto || lia). rewrite Nat2Z.id, firstn_all, decide_True by done.
    rewrite set_store_id. reflexivity. }
  rewrite decide_False by lia.
  destruct (wp_silent _ (λ r, r.1 = 0 ∧ sv_base r.2 = sv_base s ∧ sv_fds r.2 = sv_fds s)
    ltac:(eapply wp_mono; [eapply (switch_user_spec False s l m q user); eauto; apply Hwf |];
      intros r tr (? & ? & [_ ?] & _ & _ & ?); done)) as ([res s'] & -> & HQ).
  by apply talks_ret.
Qed.

Lemma server_auth_plays s m creds : server_ok s m → admits s m creds →
  plays s (hev_socks5_server_auth s)
    ([In [5; 1]; In [method_for creds]; Out [5; method_for creds]] ++ login_script creds)
    (λ r tr, r.1 = 0 ∧ sv_base r.2 = sv_base s ∧ sv_fds r.2 = sv_fds s).
Proof.
  clear Henv Hframe.
  intros Hok Ha. unfold hev_socks5_server_auth.
  eapply (talks_then _ _ _ _ _ [_; _] (_ :: _)); [by eapply server_method_plays |]. intros ? ? t1 [= -> ->].
  eapply (talks_then _ _ _ _ _ [_] _ (becomes 0 s)).
  { unfold hev_socks5_server_write_auth_method, get_base. rewrite pgets_bind.
    replace (u8 (method_for creds)) with (method_for creds) by by destruct creds as [[]|].
    apply talks_out. by apply talks_ret. }
  intros ? ? t2 [= -> ->]. rewrite decide_False by lia. destruct creds as [[u p]|]; cbn [method_for login_script].
  - rewrite decide_False, decide_True by done.
    eapply (talks_then _ _ _ _ _ [_; _; _] [_]); [by eapply server_user_plays |]. intros res s' t3 (Hr & Hb & Hfd).
    cbn [fst snd] in *. subst res.
    eapply (talks_then _ _ _ _ _ [_] [] (becomes 0 s')).
    { unfold hev_socks5_server_write_auth_user, get_base. rewrite pgets_bind. cbn [base server_object].
      rewrite <-Hb. apply talks_out. by apply talks_ret. }
    intros ? ? t4 [= -> ->]. change (Z.lor 0 0) with 0. rewrite decide_False by lia. by apply talks_ret.
  - rewrite decide_True by done. by apply talks_ret.
Qed.

(** The address [a] of a request is, for this server, that of [sa]. *)
Definition resolves s (a : address) (sa : sockaddr_in6) : Prop :=
  sa_ok sa ∧ bytes_ok (sin6_addr sa) ∧ ∃ fam, ∀ s', talks env (fd_of s)
    (resolve p4 p6 (S := Server) a zero_sockaddr (sk_addr_family (sv_base s)) s') [] (becomes (0, sa, fam) s').

(** The request is read; [res] is what resolving its address gives. *)
Lemma server_request_reads s a t h tl res sa fam : address_ok a → wire a = t :: h :: tl →
  plays s (resolve p4 p6 (S := Server) a zero_sockaddr (sk_addr_family (sv_base s)) s) [] (becomes (res, sa, fam) s) →
  plays s (hev_socks5_server_read_request p4 p6 frame HEV_SOCKS5_RES_REP_SUCC zero_sockaddr s)
    [In [5; 1; 0; t; h]; In tl]
    (λ r tr, sv_fds r.2 = sv_fds s ∧ fd_of r.2 = fd_of s ∧
      r.1 = if decide (res < 0) then (0, None, HEV_SOCKS5_RES_REP_ADDR, sa) else (0, Some 1, HEV_SOCKS5_RES_REP_SUCC, sa)).
Proof.
  clear Henv. intros Ha Hw Hres. unfold hev_socks5_server_read_request, get_base. rewrite pgets_bind.
  apply talks_in; [done |]. cbn [ret arrived length data]. rewrite decide_False by lia.
  rewrite (plift_bind _ _ _ 5), decide_False, (plift_bind _ _ _ 1), (plift_bind _ _ _ t), (plift_bind _ _ _ h)
    by (done || by intros []). cbv zeta.
  assert (Z.of_nat (length tl) = if decide (t = HEV_SOCKS5_ADDR_TYPE_IPV4) then 5
    else if decide (t = HEV_SOCKS5_ADDR_TYPE_IPV6) then 17
    else if decide (t = HEV_SOCKS5_ADDR_TYPE_NAME) then 2 + h else -1) as Hlen.
  { pose proof (wire_length a Ha) as Hl. rewrite Hw in Hl. cbn in Hl.
    destruct a as [ip p|ip p|n p]; cbn [wire] in Hw; [injection Hw as <- _ | injection Hw as <- _ | injection Hw as <- <- _].
    - rewrite decide_True by done. lia.
    - rewrite decide_False, decide_True by done. lia.
    - rewrite decide_False, decide_False, decide_True by done. lia. }
  rewrite <-Hlen, decide_False by lia. apply talks_in; [done |]. cbn [ret arrived data]. rewrite decide_False by lia.
  rewrite pgets_bind.
  destruct (frame_write frame Hframe (t :: h :: tl)) as (post & Ew & _).
  { exists (h :: tl), t. split; [done |]. pose proof (wire_length a Ha) as Hl. rewrite Hw in Hl. cbn in Hl |- *.
    destruct a as [ip p|ip p|n p]; destruct Ha as (Hn & _); cbn in *; lia. }
  rewrite (plift_bind _ _ _ _ Ew).
  eapply (talks_then _ _ _ _ _ [] []); [rewrite <-Hw, (into_sockaddr6_wire p4 p6 a) by done; exact Hres |].
  intros ? ? t1 [= -> ->]. destruct (decide (res < 0)); [by apply talks_ret |].
  unfold upd_base. rewrite pmod_bind. by apply talks_ret.
Qed.

Lemma server_request_plays s a sa t h tl : address_ok a → resolves s a sa → wire a = t :: h :: tl →
  plays s (hev_socks5_server_read_request p4 p6 frame HEV_SOCKS5_RES_REP_SUCC zero_sockaddr s)
    [In [5; 1; 0; t; h]; In tl]
    (λ r tr, r.1 = (0, Some 1, HEV_SOCKS5_RES_REP_SUCC, sa) ∧ sv_fds r.2 = sv_fds s ∧ fd_of r.2 = fd_of s).
Proof.
  intros Ha (_ & _ & fam & Hres) Hw. eapply talks_mono; [by apply (server_request_reads s a t h tl 0 sa fam) |].
  intros r tr (H1 & H2 & H3). by rewrite decide_False in H3 by lia.
Qed.

Lemma socket_plays (s : Server) f : other_call f (Socket AF_INET6 SOCK_STREAM) →
  talks env f (hev_socks5_socket g SOCK_STREAM s) [] (becomes (ret (env (Socket AF_INET6 SOCK_STREAM))) s).
Proof.
  intros _. pose proof (co_socket _ Henv AF_INET6 SOCK_STREAM) as Hs. unfold hev_socks5_socket.
  apply talks_call; [done |]. cbv zeta. rewrite decide_False by lia.
  apply talks_call; [done |]. rewrite decide_False by (pose proof (co_option _ Henv (ret (env (Socket AF_INET6 SOCK_STREAM))) IPPROTO_IPV6 IPV6_V6ONLY 0); lia).
  apply talks_call; [done |].
  eapply (talks_then _ _ _ _ _ [] []).
  { instantiate (1 := becomes tt s). case_decide; [apply talks_call; [done |]; by apply talks_ret | by apply talks_ret]. }
  intros ? ? t1 [= -> ->]. rewrite decide_False by done. by apply talks_ret.
Qed.

Lemma server_connect_plays s sa :
  plays s (hev_socks5_server_connect g sa s) [] (λ r tr, r.1 = 0 ∧ fd_of r.2 = fd_of s ∧
    let sock := ret (env (Socket AF_INET6 SOCK_STREAM)) in
    sv_fds r.2 = (sock, (sv_fds s).2) ∧ (Connect sock sa, env (Connect sock sa)) ∈ tr).
Proof.
  unfold hev_socks5_server_connect. eapply (talks_then _ _ _ _ _ [] []); [by apply socket_plays |].
  intros ? ? t1 [= -> ->]. set (sock := ret (env (Socket _ _))).
  pose proof (co_socket _ Henv AF_INET6 SOCK_STREAM) as Hs. fold sock in Hs. rewrite decide_False by lia.
  rewrite (pbind_ret _ _ _ 0 s) by done. rewrite decide_False by lia. unfold upd_base. rewrite pmod_bind.
  apply talks_call; [done |]. rewrite decide_False by (pose proof (co_connect _ Henv sock sa); lia).
  rewrite !pmod_bind. apply talks_ret. cbn. rewrite !set_timeout_fd. split_and!; try done. set_solver.
Qed.

Lemma server_response_plays s sa : sa_ok sa →
  plays s (hev_socks5_server_write_response frame HEV_SOCKS5_RES_REP_SUCC sa s)
    [Out (5 :: 0 :: 0 :: wire (addr_of sa))] (becomes 0 s).
Proof.
  clear Henv.
  intros [Hl _]. unfold hev_socks5_server_write_response, get_base.
  destruct (from_sockaddr6_wire frame sa) as (rest & E); [rewrite Hframe; unfold SIZEOF_ADDR; lia | done |].
  rewrite (plift_bind _ _ _ _ E). rewrite (plift_bind _ _ _ (wire (addr_of sa))) by by apply (mem_read_at []).
  rewrite pgets_bind. change (u8 HEV_SOCKS5_RES_REP_SUCC) with 0. apply talks_out.
  cbn [ret sent_all length]. rewrite decide_False by lia. by apply talks_ret.
Qed.

(** The first five bytes of the request, its rest, and the reply. *)
Definition server_script (creds : option (list Z * list Z)) (t h : Z) (tl : list Z) (b : address) : list act :=
  ([In [5; 1]; In [method_for creds]; Out [5; method_for creds]] ++ login_script creds) ++
    [In [5; 1; 0; t; h]; In tl] ++ [Out (5 :: 0 :: 0 :: wire b)].

(** The server after a handshake that granted the request. *)
Definition connected_to (sa : sockaddr_in6) (r : Z * Server) (tr : list (ev * resp)) : Prop :=
  let sock := ret (env (Socket AF_INET6 SOCK_STREAM)) in
  r.1 = 0 ∧ (sv_fds r.2).1 = sock ∧ (Connect sock sa, env (Connect sock sa)) ∈ tr.

Lemma server_plays s m creds a sa t h tl :
  server_ok s m → admits s m creds → address_ok a → resolves s a sa → wire a = t :: h :: tl →
  plays s (hev_socks5_server_handshake p4 p6 g frame s) (server_script creds t h tl (addr_of sa)) (connected_to sa).
Proof.
  intros Hok Hadm Ha Hres Hw. unfold hev_socks5_server_handshake, upd_base, server_script. rewrite pmod_bind.
  set (s1 := set_base _ s).
  assert (sk_addr_family (sv_base s1) = sk_addr_family (sv_base s) ∧ fd_of s1 = fd_of s) as [Hfam Hfd].
  { subst s1. cbn. unfold hev_socks5_set_timeout. by case_decide. }
  rewrite <-Hfd. eapply talks_then; [apply (server_auth_plays s1 m creds); [exact Hok | by destruct creds as [[]|]] |].
  intros res s2 t1 (Hr & Hb & Hfds). cbn [fst snd] in *. subst res. rewrite decide_False by lia.
  replace (fd_of s1) with (fd_of s2) by by rewrite Hb.
  assert (resolves s2 a sa) as Hres2.
  { destruct Hres as (H1 & H2 & fam & H3). split; [done |]. split; [done |]. exists fam. by rewrite Hb, Hfd, Hfam. }
  eapply talks_then; [by eapply server_request_plays |]. intros [[[res cmd] rep] addr] s3 t2 ([= -> -> -> ->] & Hfds3 & Hfd3).
  rewrite decide_False, decide_True by (done || lia). rewrite <-Hfd3.
  change [Out (5 :: 0 :: 0 :: wire (addr_of sa))] with ([] ++ [Out (5 :: 0 :: 0 :: wire (addr_of sa))]).
  eapply (talks_then _ _ _ _ _ _ _ (λ r tr, r.1 = (0, sa) ∧ fd_of r.2 = fd_of s3 ∧
    let sock := ret (env (Socket AF_INET6 SOCK_STREAM)) in (sv_fds r.2).1 = sock ∧ (Connect sock sa, env (Connect sock sa)) ∈ tr)).
  { rewrite (plift_bind _ _ _ 1) by done. unfold server_command. rewrite decide_True by done.
    eapply (talks_then _ _ _ _ _ [] []); [apply server_connect_plays |]. intros res s4 t3 (Hr & Hf & Hfds4 & Hc).
    cbn [fst snd] in *. subst res. unfold upd_base. rewrite pmod_bind. apply talks_ret. cbn. rewrite Hfds4.
    split_and!; try done. set_solver. }
  intros [rep addr] s5 t3 ([= -> ->] & Hf5 & Hfds5 & Hc). cbn [snd] in *. rewrite <-Hf5.
  change [Out (5 :: 0 :: 0 :: wire (addr_of sa))] with ([Out (5 :: 0 :: 0 :: wire (addr_of sa))] ++ []).
  eapply talks_then; [apply server_response_plays, Hres |]. intros ? ? t4 [= -> ->].
  rewrite decide_False by (intros [?|Hn]; [lia | by apply Hn]). apply talks_ret. split_and!; [done | done | set_solver].
Qed.
End Server.

(** ** Together *)

Lemma left_in z1 z2 bs sl sr q1 q2 q : q2 = bs ++ q → dialogue z1 z2 sl sr q1 q → dialogue z1 z2 (In bs :: sl) sr q1 q2.
Proof. intros ->. apply dlg_left_in. Qed.
Lemma right_in z1 z2 bs sl sr q1 q2 q : q1 = bs ++ q → dialogue z1 z2 sl sr q q2 → dialogue z1 z2 sl (In bs :: sr) q1 q2.
Proof. intros ->. apply dlg_right_in. Qed.

(** One action, with the bytes of a receive at the front of its queue. *)
Ltac front := first [reflexivity | symmetry; apply app_nil_r | cbn [app]; rewrite <-!app_assoc; cbn [app]; reflexivity].
Ltac act := first [apply dlg_left_out; cbn [app] | eapply left_in; [front |]].
Ltac react := first [apply dlg_right_out; cbn [app] | eapply right_in; [front |]].

(** The request and its reply, with nothing else under way. *)
Lemma request_dialogue a t h tl b t' rest : wire a = t :: h :: tl → wire b = t' :: rest →
  dialogue [] [] [Out (5 :: 1 :: 0 :: wire a); In [5; 0; 0; t']; In rest]
    ([In [5; 1; 0; t; h]; In tl] ++ [Out (5 :: 0 :: 0 :: wire b)]) [] [].
Proof. intros -> ->. cbn [app]. act. react. react. react. act. act. constructor. Qed.

Lemma handshake_dialogue (pipeline : bool) c a t h tl b t' rest :
  match creds_of c with Some (u, p) => (length u ≤ 255)%nat ∧ (length p ≤ 255)%nat | None => True end →
  wire a = t :: h :: tl → wire b = t' :: rest →
  dialogue [] [] (client_script pipeline c a t' rest) (server_script (creds_of c) t h tl b) [] [].
Proof.
  intros Hlen Ha Hb. pose proof (request_dialogue a t h tl b t' rest Ha Hb) as Hreq.
  unfold client_script, server_script, creds_script, creds_bytes, method_of, methods_bytes. cbv zeta.
  destruct (creds_of c) as [[u p]|].
  - destruct Hlen. rewrite !u8_small, !Nat2Z.id, !firstn_all by lia.
    cbn [method_for login_script app]. destruct pipeline; act.
    + act. act. do 7 react. rewrite Ha. do 2 react. act. act. rewrite Hb. react. act. act. constructor.
    + do 3 react. act. act. do 4 react. act. exact Hreq.
  - cbn [method_for login_script app]. destruct pipeline; act.
    + act. do 3 react. rewrite Ha. do 2 react. act. rewrite Hb. react. act. act. constructor.
    + do 3 react. act. exact Hreq.
Qed.

(** Every interleaving of the two handshakes is finite, none is stuck before
    both have returned 0, and all end in one state, with the server connected
    to [sa]. *)
Definition agreed p4 p6 envc envs gc gs fc fs (pipeline : bool) (c : HevSocks5ClientTCP)
    {T} `{!SearchTree T} (s : HevSocks5Server T) (sa : sockaddr_in6) : Prop :=
  let start := mkNet (mkSide (hev_socks5_client_handshake gc fc pipeline c) [])
    (mkSide (hev_socks5_server_handshake p4 p6 gs fs s) []) [] [] in
  let step := net_step envc envs (sk_fd (base c)) (sk_fd (sv_base s)) in
  ∃ n c' tc s' ts, connected_to envs sa (0, s') ts ∧
    ∀ k w, nsteps step k start w → (k ≤ n)%nat ∧
      nsteps step (n - k) w (mkNet (mkSide (Ret (0, c')) tc) (mkSide (Ret (0, s')) ts) [] []).

Lemma agreement p4 p6 envc envs gc gs fc fs (pipeline : bool) (c : HevSocks5ClientTCP)
    {T} `{!SearchTree T} (s : HevSocks5Server T) m a sa :
  length fc = SIZEOF_ADDR → length fs = SIZEOF_ADDR → cooperates envs →
  address_ok a → tcp_ready a c → sk_type (base c) = HEV_SOCKS5_TYPE_TCP →
  server_ok s m → admits s m (creds_of c) → resolves envs p4 p6 s a sa →
  agreed p4 p6 envc envs gc gs fc fs pipeline c s sa.
Proof.
  intros Hfc Hfs Henv Ha Hc Hty Hok Hadm Hres.
  assert (∃ t h tl, wire a = t :: h :: tl) as (t & h & tl & Hw).
  { pose proof (wire_length a Ha) as Hl. destruct (wire a) as [|t [|h tl]]; eauto; cbn in Hl; destruct a; lia. }
  pose proof Hres as (Hsa & Hsb & _). destruct (addr_of_ok sa Hsa Hsb) as [Hb Hbn].
  assert (∃ t' rest, wire (addr_of sa) = t' :: rest) as (t' & rest & Hw') by (destruct (addr_of sa); cbn; eauto).
  destruct (client_plays envc gc fc Hfc pipeline c a (addr_of sa) t' rest Ha Hc Hty Hb Hbn Hw') as (tc & [r c'] & Hsc & Hr).
  destruct (server_plays envs Henv p4 p6 gs fs Hfs s m (creds_of c) a sa t h tl Hok Hadm Ha Hres Hw) as (ts & [r' s'] & Hss & Hcon).
  cbn [fst] in Hr. subst r. pose proof Hcon as [Hr' _]. cbn [fst] in Hr'. subst r'.
  assert (dialogue [] [] (client_script pipeline c a t' rest) (server_script (creds_of c) t h tl (addr_of sa)) [] []) as Hd.
  { apply handshake_dialogue; [|done..]. destruct (creds_of c) as [[u p]|]; [|done].
    destruct Hadm as (_ & ? & ? & _). lia. }
  destruct (dialogue_outcome envc envs _ _ _ _ _ _ _ _ _ _ _ _ Hsc Hss Hd) as (n & Hn).
  by exists n, c', tc, s', ts.
Qed.

(** The client and the server of this program agree when nothing fails.  Put a TCP client
    and a server on the two ends of a connection, the client standard or
    pipelined, with the name and password of one of the server's users, or
    without an authenticator, and any address the server can resolve; let
    the server's socket calls succeed and the other calls of both return what
    they like.  Then every interleaving of the two is finite, none is stuck
    before both handshakes have returned 0, and all end in the same state: in
    it the server's socket is the one it connected to the address the client
    asked for, and no byte is left on the connection. *)
Theorem handshakes_agree p4 p6 envc envs gc gs fc fs (pipeline : bool) (c : HevSocks5ClientTCP)
    {T} `{!SearchTree T} (s : HevSocks5Server T) m a sa :
  length fc = SIZEOF_ADDR → length fs = SIZEOF_ADDR → cooperates envs →
  address_ok a → tcp_ready a c → sk_type (base c) = HEV_SOCKS5_TYPE_TCP →
  server_ok s m → admits s m (creds_of c) → resolves envs p4 p6 s a sa →
  agreed p4 p6 envc envs gc gs fc fs pipeline c s sa.
Proof. intros. by eapply agreement. Qed.

(** IP addresses need no resolver. *)
Lemma resolves_ip env p4 p6 {T} `{!SearchTree T} (s : HevSocks5Server T) a :
  address_ok a → (∀ n p, a ≠ AName n p) →
  resolves env p4 p6 s a (mkSockaddr AF_INET6
    (match a with A4 _ p | A6 _ p | AName _ p => p end)
    (match a with A4 ip _ => v4_prefix ++ ip | A6 ip _ | AName ip _ => ip end)).
Proof.
  intros Ha Hn. destruct a as [ip p | ip p | n p]; [destruct Ha as (Hl & Hb & Hp).. | by edestruct Hn].
  - split; [split; cbn; [by rewrite Hl | done] |]. split; [cbn; repeat (apply Forall_cons; split; [unfold byte_ok; lia |]); done |].
    exists AF_INET. intros s'. by apply talks_ret.
  - split; [by split |]. split; [done |]. exists AF_INET6. intros s'. by apply talks_ret.
Qed.

(** A client of the demonstration server's user. *)
Definition login_client : HevSocks5ClientTCP :=
  mkClientTCP (mkClient (set_sk_fd 4 (hev_socks5_construct HEV_SOCKS5_TYPE_TCP)) (Some [117]) (Some [112]))
    (Some (wire (A4 [10; 0; 0; 1] 80))).
Definition demo_env (e : ev) : resp := mkResp (match e with Socket _ _ => 7 | _ => 0 end) [] 0 [].

Lemma handshakes_agree_witness :
  agreed (λ _, None) (λ _, None) demo_env demo_env misc_init misc_init (replicate SIZEOF_ADDR 0) (replicate SIZEOF_ADDR 0)
    true login_client demo_server (mkSockaddr AF_INET6 80 (v4_prefix ++ [10; 0; 0; 1])).
Proof.
  destruct demo_server_ok as (m & Hok & Hm).
  apply (handshakes_agree (λ _, None) (λ _, None) demo_env demo_env misc_init misc_init (replicate SIZEOF_ADDR 0)
    (replicate SIZEOF_ADDR 0) true login_client demo_server m (A4 [10; 0; 0; 1] 80)).
  - reflexivity.
  - reflexivity.
  - split; cbn; lia.
  - split; [done |]. split; [repeat constructor; cbn; lia | lia].
  - done.
  - done.
  - exact Hok.
  - split; [by vm_compute |]. cbn [length]. split; [lia |]. split; [lia |]. exists 16, demo_user. split; [exact Hm |]. by vm_compute.
  - apply (resolves_ip demo_env (λ _, None) (λ _, None) demo_server (A4 [10; 0; 0; 1] 80)); [|done].
    split; [done |]. split; [repeat constructor; cbn; lia | lia].
Defined.

(** ** From a flow to its destination *)

Lemma client_tcp_construct_spec {S} a rest (s : S) : address_ok a →
  wp True (hev_socks5_client_tcp_construct (wire a ++ rest) s) (λ r tr, r.1.2 < 0 ∨
    r.1 = (mkClientTCP (hev_socks5_client_construct HEV_SOCKS5_TYPE_TCP) (Some (wire a)), 0)).
Proof.
  intros Ha. unfold hev_socks5_client_tcp_construct. cbv zeta. rewrite (plift_bind _ _ _ _ (addr_len_wire a rest Ha)).
  apply wp_call. intros x _. case_decide; [by left |].
  rewrite (plift_bind _ _ _ (wire a)) by by apply (mem_read_at []). by right.
Qed.

(** The object a TCP session is constructed with. *)
Lemma session_tcp_construct_spec {T L} `{!SearchTree T} `{!LinkedList L} frame ip port (d : option (HevMappedDNS T L)) o :
  dns_state d o → ip_ok ip → length frame = SIZEOF_ADDR → names_ok o ip →
  wp True (hev_socks5_session_tcp_construct frame ip port d) (λ r tr, ∀ c, r.1 = Some c →
    ∃ a, stored_dest frame (mapped_name o ip) ip port = Some a ∧
    c = mkClientTCP (hev_socks5_client_construct HEV_SOCKS5_TYPE_TCP) (Some (wire a))).
Proof.
  intros Hd Hip Hf Hnm. pose proof (from_lwip_spec frame ip port d o Hd Hip Hf Hnm) as Hfrom.
  destruct (stored_dest frame _ ip port) as [a|] eqn:Ea.
  2: { unfold hev_socks5_session_tcp_construct, mbind, P_bind, of_M. by rewrite Hfrom. }
  destruct Hfrom as (rest & s' & E & _).
  unfold hev_socks5_session_tcp_construct. erewrite pbind_ret by (unfold of_M; rewrite E; reflexivity).
  cbv beta iota. rewrite decide_False by lia. eapply wp_then; [by eapply client_tcp_construct_spec, stored_dest_ok |].
  intros [c res] d' t1 Hc. cbn [fst snd] in Hc. unfold mret, P_ret. cbn [wp fst]. intros c' Hc'.
  destruct Hc as [Hc | [= -> ->]]; [by rewrite decide_True in Hc' by done |].
  rewrite decide_False in Hc' by lia. injection Hc' as <-. by exists a.
Qed.

(** The session's client on the connection [fd] to its server, with the
    configured credentials ([hev_socks5_client_set_auth]). *)
Definition on_connection (fd : Z) (user pass : option (list Z)) (c : HevSocks5ClientTCP) : HevSocks5ClientTCP :=
  set_tcp_client (mkClient (set_sk_fd fd (base c)) user pass) c.

(** Where a request for an address is to go: a name to what the server resolves
    it to, any other one to itself. *)
Definition destination envs p4 p6 {T} `{!SearchTree T} (s : HevSocks5Server T) (a : address) sa : Prop :=
  match a with
  | AName nm p => resolves envs p4 p6 s (AName nm p) sa
  | A4 ip p => sa = mkSockaddr AF_INET6 p (v4_prefix ++ ip)
  | A6 ip p => sa = mkSockaddr AF_INET6 p ip
  end.

(** C30. A flow reaches its destination.  When lwIP accepts a TCP connection
    to [ip] and [port], the session that [hev_socks5_session_tcp_construct]
    builds for it, connected to a server of this program with credentials
    that the server knows, makes that server connect to exactly that address
    and port, or, when the table maps the address, to what the server resolves
    the stored name to, which is the whole name when it has at most 255
    bytes: in both handshake modes and in every interleaving of client and
    server, all of which are finite. *)
Theorem flow_reaches_destination {T L} `{!SearchTree T} `{!LinkedList L} (d : option (HevMappedDNS T L)) o ip port
    p4 p6 envc envs gc gs fc fs fd user pass (pipeline : bool) {U} `{!SearchTree U} (s : HevSocks5Server U) m a sa tr c d' :
  dns_state d o → ip_ok ip → names_ok o ip →
  length fc = SIZEOF_ADDR → length fs = SIZEOF_ADDR → cooperates envs →
  runs (hev_socks5_session_tcp_construct fc ip port d) tr (Some c, d') →
  server_ok s m → admits s m (creds_of (on_connection fd user pass c)) →
  stored_dest fc (mapped_name o ip) ip port = Some a → destination envs p4 p6 s a sa →
  ((∀ nm, mapped_name o ip = Some nm → (length nm ≤ 255)%nat) → a = dest_address (mapped_name o ip) ip port) ∧
  agreed p4 p6 envc envs gc gs fc fs pipeline (on_connection fd user pass c) s sa.
Proof.
  intros Hd Hip Hnm Hfc Hfs Henv Hrun Hok Hadm Ha Hdest. split.
  { intros Hl. rewrite (stored_dest_short _ _ _ _ Hl) in Ha. by injection Ha as <-. }
  destruct (wp_runs _ _ _ _ _ (session_tcp_construct_spec fc ip port d o Hd Hip Hfc Hnm) Hrun c eq_refl) as (a' & Ea & ->).
  rewrite Ha in Ea. injection Ea as <-. pose proof (stored_dest_ok _ _ _ _ _ Hip Hnm Ha) as Haok.
  eapply (agreement _ _ _ _ _ _ _ _ _ _ s m a); try done.
  destruct a as [b p | b p | n p]; [..| done]; cbn [destination] in Hdest; subst sa;
    by apply (resolves_ip envs p4 p6 s _ Haok).
Qed.

Lemma flow_reaches_destination_witness :
  ∃ tr c d', runs (hev_socks5_session_tcp_construct (T := rbstore) (L := lstore) (replicate SIZEOF_ADDR 0) demo_ip 443 None) tr (Some c, d') ∧
  agreed (λ _, None) (λ _, None) demo_env demo_env misc_init misc_init (replicate SIZEOF_ADDR 0) (replicate SIZEOF_ADDR 0)
    false (on_connection 4 (Some [117]) (Some [112]) c) demo_server (mkSockaddr AF_INET6 (htons 443) (v4_prefix ++ [8; 8; 8; 0])).
Proof.
  destruct demo_server_ok as (m & Hok & Hm).
  destruct (play (hev_socks5_session_tcp_construct (T := rbstore) (L := lstore) (replicate SIZEOF_ADDR 0) demo_ip 443 None) [val 16])
    as [[[oc d'] tr]|] eqn:E; [|by vm_compute in E]. destruct oc as [c|]; [|by vm_compute in E].
  assert (runs (hev_socks5_session_tcp_construct (T := rbstore) (L := lstore) (replicate SIZEOF_ADDR 0) demo_ip 443 None) tr (Some c, d')) as Hr.
  { eapply play_runs; [exact E |]. vm_compute in E. injection E as <- <- <-. repeat (constructor; [repeat constructor; cbn; lia |]). constructor. }
  exists tr, c, d'. split; [exact Hr |].
  refine (proj2 (flow_reaches_destination (T := rbstore) (L := lstore) None None demo_ip 443 (λ _, None) (λ _, None) demo_env demo_env misc_init misc_init
    (replicate SIZEOF_ADDR 0) (replicate SIZEOF_ADDR 0) 4 (Some [117]) (Some [112]) false demo_server m (A4 [8; 8; 8; 0] (htons 443)) _ tr c d' I _ _ _ _ _ Hr Hok _ _ _)).
  - exact demo_ip_ok.
  - intros nm H. done.
  - reflexivity.
  - reflexivity.
  - split; cbn; lia.
  - split; [by vm_compute |]. cbn [length]. split; [lia |]. split; [lia |]. exists 16, demo_user. split; [exact Hm |]. by vm_compute.
  - reflexivity.
  - reflexivity.
Defined.
