(* ===== verification/Accord.v ===== *)
(** * Agreement in success and in refusal

    The handshakes of [Interop], without the assumption that they succeed:
    whatever credentials the client has, whatever address it asks for and
    whatever the calls of the server return, both ends come to the same
    verdict. *)

From stdpp Require Import relations.
From S2P Require Import Prelude Buffer IO Addr Interfaces DList RBTree RBMap Auth Socks5 Client ClientProps Server ServerProps Net Interop.

(** ** The client *)

Section Client.
Context (env : ev → resp) (g : misc) (frame : list Z).
Implicit Types c : HevSocks5ClientTCP.
Abbreviation plays c m sc := (talks env (sk_fd (base c)) m sc).

Definition ends (v : Z) {S} (r : Z * S) (tr : list (ev * resp)) : Prop := r.1 = v.

Lemma ok_then_fails fd c (m k : P HevSocks5ClientTCP Z) sc v c1 :
  v < 0 → talks env fd (m c) sc (becomes v c1) → talks env fd (ok_then m k c) sc (ends (-1)).
Proof.
  intros Hv Hm. unfold ok_then. rewrite <-(app_nil_r sc). eapply talks_then; [exact Hm |]. intros ? ? t1 [= -> ->].
  rewrite decide_True by done. by apply talks_ret.
Qed.

Lemma ok_then_goes fd c (m k : P HevSocks5ClientTCP Z) sc1 sc2 v c1 w :
  0 ≤ v → talks env fd (m c) sc1 (becomes v c1) → talks env fd (k c1) sc2 (ends w) →
  talks env fd (ok_then m k c) (sc1 ++ sc2) (ends w).
Proof. intros Hv Hm Hk. eapply ok_then_plays; [exact Hv | exact Hm | exact Hk | done]. Qed.

Lemma read_creds_refused c v : v ≠ 0 → plays c (hev_socks5_client_read_auth_creds c) [In [1; v]] (becomes (-1) c).
Proof.
  intros Hv. unfold hev_socks5_client_read_auth_creds, get_base. rewrite pgets_bind. apply talks_in; [done |].
  cbn [ret arrived length data]. rewrite decide_False by lia.
  rewrite (plift_bind _ _ _ 1), decide_False, (plift_bind _ _ _ v), decide_True by (done || by intros []). by apply talks_ret.
Qed.

Lemma response_refused c rep t : rep ≠ 0 → plays c (hev_socks5_client_read_response frame c) [In [5; rep; 0; t]] (becomes (-1) c).
Proof.
  intros Hv. unfold hev_socks5_client_read_response, get_base. rewrite pgets_bind. apply talks_in; [done |].
  cbn [ret arrived length data]. rewrite decide_False by lia.
  rewrite (plift_bind _ _ _ 5), decide_False, (plift_bind _ _ _ rep), decide_True by (done || by intros []). by apply talks_ret.
Qed.

(** No method that both take. *)
Lemma method_refused c creds : plays c ((hev_socks5_client_read_auth_method ≫= after_method creds) c) [In [5; 255]] (becomes (-1) c).
Proof.
  eapply (talks_then _ _ _ _ _ [_] []); [apply read_method_plays |]. intros ? ? t1 [= -> ->]. unfold after_method.
  rewrite decide_False, decide_False, decide_True by (done || lia). by apply talks_ret.
Qed.

(** Name and password not accepted. *)
Lemma login_refused c creds sc : plays c (creds c) sc (becomes (-1) c) →
  plays c ((hev_socks5_client_read_auth_method ≫= after_method creds) c) (In [5; 2] :: sc) (becomes (-1) c).
Proof.
  intros Hc. eapply (talks_then _ _ _ _ _ [_]); [apply read_method_plays |]. intros ? ? t1 [= -> ->]. unfold after_method.
  rewrite decide_False, decide_True by done. by eapply talks_mono; [exact Hc |].
Qed.

(** How the client goes on after the methods, in the two modes, when the server
    refuses: the method, the login or the request. *)
Inductive refusal := No_method | No_login | No_request (rep t : Z).

Definition refused_script (pipeline : bool) c (a : address) (r : refusal) : list act :=
  let req := Out (5 :: 1 :: 0 :: wire a) in
  let verdict := match creds_of c with None => [] | Some _ => [In [1; 0]] end in
  Out (methods_bytes c) ::
  if pipeline then
    creds_script c ++ [req] ++
      match r with
      | No_method => [In [5; 255]]
      | No_login => [In [5; 2]; In [1; 255]]
      | No_request rep t => In [5; method_of c] :: verdict ++ [In [5; rep; 0; t]]
      end
  else
    match r with
    | No_method => [In [5; 255]]
    | No_login => In [5; 2] :: creds_script c ++ [In [1; 255]]
    | No_request rep t => In [5; method_of c] :: creds_script c ++ verdict ++ [req; In [5; rep; 0; t]]
    end.

Lemma modes_refused (pipeline : bool) c a r : address_ok a → tcp_ready a c → sk_type (base c) = HEV_SOCKS5_TYPE_TCP →
  (∀ rep t, r = No_request rep t → rep ≠ 0) →
  plays c ((if pipeline then hev_socks5_client_handshake_pipeline frame
            else hev_socks5_client_handshake_standard frame) c) (refused_script pipeline c a r) (ends (-1)).
Proof.
  intros Ha Hc Ht Hr. unfold refused_script. cbv zeta.
  pose proof (write_request_plays env c a Ha Hc Ht) as Hreq.
  destruct pipeline; unfold hev_socks5_client_handshake_pipeline, hev_socks5_client_handshake_standard;
    (eapply (ok_then_goes _ _ _ _ [_]); [done | apply write_methods_plays |]).
  - eapply ok_then_goes; [done | apply write_creds_plays |]. eapply ok_then_goes; [done | exact Hreq |].
    destruct r as [| | rep t].
    + eapply ok_then_fails; [|apply (method_refused (asked c))]; done.
    + eapply ok_then_fails; [|apply (login_refused (asked c)), (read_creds_refused (asked c))]; done.
    + rewrite app_comm_cons. eapply ok_then_goes; [done | apply (after_method_plays _ (asked c)), read_creds_plays |].
      eapply ok_then_fails; [|apply (response_refused (asked c))]; [done | by eapply Hr].
  - destruct r as [| | rep t].
    + eapply ok_then_fails; [|apply method_refused]; done.
    + eapply ok_then_fails; [|apply login_refused]; [done |].
      unfold ok_then. eapply talks_then; [apply write_creds_plays |]. intros ? ? t1 [= -> ->]. rewrite decide_False by lia.
      eapply talks_mono; [by apply read_creds_refused | done].
    + replace (In [5; method_of c] :: _) with ((In [5; method_of c] :: match creds_of c with None => [] | Some _ =>
        creds_script c ++ [In [1; 0]] end) ++ [Out (5 :: 1 :: 0 :: wire a); In [5; rep; 0; t]])
        by (unfold creds_script; by destruct (creds_of c)).
      eapply ok_then_goes; [done | apply after_method_plays |].
      * eapply ok_then_plays; [done | apply write_creds_plays | apply read_creds_plays | done].
      * eapply (ok_then_goes _ _ _ _ [_]); [done | exact Hreq |].
        eapply ok_then_fails; [|apply (response_refused (asked c))]; [done | by eapply Hr].
Qed.

(** The timeout before and after does not matter. *)
Lemma client_refused (pipeline : bool) c a r : address_ok a → tcp_ready a c → sk_type (base c) = HEV_SOCKS5_TYPE_TCP →
  (∀ rep t, r = No_request rep t → rep ≠ 0) →
  plays c (hev_socks5_client_handshake g frame pipeline c) (refused_script pipeline c a r) (ends (-1)).
Proof.
  intros Ha Hc Ht Hr. unfold hev_socks5_client_handshake, upd_base. rewrite pmod_bind.
  set (c1 := set_base _ c). assert (kept c c1) as (Hfd & Hty & Hu & Hp) by apply kept_timeout.
  assert (refused_script pipeline c a r = refused_script pipeline c1 a r) as ->
    by (unfold refused_script, methods_bytes, creds_script, creds_bytes, method_of, creds_of; by rewrite Hu, Hp).
  replace (sk_fd (base c)) with (sk_fd (base c1)) by exact Hfd. rewrite <-(app_nil_r (refused_script _ _ _ _)).
  eapply talks_then; [apply (modes_refused pipeline c1 a r); try done; exact (eq_trans Hty Ht) |].
  intros v c2 t1 Hv. unfold ends in Hv. cbn in Hv. subst v. unfold get_base. rewrite pgets_bind. case_decide.
  - unfold upd_base. rewrite pmod_bind. by apply talks_ret.
  - by apply talks_ret.
Qed.
End Client.

(** ** The server *)

(** What a program does without the connection is determined. *)
Lemma script_nil_det {A} env fd (m : io A) t1 t2 a b : script env fd m [] t1 a → script env fd m [] t2 b → a = b.
Proof.
  remember [] as sc eqn:Esc. intros H1. revert t2. induction H1; intros t2 H2; try done; inversion H2; subst; eauto; done.
Qed.

Section Server.
Context (env : ev → resp).
Context {T : Type} `{!SearchTree T}.
Abbreviation Server := (HevSocks5Server T).
Implicit Types s : Server.
Abbreviation plays s m sc := (talks env (sk_fd (sv_base s)) m sc).

(** *** Authentication *)

(** The client offers the one method the server does not take. *)
Definition no_method s (creds : option (list Z * list Z)) : Prop :=
  match creds with None => sv_obj s = SAuth | Some _ => sv_obj s = SNone end.

Lemma write_method_plays s v : plays s (hev_socks5_server_write_auth_method v s) [Out [5; u8 v]] (becomes 0 s).
Proof. unfold hev_socks5_server_write_auth_method, get_base. rewrite pgets_bind. by apply talks_out, talks_ret. Qed.

Lemma server_no_method s creds : no_method s creds →
  plays s (hev_socks5_server_auth s) [In [5; 1]; In [method_for creds]; Out [5; 255]] (ends (-1)).
Proof.
  intros Hno. unfold hev_socks5_server_auth.
  eapply (talks_then _ _ _ _ _ [_; _] [_] (becomes (-1) s)).
  { unfold hev_socks5_server_read_auth_method, get_base. rewrite pgets_bind. apply talks_in; [done |].
    cbn [ret arrived length data]. rewrite decide_False by lia.
    rewrite (plift_bind _ _ _ 5), decide_False, (plift_bind _ _ _ 1) by (done || by intros []).
    apply talks_in; [done |]. cbn [ret arrived length data]. rewrite decide_False by lia. rewrite pgets_bind. cbv zeta.
    rewrite decide_False; [by apply talks_ret |]. unfold no_method in Hno.
    intros Hin%list_elem_of_singleton. destruct creds as [[u p]|]; rewrite Hno in Hin; done. }
  intros ? ? t1 [= -> ->]. eapply (talks_then _ _ _ _ _ [_] []); [apply write_method_plays |]. intros ? ? t2 [= -> ->].
  rewrite decide_False, decide_False, decide_False by (done || lia). by apply talks_ret.
Qed.

(** What the server reads of a name and a password. *)
Definition login_reads (u p : list Z) : list act :=
  In [1; Z.of_nat (length u)] ::
  match u with
  | [] => []
  | _ => In (u ++ [Z.of_nat (length p)]) :: match p with [] => [] | _ => [In p] end
  end.

Lemma read_user_refused s m u p : server_ok s m → sv_obj s = SAuth → (length u ≤ 255)%nat → (length p ≤ 255)%nat →
  ¬ admits s m (Some (u, p)) →
  plays s (hev_socks5_server_read_auth_user s) (login_reads u p) (becomes (-1) s).
Proof.
  intros Hok Ho Hu Hp Hno. pose proof Hok as [(l & Hr & Hpw) _].
  unfold hev_socks5_server_read_auth_user, get_base. rewrite pgets_bind. apply talks_in; [done |].
  cbn [ret arrived length data]. rewrite decide_False by lia.
  rewrite (plift_bind _ _ _ 1), decide_False, (plift_bind _ _ _ (Z.of_nat (length u))) by (done || by intros []).
  destruct u as [|u0 u']; [rewrite decide_True by done; by apply talks_ret |]. set (u := u0 :: u') in *.
  assert (0 < length u)%nat as Hu0 by (cbn; lia).
  rewrite decide_False by lia. apply talks_in; [rewrite length_app; cbn; lia |].
  cbn [ret arrived data]. rewrite decide_False by (rewrite length_app; cbn; lia).
  rewrite (plift_bind _ _ _ (Z.of_nat (length p))); last first.
  { rewrite <-(Z.add_0_r (Z.of_nat (length u))). by rewrite mem_get_app. }
  destruct p as [|q0 q']; [rewrite decide_True by done; by apply talks_ret |]. set (p := q0 :: q') in *.
  assert (0 < length p)%nat as Hp0 by (cbn; lia).
  rewrite decide_False by lia. apply talks_in; [done |]. cbn [ret arrived data]. rewrite decide_False by lia.
  unfold server_auth_get. erewrite pbind_ret; last first.
  { rewrite pgets_bind, Ho. unfold on_auth.
    rewrite (auth_get_spec _ l m _ _ Hr) by (rewrite length_app; cbn; lia).
    rewrite Nat2Z.id, take_app_length, set_store_id. reflexivity. }
  destruct (m !! u) as [q|] eqn:Hm; cbn [default from_option id]; [|rewrite decide_True by done; by apply talks_ret].
  destruct (proj1 (ar_map _ _ _ Hr u q) Hm) as [Hqin Hkey].
  destruct (ar_users _ _ _ Hr q Hqin) as (user & Huser & Hwf).
  destruct (tr_rep_ok _ _ (ar_tree _ _ _ Hr)) as (_ & Hokp & _). rewrite Forall_forall in Hokp.
  destruct (Hokp q Hqin) as [Hnn _]. rewrite decide_False by done.
  erewrite pbind_ret; last first.
  { unfold on_auth, hev_socks5_user_check. erewrite mbind_some by (apply user_get_some; exact Huser).
    unfold mlift. rewrite user_checker_spec by (by eauto || lia). rewrite Nat2Z.id, firstn_all.
    rewrite decide_False; [rewrite set_store_id; reflexivity |].
    intros Hpass. apply Hno. split_and!; try lia; [done |]. by exists q, user. }
  rewrite decide_True by lia. by apply talks_ret.
Qed.

Lemma server_login_refused s m u p : server_ok s m → sv_obj s = SAuth → (length u ≤ 255)%nat → (length p ≤ 255)%nat →
  ¬ admits s m (Some (u, p)) →
  plays s (hev_socks5_server_auth s) ([In [5; 1]; In [2]; Out [5; 2]] ++ login_reads u p ++ [Out [1; 255]]) (ends (-1)).
Proof.
  intros Hok Ho Hu Hp Hno. unfold hev_socks5_server_auth.
  eapply (talks_then _ _ _ _ _ [_; _] (_ :: _) (becomes 2 s)).
  { unfold hev_socks5_server_read_auth_method, get_base. rewrite pgets_bind. apply talks_in; [done |].
    cbn [ret arrived length data]. rewrite decide_False by lia.
    rewrite (plift_bind _ _ _ 5), decide_False, (plift_bind _ _ _ 1) by (done || by intros []).
    apply talks_in; [done |]. cbn [ret arrived length data]. rewrite decide_False by lia. rewrite pgets_bind, Ho. cbv zeta.
    rewrite decide_True by set_solver. by apply talks_ret. }
  intros ? ? t1 [= -> ->]. eapply (talks_then _ _ _ _ _ [_]); [apply (write_method_plays s 2) |]. intros ? ? t2 [= -> ->].
  rewrite decide_False, decide_False, decide_True by (done || lia).
  eapply talks_then; [by eapply read_user_refused |]. intros ? ? t3 [= -> ->].
  eapply (talks_then _ _ _ _ _ [_] [] (becomes 0 s)).
  { unfold hev_socks5_server_write_auth_user, get_base. rewrite pgets_bind. by apply talks_out, talks_ret. }
  intros ? ? t4 [= -> ->]. by apply talks_ret.
Qed.
(** *** The request *)

Context (p4 p6 : list Z → option (list Z)) (g : misc) (frame : list Z).

(** The results of [inet_pton] are bytes. *)
Definition pton_bytes (n : nat) (p : list Z → option (list Z)) : Prop :=
  ∀ name b, p name = Some b → length b = n ∧ bytes_ok b.

Context (Henv : ∀ e, valid e (env e)) (H4 : pton_bytes 4 p4) (H6 : pton_bytes 16 p6).

Definition unresolved s (a : address) : Prop :=
  (¬ ∃ sa, resolves env p4 p6 s a sa) ∧ ∃ sa fam, length (sin6_addr sa) = 16%nat ∧ ∀ s', talks env (sk_fd (sv_base s))
    (resolve p4 p6 (S := Server) a zero_sockaddr (sk_addr_family (sv_base s)) s') [] (becomes (-1, sa, fam) s').

Lemma v4_prefix_bytes b : bytes_ok b → bytes_ok (v4_prefix ++ b).
Proof. intros Hb. apply Forall_app. split; [|done]. repeat (apply Forall_cons; split; [unfold byte_ok; lia |]). by apply Forall_nil. Qed.

Lemma name_resolves s n p sa fam : 0 ≤ p < 65536 → length sa = 16%nat → bytes_ok sa →
  (∀ s', talks env (sk_fd (sv_base s)) (resolve p4 p6 (S := Server) (AName n p) zero_sockaddr (sk_addr_family (sv_base s)) s')
     [] (becomes (0, mkSockaddr AF_INET6 (htons (ntohs p)) sa, fam) s')) →
  ∃ sa, resolves env p4 p6 s (AName n p) sa.
Proof.
  intros Hp Hl Hb Ht. eexists. split; [|split; [|by exists fam]]; [|exact Hb]. split; [exact Hl | apply htons_range].
Qed.

Lemma not_resolved s a sa fam : length (sin6_addr sa) = 16%nat →
  (∀ s', talks env (sk_fd (sv_base s)) (resolve p4 p6 (S := Server) a zero_sockaddr (sk_addr_family (sv_base s)) s')
     [] (becomes (-1, sa, fam) s')) → unresolved s a.
Proof.
  intros Hl Ht. split; [|by exists sa, fam]. intros (sa' & _ & _ & fam' & Ht').
  destruct (Ht s) as (t1 & r1 & S1 & E1), (Ht' s) as (t2 & r2 & S2 & E2). unfold becomes in *. subst.
  by pose proof (script_nil_det _ _ _ _ _ _ _ S1 S2).
Qed.

Lemma resolve_outcome s a : address_ok a → (∃ sa, resolves env p4 p6 s a sa) ∨ unresolved s a.
Proof.
  intros Ha. destruct a as [ip p | ip p | n p].
  - left. eexists. by apply (resolves_ip env p4 p6 s (A4 ip p)).
  - left. eexists. by apply (resolves_ip env p4 p6 s (A6 ip p)).
  - destruct Ha as (_ & _ & Hp). pose proof (name_resolves s n p) as Hyes. pose proof (not_resolved s (AName n p)) as Hno.
    unfold resolve, hev_socks5_name_into_sockaddr6, hev_socks5_name_resolve_ipv4, hev_socks5_name_resolve_ipv6 in Hyes, Hno.
    cbn [sin6_family sin6_port sin6_addr] in Hyes, Hno. destruct (p4 n) as [b|] eqn:E4; cbn [decide] in Hyes, Hno.
    { destruct (H4 _ _ E4) as [Hl Hb]. left. eapply (Hyes (v4_prefix ++ b)); [done | by rewrite length_app, Hl | by apply v4_prefix_bytes |].
      intros s'. by apply talks_ret. }
    destruct (p6 n) as [b|] eqn:E6.
    { destruct (H6 _ _ E6) as [Hl Hb]. left. eapply (Hyes b); [done | exact Hl | done |]. intros s'. by apply talks_ret. }
    unfold hev_socks5_name_resolve_name in Hyes, Hno. set (e := GetAddrInfo n (sk_addr_family (sv_base s))) in *.
    pose proof (Henv e) as (Hb & Hv4 & Hv6).
    destruct (decide (ret (env e) ≠ 0)) as [Hr | Hr]; [right | destruct (decide (aux (env e) = AF_INET)) as [H | H];
      [left | destruct (decide (aux (env e) = AF_INET6)) as [H' | H']; [left | right]]].
    + eapply Hno; [|intros s'; apply talks_call; [done |]; rewrite decide_True by done; by apply talks_ret]. done.
    + eapply (Hyes (v4_prefix ++ IO.data (env e))); [done | by rewrite length_app, Hv4 | by apply v4_prefix_bytes |].
      intros s'. apply talks_call; [done |]. rewrite decide_False, decide_True by done. by apply talks_ret.
    + eapply (Hyes (IO.data (env e))); [done | by apply Hv6 | done |].
      intros s'. apply talks_call; [done |]. rewrite decide_False, decide_False, decide_True by done. by apply talks_ret.
    + eapply Hno; [|intros s'; apply talks_call; [done |]; rewrite decide_False, decide_False, decide_False by done; by apply talks_ret]. done.
Qed.

(** *** The connection to the destination *)

Lemma socket_outcome (s : Server) f :
  talks env f (hev_socks5_socket g SOCK_STREAM s) [] (λ r tr, r.2 = s ∧
    (r.1 = ret (env (Socket AF_INET6 SOCK_STREAM)) ∧ 0 ≤ r.1 ∨ r.1 = -1 ∧ ¬ cooperates env)).
Proof.
  unfold hev_socks5_socket. set (fd := ret (env (Socket AF_INET6 SOCK_STREAM))).
  apply talks_call; [done |]. cbv zeta. fold fd. destruct (decide (fd < 0)) as [Hfd | Hfd].
  { apply talks_ret. split; [done |]. right. split; [done |]. intros [H _ _]. specialize (H AF_INET6 SOCK_STREAM). fold fd in H. lia. }
  apply talks_call; [done |]. destruct (decide (ret (env (SetSockOpt fd IPPROTO_IPV6 IPV6_V6ONLY 0)) < 0)) as [Ho | Ho].
  { apply talks_call; [done |]. apply talks_ret. split; [done |]. right. split; [done |]. intros [_ H _].
    specialize (H fd IPPROTO_IPV6 IPV6_V6ONLY 0). lia. }
  apply talks_call; [done |].
  eapply (talks_then _ _ _ _ _ [] []).
  { instantiate (1 := becomes tt s). case_decide; [apply talks_call; [done |]; by apply talks_ret | by apply talks_ret]. }
  intros ? ? t1 [= -> ->]. rewrite decide_False by done. apply talks_ret. split; [done |]. left. cbn. lia.
Qed.

Lemma connect_outcome s sa :
  plays s (hev_socks5_server_connect g sa s) [] (λ r tr, sk_fd (sv_base r.2) = sk_fd (sv_base s) ∧
    (r.1 = 0 ∧ (let sock := ret (env (Socket AF_INET6 SOCK_STREAM)) in
       (sv_fds r.2).1 = sock ∧ (Connect sock sa, env (Connect sock sa)) ∈ tr) ∨
     r.1 = -1 ∧ ¬ cooperates env)).
Proof.
  unfold hev_socks5_server_connect. eapply (talks_then _ _ _ _ _ [] []); [apply socket_outcome |].
  intros fd s1 t1 [E Hfd]. cbn [fst snd] in *. subst s1. destruct Hfd as [[Efd Hfd] | [-> Hco]].
  2:{ rewrite decide_True by lia. apply talks_ret. split; [done |]. by right. }
  rewrite <-Efd. rewrite decide_False by lia. rewrite (pbind_ret _ _ _ 0 s) by done. rewrite decide_False by lia.
  unfold upd_base. rewrite pmod_bind. apply talks_call; [done |].
  destruct (decide (ret (env (Connect fd sa)) < 0)) as [Hc | Hc].
  - set (s1 := set_base _ s). eapply (talks_then _ _ _ _ _ [] [] (becomes tt s1)).
    { unfold del_close. do 2 (apply talks_call; [done |]). by apply talks_ret. }
    intros ? ? t2 [= -> ->]. apply talks_ret. split; [by cbn; rewrite set_timeout_fd |]. right. split; [done |]. intros [_ _ H]. specialize (H fd sa). lia.
  - rewrite !pmod_bind. apply talks_ret. cbn. rewrite !set_timeout_fd. split; [done |]. left. split_and!; [done | done | set_solver].
Qed.
(** *** The handshake *)

Lemma server_refused s sc : plays (set_sv_base (hev_socks5_set_timeout (hev_socks5_get_tcp_timeout g) (sv_base s)) s)
    (hev_socks5_server_auth (set_sv_base (hev_socks5_set_timeout (hev_socks5_get_tcp_timeout g) (sv_base s)) s)) sc (ends (-1)) →
  plays s (hev_socks5_server_handshake p4 p6 g frame s) sc (ends (-1)).
Proof.
  intros Hauth. unfold hev_socks5_server_handshake, upd_base. rewrite pmod_bind.
  cbn [sv_base set_sv_base] in Hauth. rewrite set_timeout_fd in Hauth. rewrite <-(app_nil_r sc).
  eapply talks_then; [exact Hauth |]. intros v s2 t1 Hv. unfold ends in Hv. cbn in Hv. subst v.
  rewrite decide_True by lia. by apply talks_ret.
Qed.

Context (Hframe : length frame = SIZEOF_ADDR).

Lemma write_response_plays s rep sa : byte_ok rep → length (sin6_addr sa) = 16%nat →
  plays s (hev_socks5_server_write_response frame rep sa s) [Out (5 :: rep :: 0 :: wire (addr_of sa))] (becomes 0 s).
Proof.
  intros Hrep Hl. unfold hev_socks5_server_write_response, get_base.
  destruct (from_sockaddr6_wire frame sa) as (rest & E); [rewrite Hframe; unfold SIZEOF_ADDR; lia | done |].
  rewrite (plift_bind _ _ _ _ E). rewrite (plift_bind _ _ _ (wire (addr_of sa))) by by apply (mem_read_at []).
  rewrite pgets_bind, u8_small by done. apply talks_out.
  cbn [ret sent_all length]. rewrite decide_False by lia. by apply talks_ret.
Qed.

(** The first part of a program can be looked at before the rest is. *)
Lemma talks_split {S A} fd (m : P S A) (x : S) sc1 (R : A * S → list (ev * resp) → Prop) : talks env fd (m x) sc1 R →
  ∃ t1 a x', R (a, x') t1 ∧ ∀ B (f : A → P S B) sc2 (Q : B * S → list (ev * resp) → Prop),
    talks env fd (f a x') sc2 (λ r t2, Q r (t1 ++ t2)) → talks env fd ((m ≫= f) x) (sc1 ++ sc2) Q.
Proof.
  intros (t1 & [a x'] & H1 & HR). exists t1, a, x'. split; [done |]. intros B f sc2 Q (t2 & r & H2 & HQ).
  exists (t1 ++ t2), r. split; [by eapply script_bind | done].
Qed.

Lemma command_outcome s sa :
  plays s ((cmd ← plift (Some 1); server_command g cmd HEV_SOCKS5_RES_REP_SUCC sa) s) [] (λ r tr, ∃ rep, byte_ok rep ∧
    r.1 = (rep, sa) ∧ sk_fd (sv_base r.2) = sk_fd (sv_base s) ∧
    (rep = 0 ∧ (let sock := ret (env (Socket AF_INET6 SOCK_STREAM)) in
       (sv_fds r.2).1 = sock ∧ (Connect sock sa, env (Connect sock sa)) ∈ tr) ∨
     rep ≠ 0 ∧ ¬ cooperates env)).
Proof.
  rewrite (plift_bind _ _ _ 1) by done. unfold server_command. rewrite decide_True by done.
  eapply (talks_then _ _ _ _ _ [] []); [apply connect_outcome |]. intros res s' t1 [Hfd Hc]. cbn [fst snd] in *.
  unfold upd_base. rewrite pmod_bind. apply talks_ret.
  exists (if decide (res < 0) then HEV_SOCKS5_RES_REP_HOST else HEV_SOCKS5_RES_REP_SUCC).
  split; [case_decide; by vm_compute |]. split; [done |]. split; [exact Hfd |]. rewrite app_nil_r.
  destruct Hc as [[-> Hc] | [-> Hc]]; [left | right]; by split.
Qed.

Definition served s (a : address) (rep : Z) (sa : sockaddr_in6) (r : Z * Server) (tr : list (ev * resp)) : Prop :=
  rep = 0 ∧ resolves env p4 p6 s a sa ∧ connected_to env sa r tr ∨
  rep ≠ 0 ∧ r.1 = -1 ∧ ¬ ((∃ sa, resolves env p4 p6 s a sa) ∧ cooperates env).

Definition reply_script (t h : Z) (tl : list Z) (rep : Z) (b : address) : list act :=
  [In [5; 1; 0; t; h]; In tl] ++ [Out (5 :: rep :: 0 :: wire b)].

(** What follows the authentication. *)
Definition after_auth : P Server Z :=
  '(res, cmd, rep, addr) ← hev_socks5_server_read_request p4 p6 frame HEV_SOCKS5_RES_REP_SUCC zero_sockaddr;
  if decide (res < 0) then mret (-1)
  else
    '(rep, addr) ←
      (if decide (rep = HEV_SOCKS5_RES_REP_SUCC) then
         cmd ← plift cmd; server_command g cmd rep addr
       else mret (rep, addr));
    res ← hev_socks5_server_write_response frame rep addr;
    if decide (res < 0 ∨ rep ≠ HEV_SOCKS5_RES_REP_SUCC) then mret (-1) else mret 0.

Lemma reply_end s s0 a rep sa t1 : byte_ok rep → length (sin6_addr sa) = 16%nat →
  (rep = 0 → resolves env p4 p6 s0 a sa ∧ ∀ t2, connected_to env sa (0, s) (t1 ++ t2)) →
  (rep ≠ 0 → ¬ ((∃ sa, resolves env p4 p6 s0 a sa) ∧ cooperates env)) →
  plays s ((res ← hev_socks5_server_write_response frame rep sa;
    if decide (res < 0 ∨ rep ≠ HEV_SOCKS5_RES_REP_SUCC) then mret (-1) else mret 0) s)
    [Out (5 :: rep :: 0 :: wire (addr_of sa))] (λ r t2, served s0 a rep sa r (t1 ++ t2)).
Proof.
  intros Hrep Hl Hyes Hno. eapply (talks_then _ _ _ _ _ [_] []); [by apply write_response_plays |].
  intros ? ? t2 [= -> ->]. destruct (decide (rep = 0)) as [-> | Hne].
  - destruct (Hyes eq_refl). rewrite decide_False by (intros [?|Hn]; [lia | by apply Hn]). apply talks_ret.
    left. by split_and!.
  - rewrite decide_True by by right. apply talks_ret. right. split_and!; [done | done | by apply Hno].
Qed.

Lemma after_auth_plays s a t h tl : address_ok a → wire a = t :: h :: tl →
  ∃ rep sa, byte_ok rep ∧ length (sin6_addr sa) = 16%nat ∧
    plays s (after_auth s) (reply_script t h tl rep (addr_of sa)) (served s a rep sa).
Proof.
  intros Ha Hw. unfold after_auth, reply_script. destruct (resolve_outcome s a Ha) as [(sa & Hres) | (Hno & sa & fam & Hl & Hres)].
  - pose proof Hres as ([Hl _] & _ & fam & Hr).
    destruct (talks_split _ _ _ _ _ (server_request_reads env p4 p6 frame Hframe s a t h tl 0 sa fam Ha Hw (Hr s)))
      as (t1 & r & s1 & (Hfds & Hfd & E) & Hk). cbn [fst snd] in *. rewrite decide_False in E by lia. subst r.
    destruct (talks_split _ _ _ _ _ (command_outcome s1 sa)) as (t2 & x & s2 & (rep & Hrep & E & Hfd2 & Hc) & Hk2).
    cbn [fst snd] in *. subst x. exists rep, sa. split; [exact Hrep |]. split; [exact Hl |].
    apply Hk. rewrite decide_False, decide_True by (done || lia). rewrite <-Hfd.
    apply (Hk2 _ _ [Out _]). rewrite <-Hfd2. eapply talks_mono; [apply (reply_end s2 s a rep sa (t1 ++ t2)); try done |].
    + intros ->. destruct Hc as [[_ (Hf & Hc)] | [? _]]; [|done]. split; [exact Hres |]. intros t3.
      split_and!; [done | exact Hf | set_solver].
    + intros Hne [_ Hco]. by destruct Hc as [[? _] | [_ ?]].
    + intros r t3. by rewrite app_assoc.
  - exists HEV_SOCKS5_RES_REP_ADDR, sa. split; [by vm_compute |]. split; [exact Hl |].
    eapply talks_then; [by apply (server_request_reads env p4 p6 frame Hframe s a t h tl (-1) sa fam) |].
    intros r s1 t1 (Hfds & Hfd & E). cbn [fst snd] in *. rewrite decide_True in E by lia. subst r.
    rewrite decide_False, decide_False by (done || lia). rewrite pret_bind, <-Hfd.
    apply reply_end; [by vm_compute | exact Hl | done |]. intros _ [Hy _]. by apply Hno.
Qed.
Lemma resolves_same s s' a sa : sk_fd (sv_base s') = sk_fd (sv_base s) → sk_addr_family (sv_base s') = sk_addr_family (sv_base s) →
  resolves env p4 p6 s' a sa ↔ resolves env p4 p6 s a sa.
Proof. unfold resolves. by intros -> ->. Qed.

Lemma server_goes s m creds a t h tl : server_ok s m → admits s m creds → address_ok a → wire a = t :: h :: tl →
  ∃ rep sa, byte_ok rep ∧ length (sin6_addr sa) = 16%nat ∧
    plays s (hev_socks5_server_handshake p4 p6 g frame s)
      (([In [5; 1]; In [method_for creds]; Out [5; method_for creds]] ++ login_script creds) ++ reply_script t h tl rep (addr_of sa))
      (served s a rep sa).
Proof.
  intros Hok Hadm Ha Hw. unfold hev_socks5_server_handshake, upd_base. fold after_auth.
  set (s1 := set_base (hev_socks5_set_timeout (hev_socks5_get_tcp_timeout g) (base s)) s).
  assert (sk_addr_family (sv_base s1) = sk_addr_family (sv_base s) ∧ sk_fd (sv_base s1) = sk_fd (sv_base s)) as [Hfam Hfd].
  { subst s1. cbn. unfold hev_socks5_set_timeout. by case_decide. }
  destruct (talks_split _ _ _ _ _ (server_auth_plays env p4 p6 frame s1 m creds Hok ltac:(by destruct creds as [[]|])))
    as (t1 & res & s2 & (Hr & Hb & _) & Hk). cbn [fst snd] in *. subst res.
  destruct (after_auth_plays s2 a t h tl Ha Hw) as (rep & sa & Hrep & Hl & Hp). exists rep, sa. split; [done |]. split; [done |].
  rewrite pmod_bind. change (set_base _ s) with s1. rewrite <-Hfd. apply Hk. rewrite decide_False by lia. rewrite <-Hb.
  eapply talks_mono; [exact Hp |]. intros r t2 Hs.
  assert (∀ sa, resolves env p4 p6 s2 a sa ↔ resolves env p4 p6 s a sa) as Hsame by (intros; apply resolves_same; by rewrite Hb).
  destruct Hs as [(E & Hres & Hf & Hs2 & Hin) | (E & Hr2 & Hno)]; [left | right].
  - split_and!; [done | by apply Hsame | split_and!; [done | done | set_solver]].
  - split_and!; [done | done |]. intros [[sa' Hy] Hco]. apply Hno. split; [|done]. exists sa'. by apply Hsame.
Qed.
End Server.

(** ** Together *)

Lemma no_method_dialogue (pipeline : bool) c a :
  ∃ z, dialogue z [] (refused_script pipeline c a No_method) [In [5; 1]; In [method_for (creds_of c)]; Out [5; 255]] [] [].
Proof.
  unfold refused_script, creds_script, methods_bytes, method_for. cbv zeta.
  destruct (creds_of c) as [[u p]|], pipeline; cbn [app]; eexists; act; try (act; try act); do 3 react; act; apply dlg_end.
Qed.

Lemma no_login_dialogue (pipeline : bool) c a u p : creds_of c = Some (u, p) → (length u ≤ 255)%nat → (length p ≤ 255)%nat →
  ∃ z, dialogue z [] (refused_script pipeline c a No_login) ([In [5; 1]; In [2]; Out [5; 2]] ++ login_reads u p ++ [Out [1; 255]]) [] [].
Proof.
  intros Hc Hu Hp. unfold refused_script, creds_script, creds_bytes, methods_bytes. cbv zeta. rewrite Hc.
  rewrite !u8_small, !Nat2Z.id, !firstn_all by lia.
  destruct u as [|u0 u], p as [|q0 q], pipeline; unfold login_reads; cbn [app length]; eexists.
  all: repeat first [act | react]. all: apply dlg_end.
Qed.

Lemma no_request_dialogue (pipeline : bool) c a t h tl b rep t' rest :
  match creds_of c with Some (u, p) => (length u ≤ 255)%nat ∧ (length p ≤ 255)%nat | None => True end →
  wire a = t :: h :: tl → wire b = t' :: rest →
  dialogue [] rest (refused_script pipeline c a (No_request rep t'))
    (([In [5; 1]; In [method_for (creds_of c)]; Out [5; method_for (creds_of c)]] ++ login_script (creds_of c)) ++
     reply_script t h tl rep b) [] [].
Proof.
  intros Hlen Ha Hb. unfold refused_script, creds_script, creds_bytes, method_of, methods_bytes, reply_script. cbv zeta.
  rewrite Ha, Hb. destruct (creds_of c) as [[u p]|].
  - destruct Hlen. rewrite !u8_small, !Nat2Z.id, !firstn_all by lia. cbn [method_for login_script app].
    destruct pipeline; repeat first [act | react]; apply dlg_end.
  - cbn [method_for login_script app]. destruct pipeline; repeat first [act | react]; apply dlg_end.
Qed.

Definition creds_fit c : Prop :=
  match creds_of c with Some (u, p) => (length u ≤ 255)%nat ∧ (length p ≤ 255)%nat | None => True end.

(** Both ends of a connection come to the verdict [v] in every interleaving:
    each is finite, none is stuck before both handshakes have returned [v],
    all end in one state, and [Q] holds of the server in it. *)
Definition verdict p4 p6 envc envs gc gs fc fs (pipeline : bool) (c : HevSocks5ClientTCP)
    {T} `{!SearchTree T} (s : HevSocks5Server T) (v : Z) (Q : HevSocks5Server T → list (ev * resp) → Prop) : Prop :=
  let start := mkNet (mkSide (hev_socks5_client_handshake gc fc pipeline c) [])
    (mkSide (hev_socks5_server_handshake p4 p6 gs fs s) []) [] [] in
  let step := net_step envc envs (sk_fd (base c)) (sk_fd (sv_base s)) in
  ∃ n c' tc s' ts z1 z2, Q s' ts ∧
    ∀ k w, nsteps step k start w → (k ≤ n)%nat ∧
      nsteps step (n - k) w (mkNet (mkSide (Ret (v, c')) tc) (mkSide (Ret (v, s')) ts) z1 z2).

Lemma verdict_intro p4 p6 envc envs gc gs fc fs (pipeline : bool) (c : HevSocks5ClientTCP)
    {T} `{!SearchTree T} (s : HevSocks5Server T) v sc ss z1 z2 (Q : HevSocks5Server T * Z → list (ev * resp) → Prop) :
  talks envc (sk_fd (base c)) (hev_socks5_client_handshake gc fc pipeline c) sc (ends v) →
  talks envs (sk_fd (sv_base s)) (hev_socks5_server_handshake p4 p6 gs fs s) ss (λ r tr, r.1 = v ∧ Q (r.2, r.1) tr) →
  dialogue z1 z2 sc ss [] [] →
  verdict p4 p6 envc envs gc gs fc fs pipeline c s v (λ s' ts, Q (s', v) ts).
Proof.
  intros (tc & [r c'] & Hsc & Hr) (ts & [r' s'] & Hss & Hr' & HQ) Hd. unfold ends in Hr. cbn [fst snd] in *. subst r r'.
  destruct (dialogue_outcome envc envs _ _ _ _ _ _ _ _ _ _ _ _ Hsc Hss Hd) as (n & Hn).
  by exists n, c', tc, s', ts, z1, z2.
Qed.

Lemma admits_dec {T} `{!SearchTree T} (s : HevSocks5Server T) m creds : admits s m creds ∨ ¬ admits s m creds.
Proof.
  destruct creds as [[u p]|]; cbn; [|destruct (sv_obj s); by (left + right)].
  destruct (sv_obj s); [right; by intros [? _].. |].
  destruct (decide (0 < length u ≤ 255)%nat); [|right; tauto]. destruct (decide (0 < length p ≤ 255)%nat); [|right; tauto].
  destruct (m !! u) as [q|] eqn:Em; [|right; naive_solver].
  destruct (users (sv_store s) !! q) as [user|] eqn:Eu; [|right; naive_solver].
  destruct (decide (upass user = p)); [left | right; naive_solver]. split_and!; try tauto. by exists q, user.
Qed.

(** The server's verdict on credentials it does not admit. *)
Lemma refused_verdict p4 p6 envc envs gc gs fc fs (pipeline : bool) (c : HevSocks5ClientTCP)
    {T} `{!SearchTree T} (s : HevSocks5Server T) m a :
  address_ok a → tcp_ready a c → sk_type (base c) = HEV_SOCKS5_TYPE_TCP → creds_fit c →
  server_ok s m → may_login s → ¬ admits s m (creds_of c) →
  verdict p4 p6 envc envs gc gs fc fs pipeline c s (-1) (λ _ _, True).
Proof.
  intros Ha Hc Hty Hfit Hok Hlog Hno. unfold creds_fit in Hfit.
  assert (no_method s (creds_of c) ∨ ∃ u p, creds_of c = Some (u, p) ∧ sv_obj s = SAuth) as [Hn | (u & p & Ec & Ho)].
  { unfold may_login in Hlog. destruct (creds_of c) as [[u p]|]; cbn in *; destruct (sv_obj s); try done;
      [by left | right; by exists u, p | by left]. }
  - destruct (no_method_dialogue pipeline c a) as [z Hd].
    eapply (verdict_intro _ _ _ _ _ _ _ _ _ _ _ _ _ _ _ _ (λ _ _, True)); [by apply (client_refused _ _ _ pipeline c a No_method) | | exact Hd].
    eapply talks_mono; [apply server_refused, server_no_method; exact Hn | by split].
  - rewrite Ec in *. destruct Hfit as [Hu Hp]. destruct (no_login_dialogue pipeline c a u p Ec Hu Hp) as [z Hd].
    eapply (verdict_intro _ _ _ _ _ _ _ _ _ _ _ _ _ _ _ _ (λ _ _, True)); [by apply (client_refused _ _ _ pipeline c a No_login) | | exact Hd].
    eapply talks_mono; [apply server_refused, server_login_refused with (m := m); [exact Hok | exact Ho | done | done | exact Hno] | by split].
Qed.

(** C15. A client and a server of this program agree, in success and in
    refusal.  Put a TCP client and a server on the two ends of a connection,
    the client standard or pipelined, with any credentials that fit the
    protocol or none, and any address; the server with any users or without an
    authenticator; let the other calls of both return whatever their
    documentation allows.  Then every interleaving of the two is finite, none
    is stuck before both handshakes have returned, and all end in the same
    state with the same result on both ends: 0, and then the server has
    admitted the credentials and its socket is the one it connected to what
    the address resolves to; or -1, and then the server does not admit the
    credentials, or the address does not resolve, or a socket call failed. *)
Theorem handshakes_accord p4 p6 envc envs gc gs fc fs (pipeline : bool) (c : HevSocks5ClientTCP)
    {T} `{!SearchTree T} (s : HevSocks5Server T) m a :
  length fc = SIZEOF_ADDR → length fs = SIZEOF_ADDR → (∀ e, valid e (envs e)) → pton_bytes 4 p4 → pton_bytes 16 p6 →
  address_ok a → tcp_ready a c → sk_type (base c) = HEV_SOCKS5_TYPE_TCP → creds_fit c →
  server_ok s m → may_login s →
  (admits s m (creds_of c) ∧ ∃ sa, resolves envs p4 p6 s a sa ∧
     verdict p4 p6 envc envs gc gs fc fs pipeline c s 0 (λ s' ts, connected_to envs sa (0, s') ts)) ∨
  (¬ (admits s m (creds_of c) ∧ (∃ sa, resolves envs p4 p6 s a sa) ∧ cooperates envs) ∧
     verdict p4 p6 envc envs gc gs fc fs pipeline c s (-1) (λ _ _, True)).
Proof.
  intros Hfc Hfs Henv H4 H6 Ha Hc Hty Hfit Hok Hlog.
  assert (∃ t h tl, wire a = t :: h :: tl) as (t & h & tl & Hw).
  { pose proof (wire_length a Ha) as Hl. destruct (wire a) as [|t [|h tl]]; eauto; cbn in Hl; destruct a; lia. }
  destruct (admits_dec s m (creds_of c)) as [Hadm | Hno]; [|right; split; [tauto | by eapply refused_verdict]].
  destruct (server_goes envs p4 p6 gs fs Henv H4 H6 Hfs s m (creds_of c) a t h tl Hok Hadm Ha Hw)
    as (rep & sa & Hrep & Hl & ts & r & Hss & Hserved).
  assert (∃ t' rest, wire (addr_of sa) = t' :: rest) as (t' & rest & Hw') by (destruct (addr_of sa); cbn; eauto).
  destruct Hserved as [(-> & Hres & Hcon) | (Hne & Hr & Hno)]; [left | right].
  - split; [done |]. exists sa. split; [done |]. pose proof Hres as (Hsa & Hsb & _). destruct (addr_of_ok sa Hsa Hsb) as [Hb Hbn].
    eapply (verdict_intro _ _ _ _ _ _ _ _ _ _ _ _ _ _ _ _ (λ r ts, connected_to envs sa (0, r.1) ts)).
    + eapply talks_mono; [by apply (client_plays envc gc fc Hfc pipeline c a (addr_of sa) t' rest) | done].
    + exists ts, r. split; [exact Hss |]. destruct r as [r s']. pose proof Hcon as [Hr _]. cbn in Hr. subst r. by split.
    + by apply handshake_dialogue.
  - split; [tauto |].
    eapply (verdict_intro _ _ _ _ _ _ _ _ _ _ _ _ _ _ _ _ (λ _ _, True)).
    + apply (client_refused _ _ _ pipeline c a (No_request rep t')); [done.. |]. by intros ? ? [= <- <-].
    + exists ts, r. split; [exact Hss | by split].
    + by eapply no_request_dialogue.
Qed.

(** The demonstration server admits the one client and refuses the other,
    whose password is wrong. *)
Definition accord_env (e : ev) : resp :=
  mkResp (match e with Socket _ _ => 7 | _ => 0 end) (match e with GetSockName _ => replicate 16 0 | _ => [] end) 0 [].
Definition stranger : HevSocks5ClientTCP :=
  mkClientTCP (mkClient (set_sk_fd 4 (hev_socks5_construct HEV_SOCKS5_TYPE_TCP)) (Some [117]) (Some [120]))
    (Some (wire (A4 [10; 0; 0; 1] 80))).

Lemma accord_env_valid e : valid e (accord_env e).
Proof.
  split; [destruct e; cbn; repeat (apply Forall_cons; split; [unfold byte_ok; lia |]); apply Forall_nil; done |].
  destruct e; cbn; try done; try lia; try (right; done); try (by split); split_and!; try done; try lia; constructor.
Qed.

Lemma handshakes_accord_witness :
  let run c v := verdict (λ _, None) (λ _, None) accord_env accord_env misc_init misc_init (replicate SIZEOF_ADDR 0)
    (replicate SIZEOF_ADDR 0) true c demo_server v in
  run login_client 0 (λ s' ts, connected_to accord_env (mkSockaddr AF_INET6 80 (v4_prefix ++ [10; 0; 0; 1])) (0, s') ts) ∧
  run stranger (-1) (λ _ _, True).
Proof.
  destruct demo_server_ok as (m & Hok & Hm).
  assert (address_ok (A4 [10; 0; 0; 1] 80)) as Ha by (split; [done |]; split; [repeat constructor; cbn; lia | lia]).
  assert (∀ sa, resolves accord_env (λ _, None) (λ _, None) demo_server (A4 [10; 0; 0; 1] 80) sa →
    sa = mkSockaddr AF_INET6 80 (v4_prefix ++ [10; 0; 0; 1])) as Hres.
  { intros sa (_ & _ & fam & Hr). destruct (Hr demo_server) as (t1 & r1 & S1 & E1). unfold becomes in E1. subst.
    inversion S1; by subst. }
  assert (∃ sa, resolves accord_env (λ _, None) (λ _, None) demo_server (A4 [10; 0; 0; 1] 80) sa) as Hex
    by (eexists; by apply (resolves_ip accord_env (λ _, None) (λ _, None) demo_server (A4 [10; 0; 0; 1] 80))).
  assert (cooperates accord_env) as Hco by (split; cbn; lia).
  split.
  - destruct (handshakes_accord (λ _, None) (λ _, None) accord_env accord_env misc_init misc_init (replicate SIZEOF_ADDR 0)
      (replicate SIZEOF_ADDR 0) true login_client demo_server m (A4 [10; 0; 0; 1] 80)) as [(_ & sa & Hr & Hv) | [Hn _]];
      try done; [apply accord_env_valid | cbn; lia | by rewrite <-(Hres sa Hr) |].
    exfalso. apply Hn. split; [|done]. split; [by vm_compute |]. cbn [length]. split; [lia |]. split; [lia |].
    exists 16, demo_user. split; [exact Hm |]. by vm_compute.
  - destruct (handshakes_accord (λ _, None) (λ _, None) accord_env accord_env misc_init misc_init (replicate SIZEOF_ADDR 0)
      (replicate SIZEOF_ADDR 0) true stranger demo_server m (A4 [10; 0; 0; 1] 80)) as [[Hadm _] | [_ Hv]];
      try done; [apply accord_env_valid | cbn; lia |].
    exfalso. destruct Hadm as (_ & _ & _ & q & user & Hq & Hu & Hp). rewrite Hm in Hq. injection Hq as <-.
    assert (users (sv_store demo_server) !! 16 = Some demo_user) as Hd by by vm_compute. rewrite Hd in Hu. injection Hu as <-.
    by vm_compute in Hp.
Defined.
