(* ===== verification/Datagrams.v ===== *)
(** * Datagrams from end to end

    A UDP session on one end of a connection and the relay of a server of this
    program on the other: what lwIP delivers to the session is what the server
    sends to its destination.  [fwd_rest] is the part of [hev_socks5_udp_fwd_f]
    behind its receive ([fwd_f_rest]), named for the proofs. *)

From S2P Require Import Prelude Buffer IO Addr Interfaces DList Socks5 Client ClientProps Udp UdpProps Auth Server ServerProps Config RBTree RBMap MappedDNS DNSHandle DNSProps Utils UtilsProps SessionUdp SessionUdpProps Session SessionUdpRun SessionUdpQueue.

Section Relay.
Context (p4 p6 : list Z → option (list Z)) (Hp4 : pton_ok 4 p4) (Hp6 : pton_ok 16 p6).
Context {C : Type} `{!Socks5UDP C}.

(** A message of [sendmmsg] that carries a datagram to its destination: the
    address, or the one of its name. *)
Definition sent_to (tr : list (ev * resp)) (d : dgram) (t : option sockaddr_in6 * list Z) : Prop :=
  t.2 = d.2 ∧ ∃ sa, t.1 = Some sa ∧ sin6_family sa = AF_INET6 ∧
    match d.1 with
    | A4 ip p => sin6_port sa = p ∧ sin6_addr sa = v4_prefix ++ ip
    | A6 ip p => sin6_port sa = p ∧ sin6_addr sa = ip
    | AName n p => sin6_port sa = p ∧ denotes p4 p6 n tr (sin6_addr sa)
    end.

(** A datagram that the relay refuses, and its batch with it: one without a
    payload, or with a name that has no address. *)
Definition refusable (tr : list (ev * resp)) (d : dgram) : Prop :=
  d.2 = [] ∨ ∃ n p, d.1 = AName n p ∧ unresolved n tr.

Lemma sent_to_mono tr tr' d t : tr ⊆ tr' → sent_to tr d t → sent_to tr' d t.
Proof.
  intros Hsub [H1 (sa & H2 & H3 & H4)]. split; [done |]. exists sa. split_and!; [done.. |].
  destruct d.1; [done.. |]. destruct H4 as [Hp Hd]. split; [exact Hp | by eapply denotes_mono].
Qed.

Lemma refusable_mono tr tr' ds : tr ⊆ tr' → Exists (refusable tr) ds → Exists (refusable tr') ds.
Proof.
  intros Hsub H. eapply Exists_impl; [exact H |]. intros d [? | (n & p & E & Hu)]; [by left | right].
  exists n, p. split; [done | by eapply unresolved_mono].
Qed.

(** A message whose address and payload lie in its buffers. *)
Definition msg_safe (m : HevSocks5UDPMsg) : Prop :=
  (∃ blk, m_addr m = APtr blk ∧ (SIZEOF_ADDR ≤ length blk)%nat ∧ bytes_ok blk) ∧
  0 ≤ m_len m ≤ Z.of_nat (length (m_buf m)).

Lemma decoded_safe bs m : decoded_from bs m → msg_safe m.
Proof.
  intros (b0 & b1 & h & a0 & a1 & body & rest & _ & _ & -> & Hl & Hb & Ha & Hd & Hsum). unfold UDP_BUF_SIZE in *. split.
  - eexists. split; [done |]. split; [unfold SIZEOF_ADDR; lia | done].
  - cbn [m_len m_buf]. rewrite length_drop. lia.
Qed.

Lemma resolve_spec a sa fam (c : C) : address_ok a → length (sin6_addr sa) = 16%nat →
  wp False (resolve p4 p6 a sa fam c) (λ r tr, r.2 = c ∧ r.1.1.1 ≤ 0 ∧
    (r.1.1.1 = 0 → sin6_family r.1.1.2 = AF_INET6 ∧
       match a with
       | A4 ip p => sin6_port r.1.1.2 = p ∧ sin6_addr r.1.1.2 = v4_prefix ++ ip
       | A6 ip p => sin6_port r.1.1.2 = p ∧ sin6_addr r.1.1.2 = ip
       | AName n p => sin6_port r.1.1.2 = p ∧ denotes p4 p6 n tr (sin6_addr r.1.1.2)
       end) ∧
    (r.1.1.1 < 0 → ∃ n p, a = AName n p ∧ unresolved n tr)).
Proof.
  intros Ha Hl. destruct a as [ip p | ip p | n p]; cbn [resolve].
  1,2: unfold mret, P_ret; cbn [wp fst snd sin6_family sin6_port sin6_addr]; split_and!; try done; lia.
  eapply wp_mono; [by apply name_into_sockaddr6_spec |].
  intros [[[res sa'] fam'] c'] tr (-> & _ & Hres0 & Hport & Hf & _ & Hok & Hun). cbn [fst snd]. split; [done |]. split; [lia |].
  split; [|intros H; exists n, p; split; [done | apply Hun; lia]]. intros Hres. split; [done |]. destruct Ha as (_ & _ & Hp). split.
  - rewrite Hport. by apply (htons_involutive p).
  - by apply (Hok Hres).
Qed.

(** *** The destinations *)

Lemma targets_safe n ms (c : C) : (n ≤ length ms)%nat → Forall msg_safe (take n ms) →
  wp False (fwd_targets p4 p6 n ms c) (λ r tr, r.2 = c ∧
    ∀ ts, r.1 = Some ts → length ts = n ∧ Forall (λ t, ∃ sa, t.1 = Some sa) ts).
Proof.
  revert ms. induction n as [|n IH]; intros ms Hn Hms; cbn [fwd_targets].
  { unfold mret, P_ret. cbn [wp fst snd]. split; [done |]. by intros ts [= <-]. }
  destruct ms as [|m ms]; [cbn in Hn; lia |]. cbn in Hn, Hms. apply Forall_cons in Hms as [[(blk & Ea & Hl & Hb) Hlen] Hms].
  case_decide; [done |]. rewrite Ea. unfold get_base. rewrite pgets_bind.
  eapply wp_then; [by apply into_sockaddr6_any |].
  intros [[res sa] fam] c' t1 (-> & _ & _ & _). case_decide; [done |].
  eapply wp_lift; [by apply mem_read_prefix |]. eapply wp_then; [apply (IH ms); [lia | done] |].
  intros o c' t2 [Ec Ho]. cbn [fst snd] in *. subst c'. unfold mret, P_ret. cbn [wp fst snd]. split; [done |].
  intros ts E. destruct o as [ts'|]; [|done]. cbn in E. injection E as <-. destruct (Ho ts' eq_refl) as [Hl' Hf].
  split; [cbn; lia |]. constructor; [by exists sa | done].
Qed.

(** Messages that carry datagrams go to their destinations. *)
Lemma targets_sent ds ms n (c : C) : n = length ds → Forall (λ d, address_ok d.1) ds → Forall2 carries ds (take n ms) →
  wp False (fwd_targets p4 p6 n ms c) (λ r tr, r.2 = c ∧
    match r.1 with Some ts => Forall2 (sent_to tr) ds ts | None => Exists (refusable tr) ds end).
Proof.
  revert ds ms. induction n as [|n IH]; intros ds ms Hn Hds Hms; cbn [fwd_targets].
  { destruct ds; [|done]. unfold mret, P_ret. cbn [wp fst snd]. split; [done | constructor]. }
  destruct ds as [|d ds]; [done |]. destruct ms as [|m ms]; [inversion Hms |]. cbn [take] in Hms.
  apply Forall2_cons in Hms as [(r1 & r2 & E1 & E2 & E3) Hms]. apply Forall_cons in Hds as [Hd Hds].
  destruct (decide (m_len m = 0)) as [Hz | Hz].
  { unfold mret, P_ret. cbn [wp fst snd]. split; [done |]. left. left. apply nil_length_inv. lia. }
  rewrite E1. unfold get_base. rewrite pgets_bind.
  eapply wp_then; [rewrite into_sockaddr6_wire by done; by apply resolve_spec |].
  intros [[res sa] fam] c' t1 (Ec & Hle & Hok & Hun). cbn [fst snd] in *. subst c'.
  destruct (decide (res < 0)) as [Hneg | Hneg].
  { unfold mret, P_ret. cbn [wp fst snd]. rewrite app_nil_r. split; [done |]. left. right. by apply Hun. }
  eapply wp_lift; [rewrite E2; apply (mem_read_at [] d.2 r2); [reflexivity | exact E3] |].
  eapply wp_then; [apply (IH ds ms); [by injection Hn | done | done] |].
  intros o c' t2 [Ec Hts]. cbn [fst snd] in *. subst c'. unfold mret, P_ret. cbn [wp fst snd]. rewrite app_nil_r.
  split; [done |]. destruct o as [ts|]; cbn [fmap option_fmap option_map].
  - constructor; [|eapply Forall2_impl; [exact Hts |]; intros ? ?; apply sent_to_mono; set_solver].
    apply (sent_to_mono t1); [set_solver |]. split; [done |]. exists sa. split; [done |]. apply Hok. lia.
  - right. eapply refusable_mono, Hts. set_solver.
Qed.
End Relay.

(** ** The server's forward direction *)

(** The datagrams handed to [sendmmsg], with their descriptor. *)
Definition mmsgs (tr : list (ev * resp)) : list (Z * list (option sockaddr_in6 * list Z)) :=
  tr ≫= λ c, match c.1 with SendMMsg fd ms => [(fd, ms)] | _ => [] end.

Definition no_mmsg (e : ev) : bool := match e with SendMMsg _ _ => false | _ => true end.
Definition no_recv (e : ev) : bool := match e with Recv _ _ => false | _ => true end.

Lemma mmsgs_app t1 t2 : mmsgs (t1 ++ t2) = mmsgs t1 ++ mmsgs t2.
Proof. apply bind_app. Qed.

Lemma mmsgs_none tr : Forall (λ c, no_mmsg c.1) tr → mmsgs tr = [].
Proof. induction 1 as [|[e x] tr He _ IH]; [done |]. unfold mmsgs in *. cbn. rewrite IH. by destruct e. Qed.

Lemma rcvd_none fd tr : Forall (λ c, no_recv c.1) tr → rcvd fd tr = [].
Proof. induction 1 as [|[e x] tr He _ IH]; [done |]. unfold rcvd in *. cbn. rewrite IH. by destruct e. Qed.

(** The datagrams of [batch] were sent on [fd], each to its destination, or one
    of them made the relay refuse them all. *)
Definition forwarded p4 p6 (fd : Z) (batch : list dgram) (tr : list (ev * resp)) : Prop :=
  (∃ ms, mmsgs tr = [(fd, ms)] ∧ Forall2 (sent_to p4 p6 tr) batch ms) ∨
  mmsgs tr = [] ∧ Exists (refusable tr) batch.

Section Server.
Context (p4 p6 : list Z → option (list Z)) (Hp4 : pton_ok 4 p4) (Hp6 : pton_ok 16 p6).
Context {T : Type} `{!SearchTree T}.
Abbreviation Server := (HevSocks5Server T).

(** What [hev_socks5_udp_fwd_f] does with the messages it received. *)
Definition fwd_rest (fd : Z) (bind : bool) (res : Z) (svec : list HevSocks5UDPMsg) : P Server (Z * bool) :=
  if decide (0 < res) then
    ds ← fwd_targets p4 p6 (Z.to_nat res) svec;
    match ds with
    | None => mret (-1, bind)
    | Some ds =>
        rc ← (if bind then mret 0 else '(sa, _) ← plift (ds !! 0%nat); sa ← plift sa; binder fd sa);
        if decide (rc < 0) then mret (-1, bind)
        else r ← call (SendMMsg fd ds); res ← fwd_result (ret r); mret (res, true)
    end
  else res ← fwd_result res; mret (res, bind).

Lemma fwd_f_rest fd bufs bind (s : Server) :
  hev_socks5_udp_fwd_f p4 p6 fd bufs bind s = (hev_socks5_udp_recvmmsg (init_msgs bufs) ≫= λ '(res, svec), fwd_rest fd bind res svec) s.
Proof. done. Qed.

Lemma targets_only (ok : ev → bool) n svec : (∀ nm f, ok (GetAddrInfo nm f)) → only (S := Server) ok (fwd_targets p4 p6 n svec).
Proof.
  intros Hok. revert svec. induction n as [|n IH]; intros svec; cbn [fwd_targets]; [apply only_ret |].
  unfold get_base, hev_socks5_addr_into_sockaddr6, hev_socks5_name_into_sockaddr6, hev_socks5_name_resolve_name. only_calls; auto using only_call.
Qed.

Lemma result_safe res (s : Server) : wp False (fwd_result res s) (λ r tr, r.2 = s ∧ mmsgs tr = [] ∧ ∀ fd, rcvd fd tr = []).
Proof. unfold fwd_result, errno. repeat case_decide; repeat split. Qed.

Lemma rest_no_recv fd bind res svec : only no_recv (fwd_rest fd bind res svec).
Proof.
  assert (only (S := Server) no_recv (fwd_targets p4 p6 (Z.to_nat res) svec)) by by apply targets_only.
  unfold fwd_rest, fwd_result, errno. cbn [binder udp_sk server_udp server_object]. unfold hev_socks5_bind. only_calls.
Qed.

Lemma rest_safe fd bind res svec s : (0 < res → (Z.to_nat res ≤ length svec)%nat ∧ Forall msg_safe (take (Z.to_nat res) svec)) →
  wp False (fwd_rest fd bind res svec s) (λ _ _, True).
Proof.
  intros Hms. unfold fwd_rest. destruct (decide (0 < res)) as [Hres | Hres].
  2:{ eapply wp_then; [apply result_safe |]. done. }
  destruct (Hms Hres) as [Hl Hf]. eapply wp_then; [by apply targets_safe |]. intros ds s' t1 [_ Hts]. cbn [fst snd] in *.
  destruct ds as [ts|]; [|done]. destruct (Hts ts eq_refl) as [Hlen Hsa].
  destruct ts as [|[sa b] ts]; [cbn in Hlen; lia |]. apply Forall_cons in Hsa as [(a & Ea) _]. cbn in Ea. subst sa.
  assert (∀ t, wp False ((if decide (0 < 0) then mret (-1, bind) else r ← call (SendMMsg fd ((Some a, b) :: ts)); res ← fwd_result (ret r); mret (res, true)) s')
    (λ (r : Z * bool * Server) (t2 : list (ev * resp)), (λ _ _, True) r (t1 ++ t ++ t2))) as Hend.
  { intros t x _. cbn [io_bind]. eapply wp_then; [apply result_safe |]. done. }
  destruct bind; [apply (Hend []) | apply (Hend [])].
Qed.

Lemma rest_sends fd bind svec batch s : batch ≠ [] → Forall (λ d, address_ok d.1) batch →
  Forall2 carries batch (take (length batch) svec) →
  wp False (fwd_rest fd bind (Z.of_nat (length batch)) svec s) (λ _ tr, forwarded p4 p6 fd batch tr).
Proof.
  intros Hne Hds Hms. unfold fwd_rest. rewrite decide_True by (destruct batch; [done | cbn; lia]). rewrite Nat2Z.id.
  eapply wp_then.
  { apply wp_and; [by apply (targets_sent p4 p6 Hp4 Hp6 batch) | by apply (targets_only no_mmsg)]. }
  intros ds s' t1 [[_ Hts] Hq%mmsgs_none]. cbn [fst snd] in *. destruct ds as [ts|].
  2:{ unfold mret, P_ret. cbn [wp]. rewrite app_nil_r. by right. }
  assert (∀ x t2, mmsgs t2 = [] → forwarded p4 p6 fd batch (t1 ++ (SendMMsg fd ts, x) :: t2)) as Hend.
  { intros x t2 Ht2. left. exists ts. split; [rewrite mmsgs_app, Hq; unfold mmsgs in *; cbn; by rewrite Ht2 |].
    eapply Forall2_impl; [exact Hts |]. intros ? ?. apply sent_to_mono. set_solver. }
  destruct batch as [|d batch]; [done |]. destruct ts as [|[sa b] ts]; [inversion Hts |].
  pose proof Hts as ((_ & a & Ea & _) & _)%Forall2_cons. cbn in Ea. subst sa.
  destruct bind; cbn [lookup list_lookup plift]; intros x _; cbn [io_bind]; (eapply wp_then; [apply result_safe |]);
    intros r s2 t2 (_ & Ht2 & _); unfold mret, P_ret; cbn [wp]; rewrite app_nil_r; by apply Hend.
Qed.

Lemma server_recvmmsg_calls ms : only no_mmsg (hev_socks5_udp_recvmmsg (C := Server) ms).
Proof.
  assert (only no_mmsg (hev_socks5_udp_get_fd (C := Server))) as Hfd.
  { unfold hev_socks5_udp_get_fd. cbn. unfold hev_socks5_server_get_fd, get_base. only_calls. }
  assert (∀ fd rlen ms, only no_mmsg (recvmmsg_tcp_loop (C := Server) fd rlen ms)) as Hloop.
  { intros fd rlen ms'. revert rlen. induction ms' as [|m ms' IH]; intros rlen; cbn [recvmmsg_tcp_loop]; [apply only_ret |].
    unfold recv_head, recv_body. only_calls; auto. }
  unfold hev_socks5_udp_recvmmsg, hev_socks5_udp_recvmmsg_tcp, hev_socks5_udp_recvmmsg_udp, get_base, upd_base.
  only_calls; auto.
Qed.

(** What a receive of the server leaves, and what it decodes of [batch]. *)
Lemma server_recv_spec ms batch (s : Server) : sk_type (sv_base s) = HEV_SOCKS5_TYPE_UDP_IN_TCP →
  Forall receptive ms → Forall dgram_ok batch → (length batch ≤ length ms)%nat →
  wp False (hev_socks5_udp_recvmmsg ms s) (λ r tr, recv_post (sk_fd (sv_base s)) 0 (length ms) r.1 tr ∧ mmsgs tr = [] ∧
    (rcvd (sk_fd (sv_base s)) tr = concat (frame_of <$> batch) → batch ≠ [] →
     r.1.1 = Z.of_nat (length batch) ∧ Forall2 carries batch (take (length batch) r.1.2))).
Proof.
  intros Ht Hms Hds Hl. set (fd := sk_fd _).
  assert (wp False (hev_socks5_udp_recvmmsg ms s) (λ r tr,
    recv_post fd 0 (length ms) r.1 tr ∧ (rcvd fd tr = concat (frame_of <$> batch) → batch ≠ [] →
     r.1.1 = Z.of_nat (length batch) ∧ Forall2 carries batch (take (length batch) r.1.2)))) as H.
  { unfold hev_socks5_udp_recvmmsg, get_base. rewrite pgets_bind. cbn [base udp_sk server_udp server_object].
    rewrite decide_True by done. unfold hev_socks5_udp_recvmmsg_tcp, hev_socks5_udp_get_fd. cbn [get_fd server_udp].
    assert (hev_socks5_server_get_fd s = Ret (fd, s)) as Hfd.
    { unfold hev_socks5_server_get_fd, get_base. rewrite pgets_bind. cbn [base server_object]. by rewrite decide_True. }
    rewrite (pbind_ret _ _ _ _ _ Hfd). eapply wp_mono.
    - apply wp_and; [by apply recv_loop_spec | by apply (recv_loop_decodes True fd batch ms 0 s Hds)].
    - intros [[res ms'] s'] tr [(_ & _ & Hp) Hd]. split; [done |]. intros E Hne. destruct (Hd E) as (Hr & _ & Hc).
      split; [|done]. apply Hr. left. destruct batch; [done | cbn; lia]. }
  eapply wp_mono; [apply (wp_and _ _ _ _ H (server_recvmmsg_calls ms s)) |].
  intros r tr [[H1 H2] H3%mmsgs_none]. by split_and!.
Qed.

(** The frames of [batch] arrive: its datagrams go to their destinations. *)
Lemma server_forwards fd_b bufs bind batch (s : Server) : sk_type (sv_base s) = HEV_SOCKS5_TYPE_UDP_IN_TCP →
  Forall receptive (init_msgs bufs) → Forall dgram_ok batch → batch ≠ [] → (length batch ≤ length bufs)%nat →
  wpu cut (hev_socks5_udp_fwd_f p4 p6 fd_b bufs bind s) (λ _ tr,
    rcvd (sk_fd (sv_base s)) tr = concat (frame_of <$> batch) → forwarded p4 p6 fd_b batch tr).
Proof.
  intros Ht Hms Hds Hne Hl. rewrite fwd_f_rest. eapply wpu_then.
  { apply wpu_of_wp, (server_recv_spec _ batch); try done. unfold init_msgs. by rewrite length_fmap. }
  intros [res svec] s' t1 (Hp & Hq & Hd). cbn [fst snd] in *.
  assert (∀ t2, mmsgs (t1 ++ t2) = mmsgs t2) as Hq2 by (intros t2; by rewrite mmsgs_app, Hq).
  destruct (decide (rcvd (sk_fd (sv_base s)) t1 = concat (frame_of <$> batch))) as [E | E].
  { destruct (Hd E Hne) as [-> Hc]. apply wpu_of_wp. eapply wp_mono; [apply (rest_sends _ _ _ batch); try done |].
    - eapply Forall_impl; [exact Hds |]. by intros d (? & _).
    - intros r t2 Hf _. unfold forwarded. rewrite Hq2. destruct Hf as [(ts & Hm & Hs) | [Hm Hs]].
      + left. exists ts. split; [done |]. eapply Forall2_impl; [exact Hs |]. intros ? ?. apply sent_to_mono. set_solver.
      + right. split; [done |]. eapply refusable_mono, Hs. set_solver. }
  assert (∀ t2, Forall (λ c, no_recv c.1) t2 → rcvd (sk_fd (sv_base s)) (t1 ++ t2) = concat (frame_of <$> batch) → False) as Hno.
  { intros t2 H2. rewrite rcvd_app, (rcvd_none _ t2 H2), app_nil_r. done. }
  destruct Hp as (fs & dn & rest & tail & Hr2 & _ & Hfs & _ & Hc). cbn [fst snd] in *. subst svec.
  destruct Hc as [Hc | [Hc | [_ Hc]]].
  3:{ apply wpu_of_True; [intros tr; rewrite cut_app; by left |].
      eapply wp_mono; [apply rest_no_recv |]. intros r t2 H2 E2. destruct (Hno t2 H2 E2). }
  all: apply wpu_of_wp; eapply wp_mono; [apply wp_and; [apply rest_safe | apply rest_no_recv] |];
    [intros Hres | intros r t2 [_ H2] E2; destruct (Hno t2 H2 E2)].
  { lia. }
  rewrite Hc, Z.add_0_l, Nat2Z.id, take_app_length, length_app. split; [lia |].
  clear -Hfs. induction Hfs; constructor; [by eapply decoded_safe | done].
Qed.
End Server.

(** ** The claims *)

Lemma packet_frame d : dgram_ok d → packet true d = frame_of d.
Proof.
  unfold dgram_ok, UDP_BUF_SIZE. intros (_ & Hw & Hl). unfold packet, frame_of.
  rewrite htons_be, u8_small by lia. done.
Qed.

(** C20. Datagrams from end to end, over UDP in TCP, against a server of this
    program. Of what lwIP delivered to a session and the session accepted, the
    datagrams [sent], with the payload of their first pbuf, are what its
    stream holds, in order; the rest waits in the session. When a receive of
    the server takes the frames of some consecutive ones of them, no more than
    it has buffers, however the network cut them, and their addresses have at
    most 252 bytes and fit the 1500 bytes of a buffer with the payload, then
    it calls [sendmmsg] once with exactly those datagrams, each to its own
    destination, or the address of its name; or it refuses the batch, and then
    one of them has no payload or a name the resolver had no address for.
    Both sides go wrong only behind a receive that the other one cut short,
    and the session also when a mapped name of 256 bytes or more makes a
    callback read past its frame. *)
Theorem datagrams_reach_destination {T L} `{!SearchTree T} `{!LinkedList L} srv (lwip locked : nat → list (udp_callback T L)) ip0 bufs fuel b p4 p6 :
  (∀ n, Forall callback_ok (lwip n)) → (∀ n, Forall callback_ok (locked n)) →
  length (ip_bytes ip0) = 16%nat → Forall (λ buf, length buf = 1500%nat ∧ bytes_ok buf) bufs →
  sk_type (base b) = HEV_SOCKS5_TYPE_UDP_IN_TCP → pton_ok 4 p4 → pton_ok 16 p6 →
  wpu (λ tr, overrun lwip locked ∨ cut tr) (hev_socks5_session_udp_splice srv lwip locked ip0 bufs fuel
      (udp_task_of (set_ubase b (hev_socks5_session_udp_construct srv)))) (λ r tr,
    ∃ sent waiting, Forall2 delivers (accepted r.2) (sent ++ waiting) ∧ (length waiting ≤ 513)%nat ∧
      on_stream (relay_after (sk_fd (base b)) (mkRelayed [] []) tr) = concat (packet true <$> sent) ∧
      ∀ before batch behind (s : HevSocks5Server T) fd_b sbufs bind,
        sent = before ++ batch ++ behind → batch ≠ [] → Forall dgram_ok batch →
        sk_type (sv_base s) = HEV_SOCKS5_TYPE_UDP_IN_TCP → (length batch ≤ length sbufs)%nat →
        Forall (λ buf, length buf = 1500%nat ∧ bytes_ok buf) sbufs →
        wpu cut (hev_socks5_udp_fwd_f p4 p6 fd_b sbufs bind s) (λ _ tr',
          rcvd (sk_fd (sv_base s)) tr' = concat (packet true <$> batch) → forwarded p4 p6 fd_b batch tr')).
Proof.
  intros Hlwip Hlocked Hip Hbufs Ht Hp4 Hp6. eapply wpu_mono; [by apply splice_queues | done |].
  intros r tr (_ & xs & fs & old & pend & wait & Hq & Hl & Hk & Hacc & Hfs & Hrl).
  destruct pend; [|done]. cbn [app] in *. rewrite app_nil_r, Ht in Hrl. exists old, wait.
  pose proof (Forall2_length _ _ _ (qu_at _ _ _ Hq)). pose proof (Forall2_length _ _ _ Hfs).
  assert (relay_fd b = sk_fd (base b)) as Hfd by (unfold relay_fd; by rewrite decide_True).
  split_and!; [done | lia | by rewrite <-Hfd, Hrl |].
  intros before batch behind s fd_b sbufs bind _ Hne Hds Hs Hlen Hsb.
  eapply wpu_mono; [apply (server_forwards p4 p6 Hp4 Hp6 fd_b sbufs bind batch s); try done | done |].
  - apply Forall_fmap. eapply Forall_impl; [exact Hsb |]. intros buf [? ?]. by apply receptive_zero.
  - intros r' tr' H' E. apply H'. rewrite E. f_equal. apply list_fmap_ext. intros i d Hd. apply packet_frame.
    by eapply Forall_lookup_1 in Hds.
Qed.

(** A server that forwards on the socket 9 what arrives on 7. *)
Definition demo_forwarder : HevSocks5Server rbstore :=
  mkServer (mkSocks5 7 (-1) HEV_SOCKS5_TYPE_UDP_IN_TCP 0 AF_INET) (9, -1) SAuth demo_auth 1.

Definition demo_batch : list dgram := [(A4 [8; 8; 8; 0] (htons 443), [1; 2; 3])].

Lemma demo_batch_ok : Forall dgram_ok demo_batch.
Proof.
  constructor; [|constructor]. split; [|cbn; unfold UDP_BUF_SIZE; lia]. split; [done |].
  split; [repeat constructor; unfold byte_ok; lia | vm_compute; split; congruence].
Qed.

Lemma datagrams_reach_destination_witness :
  ∃ tr s' tr' r s2,
    runs (hev_socks5_session_udp_splice (srv config_zero) demo_udp_lwip (λ _, []) (mkIp 0 (replicate 16 0)) [replicate 1500 0] 1
      (udp_task_of (set_ubase demo_relay (hev_socks5_session_udp_construct (srv config_zero))))) tr (None, s') ∧
    runs (hev_socks5_udp_fwd_f (λ _, None) (λ _, None) 9 [replicate 1500 0] false demo_forwarder) tr' (r, s2) ∧
    rcvd 7 tr' = on_stream (relay_after 3 (mkRelayed [] []) tr) ∧
    Forall2 delivers (accepted s') demo_batch ∧ forwarded (λ _, None) (λ _, None) 9 demo_batch tr'.
Proof.
  set (prog := hev_socks5_session_udp_splice _ _ _ _ _ _ _).
  destruct (play prog [val 0; val 13; val 0; val 0]) as [[[o s'] tr]|] eqn:E; [|by vm_compute in E].
  assert (o = None) as -> by (vm_compute in E; congruence).
  assert (runs prog tr (None, s')) as Hr.
  { eapply play_runs; [exact E |]. vm_compute in E. injection E as <- <-.
    repeat (constructor; [repeat constructor; cbn; lia |]). constructor. }
  set (prog2 := hev_socks5_udp_fwd_f _ _ _ _ _ _).
  destruct (play prog2 [mkResp 2 [0; 3] 0 []; mkResp 3 [10; 1; 8] 0 []; mkResp 8 [8; 8; 0; 1; 187; 1; 2; 3] 0 []; val 1])
    as [[[r s2] tr']|] eqn:E2; [|by vm_compute in E2].
  assert (runs prog2 tr' (r, s2)) as Hr2.
  { eapply play_runs; [exact E2 |]. vm_compute in E2. injection E2 as <- <- <-.
    repeat (constructor; [split; [repeat constructor; cbn; lia | cbn; lia] |]). constructor. }
  assert (on_stream (relay_after 3 (mkRelayed [] []) tr) = concat (packet true <$> demo_batch)) as Es
    by (vm_compute in E; injection E as <- <-; vm_compute; reflexivity).
  assert (rcvd 7 tr' = concat (packet true <$> demo_batch)) as Er
    by (vm_compute in E2; injection E2 as <- <- <-; vm_compute; reflexivity).
  assert (accepted s' = [demo_dgram]) as Ea by (vm_compute in E; injection E as <- <-; reflexivity).
  exists tr, s', tr', r, s2. split; [exact Hr |]. split; [exact Hr2 |]. split; [by rewrite Er, Es |].
  pose proof (wp_runs True prog _ tr _ (wp_of_wpu _ _ _ (datagrams_reach_destination (srv config_zero) demo_udp_lwip (λ _, []) (mkIp 0 (replicate 16 0))
    [replicate 1500 0] 1 demo_relay (λ _, None) (λ _, None)
    ltac:(intros [|n]; cbn; [constructor; [exact demo_dgram_ok | constructor] | constructor])
    ltac:(intros n; constructor) eq_refl
    ltac:(constructor; [split; [by rewrite length_replicate | apply Forall_replicate; unfold byte_ok; lia] | constructor])
    eq_refl ltac:(done) ltac:(done))) Hr) as (sent & waiting & Hd & _ & Hs & H).
  cbn [fst snd] in Hd. change (sk_fd (base demo_relay)) with 3 in Hs. rewrite Es in Hs. rewrite Ea in Hd |- *.
  destruct sent as [|d sent]; [by vm_compute in Hs |]. cbn [app] in Hd.
  pose proof Hd as ((o & a & Ho & Ea' & ->) & Hnil)%Forall2_cons. destruct o as [[? ?]|]; [destruct Ho |].
  injection Ea' as <-.
  assert (sent = []) as -> by (inversion Hnil as [E3|]; by destruct sent).
  split; [constructor; [exists None; eexists; split; [exact I | split; reflexivity] | constructor] |].
  specialize (H [] demo_batch [] demo_forwarder 9 [replicate 1500 0] false eq_refl).
  exact (wp_runs True prog2 _ tr' _ (wp_of_wpu _ _ _ (H ltac:(done)
    demo_batch_ok eq_refl (le_n 1)
    ltac:(constructor; [split; [by rewrite length_replicate | apply Forall_replicate; unfold byte_ok; lia] | constructor]))) Hr2 Er).
Defined.
